(* ===== verification/_CoqProject ===== *)
-Q . S2P
Prelude.v
GoStrings.v
GoText.v
Timestamp.v
Base64.v
GoNet.v
GoURL.v
Json.v
JsonProps.v
GoFlag.v
Classify.v
Sha256.v
Policy.v
Approval.v
Broker.v
Proto.v
Session.v
Store.v
Registry.v
Config.v
Certs.v
CertsProps.v
Detect.v
Scenario.v
RegistryProps.v
RegistrySpec.v
Migrate.v
Admin.v
AdminProps.v
Lifecycle.v
Edit.v
Gate.v
Startup.v
Cli.v
Serve.v
Privacy.v
Results.v
Batch.v
Protocol.v
Dashboard.v
