(* ===== verification/Prelude.v ===== *)
(** * pg-agent-proxy: a verification development

    pg-agent-proxy is a PostgreSQL wire-protocol proxy between an untrusted
    client (an agent) and upstream databases.  Per connection it masks columns
    with personal data, asks for an approval before mutations and before results
    larger than a limit, and answers a pseudo-function with the annotated schema.
    This library models the Go program under src/ and proves what makes it
    correct.  Definitions keep the names of the source.

    ** Parts of the program and of the library

    - Prelude.v: a state monad with panics ([M], [bind], [panic]), the loop
      [for_each], weakest preconditions ([wp], [preserves]) with the tactic
      [go_preserves], the hint database [go] and the rewrite databases [gostr]
      and [run].
    - GoStrings.v, GoText.v: the functions of Go's packages strings, unicode,
      unicode/utf8 and time that the program calls, on byte strings.  The case
      tables of package unicode above U+007F are the class [Unicode]; every
      theorem holds for all tables.  GoText has Split, Join, Cut, TrimSpace,
      strconv.Quote and ParseDuration (64-bit accumulators, fractions in IEEE
      doubles).
    - Timestamp.v: instants, the Gregorian calendar of package time, the layouts
      of internal/store and the parser of RFC 3339.  Base64.v: encoding/base64.
    - GoNet.v: of packages net, net/url and strconv, host and port, IP addresses,
      QueryEscape and ParseInt.  GoURL.v: [url.Parse], with the checks of IPv6
      literals, which differ between releases, as the class [IPLiteral].  GoFlag.v:
      flag sets of package flag.
    - Json.v, JsonProps.v: encoding/json.  A text is scanned to an AST ([json]) by a
      push-down automaton over its bytes, an AST is printed with the escapes of
      Marshal, and values of Go are filled from an AST as Unmarshal fills them
      (fields by name up to case, null, unknown members, slices in place).  What is
      encoded is decoded to the same value, up to bytes that are not valid UTF-8
      ([Unmarshal_encode], [Decode_encode]).
    - Sha256.v: crypto/sha256 and encoding/hex; the constants are computed from
      their definition and the functions are checked on test vectors.
    - Classify.v (internal/policy/classify.go): [Classify] and the functions it
      calls.
    - Policy.v (internal/policy/policy.go): the compiled PII rules ([New],
      [ActionFor]) and [AnonymizeValue].
    - Approval.v (internal/approval/approval.go): requests, decisions, NewID, the
      interface [Approver] as a class, the static approvers and the HTTP approver
      over the class [HTTPClient], with the JSON of both; [NeverApproves] is what a client may assume of
      auto_deny.
    - Broker.v (internal/approval/broker.go): the dashboard's approver as a
      transition system.  [step] executes one atomic action (a critical section
      of the mutex, a channel operation, a timer event, the passing of time) of
      one call of Approve or Decide; [steps] runs an interleaving, [reachable]
      is what some interleaving reaches from [initial].
    - Proto.v: the messages of pgproto3 as data, the upstream connection of
      pgconn as the class [Upstream], and the type [event] of what a session does.
    - Session.v (internal/proxy/session.go, exec.go, extended.go, schema.go,
      server.go): the record [session] and one definition per handler, up to
      [dispatch] and [loop].  Handlers are computations over [St]: the session's
      fields, a world [W] from which the random generator, the approver and the
      upstream answer ([Rand], [Approver], [Upstream]), and the trace of events,
      that is of messages sent, flushes, approvals and calls of the upstream.
      [established] is the session after authentication.
    - Config.v (internal/config/config.go, approval.New): [Load] from the file,
      the environment and the defaults, [validate], the choice of the approver
      ([NewApprover], [approver_of]).
    - Certs.v (internal/certs/certs.go): the three modes of TLS over a file system
      ([Disk]), the files of the self-signed certificate, [getCertificate] of the
      handshakes under ACME.  Keys, X.509, PEM and autocert are the classes [X509]
      and [Autocert], the faults of the file system the class [FileFaults].
    - Detect.v (internal/detect/detect.go, cmd/pg-agent-proxy/detect.go,
      parsePII of connections.go, detectAndRespond of internal/admin/admin.go):
      name hints, [Scan], the rule list printed and parsed back, the grouping of
      the admin API.
    - Store.v, Registry.v (internal/store/store.go): a registered connection, its
      expiry and the lookup for authentication against an interface (the clock,
      the query and bcrypt are classes); then the operations of the registry over
      the table [connections], as computations over [DB], which is the secret's
      key, the table and the world.  A SQL statement of the source is a function
      on tables that may fail without effect; [registry_database] implements the
      interface of Store.v.
    - RegistrySpec.v: the abstract registry, a finite map of connections changed
      by the events that the operations report ([spec_step]); [abs] reads a table
      as such a map.  Migrate.v: Open and migrate of internal/store/store.go.
    - Admin.v (internal/admin/admin.go): the handlers as computations over [DB]
      from a request [Req] to a [Response], the routes ([patterns], [Handler]) and
      authorization, and the JSON of bodies ([decode_create], [writeJSON]).  The
      texts of decoding errors and the broker are classes.
    - Cli.v, Serve.v (cmd/pg-agent-proxy, internal/proxy/server.go): the
      subcommands, the sweep and its loop, what [runServe] sets up, [main], and
      the accept loop.
    - Scenario.v: a small concrete environment for evaluations.
    - Gate.v, Privacy.v, Results.v, Batch.v: the theorems about sessions;
      RegistryProps.v, AdminProps.v, CertsProps.v: those about the registry, the
      admin server and the certificates.
    - Protocol.v: the abstract server of the wire protocol ([pstate], [answer],
      [conversation]), which sessions refine.  Dashboard.v: sessions and the broker
      composed, the rest of the process interfering as it likes ([Dash],
      [Interference]).  Lifecycle.v: the admin server, the registry and the lookup
      of logins composed.  Edit.v: what the API shows of a connection, taken as an
      edit.
    - Startup.v (internal/proxy/session.go): [serve], what happens to a client
      from the first byte: [negotiate], [authenticate], [startup], then the loop
      of Session.v.  The network and pgconn.Connect are the class [Network]; the
      trace of start-up is kept apart from that of the loop.

    The proxy calls Classify and the policy on every statement and result, the
    approver on what they gate, and the upstream with what remains.  A theorem
    about sessions quantifies over every list of client messages, every world and
    every instance of [Rand], [Approver] and [Upstream]; the end of the list is
    the client's disconnection.  The broker is one such approver; its own
    theorems concern the interleavings of its calls, and Dashboard.v makes it the
    approver of a session.

    ** What the theorems show

    - Gate.v: no mutation reaches the upstream without an approval of its text
      right before it ([mutation_gate]), none at all under auto_deny
      ([auto_deny_executes_no_mutation]), what exactly a denial does in both
      protocols; and what the gate does not see ([first_token_skips_gate]).
    - Privacy.v: noninterference.  [cell_equiv] says which values the policy makes
      indistinguishable, [world_simulation] that two databases differ only so;
      [masked_noninterference]: their clients receive the same bytes.  The
      assumption is about every statement the client may run, so it excludes
      clients that compute on masked columns in SQL; Results.v states that such
      results and aliases pass unmasked ([unlisted_columns_raw]).
    - Results.v: each value sent is its original under the action of its column
      ([masked_cells]), streamResult case by case ([streamResult_cases]), the row
      limit at every point of a session ([row_limit], by the meter [metered]), the
      schema command ([schema_command]), and an error reported twice
      ([simple_error_twice]).
    - Batch.v: one error per batch and silence up to ReadyForQuery
      ([one_error_per_batch]), skipping up to Sync ([failed_batch_skipped]), no
      panic over well-formed upstreams and one ReadyForQuery per request
      ([one_ready_per_request]), statements prepared once ([describe_caches]), the
      Parse/Bind/Execute pipeline ([pipeline]), and that a simple query is not
      skipped ([failed_batch_runs_query]).
    - Protocol.v: what a session sends is a conversation of the abstract server, for
      every sequence of messages ([session_refines_protocol]).  Dashboard.v: a gated
      mutation that reaches the upstream was consented to in the dashboard
      ([dashboard_gate]).
    - Classify.v: which texts are mutations ([Classify_mutation_iff]), and
      specifications of the scanners: comments, words, case, position.
    - Policy.v: the rule that decides for a column, the shape of masked values,
      identity of hashed values.
    - Broker.v: fail-closed approvals ([approve_fails_closed]), no entry left
      behind ([no_pending_leak]), bounded waiting ([approve_returns]), delivery of
      decisions ([decide_reaches]), the dashboard's list ([Pending_spec]), and two
      races ([decide_true_after_timeout], [two_decisions_accepted]).
    - Startup.v: whoever is served has logged in as a connection of the registry
      and runs under its policy ([only_logins_are_served]), no password before TLS
      ([password_only_over_tls]), failed logins look alike ([failed_login]), a
      right password is served ([right_password_gets_session]), and an upstream
      connection that is never closed ([upstream_left_open]).
    - Timestamp.v: stored timestamps sort as time does and are read back
      ([expiry_layout_sorts]).  RegistryProps.v: the invariant of the table over all
      operations ([registry_invariant]), a created connection logs in and is listed
      with its password ([created_connection_logs_in],
      [created_connection_listed]), the sweep removes exactly what has expired
      ([sweep_agrees]), rotation of exactly what is due ([rotation_due]), and the
      shape of user names ([slugify_bytes], [slugify_length]).
    - RegistrySpec.v: the table refines the abstract registry over every sequence
      of operations ([registry_refines], by [perform_refines] for each).  Registry.v:
      rules come back from their column ([rules_roundtrip]).
      Migrate.v: opening a registry of an earlier version ([open_migrates]).
    - Config.v: validity, precedence and the closed default, and that an approval
      always has a consent behind it ([approval_needs_consent]).  Detect.v: what is
      found, that the printed list protects it, and the grouping.
    - AdminProps.v: a request without the token changes and discloses nothing
      ([unauthorized_harmless]), logging in ([login_authorizes]), durations and
      their overflow ([parseHumanDuration_bounds], [ttl_overflow_expired]), what an
      update changes ([handleUpdate_effect]), connection strings that log in
      ([created_string_logs_in]), masked passwords ([list_masks_passwords]), and a
      rotation that shows no user name ([rotate_without_name]).
    - Lifecycle.v: every request to the admin server is the step of the abstract
      registry that its response tells ([api_refines_registry]), a login is a lookup
      in the abstract registry ([login_abs]), and so what an administrator is
      answered is what agents get from then on ([responses_govern_logins]).  Edit.v:
      putting back what the list shows changes nothing ([save_what_is_shown], with
      durations of whole seconds read back by [ParseDuration_String]).
    - CertsProps.v: a self-signed certificate survives restarts
      ([self_signed_restart]), handshakes under ACME ([acme_handshakes]), when TLS
      is on ([tls_exactly_when_enabled]), validity ([self_signed_template]).
    - Serve.v: the admin server is not open to the network ([admin_needs_token]),
      the command line and the admin server agree ([connection_strings_agree]), the
      sweep leaves nothing expired or due ([sweep_spec]), and every client is
      served ([every_client_is_served]).

    ** Fuel

    [stripLeading_loop] and [containsWord_loop] run on the length of their text
    plus one; [stripLeading_spec] and [containsWord_spec] state that this is
    enough.  [duration_loop] runs on the length of the text, of which each
    component takes at least a byte, and [width] on the binary logarithm of its
    number, which is at least the number of decimal digits it may add.
    [ipv6_loop] runs on the length of the text plus one, which [ipv6_loop_fuel]
    shows to be enough.  Every other recursion is structural.

    ** Assumptions

    A column value is [option string], [None] for NULL.  Errors of flushing and
    logging have no effect in the code and none here.  The upstream returns
    results as pgconn delivers them to a reader that reads them to their end; the
    proxy stops reading a multi-result after an error but closes it, which reads
    the rest.  Integers are unbounded where the code only counts or compares
    (rows, limits, instants) and have their width in GoText and Admin (durations)
    and in Serve (connection numbers).  Times of the process are in UTC.  SQLite is
    taken to mean what its statements say: rows in the order of identifiers, UNIQUE,
    AUTOINCREMENT, and comparison of TEXT byte by byte.  A prepared
    statement is a pointer in the code, reachable through one map entry only; an
    update of the entry stands for the assignment through the pointer.  The
    parameters a portal keeps alias the read buffer of pgproto3 in the code; the
    model keeps their values.

    ** Not modelled

    Sockets, signals, the logger and goroutines: a server is what it does with
    the connections and requests it is given.  The texts of the web pages and of
    usage messages, what is written to standard error, and the texts of decoding
    errors.  The ListenAndServe of the admin server only runs [Handler] under
    net/http.  SQLite, pgconn, bcrypt, AES-GCM, X.509, autocert and the YAML decoder
    are outside the repository, or libraries used as they are: parameters with what
    the code relies on.  The
    tab writer's alignment of the list of connections is left out: [list_line] is
    the line before it. *)

From stdpp Require Export base list option strings gmap.
From Stdlib Require Export ZArith Lia.
From Stdlib Require Strings.Ascii.
Export (notations) Stdlib.Strings.Ascii.
Export Stdlib.Strings.Ascii(ascii(..), N_of_ascii, ascii_of_N, ascii_N_embedding, N_ascii_embedding).

(** ** A state monad with panics

    Go code of the repository runs to completion or panics (an index out of
    range in a goroutine without [recover] ends the whole process).  [M S A] is
    a computation over a state [S] that returns a value or panics; the state
    reached is kept in both cases, so that safety properties also speak about
    the run up to a panic. *)
Inductive outcome (S A : Type) : Type :=
| Ok (a : A) (s : S)
| Panic (s : S).
Arguments Ok {S A} a s.
Arguments Panic {S A} s.

Definition M (S A : Type) : Type := S -> outcome S A.

Definition ret {S A : Type} (a : A) : M S A := fun s => Ok a s.

Definition bind {S A B : Type} (m : M S A) (k : A -> M S B) : M S B :=
  fun s =>
    match m s with
    | Ok a s' => k a s'
    | Panic s' => Panic s'
    end.

Definition panic {S A : Type} : M S A := fun s => Panic s.
Definition get_state {S : Type} : M S S := fun s => Ok s s.
Definition modify {S : Type} (f : S -> S) : M S unit := fun s => Ok tt (f s).

Lemma bind_ext {S A B : Type} (m : M S A) (k k' : A -> M S B) s :
  (forall a s', k a s' = k' a s') -> bind m k s = bind m k' s.
Proof. intros H. unfold bind. by destruct (m s). Qed.

(** The state a computation ends in, whether it returned or panicked. *)
Definition final {S A : Type} (o : outcome S A) : S :=
  match o with Ok _ s => s | Panic s => s end.

(** The computation returned (it did not panic). *)
Definition returned {S A : Type} (o : outcome S A) : Prop :=
  match o with Ok _ _ => True | Panic _ => False end.

Declare Scope go_scope.
Delimit Scope go_scope with go.
Notation "x <- m ;; k" := (bind m (fun x => k))
  (at level 100, m at next level, right associativity) : go_scope.
Notation "m ;; k" := (bind m (fun _ => k))
  (at level 100, right associativity) : go_scope.
Open Scope go_scope.

(** [for _, x := range xs { body x }] *)
Fixpoint for_each {S A : Type} (xs : list A) (body : A -> M S unit) : M S unit :=
  match xs with
  | [] => ret tt
  | x :: xs' => body x ;; for_each xs' body
  end.

(** [mapM f xs] over [option]: the first [None] (a panic of the element's
    computation) makes the whole result [None]. *)
Fixpoint map_opt {A B : Type} (f : A -> option B) (xs : list A) : option (list B) :=
  match xs with
  | [] => Some []
  | x :: xs' =>
      match f x, map_opt f xs' with
      | Some y, Some ys => Some (y :: ys)
      | _, _ => None
      end
  end.

(** ** Tactics of the development *)

(** Split the innermost [match]/[if] of the goal. *)
Ltac split_match :=
  match goal with
  | |- context [match ?x with _ => _ end] =>
      lazymatch x with
      | context [match _ with _ => _ end] => fail
      | _ => destruct x eqn:?
      end
  end.

(** The same in a hypothesis. *)
Ltac split_match_in H :=
  match type of H with
  | context [match ?x with _ => _ end] =>
      lazymatch x with
      | context [match _ with _ => _ end] => fail
      | _ => destruct x eqn:?
      end
  end.

Create HintDb go discriminated.
Create Rewrite HintDb gostr.
Create Rewrite HintDb run.

(** ** Generic lemmas *)

Lemma map_opt_Some_lookup {A B} (f : A -> option B) xs ys :
  map_opt f xs = Some ys <-> Forall2 (fun x y => f x = Some y) xs ys.
Proof.
  revert ys. induction xs as [|x xs IH]; intros ys; simpl.
  - split; [intros [= <-]; constructor | intros H; by inv H].
  - split.
    + destruct (f x) eqn:E; [|done]. destruct (map_opt f xs); [|done].
      intros [= <-]. constructor; [done|]. by apply IH.
    + intros H. inv H. rewrite H2. by rewrite (proj2 (IH _) H4).
Qed.

Lemma map_opt_total {A B} (f : A -> option B) (P : A -> Prop) xs :
  (forall x, P x -> is_Some (f x)) -> Forall P xs -> is_Some (map_opt f xs).
Proof.
  intros Hf. induction 1 as [|x xs Hx _ IH]; simpl; [eauto|].
  destruct (Hf x Hx) as [y ->]. destruct IH as [ys ->]. eauto.
Qed.

Lemma map_opt_length {A B} (f : A -> option B) xs ys :
  map_opt f xs = Some ys -> length ys = length xs.
Proof. intros H%map_opt_Some_lookup. symmetry. by eapply Forall2_length. Qed.

Lemma map_opt_ext {A B} (f g : A -> option B) xs ys :
  Forall2 (fun x y => f x = g y) xs ys -> map_opt f xs = map_opt g ys.
Proof. induction 1 as [|x y xs ys E _ IH]; simpl; [done|]. by rewrite E, IH. Qed.

Lemma max_list_bound {A : Type} (f : A -> nat) k (l : list A) : Forall (fun x => f x <= k) l -> max_list (map f l) <= k.
Proof. induction 1; cbn; lia. Qed.

Lemma Forall2_compose {A B C} (P : A -> B -> Prop) (Q : B -> C -> Prop) (R : A -> C -> Prop) xs ys zs :
  (forall x y z, P x y -> Q y z -> R x z) -> Forall2 P xs ys -> Forall2 Q ys zs -> Forall2 R xs zs.
Proof.
  intros H F. revert zs. induction F as [|x y xs ys Hxy _ IH]; intros zs G; inv G; constructor; eauto.
Qed.

Lemma Forall2_impl_in {A B} (P Q : A -> B -> Prop) xs ys :
  Forall2 P xs ys -> (forall x y, x ∈ xs -> P x y -> Q x y) -> Forall2 Q xs ys.
Proof. induction 1 as [|x y xs ys Hxy _ IH]; constructor; [|apply IH]; set_solver. Qed.

(** ** Weakest preconditions

    [wp m Q E s]: run from [s], [m] returns a value and a state in [Q], or
    panics in a state in [E]. *)
Definition wp {S A : Type} (m : M S A) (Q : A -> S -> Prop) (E : S -> Prop) (s : S) : Prop :=
  match m s with
  | Ok a s' => Q a s'
  | Panic s' => E s'
  end.

Section Wp.
Context {S : Type}.

Lemma wp_ret {A} (a : A) Q E (s : S) : Q a s -> wp (ret a) Q E s.
Proof. done. Qed.

Lemma wp_bind {A B} (m : M S A) (k : A -> M S B) Q E s :
  wp m (fun a => wp (k a) Q E) E s -> wp (bind m k) Q E s.
Proof. unfold wp, bind. by destruct (m s). Qed.

Lemma wp_mono {A} (m : M S A) (Q Q' : A -> S -> Prop) (E E' : S -> Prop) s :
  wp m Q E s -> (forall a s', Q a s' -> Q' a s') -> (forall s', E s' -> E' s') -> wp m Q' E' s.
Proof. unfold wp. destruct (m s); auto. Qed.

Lemma wp_get Q E (s : S) : Q s s -> wp get_state Q E s.
Proof. done. Qed.

Lemma wp_modify f Q E (s : S) : Q tt (f s) -> wp (modify f) Q E s.
Proof. done. Qed.

Lemma wp_panic {A} (Q : A -> S -> Prop) E (s : S) : E s -> wp panic Q E s.
Proof. done. Qed.

(** [m] keeps the invariant [I], also when it panics. *)
Definition preserves {A} (I : S -> Prop) (m : M S A) : Prop := forall s, I s -> wp m (fun _ => I) I s.

Lemma preserves_ret {A} I (a : A) : preserves I (ret a).
Proof. by intros s. Qed.

Lemma preserves_panic {A} I : preserves I (panic (A := A)).
Proof. by intros s. Qed.

Lemma preserves_get I : preserves I get_state.
Proof. by intros s. Qed.

Lemma preserves_bind {A B} I (m : M S A) (k : A -> M S B) :
  preserves I m -> (forall a, preserves I (k a)) -> preserves I (bind m k).
Proof.
  intros Hm Hk s Hs. apply wp_bind. eapply wp_mono; [by apply Hm| |done].
  intros a s' Hs'. by apply Hk.
Qed.

Lemma preserves_for_each {A} I (xs : list A) (body : A -> M S unit) :
  (forall x, preserves I (body x)) -> preserves I (for_each xs body).
Proof.
  intros Hb. induction xs as [|x xs IH]; [apply preserves_ret|].
  apply preserves_bind; [apply Hb|done].
Qed.

Lemma preserves_final {A} I (m : M S A) s : preserves I m -> I s -> I (final (m s)).
Proof. intros Hm Hs. specialize (Hm s Hs). unfold wp in Hm. by destruct (m s). Qed.
End Wp.

#[export] Hint Resolve preserves_ret preserves_panic preserves_get : go.

(** Prove [preserves I m] for a computation built from [bind], [for_each],
    [if] and [match]: the leaves are found in the hint database [go]. *)
Ltac go_preserves :=
  repeat match goal with
  | |- preserves _ (bind _ _) => apply preserves_bind; [|intros ?]
  | |- preserves _ (for_each _ _) => apply preserves_for_each; intros ?
  | |- preserves _ (match ?x with _ => _ end) => destruct x eqn:?
  | |- preserves _ _ => solve [eauto with go]
  end.
