(* ===== verification/GoStrings.v ===== *)
(** * Go strings

    A Go [string] is an immutable sequence of bytes; it is modelled by
    [string] (a list of 8-bit [ascii]).  This file gives the functions of Go's
    packages [strings], [unicode] and [unicode/utf8] that the repository calls:
    slicing, prefix tests, searches, trimming, and the case mappings with their
    ASCII fast path and their UTF-8 slow path.  The case tables of package
    [unicode] for runes above U+007F are data of the Go distribution; they are
    the fields of the class [Unicode], and every result holds for all tables. *)

From S2P Require Import Prelude.

(** ** Slices of a string *)

(** [s[n:]] *)
Fixpoint sdrop (n : nat) (s : string) : string :=
  match n, s with
  | O, _ => s
  | S n', String _ s' => sdrop n' s'
  | S _, EmptyString => EmptyString
  end.

(** [s[:n]] *)
Fixpoint stake (n : nat) (s : string) : string :=
  match n, s with
  | S n', String c s' => String c (stake n' s')
  | _, _ => EmptyString
  end.

(** [s[i]], [None] out of range. *)
Fixpoint byte_at (s : string) (i : nat) : option ascii :=
  match s, i with
  | EmptyString, _ => None
  | String c _, O => Some c
  | String _ s', S i' => byte_at s' i'
  end.

Fixpoint smap (f : ascii -> ascii) (s : string) : string :=
  match s with
  | EmptyString => EmptyString
  | String c s' => String (f c) (smap f s')
  end.

(** Every byte of [s] satisfies [p]. *)
Fixpoint sforall (p : ascii -> bool) (s : string) : bool :=
  match s with
  | EmptyString => true
  | String c s' => p c && sforall p s'
  end.

(** ** Package strings: tests and searches *)

(** [strings.CutPrefix]: what follows the prefix. *)
Fixpoint CutPrefix (s prefix : string) {struct prefix} : option string :=
  match prefix, s with
  | EmptyString, _ => Some s
  | String p prefix', String c s' =>
      if decide (p = c) then CutPrefix s' prefix' else None
  | String _ _, EmptyString => None
  end.

Definition HasPrefix (s prefix : string) : bool :=
  match CutPrefix s prefix with Some _ => true | None => false end.

(** [strings.Index], [None] for Go's -1. *)
Fixpoint Index (s sub : string) : option nat :=
  if HasPrefix s sub then Some O
  else
    match s with
    | EmptyString => None
    | String _ s' => S <$> Index s' sub
    end.

(** [strings.IndexByte] *)
Fixpoint IndexByte (s : string) (b : ascii) : option nat :=
  match s with
  | EmptyString => None
  | String c s' => if decide (c = b) then Some O else S <$> IndexByte s' b
  end.

Definition Contains (s sub : string) : bool :=
  match Index s sub with Some _ => true | None => false end.

Fixpoint byte_in (c : ascii) (cutset : string) : bool :=
  match cutset with
  | EmptyString => false
  | String d cutset' => bool_decide (c = d) || byte_in c cutset'
  end.

(** [strings.TrimLeft] for a cutset of ASCII bytes (the only kind used). *)
Fixpoint TrimLeft (s cutset : string) : string :=
  match s with
  | String c s' => if byte_in c cutset then TrimLeft s' cutset else s
  | EmptyString => EmptyString
  end.

(** [strings.TrimRight], likewise. *)
Fixpoint TrimRight (s cutset : string) : string :=
  match s with
  | EmptyString => EmptyString
  | String c s' =>
      match TrimRight s' cutset with
      | EmptyString => if byte_in c cutset then EmptyString else String c EmptyString
      | t => String c t
      end
  end.
Definition Trim (s cutset : string) : string := TrimRight (TrimLeft s cutset) cutset.

(** The lower-case hexadecimal digit of a number below 16. *)
Definition hex_digit (n : N) : ascii :=
  if (n <? 10)%N then ascii_of_N (48 + n) else ascii_of_N (87 + n).

(** ** Package unicode/utf8 *)

Definition rune : Type := N.
Definition RuneError : rune := 65533%N.
Definition byteN (c : ascii) : N := N_of_ascii c.
Definition between (lo hi b : N) : bool := (lo <=? b)%N && (b <=? hi)%N.

(** [utf8.DecodeRuneInString]: the first rune of [s] and its width in bytes;
    an ill-formed sequence is [RuneError] of width 1. *)
Definition DecodeRune (s : string) : rune * nat :=
  match s with
  | EmptyString => (RuneError, 0)
  | String c0 s1 =>
      let b0 := byteN c0 in
      if (b0 <? 128)%N then (b0, 1)
      else
        match s1 with
        | EmptyString => (RuneError, 1)
        | String c1 s2 =>
            let b1 := byteN c1 in
            if between 194 223 b0 then
              if between 128 191 b1
              then (((b0 mod 32) * 64 + b1 mod 64)%N, 2) else (RuneError, 1)
            else if between 224 239 b0 then
              let lo := if (b0 =? 224)%N then 160%N else 128%N in
              let hi := if (b0 =? 237)%N then 159%N else 191%N in
              match s2 with
              | String c2 _ =>
                  let b2 := byteN c2 in
                  if between lo hi b1 && between 128 191 b2
                  then (((b0 mod 16) * 4096 + (b1 mod 64) * 64 + b2 mod 64)%N, 3)
                  else (RuneError, 1)
              | EmptyString => (RuneError, 1)
              end
            else if between 240 244 b0 then
              let lo := if (b0 =? 240)%N then 144%N else 128%N in
              let hi := if (b0 =? 244)%N then 143%N else 191%N in
              match s2 with
              | String c2 (String c3 _) =>
                  let b2 := byteN c2 in
                  let b3 := byteN c3 in
                  if between lo hi b1 && between 128 191 b2 && between 128 191 b3
                  then (((b0 mod 8) * 262144 + (b1 mod 64) * 4096
                         + (b2 mod 64) * 64 + b3 mod 64)%N, 4)
                  else (RuneError, 1)
              | _ => (RuneError, 1)
              end
            else (RuneError, 1)
        end
  end.

(** [utf8.AppendRune]: runes out of range are encoded as [RuneError]. *)
Definition EncodeRune (r : rune) : string :=
  let b (n : N) := ascii_of_N n in
  let r := if (1114111 <? r)%N || between 55296 57343 r then RuneError else r in
  if (r <=? 127)%N then String (b r) EmptyString
  else if (r <=? 2047)%N then
    String (b (192 + r / 64)%N) (String (b (128 + r mod 64)%N) EmptyString)
  else if (r <=? 65535)%N then
    String (b (224 + r / 4096)%N)
      (String (b (128 + (r / 64) mod 64)%N)
        (String (b (128 + r mod 64)%N) EmptyString))
  else
    String (b (240 + r / 262144)%N)
      (String (b (128 + (r / 4096) mod 64)%N)
        (String (b (128 + (r / 64) mod 64)%N)
          (String (b (128 + r mod 64)%N) EmptyString))).

(** The runes of [for _, r := range s]; [skip] bytes belong to a rune already
    decoded. *)
Fixpoint runes_from (skip : nat) (s : string) : list rune :=
  match s with
  | EmptyString => []
  | String _ s' =>
      match skip with
      | S k => runes_from k s'
      | O => let '(r, w) := DecodeRune s in r :: runes_from (pred w) s'
      end
  end.

Definition runes (s : string) : list rune := runes_from 0 s.

Fixpoint encode_runes (rs : list rune) : string :=
  match rs with
  | [] => EmptyString
  | r :: rs' => EncodeRune r +:+ encode_runes rs'
  end.

(** [strings.Map] for a mapping that drops no rune. *)
Definition Map (f : rune -> rune) (s : string) : string := encode_runes (f <$> runes s).

(** ** Package unicode: case mapping *)

(** The non-ASCII part of Go's case tables. *)
Class Unicode := {
  upper_table : rune -> rune;
  lower_table : rune -> rune
}.

Definition isASCII (s : string) : bool := sforall (fun c => (byteN c <? 128)%N) s.

Definition upper_byte (c : ascii) : ascii :=
  if between 97 122 (byteN c) then ascii_of_N (byteN c - 32) else c.
Definition lower_byte (c : ascii) : ascii :=
  if between 65 90 (byteN c) then ascii_of_N (byteN c + 32) else c.

Section Case.
Context {U : Unicode}.

(** [unicode.ToUpper] and [unicode.ToLower] *)
Definition rune_upper (r : rune) : rune :=
  if (r <=? 127)%N then (if between 97 122 r then r - 32 else r)%N else upper_table r.
Definition rune_lower (r : rune) : rune :=
  if (r <=? 127)%N then (if between 65 90 r then r + 32 else r)%N else lower_table r.

(** [strings.ToUpper] and [strings.ToLower]: a byte-wise fast path for ASCII
    strings, [strings.Map] otherwise. *)
Definition ToUpper (s : string) : string :=
  if isASCII s then smap upper_byte s else Map rune_upper s.
Definition ToLower (s : string) : string :=
  if isASCII s then smap lower_byte s else Map rune_lower s.
End Case.

(** The tables restricted to the identity, for concrete evaluations on ASCII
    inputs (where the tables play no role). *)
Definition ascii_only : Unicode := {| upper_table r := r; lower_table r := r |}.

(** ** Lemmas: append, slices, bytes *)

Lemma sapp_nil s : EmptyString +:+ s = s.
Proof. done. Qed.

Lemma sapp_cons c s t : String c s +:+ t = String c (s +:+ t).
Proof. done. Qed.

Lemma sapp_nil_r s : s +:+ EmptyString = s.
Proof. induction s as [|c s IH]; [done|]. by rewrite sapp_cons, IH. Qed.

Lemma sapp_assoc s t u : (s +:+ t) +:+ u = s +:+ (t +:+ u).
Proof. induction s as [|c s IH]; [done|]. by rewrite !sapp_cons, IH. Qed.

Lemma slength_app s t : String.length (s +:+ t) = String.length s + String.length t.
Proof. induction s as [|c s IH]; [done|]. rewrite sapp_cons. simpl. lia. Qed.

Lemma sapp_inj s t u : s +:+ t = s +:+ u -> t = u.
Proof. induction s as [|c s IH]; [done|]. rewrite !sapp_cons. intros [= H]. auto. Qed.

#[export] Hint Rewrite sapp_nil sapp_cons sapp_nil_r sapp_assoc slength_app : gostr.

Lemma sdrop_length n s : String.length (sdrop n s) = String.length s - n.
Proof. revert s. induction n as [|n IH]; intros [|c s]; simpl; try lia. apply IH. Qed.

Lemma sdrop_add n m s : sdrop (n + m) s = sdrop m (sdrop n s).
Proof.
  revert s. induction n as [|n IH]; intros [|c s]; simpl; try done.
  by destruct m.
Qed.

Lemma sdrop_app s t : sdrop (String.length s) (s +:+ t) = t.
Proof. induction s as [|c s IH]; [done|]. by rewrite sapp_cons. Qed.

Lemma sdrop_app_plus s t n : sdrop (String.length s + n) (s +:+ t) = sdrop n t.
Proof. by rewrite sdrop_add, sdrop_app. Qed.

Lemma stake_sdrop n s : stake n s +:+ sdrop n s = s.
Proof.
  revert s. induction n as [|n IH]; intros [|c s]; simpl; try done.
  by rewrite sapp_cons, IH.
Qed.

Lemma stake_length n s : n <= String.length s -> String.length (stake n s) = n.
Proof. revert s. induction n as [|n IH]; intros [|c s]; simpl; try lia. intros. rewrite IH; lia. Qed.

Lemma byte_at_sdrop n s i : byte_at (sdrop n s) i = byte_at s (n + i).
Proof. revert s. induction n as [|n IH]; intros [|c s]; simpl; try done. Qed.

Lemma byte_at_app_l s t i : i < String.length s -> byte_at (s +:+ t) i = byte_at s i.
Proof.
  revert i. induction s as [|c s IH]; intros i; [simpl; lia|].
  rewrite sapp_cons. destruct i as [|i]; simpl; [done|]. intros. apply IH. lia.
Qed.

Lemma byte_at_app_r s t i : byte_at (s +:+ t) (String.length s + i) = byte_at t i.
Proof. induction s as [|c s IH]; [done|]. by rewrite sapp_cons. Qed.

Lemma byte_at_Some s i : i < String.length s <-> is_Some (byte_at s i).
Proof.
  revert i. induction s as [|c s IH]; intros [|i]; simpl.
  1-2: split; [lia|intros [? ?]; done].
  - split; [eauto|lia].
  - rewrite <- IH. lia.
Qed.

Lemma byte_at_None s i : byte_at s i = None <-> String.length s <= i.
Proof. rewrite eq_None_not_Some, <- byte_at_Some. lia. Qed.

Lemma smap_app f s t : smap f (s +:+ t) = smap f s +:+ smap f t.
Proof. induction s as [|c s IH]; [done|]. rewrite !sapp_cons. simpl. by rewrite IH. Qed.

Lemma smap_length f s : String.length (smap f s) = String.length s.
Proof. induction s as [|c s IH]; simpl; [done|]. by rewrite IH. Qed.

Lemma byte_at_smap f s i : byte_at (smap f s) i = f <$> byte_at s i.
Proof. revert i. induction s as [|c s IH]; intros [|i]; simpl; try done. Qed.

Lemma sforall_app p s t : sforall p (s +:+ t) = sforall p s && sforall p t.
Proof. induction s as [|c s IH]; [done|]. rewrite sapp_cons. simpl. by rewrite IH, andb_assoc. Qed.

Lemma sforall_byte_at p s i c : sforall p s = true -> byte_at s i = Some c -> p c = true.
Proof.
  revert i. induction s as [|d s IH]; intros i; simpl; [done|].
  intros [Hd Hs]%andb_true_iff. destruct i; [by intros [= <-]|]. by apply IH.
Qed.

(** ** Lemmas: prefixes and searches *)

Lemma CutPrefix_Some s p r : CutPrefix s p = Some r <-> s = p +:+ r.
Proof.
  revert s. induction p as [|d p IH]; intros s; simpl.
  - split; [by intros [= ->]|by intros ->].
  - destruct s as [|c s]; [done|]. rewrite sapp_cons. case_decide as E.
    + subst. rewrite IH. split; [by intros ->|by intros [= ->]].
    + split; [done|congruence].
Qed.

Lemma HasPrefix_true s p : HasPrefix s p = true <-> exists r, s = p +:+ r.
Proof.
  unfold HasPrefix. destruct (CutPrefix s p) as [r|] eqn:E.
  - apply CutPrefix_Some in E. naive_solver.
  - split; [done|]. intros [r H%CutPrefix_Some]. congruence.
Qed.

Lemma HasPrefix_app p r : HasPrefix (p +:+ r) p = true.
Proof. apply HasPrefix_true. eauto. Qed.

Lemma HasPrefix_sdrop s i w :
  HasPrefix (sdrop i s) w = true ->
  forall k, k < String.length w -> byte_at s (i + k) = byte_at w k.
Proof.
  intros [r H]%HasPrefix_true k Hk. rewrite <- byte_at_sdrop, H. by apply byte_at_app_l.
Qed.

Lemma HasPrefix_length s p : HasPrefix s p = true -> String.length p <= String.length s.
Proof. intros [r ->]%HasPrefix_true. autorewrite with gostr. lia. Qed.

Lemma Index_Some s sub i :
  Index s sub = Some i ->
  HasPrefix (sdrop i s) sub = true /\ (forall j, j < i -> HasPrefix (sdrop j s) sub = false).
Proof.
  revert i. induction s as [|c s IH]; intros i; simpl.
  - destruct (HasPrefix "" sub) eqn:E; [intros [= <-]|done]. simpl. split; [done|lia].
  - destruct (HasPrefix (String c s) sub) eqn:E.
    + intros [= <-]. split; [done|lia].
    + intros (k & [H1 H2]%IH & ->)%fmap_Some. split; [done|].
      intros [|j] Hj; [done|]. apply H2. lia.
Qed.

Lemma Index_None s sub : Index s sub = None -> forall j, HasPrefix (sdrop j s) sub = false.
Proof.
  induction s as [|c s IH]; simpl.
  - destruct (HasPrefix "" sub) eqn:E; [done|]. intros _ [|j]; done.
  - destruct (HasPrefix (String c s) sub) eqn:E; [done|].
    intros H%fmap_None [|j]; simpl; [done|]. by apply IH.
Qed.

Lemma Index_bound s sub i : Index s sub = Some i -> i + String.length sub <= String.length s.
Proof.
  revert i. induction s as [|c s IH]; intros i; simpl.
  - destruct (HasPrefix "" sub) eqn:E; [|done]. intros [= <-]. by apply HasPrefix_length in E.
  - destruct (HasPrefix (String c s) sub) eqn:E.
    + intros [= <-]. by apply HasPrefix_length in E.
    + intros (k & Hk%IH & ->)%fmap_Some. lia.
Qed.

(** [Index] is the least position at which the substring occurs. *)
Lemma Index_least s sub i :
  HasPrefix (sdrop i s) sub = true ->
  (forall j, j < i -> HasPrefix (sdrop j s) sub = false) ->
  Index s sub = Some i.
Proof.
  intros Hi Hlt. destruct (Index s sub) as [k|] eqn:E.
  - apply Index_Some in E as [Hk Hk']. f_equal.
    destruct (decide (k < i)) as [L|L]; [by rewrite Hlt in Hk|].
    destruct (decide (i < k)) as [L'|L']; [by rewrite Hk' in Hi|]. lia.
  - by rewrite (Index_None _ _ E) in Hi.
Qed.

Lemma IndexByte_Some s b i :
  IndexByte s b = Some i -> byte_at s i = Some b.
Proof.
  revert i. induction s as [|c s IH]; intros i; simpl; [done|]. case_decide as E.
  - intros [= <-]. by subst.
  - intros (k & Hk & ->)%fmap_Some. by apply IH.
Qed.

Lemma IndexByte_app s t b :
  sforall (fun c => bool_decide (c <> b)) s = true ->
  IndexByte (s +:+ String b t) b = Some (String.length s).
Proof.
  induction s as [|c s IH].
  - intros _. rewrite sapp_nil. simpl. by rewrite decide_True.
  - rewrite sapp_cons. simpl. intros [Hc Hs]%andb_true_iff.
    apply bool_decide_eq_true in Hc. rewrite decide_False by done. by rewrite IH by done.
Qed.

Lemma TrimLeft_suffix s cs : exists p, s = p +:+ TrimLeft s cs /\ sforall (fun c => byte_in c cs) p = true.
Proof.
  induction s as [|c s [p [IH1 IH2]]]; simpl; [by exists EmptyString|].
  destruct (byte_in c cs) eqn:E.
  - exists (String c p). rewrite sapp_cons. simpl. rewrite <- IH1, E. done.
  - by exists EmptyString.
Qed.

Lemma TrimLeft_length s cs : String.length (TrimLeft s cs) <= String.length s.
Proof. induction s as [|c s IH]; simpl; [done|]. destruct (byte_in c cs); simpl; lia. Qed.

Lemma TrimLeft_head s cs c : byte_at (TrimLeft s cs) 0 = Some c -> byte_in c cs = false.
Proof.
  induction s as [|d s IH]; simpl; [done|]. destruct (byte_in d cs) eqn:E; [done|].
  by intros [= <-].
Qed.

Lemma TrimLeft_skip p s cs :
  sforall (fun c => byte_in c cs) p = true -> TrimLeft (p +:+ s) cs = TrimLeft s cs.
Proof.
  induction p as [|c p IH]; [done|]. rewrite sapp_cons. simpl.
  intros [Hc Hp]%andb_true_iff. by rewrite Hc, IH.
Qed.

Lemma TrimLeft_id c s cs : byte_in c cs = false -> TrimLeft (String c s) cs = String c s.
Proof. simpl. by intros ->. Qed.

Lemma sdrop_app_l n s t : n <= String.length s -> sdrop n (s +:+ t) = sdrop n s +:+ t.
Proof.
  revert n. induction s as [|c s IH]; intros [|n] L; try done; [simpl in L; lia|].
  rewrite sapp_cons. simpl in *. apply IH. lia.
Qed.

Lemma HasPrefix_app_l s t p :
  String.length p <= String.length s -> HasPrefix (s +:+ t) p = HasPrefix s p.
Proof.
  unfold HasPrefix. revert s. induction p as [|d p IH]; intros [|c s] L; try done; [simpl in L; lia|].
  rewrite sapp_cons. simpl in *. case_decide; [|done]. apply IH. lia.
Qed.

Lemma Index_app_l s t sub i : Index s sub = Some i -> Index (s +:+ t) sub = Some i.
Proof.
  intros H. pose proof (Index_bound _ _ _ H) as B. apply Index_Some in H as [H1 H2].
  apply Index_least.
  - rewrite sdrop_app_l by lia. apply HasPrefix_true in H1 as [r ->].
    rewrite sapp_assoc. apply HasPrefix_app.
  - intros j Hj. rewrite sdrop_app_l by lia.
    rewrite HasPrefix_app_l; [auto|]. rewrite sdrop_length. lia.
Qed.

Lemma IndexByte_split s b i :
  IndexByte s b = Some i ->
  exists p q, s = p +:+ String b q /\ String.length p = i
    /\ sforall (fun c => bool_decide (c <> b)) p = true.
Proof.
  revert i. induction s as [|c s IH]; intros i; [done|]. simpl. case_decide as E.
  - intros [= <-]. subst. by exists EmptyString, s.
  - intros (k & (p & q & -> & <- & Hp)%IH & ->)%fmap_Some.
    exists (String c p), q. rewrite sapp_cons. simpl. rewrite Hp.
    by rewrite bool_decide_eq_true_2 by done.
Qed.

Lemma TrimLeft_idem s cs : TrimLeft (TrimLeft s cs) cs = TrimLeft s cs.
Proof.
  induction s as [|c s IH]; [done|]. simpl.
  destruct (byte_in c cs) eqn:E; [done|]. by rewrite TrimLeft_id.
Qed.

(** ** Lemmas: UTF-8 decoding stops at ASCII bytes, and the case mappings *)

Definition ascii_byte (c : ascii) : bool := (byteN c <? 128)%N.

(** All bytes, to prove a decidable statement about a byte by evaluation. *)
Definition all_bytes : list ascii := ascii_of_N <$> (N.of_nat <$> seq 0 256).

Lemma all_bytes_spec (P : ascii -> bool) :
  forallb P all_bytes = true -> forall c, P c = true.
Proof.
  intros H c. rewrite forallb_forall in H. apply H.
  apply list_elem_of_In. unfold all_bytes. apply list_elem_of_fmap.
  exists (N_of_ascii c). split; [by rewrite ascii_N_embedding|].
  apply list_elem_of_fmap. exists (N.to_nat (N_of_ascii c)). split; [lia|].
  apply elem_of_seq. pose proof (Stdlib.Strings.Ascii.N_ascii_bounded c). lia.
Qed.

Lemma all_bytes_spec2 (P : ascii -> ascii -> bool) :
  forallb (fun c => forallb (P c) all_bytes) all_bytes = true -> forall c d, P c d = true.
Proof.
  intros H c. apply all_bytes_spec.
  by apply (all_bytes_spec (fun c => forallb (P c) all_bytes)).
Qed.

Lemma between_low lo hi c : ascii_byte c = true -> (128 <= lo)%N -> between lo hi (byteN c) = false.
Proof. unfold ascii_byte, between. intros H%N.ltb_lt L. apply andb_false_iff. left. apply N.leb_gt. lia. Qed.

Lemma DecodeRune_ascii c s : ascii_byte c = true -> DecodeRune (String c s) = (byteN c, 1).
Proof. unfold ascii_byte. simpl. by intros ->. Qed.

(** Decoding a non-empty [p] followed by an ASCII byte sees [p] only. *)
Lemma DecodeRune_app p a q :
  ascii_byte a = true -> p <> EmptyString ->
  DecodeRune (p +:+ String a q) = DecodeRune p
  /\ 1 <= (DecodeRune p).2 <= String.length p.
Proof.
  intros Ha Hp. destruct p as [|c0 p]; [done|]. rewrite sapp_cons.
  assert (Hlo : forall lo hi, (128 <= lo)%N -> between lo hi (byteN a) = false)
    by (intros; by apply between_low).
  destruct p as [|c1 [|c2 [|c3 p]]]; rewrite ?sapp_cons, ?sapp_nil; simpl;
    repeat match goal with
      | |- context [between ?lo ?hi (byteN a)] => rewrite (Hlo lo hi) by (repeat split_match; lia)
      | _ => progress rewrite ?andb_false_r; simpl
      end;
    repeat split_match; simpl; (split; [done|lia]).
Qed.

Lemma runes_from_skip k s : k <= String.length s -> runes_from k s = runes_from 0 (sdrop k s).
Proof.
  revert k. induction s as [|c s IH]; intros [|k] L; try done.
  simpl. apply IH. simpl in L. lia.
Qed.

Lemma runes_unfold s : s <> EmptyString ->
  runes s = (DecodeRune s).1 :: runes_from (pred (DecodeRune s).2) (sdrop 1 s).
Proof. destruct s as [|c s]; [done|]. intros _. unfold runes. cbn [runes_from sdrop]. by destruct (DecodeRune _). Qed.

Lemma runes_app_ascii p a q :
  ascii_byte a = true -> runes (p +:+ String a q) = runes p ++ runes (String a q).
Proof.
  intros Ha. remember (String.length p) as n eqn:Hn. revert p Hn.
  induction n as [n IH] using lt_wf_ind. intros p ->.
  destruct (decide (p = EmptyString)) as [->|Hp]; [done|].
  destruct (DecodeRune_app p a q Ha Hp) as [E L].
  rewrite (runes_unfold (p +:+ _)), (runes_unfold p), E; [|done|by destruct p].
  destruct p as [|c p]; [done|]. rewrite sapp_cons. cbn [sdrop]. cbn [String.length] in L.
  rewrite (runes_from_skip _ (p +:+ _)), (runes_from_skip _ p) by (autorewrite with gostr; lia).
  rewrite sdrop_app_l by lia. cbn [app]. f_equal.
  apply (IH (String.length (sdrop (pred (DecodeRune (String c p)).2) p))); [|done].
  rewrite sdrop_length. simpl. lia.
Qed.

Lemma encode_runes_app rs rs' : encode_runes (rs ++ rs') = encode_runes rs +:+ encode_runes rs'.
Proof. induction rs as [|r rs IH]; [done|]. simpl. by rewrite IH, sapp_assoc. Qed.

Lemma Map_app_ascii f p a q :
  ascii_byte a = true ->
  Map f (p +:+ String a q) = Map f p +:+ (EncodeRune (f (byteN a)) +:+ Map f q).
Proof.
  intros Ha. unfold Map. rewrite runes_app_ascii, fmap_app, encode_runes_app by done.
  f_equal. unfold runes at 1. cbn [runes_from]. by rewrite DecodeRune_ascii.
Qed.

Section CaseLemmas.
Context {U : Unicode}.

Lemma EncodeRune_upper c :
  ascii_byte c = true -> EncodeRune (rune_upper (byteN c)) = String (upper_byte c) EmptyString.
Proof. destruct c as [[] [] [] [] [] [] [] []]; intros H; (discriminate H || reflexivity). Qed.

Lemma EncodeRune_lower c :
  ascii_byte c = true -> EncodeRune (rune_lower (byteN c)) = String (lower_byte c) EmptyString.
Proof. destruct c as [[] [] [] [] [] [] [] []]; intros H; (discriminate H || reflexivity). Qed.

Lemma Map_upper_app p a q :
  ascii_byte a = true ->
  Map rune_upper (p +:+ String a q) = Map rune_upper p +:+ String (upper_byte a) (Map rune_upper q).
Proof. intros Ha. by rewrite Map_app_ascii, EncodeRune_upper. Qed.

Lemma Map_lower_app p a q :
  ascii_byte a = true ->
  Map rune_lower (p +:+ String a q) = Map rune_lower p +:+ String (lower_byte a) (Map rune_lower q).
Proof. intros Ha. by rewrite Map_app_ascii, EncodeRune_lower. Qed.

(** The ASCII fast path computes what the general path computes. *)
Lemma ToUpper_Map s : ToUpper s = Map rune_upper s.
Proof.
  unfold ToUpper. destruct (isASCII s) eqn:E; [|done].
  induction s as [|c s IH]; [done|]. apply andb_true_iff in E as [Hc Hs].
  rewrite <- (sapp_nil (String c s)), Map_upper_app by done. simpl. by rewrite IH.
Qed.

Lemma ToLower_Map s : ToLower s = Map rune_lower s.
Proof.
  unfold ToLower. destruct (isASCII s) eqn:E; [|done].
  induction s as [|c s IH]; [done|]. apply andb_true_iff in E as [Hc Hs].
  rewrite <- (sapp_nil (String c s)), Map_lower_app by done. simpl. by rewrite IH.
Qed.

Lemma ToUpper_app p a q :
  ascii_byte a = true -> ToUpper (p +:+ String a q) = ToUpper p +:+ String (upper_byte a) (ToUpper q).
Proof. intros. rewrite !ToUpper_Map. by apply Map_upper_app. Qed.

Lemma ToUpper_ascii s : isASCII s = true -> ToUpper s = smap upper_byte s.
Proof. unfold ToUpper. by intros ->. Qed.

Lemma ToUpper_ascii_app s q : isASCII s = true -> ToUpper (s +:+ q) = smap upper_byte s +:+ ToUpper q.
Proof.
  induction s as [|c s IH]; [done|]. intros [Hc Hs]%andb_true_iff.
  rewrite sapp_cons, <- (sapp_nil (String c _)), ToUpper_app, IH by done. done.
Qed.

(** An ASCII infix is mapped in place, whatever surrounds it. *)
Lemma ToUpper_infix p s q :
  isASCII s = true -> s <> EmptyString ->
  ToUpper (p +:+ (s +:+ q)) = ToUpper p +:+ (smap upper_byte s +:+ ToUpper q).
Proof.
  destruct s as [|c s]; [done|]. intros [Hc Hs]%andb_true_iff _.
  rewrite sapp_cons, ToUpper_app, ToUpper_ascii_app by done. done.
Qed.
End CaseLemmas.

Lemma upper_byte_ascii c : ascii_byte c = true -> ascii_byte (upper_byte c) = true.
Proof.
  pose proof (all_bytes_spec (fun c => implb (ascii_byte c) (ascii_byte (upper_byte c)))
    ltac:(vm_compute; reflexivity) c) as H.
  cbv beta in H. intros Hc. by rewrite Hc in H.
Qed.

(** A property of bytes that implies another, by evaluation. *)
Lemma sforall_implied (p q : ascii -> bool) s :
  forallb (fun c => implb (p c) (q c)) all_bytes = true ->
  sforall p s = true -> sforall q s = true.
Proof.
  intros H. pose proof (all_bytes_spec (fun c => implb (p c) (q c)) H) as Hpq.
  induction s as [|c s IH]; [done|]. cbn [sforall]. intros [Hc Hs]%andb_true_iff. specialize (Hpq c).
  cbv beta in Hpq. rewrite Hc in Hpq. apply andb_true_iff. by split; [apply Hpq|apply IH].
Qed.
