(* ===== verification/GoText.v ===== *)
(** * Go text utilities

    The functions of packages [strings], [strconv] and [time] that the configuration, the
    command line and the detection use: splitting and joining at a byte, cutting,
    trimming white space (with package [unicode]'s definition of it), comparison
    up to case, [strconv.Quote], and [time.ParseDuration] on 64-bit unsigned arithmetic, its
    fractions computed in IEEE double precision with the Standard Library's
    executable SpecFloat. *)

From Stdlib Require Import Floats.SpecFloat.
From S2P Require Import Prelude GoStrings.

(** ** Package strings *)

(** [strings.Split] for a separator of one byte. *)
Fixpoint Split (s : string) (sep : ascii) : list string :=
  match s with
  | EmptyString => [EmptyString]
  | String c s' =>
      if bool_decide (c = sep) then EmptyString :: Split s' sep
      else
        match Split s' sep with
        | part :: parts => String c part :: parts
        | [] => [String c EmptyString]
        end
  end.

Fixpoint Join (parts : list string) (sep : string) : string :=
  match parts with
  | [] => EmptyString
  | [p] => p
  | p :: parts' => p +:+ sep +:+ Join parts' sep
  end.

(** [strings.Cut] at a byte: the text before and after its first occurrence. *)
Definition Cut (s : string) (sep : ascii) : string * string * bool :=
  match IndexByte s sep with
  | Some i => (stake i s, sdrop (i + 1) s, true)
  | None => (s, EmptyString, false)
  end.

(** [unicode.IsSpace] *)
Definition IsSpace (r : rune) : bool :=
  between 9 13 r || (r =? 32)%N || (r =? 133)%N || (r =? 160)%N || (r =? 5760)%N
  || between 8192 8202 r || between 8232 8233 r || (r =? 8239)%N || (r =? 8287)%N || (r =? 12288)%N.

(** The runes of a string with the bytes they come from. *)
Fixpoint pieces_from (skip : nat) (s : string) : list (rune * string) :=
  match s with
  | EmptyString => []
  | String _ s' =>
      match skip with
      | S k => pieces_from k s'
      | O => let '(r, w) := DecodeRune s in (r, stake w s) :: pieces_from (pred w) s'
      end
  end.
Definition pieces (s : string) : list (rune * string) := pieces_from 0 s.
Definition unpieces (ps : list (rune * string)) : string := foldr (fun p s => p.2 +:+ s) EmptyString ps.

Fixpoint drop_space (ps : list (rune * string)) : list (rune * string) :=
  match ps with
  | p :: ps' => if IsSpace p.1 then drop_space ps' else ps
  | [] => []
  end.

(** [strings.TrimSpace] *)
Definition TrimSpace (s : string) : string :=
  unpieces (reverse (drop_space (reverse (drop_space (pieces s))))).

(** [strings.EqualFold] against an ASCII text without k and s (whose case
    classes have members outside ASCII): equality up to the case of letters. *)
Definition EqualFold (s t : string) : bool := bool_decide (smap lower_byte s = smap lower_byte t).

(** ** Package time: durations

    A [Duration] is a signed 64-bit number of nanoseconds; the accumulators of
    ParseDuration are unsigned 64-bit numbers. *)
Definition Duration : Type := Z.

Definition wrap64 (n : N) : N := (n mod 2 ^ 64)%N.
Definition digit (c : ascii) : bool := between 48 57 (byteN c).

(** [leadingInt]: the number, the rest; [None] on overflow. *)
Fixpoint leadingInt (s : string) (x : N) : option (N * string) :=
  match s with
  | String c s' =>
      if digit c then
        if (2 ^ 63 / 10 <? x)%N then None
        else
          let x' := (x * 10 + byteN c - 48)%N in
          if (2 ^ 63 <? x')%N then None else leadingInt s' x'
      else Some (x, s)
  | EmptyString => Some (x, s)
  end.

(** [leadingFraction]: the digits as a number, the number of digits in it (the
    scale is this power of ten, exact in a double), the rest. *)
Fixpoint leadingFraction (s : string) (x scale : N) (overflow : bool) : N * N * string :=
  match s with
  | String c s' =>
      if digit c then
        if overflow then leadingFraction s' x scale true
        else if ((2 ^ 63 - 1) / 10 <? x)%N then leadingFraction s' x scale true
        else
          let y := (x * 10 + byteN c - 48)%N in
          if (2 ^ 63 <? y)%N then leadingFraction s' x scale true
          else leadingFraction s' y (scale * 10) false
      else (x, scale, s)
  | EmptyString => (x, scale, s)
  end.

(** [float64(n)] and [uint64(x)] *)
Definition float_of_N (n : N) : spec_float := binary_normalize 53 1024 (Z.of_N n) 0 false.
Definition N_of_float (x : spec_float) : N :=
  match x with
  | S754_finite false m e => Z.to_N (if (0 <=? e)%Z then Z.pos m * 2 ^ e else Z.pos m / 2 ^ (- e))
  | _ => 0%N
  end.

(** [uint64(float64(f) * (float64(unit) / scale))] *)
Definition scaled_fraction (f unit scale : N) : N :=
  N_of_float (SFmul 53 1024 (float_of_N f) (SFdiv 53 1024 (float_of_N unit) (float_of_N scale))).

Definition micro (b1 b2 : N) : string := String (ascii_of_N b1) (String (ascii_of_N b2) "s").
Definition unitMap (u : string) : option N :=
  if bool_decide (u = "ns") then Some 1%N
  else if bool_decide (u = "us") then Some 1000%N
  else if bool_decide (u = micro 194 181) then Some 1000%N  (* U+00B5 *)
  else if bool_decide (u = micro 206 188) then Some 1000%N  (* U+03BC *)
  else if bool_decide (u = "ms") then Some 1000000%N
  else if bool_decide (u = "s") then Some 1000000000%N
  else if bool_decide (u = "m") then Some 60000000000%N
  else if bool_decide (u = "h") then Some 3600000000000%N
  else None.

(** The length of the unit at the head of [s]. *)
Fixpoint unit_length (s : string) : nat :=
  match s with
  | String c s' => if bool_decide (c = "."%char) || digit c then O else S (unit_length s')
  | EmptyString => O
  end.

(** One component [number unit] of a duration and the rest of the text. *)
Definition duration_component (s : string) : option (N * string) :=
  match s with
  | EmptyString => None
  | String c _ =>
      if negb (bool_decide (c = "."%char) || digit c) then None
      else
        '(v, s1) ← leadingInt s 0;
        let pre := negb (bool_decide (String.length s = String.length s1)) in
        let '(f, scale, s2, post) :=
          match s1 with
          | String d s' =>
              if bool_decide (d = "."%char) then
                let '(f, scale, s'') := leadingFraction s' 0 1 false in
                (f, scale, s'', negb (bool_decide (String.length s' = String.length s'')))
              else (0%N, 1%N, s1, false)
          | EmptyString => (0%N, 1%N, s1, false)
          end in
        if negb pre && negb post then None
        else
          let i := unit_length s2 in
          if bool_decide (i = 0) then None
          else
            unit ← unitMap (stake i s2);
            if (2 ^ 63 / unit <? v)%N then None
            else
              let v := wrap64 (v * unit) in
              let v := if (0 <? f)%N then wrap64 (v + scaled_fraction f unit scale) else v in
              if (0 <? f)%N && (2 ^ 63 <? v)%N then None else Some (v, sdrop i s2)
  end.

(** The loop over the components; each consumes at least one byte. *)
Fixpoint duration_loop (fuel : nat) (s : string) (d : N) : option N :=
  match s, fuel with
  | EmptyString, _ => Some d
  | _, O => None
  | _, S fuel' =>
      '(v, s') ← duration_component s;
      let d := wrap64 (d + v) in
      if (2 ^ 63 <? d)%N then None else duration_loop fuel' s' d
  end.

(** [time.ParseDuration]; [None] for its errors. *)
Definition ParseDuration (orig : string) : option Duration :=
  let '(neg, s) :=
    match orig with
    | String c s' =>
        if bool_decide (c = "-"%char) then (true, s')
        else if bool_decide (c = "+"%char) then (false, s') else (false, orig)
    | EmptyString => (false, orig)
    end in
  if bool_decide (s = "0") then Some 0%Z
  else if bool_decide (s = EmptyString) then None
  else
    d ← duration_loop (String.length s) s 0;
    if (neg : bool) then Some (- Z.of_N d)%Z
    else if (2 ^ 63 - 1 <? d)%N then None else Some (Z.of_N d).

Example durations :
  ParseDuration <$> ["30s"; "5m"; "1h30m"; "1.5h"; "-2s"; "0"; "1us"; ".5s"; "2.25ms"]
  = Some <$> [30000000000; 300000000000; 5400000000000; 5400000000000; -2000000000; 0; 1000;
              500000000; 2250000]%Z.
Proof. vm_compute. reflexivity. Qed.

Example no_durations :
  ParseDuration <$> [""; "3"; "s"; ".s"; "1x"; "9223372036854775808ns"; "1 s"; "--1s"] = replicate 8 None.
Proof. vm_compute. reflexivity. Qed.

(** ** Package strconv: quoted texts (the verb %q)

    The table behind [strconv.IsPrint] above U+00FF is a parameter. *)
Class Printable : Type := print_table : rune -> bool.

Section Quote.
Context {Pr : Printable}.

Definition IsPrint (r : rune) : bool :=
  if (r <=? 255)%N then between 32 126 r || (between 161 255 r && negb (r =? 173)%N) else print_table r.

(** The [k] last hexadecimal digits of [n]. *)
Fixpoint hex_digits (k : nat) (n : N) : string :=
  match k with
  | O => EmptyString
  | S k' => String (hex_digit ((n / 16 ^ N.of_nat k') mod 16)) (hex_digits k' n)
  end.

Definition quote_mark : string := String (ascii_of_N 34) EmptyString.

(** One rune of [strconv.Quote] with the bytes it was read from; the runes that
    decoding a string yields are valid. *)
Definition quote_rune (p : rune * string) : string :=
  let '(r, bytes) := p in
  if (r =? RuneError)%N && (String.length bytes =? 1)
  then "\x" +:+ match bytes with String c _ => hex_digits 2 (byteN c) | EmptyString => EmptyString end
  else if (r =? 34)%N || (r =? 92)%N then "\" +:+ bytes
  else if IsPrint r then bytes
  else
    match r with
    | 7%N => "\a" | 8%N => "\b" | 9%N => "\t" | 10%N => "\n" | 11%N => "\v" | 12%N => "\f" | 13%N => "\r"
    | _ =>
        if (r <? 32)%N || (r =? 127)%N then "\x" +:+ hex_digits 2 r
        else if (r <? 65536)%N then "\u" +:+ hex_digits 4 r
        else "\U" +:+ hex_digits 8 r
    end.

Definition Quote (s : string) : string :=
  quote_mark +:+ foldr (fun p t => quote_rune p +:+ t) quote_mark (pieces s).
End Quote.

Example quoted :
  Quote (Pr := fun _ => false)
    ("a\b" +:+ quote_mark +:+ String (ascii_of_N 10) (String (ascii_of_N 0) (EncodeRune 8364%N))
     +:+ String (ascii_of_N 255) EmptyString)
  = quote_mark +:+ "a\\b\" +:+ quote_mark +:+ "\n\x00\u20ac\xff" +:+ quote_mark.
Proof. vm_compute. reflexivity. Qed.

(** ** Lemmas *)

Lemma Split_cons c s sep :
  c <> sep ->
  exists part parts, Split s sep = part :: parts /\ Split (String c s) sep = String c part :: parts.
Proof.
  intros Hc. assert (Hne : Split s sep <> []).
  { destruct s as [|d s]; [done|]. cbn. case_bool_decide; [done|]. by destruct (Split s sep). }
  destruct (Split s sep) as [|part parts] eqn:E; [done|]. exists part, parts. split; [done|].
  cbn [Split]. by rewrite bool_decide_eq_false_2, E.
Qed.

Definition without (sep : ascii) (s : string) : bool := sforall (fun c => bool_decide (c <> sep)) s.

Lemma without_app b s t : without b (s +:+ t) = without b s && without b t.
Proof. apply sforall_app. Qed.

Lemma Split_without s sep : without sep s = true -> Split s sep = [s].
Proof.
  induction s as [|c s IH]; [done|]. intros [Hc%bool_decide_eq_true Hs]%andb_true_iff.
  destruct (Split_cons c s sep Hc) as (part & parts & E1 & E2). rewrite (IH Hs) in E1.
  injection E1 as <- <-. done.
Qed.

Lemma Split_app s sep t : without sep s = true -> Split (s +:+ String sep t) sep = s :: Split t sep.
Proof.
  induction s as [|c s IH].
  - intros _. rewrite sapp_nil. cbn [Split]. by rewrite bool_decide_eq_true_2.
  - intros [Hc%bool_decide_eq_true Hs]%andb_true_iff. rewrite sapp_cons.
    destruct (Split_cons c (s +:+ String sep t) sep Hc) as (part & parts & E1 & E2).
    rewrite (IH Hs) in E1. injection E1 as <- <-. done.
Qed.

(** Split undoes Join when no part holds the separator. *)
Lemma Split_Join parts sep :
  parts <> [] -> Forall (fun s => without sep s = true) parts ->
  Split (Join parts (String sep EmptyString)) sep = parts.
Proof.
  intros Hne H. destruct H as [|p parts Hp H]; [done|]. clear Hne. revert p Hp.
  induction H as [|q parts Hq H IH]; intros p Hp; [by apply Split_without|].
  change (Join (p :: q :: parts) _) with (p +:+ (String sep EmptyString +:+ Join (q :: parts) (String sep EmptyString))).
  rewrite sapp_cons, sapp_nil, Split_app by done. by rewrite IH.
Qed.

Lemma Cut_app s sep t : without sep s = true -> Cut (s +:+ String sep t) sep = (s, t, true).
Proof.
  intros H. assert (E : IndexByte (s +:+ String sep t) sep = Some (String.length s)).
  { induction s as [|c s IH].
    - rewrite sapp_nil. cbn. by rewrite decide_True.
    - apply andb_true_iff in H as [Hc%bool_decide_eq_true Hs]. rewrite sapp_cons. cbn [IndexByte].
      rewrite decide_False by done. by rewrite IH. }
  unfold Cut. rewrite E. clear E H.
  assert (E1 : stake (String.length s) (s +:+ String sep t) = s).
  { induction s as [|c s IH]; [done|]. rewrite sapp_cons. cbn. by rewrite IH. }
  rewrite sdrop_app_plus. by rewrite E1.
Qed.

(** A text of ASCII bytes none of which is white space. *)
Definition inked (s : string) : bool := sforall (fun c => (byteN c <? 128)%N && negb (IsSpace (byteN c))) s.

Definition piece (c : ascii) : rune * string := (byteN c, String c EmptyString).
Fixpoint chars (s : string) : list ascii :=
  match s with EmptyString => [] | String c s' => c :: chars s' end.

Lemma pieces_ascii s : isASCII s = true -> pieces s = piece <$> chars s.
Proof.
  induction s as [|c s IH]; [done|]. intros [Hc Hs]%andb_true_iff.
  unfold pieces. cbn [pieces_from]. rewrite DecodeRune_ascii by done. cbn [pred stake chars fmap list_fmap].
  f_equal. by apply IH.
Qed.

Lemma unpieces_chars s : unpieces (piece <$> chars s) = s.
Proof.
  induction s as [|c s IH]; [done|].
  change (String c EmptyString +:+ unpieces (piece <$> chars s) = String c s).
  by rewrite sapp_cons, sapp_nil, IH.
Qed.

Lemma drop_space_inked ps : Forall (fun p => IsSpace p.1 = false) ps -> drop_space ps = ps.
Proof. intros [|p ps' Hp _]; [done|]. cbn. by rewrite Hp. Qed.

(** Trimming leaves a text without white space as it is. *)
Lemma TrimSpace_inked s : inked s = true -> TrimSpace s = s.
Proof.
  intros H. assert (Ha : isASCII s = true).
  { induction s as [|c s IH]; [done|]. apply andb_true_iff in H as [[Hc _]%andb_true_iff Hs].
    apply andb_true_iff. split; [done|by apply IH]. }
  assert (Hs : Forall (fun p => IsSpace p.1 = false) (piece <$> chars s)).
  { clear Ha. induction s as [|c s IH]; [constructor|].
    apply andb_true_iff in H as [[_ Hc%negb_true_iff]%andb_true_iff Hs].
    cbn. constructor; [done|by apply IH]. }
  unfold TrimSpace. rewrite pieces_ascii by done. rewrite (drop_space_inked (piece <$> chars s)) by done.
  rewrite drop_space_inked by by apply Forall_reverse. rewrite reverse_involutive. apply unpieces_chars.
Qed.

Lemma duration_loop_bound fuel s d r :
  (d <= 2 ^ 63)%N -> duration_loop fuel s d = Some r -> (r <= 2 ^ 63)%N.
Proof.
  revert s d. induction fuel as [|fuel IH]; intros [|c s] d Hd; cbn [duration_loop]; try done;
    try (by intros [= <-]).
  destruct (duration_component (String c s)) as [[v s']|]; [|done]. cbn [mbind option_bind].
  destruct (2 ^ 63 <? wrap64 (d + v))%N eqn:E; [done|]. apply IH. by apply N.ltb_ge.
Qed.

(** A parsed duration fits the 64-bit type. *)
Lemma ParseDuration_range s d : ParseDuration s = Some d -> (- 2 ^ 63 <= d < 2 ^ 63)%Z.
Proof.
  unfold ParseDuration. set (ns := match s with EmptyString => _ | String _ _ => _ end).
  destruct ns as [neg s']. case_bool_decide; [by intros [= <-]|]. case_bool_decide; [done|].
  destruct (duration_loop _ _ _) as [r|] eqn:E; [|done]. cbn [mbind option_bind].
  apply duration_loop_bound in E; [|done]. destruct neg; [intros [= <-]; lia|].
  destruct (2 ^ 63 - 1 <? r)%N eqn:Er; [done|]. apply N.ltb_ge in Er. intros [= <-]. lia.
Qed.
