(* ===== verification/Timestamp.v ===== *)
(** * Instants and their text (package time; expiryLayout of internal/store/store.go)

    An instant is the number of nanoseconds since Go's zero time, 1 January of
    year 1, UTC.  This file has the proleptic Gregorian calendar as package time
    computes it, the two layouts in which the registry stores instants, and the
    parser of RFC 3339.  The theorems: the texts of the fixed-width layout are
    ordered as the instants, and parsing gives back the instant. *)

From S2P Require Import Prelude GoStrings.

Local Open Scope Z_scope.

(** A [time.Time]; the zero value is the zero time. *)
Definition Time : Type := Z.
Definition IsZero (t : Time) : bool := bool_decide (t = 0).
Definition Before (t u : Time) : bool := bool_decide (t < u).

(** ** The calendar *)

Definition isLeap (year : Z) : bool :=
  (year mod 4 =? 0) && (negb (year mod 100 =? 0) || (year mod 400 =? 0)).

(** Days from 1 January of year 1 to 1 January of [year]. *)
Definition daysBeforeYear (year : Z) : Z :=
  let y := year - 1 in 365 * y + y / 4 - y / 100 + y / 400.

(** The year of a day and the day within the year, counted from 0: cycles of
    400, 100, 4 and 1 years are cut off, the last cycle of four being one of
    three and a longer one. *)
Definition yearOf (days : Z) : Z * Z :=
  let n400 := days / 146097 in
  let d400 := days mod 146097 in
  let n100 := Z.min 3 (d400 / 36524) in
  let d100 := d400 - 36524 * n100 in
  let n4 := d100 / 1461 in
  let d4 := d100 mod 1461 in
  let n1 := Z.min 3 (d4 / 365) in
  (400 * n400 + 100 * n100 + 4 * n4 + n1 + 1, d4 - 365 * n1).

(** [daysBefore]: days of a year that is no leap year before each month. *)
Definition daysBefore : list Z := [0; 31; 59; 90; 120; 151; 181; 212; 243; 273; 304; 334; 365].

(** The days of a year before a month, and the days of a month. *)
Definition daysBeforeMonth (leap : bool) (month : Z) : Z :=
  default 0 (daysBefore !! Z.to_nat (month - 1)) + (if leap && (2 <? month) then 1 else 0).
Definition daysIn (leap : bool) (month : Z) : Z :=
  daysBeforeMonth leap (month + 1) - daysBeforeMonth leap month.

(** Month and day of a day within the year. *)
Definition monthOf (leap : bool) (yday : Z) : Z * Z :=
  if leap && (yday =? 59) then (2, 29)
  else
    let day := if leap && (59 <? yday) then yday - 1 else yday in
    let month := day / 31 in
    let month := if default 0 (daysBefore !! Z.to_nat (month + 1)) <=? day then month + 1 else month in
    (month + 1, day - default 0 (daysBefore !! Z.to_nat month) + 1).

Record Fields : Type := mkFields {
  f_year : Z; f_month : Z; f_day : Z; f_hour : Z; f_min : Z; f_sec : Z; f_nsec : Z
}.

(** The fields of an instant in UTC. *)
Definition fields (t : Time) : Fields :=
  let days := t / 86400000000000 in
  let ns := t mod 86400000000000 in
  let sec := ns / 1000000000 in
  let '(year, yday) := yearOf days in
  let '(month, day) := monthOf (isLeap year) yday in
  mkFields year month day (sec / 3600) (sec mod 3600 / 60) (sec mod 60) (ns mod 1000000000).

(** [time.Date] in UTC, for fields in their ranges. *)
Definition Date (f : Fields) : Time :=
  let days := daysBeforeYear (f_year f) + daysBeforeMonth (isLeap (f_year f)) (f_month f) + (f_day f - 1) in
  ((days * 24 + f_hour f) * 60 + f_min f) * 60 * 1000000000 + f_sec f * 1000000000 + f_nsec f.

(** ** Layouts *)

Definition digit_char (n : Z) : ascii := ascii_of_N (48 + Z.to_N n).

(** The last [w] decimal digits. *)
Fixpoint digits (w : nat) (n : Z) : string :=
  match w with
  | O => EmptyString
  | S w' => String (digit_char (n / 10 ^ Z.of_nat w' mod 10)) (digits w' n)
  end.

(** Decimal digits without leading zeros, at least [w] of them; [fuel] bounds
    the number of digits. *)
Fixpoint width (fuel w : nat) (n : Z) : nat :=
  match fuel with
  | O => w
  | S fuel' => if n <? 10 ^ Z.of_nat w then w else width fuel' (S w) n
  end.

(** [appendInt(b, n, w)] *)
Definition appendInt (n : Z) (w : nat) : string :=
  if n <? 0 then "-" +:+ digits (width (Z.to_nat (Z.log2 (- n))) w (- n)) (- n)
  else digits (width (Z.to_nat (Z.log2 n)) w n) n.

Definition dateTime (f : Fields) : string :=
  appendInt (f_year f) 4 +:+ "-" +:+ appendInt (f_month f) 2 +:+ "-" +:+ appendInt (f_day f) 2
  +:+ "T" +:+ appendInt (f_hour f) 2 +:+ ":" +:+ appendInt (f_min f) 2 +:+ ":" +:+ appendInt (f_sec f) 2.

(** [t.UTC().Format(expiryLayout)]: nine fractional digits. *)
Definition formatTimestamp (t : Time) : string :=
  dateTime (fields t) +:+ "." +:+ digits 9 (f_nsec (fields t)) +:+ "Z".

(** [formatExpiry] *)
Definition formatExpiry (t : Time) : string := if IsZero t then EmptyString else formatTimestamp t.

(** The fraction of RFC3339Nano: no trailing zeros, and no point without digits. *)
Definition trim_zeros (s : string) : string := TrimRight s "0".
Definition fraction (ns : Z) : string :=
  match trim_zeros (digits 9 ns) with EmptyString => EmptyString | s => "." +:+ s end.

(** [t.Format(time.RFC3339Nano)] for an instant in UTC *)
Definition FormatRFC3339Nano (t : Time) : string :=
  dateTime (fields t) +:+ fraction (f_nsec (fields t)) +:+ "Z".

(** ** Parsing *)

Definition is_digit (c : ascii) : bool := between 48 57 (byteN c).

(** [parseUint] without the range: the value of a text of digits. *)
Fixpoint atoi (acc : Z) (s : string) : option Z :=
  match s with
  | EmptyString => Some acc
  | String c s' => if is_digit c then atoi (acc * 10 + (Z.of_N (byteN c) - 48)) s' else None
  end.
Definition parseUint (s : string) (min max : Z) : option Z :=
  match atoi 0 s with
  | Some x => if (min <=? x) && (x <=? max) then Some x else None
  | None => None
  end.

(** The digits at the start of a text, and the rest. *)
Fixpoint span_digits (s : string) : string * string :=
  match s with
  | String c s' => if is_digit c then let '(d, r) := span_digits s' in (String c d, r) else (EmptyString, s)
  | EmptyString => (EmptyString, EmptyString)
  end.

(** [parseNanoseconds] on the digits after the point: nine are read. *)
Definition nanoseconds (ds : string) : Z :=
  let ds := stake 9 ds in
  default 0 (atoi 0 ds) * 10 ^ (9 - Z.of_nat (String.length ds)).

(** The fraction, if there is one, and the rest. *)
Definition parse_fraction (s : string) : Z * string :=
  match s with
  | String c s' =>
      if bool_decide (c = "."%char) then
        match span_digits s' with
        | (EmptyString, _) => (0, s)
        | (ds, rest) => (nanoseconds ds, rest)
        end
      else (0, s)
  | EmptyString => (0, s)
  end.

(** The offset of a zone in seconds. *)
Definition parse_zone (s : string) : option Z :=
  if bool_decide (s = "Z") then Some 0
  else if (String.length s =? 6)%nat then
    hr ← parseUint (stake 2 (sdrop 1 s)) 0 23;
    mm ← parseUint (stake 2 (sdrop 4 s)) 0 59;
    match byte_at s 0, byte_at s 3 with
    | Some sign, Some colon =>
        if (bool_decide (sign = "-"%char) || bool_decide (sign = "+"%char)) && bool_decide (colon = ":"%char)
        then Some (if bool_decide (sign = "-"%char) then - ((hr * 60 + mm) * 60) else (hr * 60 + mm) * 60)
        else None
    | _, _ => None
    end
  else None.

(** Whether the byte of [s] at [i] is [c]. *)
Definition has_byte (s : string) (i : nat) (c : ascii) : bool := bool_decide (byte_at s i = Some c).

(** [parseRFC3339], which [time.Parse] tries for its two layouts. *)
Definition parseRFC3339 (s : string) : option Time :=
  if (String.length s <? 19)%nat then None
  else
    year ← parseUint (stake 4 s) 0 9999;
    month ← parseUint (stake 2 (sdrop 5 s)) 1 12;
    day ← parseUint (stake 2 (sdrop 8 s)) 1 (daysIn (isLeap year) month);
    hour ← parseUint (stake 2 (sdrop 11 s)) 0 23;
    min ← parseUint (stake 2 (sdrop 14 s)) 0 59;
    sec ← parseUint (stake 2 (sdrop 17 s)) 0 59;
    if has_byte s 4 "-" && has_byte s 7 "-" && has_byte s 10 "T" && has_byte s 13 ":" && has_byte s 16 ":" then
      let '(nsec, rest) := parse_fraction (sdrop 19 s) in
      offset ← parse_zone rest;
      Some (Date (mkFields year month day hour min sec nsec) - offset * 1000000000)
    else None.

Example epoch : formatTimestamp 0 = "0001-01-01T00:00:00.000000000Z".
Proof. vm_compute. reflexivity. Qed.
Example leap_day : formatTimestamp (Date (mkFields 2024 2 29 23 59 58 120)) = "2024-02-29T23:59:58.000000120Z".
Proof. vm_compute. reflexivity. Qed.
Example unix_epoch : Date (mkFields 1970 1 1 0 0 0 0) = 62135596800 * 1000000000.
Proof. vm_compute. reflexivity. Qed.
Example far_year : formatTimestamp (Date (mkFields 12024 12 31 0 0 0 0)) = "12024-12-31T00:00:00.000000000Z".
Proof. vm_compute. reflexivity. Qed.
Example nano_layout : FormatRFC3339Nano (Date (mkFields 2026 7 1 8 5 0 250000000)) = "2026-07-01T08:05:00.25Z".
Proof. vm_compute. reflexivity. Qed.
Example zones :
  parseRFC3339 <$> ["2026-07-01T08:05:00+02:00"; "2026-07-01T06:05:00Z"; "2026-02-29T06:05:00Z"; "2026-07-01 06:05:00Z"]
  = [Some (Date (mkFields 2026 7 1 6 5 0 0)); Some (Date (mkFields 2026 7 1 6 5 0 0)); None; None].
Proof. vm_compute. reflexivity. Qed.

(** ** Lemmas: the calendar *)

Definition yearLength (year : Z) : Z := if isLeap year then 366 else 365.

(** The year [400 a + 100 b + 4 c + e + 1] in cycles. *)
Lemma cycles a b c e :
  0 <= b <= 3 -> 0 <= c <= 24 -> 0 <= e <= 3 ->
  let y := 400 * a + 100 * b + 4 * c + e + 1 in
  daysBeforeYear y = 146097 * a + 36524 * b + 1461 * c + 365 * e
  /\ isLeap y = (e =? 3) && ((c <? 24) || (b =? 3)).
Proof.
  intros Hb Hc He y. unfold y, daysBeforeYear, isLeap. cbv zeta.
  replace (400 * a + 100 * b + 4 * c + e + 1 - 1) with (400 * a + 100 * b + 4 * c + e) by lia.
  assert (E4 : (400 * a + 100 * b + 4 * c + e) / 4 = 100 * a + 25 * b + c) by (Z.div_mod_to_equations; lia).
  assert (E100 : (400 * a + 100 * b + 4 * c + e) / 100 = 4 * a + b) by (Z.div_mod_to_equations; lia).
  assert (E400 : (400 * a + 100 * b + 4 * c + e) / 400 = a) by (Z.div_mod_to_equations; lia).
  rewrite E4, E100, E400. split; [lia|].
  assert (M4 : ((400 * a + 100 * b + 4 * c + e + 1) mod 4 =? 0) = (e =? 3)).
  { apply eq_bool_prop_intro. split; intros H%Is_true_true%Z.eqb_eq; apply Is_true_true, Z.eqb_eq; Z.div_mod_to_equations; lia. }
  assert (M100 : ((400 * a + 100 * b + 4 * c + e + 1) mod 100 =? 0) = (c =? 24) && (e =? 3)).
  { apply eq_bool_prop_intro. split; intros H%Is_true_true; apply Is_true_true; revert H;
      rewrite andb_true_iff, !Z.eqb_eq; intros; Z.div_mod_to_equations; lia. }
  assert (M400 : ((400 * a + 100 * b + 4 * c + e + 1) mod 400 =? 0) = (b =? 3) && (c =? 24) && (e =? 3)).
  { apply eq_bool_prop_intro. split; intros H%Is_true_true; apply Is_true_true; revert H;
      rewrite !andb_true_iff, !Z.eqb_eq; intros; Z.div_mod_to_equations; lia. }
  rewrite M4, M100, M400. destruct (Z.eqb_spec e 3), (Z.eqb_spec c 24), (Z.eqb_spec b 3), (Z.ltb_spec c 24); try done; lia.
Qed.

Lemma yearOf_spec days :
  let '(y, yday) := yearOf days in daysBeforeYear y + yday = days /\ 0 <= yday < yearLength y.
Proof.
  unfold yearOf.
  assert (Hd : days = 146097 * (days / 146097) + days mod 146097 /\ 0 <= days mod 146097 < 146097)
    by (Z.div_mod_to_equations; lia).
  revert Hd. generalize (days / 146097) as a, (days mod 146097) as d400. intros a d400 Hd. cbv zeta.
  assert (Hb : exists b, Z.min 3 (d400 / 36524) = b /\ 0 <= b <= 3 /\ 0 <= d400 - 36524 * b <= 36524
      /\ (b < 3 -> d400 - 36524 * b < 36524)).
  { eexists. split; [reflexivity|]. Z.div_mod_to_equations; lia. }
  destruct Hb as (b & -> & Hb).
  assert (Hc : exists d100, d400 - 36524 * b = d100) by eauto. destruct Hc as (d100 & Ed). rewrite Ed in *.
  assert (Hc : d100 = 1461 * (d100 / 1461) + d100 mod 1461 /\ 0 <= d100 mod 1461 < 1461)
    by (Z.div_mod_to_equations; lia).
  revert Hc. generalize (d100 / 1461) as c, (d100 mod 1461) as d4. intros c d4 Hc.
  assert (He : exists e, Z.min 3 (d4 / 365) = e /\ 0 <= e <= 3 /\ 0 <= d4 - 365 * e /\ (e < 3 -> d4 - 365 * e < 365)).
  { eexists. split; [reflexivity|]. Z.div_mod_to_equations; lia. }
  destruct He as (e & -> & He). assert (Hc' : 0 <= c <= 24) by lia.
  destruct (cycles a b c e) as [E L]; [lia..|]. unfold yearLength. rewrite E, L.
  split; [lia|]. destruct (Z.eqb_spec e 3), (Z.ltb_spec c 24), (Z.eqb_spec b 3); cbn [andb orb]; lia.
Qed.

Lemma daysBeforeYear_mono y y' : y <= y' -> daysBeforeYear y <= daysBeforeYear y'.
Proof. intros H. unfold daysBeforeYear. Z.div_mod_to_equations; lia. Qed.

(** Every year is a combination of cycles. *)
Lemma in_cycles y : exists a b c e, 0 <= b <= 3 /\ 0 <= c <= 24 /\ 0 <= e <= 3 /\
  y = 400 * a + 100 * b + 4 * c + e + 1.
Proof.
  exists ((y - 1) / 400), ((y - 1) mod 400 / 100), ((y - 1) mod 100 / 4), ((y - 1) mod 4).
  Z.div_mod_to_equations; lia.
Qed.

Lemma daysBeforeYear_next y : daysBeforeYear (y + 1) = daysBeforeYear y + yearLength y.
Proof.
  destruct (in_cycles y) as (a & b & c & e & Hb & Hc & He & ->).
  destruct (cycles a b c e Hb Hc He) as [E L]. unfold yearLength. rewrite E, L. clear E L.
  unfold daysBeforeYear. cbv zeta.
  destruct (Z.eqb_spec e 3), (Z.ltb_spec c 24), (Z.eqb_spec b 3); cbn [andb orb]; Z.div_mod_to_equations; lia.
Qed.

(** A day is in one year only. *)
Lemma yearOf_unique y yday : 0 <= yday < yearLength y -> yearOf (daysBeforeYear y + yday) = (y, yday).
Proof.
  intros H. pose proof (yearOf_spec (daysBeforeYear y + yday)) as S.
  destruct (yearOf _) as [y' yday']. destruct S as [E R].
  pose proof (daysBeforeYear_next y). pose proof (daysBeforeYear_next y').
  assert (y' = y) as ->.
  { destruct (Z.lt_trichotomy y y') as [Hlt|[->|Hlt]]; [|done|].
    - pose proof (daysBeforeYear_mono (y + 1) y'). lia.
    - pose proof (daysBeforeYear_mono (y' + 1) y). lia. }
  f_equal. lia.
Qed.

(** The days of a year, all of them: months and days in their ranges, the
    inverse of counting, and in order. *)
Definition month_ok (leap : bool) (n : nat) : bool :=
  let yday := Z.of_nat n in
  let '(m, d) := monthOf leap yday in
  let '(m', d') := monthOf leap (yday + 1) in
  (1 <=? m) && (m <=? 12) && (1 <=? d) && (d <=? daysIn leap m) && (d <=? 31)
  && (daysBeforeMonth leap m + (d - 1) =? yday)
  && ((m <? m') || ((m =? m') && (d <? d')) || (n =? (if leap then 365 else 364))%nat).

Lemma months_ok leap : forallb (month_ok leap) (seq 0 (if leap then 366 else 365)) = true.
Proof. destruct leap; vm_compute; reflexivity. Qed.

(** The bounds of the calendar's months, checked for all of them. *)
Lemma month_mono leap m m' : 1 <= m -> m < m' <= 13 -> daysBeforeMonth leap (m + 1) <= daysBeforeMonth leap m'.
Proof.
  intros H1 H2. assert (Hall : forallb (fun a => forallb (fun b =>
      implb (a <? b)%nat (daysBeforeMonth leap (Z.of_nat a + 1) <=? daysBeforeMonth leap (Z.of_nat b)))
      (seq 1 13)) (seq 1 13) = true) by (destruct leap; vm_compute; reflexivity).
  rewrite forallb_forall in Hall. specialize (Hall (Z.to_nat m)). rewrite forallb_forall in Hall.
  specialize (Hall (proj2 (in_seq 13 1 (Z.to_nat m)) ltac:(lia)) (Z.to_nat m') (proj2 (in_seq 13 1 (Z.to_nat m')) ltac:(lia))).
  rewrite (proj2 (Nat.ltb_lt _ _)) in Hall by lia. rewrite !Z2Nat.id in Hall by lia. by apply Z.leb_le.
Qed.

Lemma monthOf_spec (leap : bool) (yday : Z) :
  0 <= yday < (if leap then 366 else 365) ->
  let '(m, d) := monthOf leap yday in
  1 <= m <= 12 /\ 1 <= d <= daysIn leap m /\ d <= 31 /\ daysBeforeMonth leap m + (d - 1) = yday.
Proof.
  intros H. pose proof (months_ok leap) as Hall. rewrite forallb_forall in Hall.
  specialize (Hall (Z.to_nat yday)). rewrite in_seq in Hall. specialize (Hall ltac:(destruct leap; lia)).
  unfold month_ok in Hall. rewrite Z2Nat.id in Hall by lia.
  destruct (monthOf leap yday) as [m d]. destruct (monthOf leap (yday + 1)) as [m' d'].
  rewrite !andb_true_iff, !Z.leb_le, Z.eqb_eq in Hall. lia.
Qed.

(** Fields in their ranges. *)
Definition valid (f : Fields) : Prop :=
  1 <= f_month f <= 12 /\ 1 <= f_day f <= daysIn (isLeap (f_year f)) (f_month f) /\ f_day f <= 31
  /\ 0 <= f_hour f < 24 /\ 0 <= f_min f < 60 /\ 0 <= f_sec f < 60 /\ 0 <= f_nsec f < 1000000000.

Lemma fields_spec t : valid (fields t) /\ Date (fields t) = t.
Proof.
  unfold fields. pose proof (yearOf_spec (t / 86400000000000)) as Y.
  destruct (yearOf _) as [y yday]. destruct Y as [Ey Ry]. unfold yearLength in Ry.
  pose proof (monthOf_spec (isLeap y) yday Ry) as Mo. destruct (monthOf _ _) as [m d].
  unfold valid, Date. cbn [f_year f_month f_day f_hour f_min f_sec f_nsec].
  set (days := t / 86400000000000) in *. set (ns := t mod 86400000000000).
  assert (Ht : t = days * 86400000000000 + ns /\ 0 <= ns < 86400000000000).
  { unfold days, ns. Z.div_mod_to_equations; lia. }
  clearbody days ns. split; [|Z.div_mod_to_equations; lia].
  destruct Mo as (? & ? & ? & ?). split_and!; try done; try lia; Z.div_mod_to_equations; lia.
Qed.

(** ** Lemmas: order *)

(** The order of fields, most significant first. *)
Fixpoint lex (k k' : list Z) : Prop :=
  match k, k' with
  | x :: l, y :: l' => x < y \/ x = y /\ lex l l'
  | _, _ => False
  end.
Definition key (f : Fields) : list Z := [f_year f; f_month f; f_day f; f_hour f; f_min f; f_sec f; f_nsec f].

Lemma lex_total k k' : length k = length k' -> lex k k' \/ k = k' \/ lex k' k.
Proof.
  revert k'. induction k as [|x k IH]; intros [|y k'] H; try done; [auto|]. cbn in H. injection H as H.
  destruct (IH k' H) as [?|[->|?]]; destruct (Z.lt_trichotomy x y) as [?|[->|?]]; cbn; auto.
Qed.

Lemma key_inj f f' : key f = key f' -> f = f'.
Proof. destruct f, f'. unfold key. cbn. congruence. Qed.

Lemma Date_lex f f' : valid f -> valid f' -> lex (key f) (key f') -> Date f < Date f'.
Proof.
  destruct f as [y mo d h mi s n], f' as [y' mo' d' h' mi' s' n']. unfold valid, Date, key.
  cbn [f_year f_month f_day f_hour f_min f_sec f_nsec lex].
  intros (Hm & Hd & _ & Hh & Hi & Hs & Hn) (Hm' & Hd' & _ & Hh' & Hi' & Hs' & Hn') H.
  assert (Hdays : y < y' \/ y = y' /\ (mo < mo' \/ mo = mo' /\ d < d') ->
    daysBeforeYear y + daysBeforeMonth (isLeap y) mo + (d - 1)
      < daysBeforeYear y' + daysBeforeMonth (isLeap y') mo' + (d' - 1)).
  { assert (H0 : forall leap m, 1 <= m <= 13 -> 0 <= daysBeforeMonth leap m).
    { intros leap m Hm0. destruct (Z.eq_dec m 1) as [->|]; [by destruct leap|].
      pose proof (month_mono leap 1 m ltac:(lia) ltac:(lia)).
      assert (daysBeforeMonth leap (1 + 1) = 31) by by destruct leap. lia. }
    unfold daysIn in Hd, Hd'. intros [Hy|[-> [Hmo|[-> ?]]]]; [|..|lia].
    - pose proof (daysBeforeYear_mono (y + 1) y' ltac:(lia)) as Hy'. rewrite daysBeforeYear_next in Hy'.
      unfold yearLength in Hy'. pose proof (H0 (isLeap y') mo' ltac:(lia)).
      assert (daysBeforeMonth (isLeap y) (mo + 1) <= if isLeap y then 366 else 365); [|lia].
      destruct (Z.eq_dec mo 12) as [->|]; [by destruct (isLeap y)|].
      etransitivity; [apply (month_mono _ mo 13); lia|]. by destruct (isLeap y).
    - pose proof (month_mono (isLeap y') mo mo' ltac:(lia) ltac:(lia)). lia. }
  destruct H as [H|[-> [H|[-> [H|[-> H]]]]]]; [pose proof (Hdays ltac:(auto)); lia..|]. lia.
Qed.

(** Instants are ordered as their fields. *)
Lemma fields_lex t t' : t < t' -> lex (key (fields t)) (key (fields t')).
Proof.
  intros Hlt. destruct (fields_spec t) as [V E], (fields_spec t') as [V' E'].
  destruct (lex_total (key (fields t)) (key (fields t')) eq_refl) as [H|[H|H]]; [done|..].
  - apply key_inj in H. rewrite H in E. lia.
  - apply Date_lex in H; [lia|done..].
Qed.

(** ** Lemmas: the order of texts

    SQLite compares TEXT values byte by byte, a prefix being the smaller. *)
Fixpoint text_lt (s t : string) : bool :=
  match s, t with
  | _, EmptyString => false
  | EmptyString, String _ _ => true
  | String c s', String d t' => (byteN c <? byteN d)%N || (bool_decide (c = d) && text_lt s' t')
  end.
Definition text_le (s t : string) : bool := negb (text_lt t s).

Lemma text_lt_irrefl s : text_lt s s = false.
Proof. induction s as [|c s IH]; [done|]. cbn. rewrite N.ltb_irrefl, IH. by rewrite andb_false_r. Qed.

Lemma text_lt_asym s t : text_lt s t = true -> text_lt t s = false.
Proof.
  revert t. induction s as [|c s IH]; intros [|d t]; try done. cbn.
  intros [H%N.ltb_lt|[->%bool_decide_eq_true H]%andb_true_iff]%orb_true_iff.
  - rewrite (proj2 (N.ltb_ge _ _)) by lia. rewrite bool_decide_eq_false_2; [done|]. intros ->. lia.
  - by rewrite N.ltb_irrefl, (IH _ H), andb_false_r.
Qed.

Lemma digit_char_byte n : 0 <= n < 10 -> byteN (digit_char n) = (48 + Z.to_N n)%N.
Proof. intros H. unfold byteN, digit_char. apply N_ascii_embedding. lia. Qed.

Lemma mod_pow_succ w n :
  n mod 10 ^ Z.of_nat (S w) = (n / 10 ^ Z.of_nat w mod 10) * 10 ^ Z.of_nat w + n mod 10 ^ Z.of_nat w.
Proof.
  rewrite Nat2Z.inj_succ, Z.pow_succ_r by lia. rewrite Z.mul_comm, Z.rem_mul_r; lia.
Qed.

(** Equal-width digits followed by texts: the numbers decide, then the texts. *)
Lemma digits_lt w n m s t :
  n mod 10 ^ Z.of_nat w < m mod 10 ^ Z.of_nat w -> text_lt (digits w n +:+ s) (digits w m +:+ t) = true.
Proof.
  revert n m. induction w as [|w IH]; intros n m; [rewrite !Z.mod_1_r; lia|].
  rewrite !mod_pow_succ. cbn [digits]. rewrite !sapp_cons. cbn [text_lt].
  set (p := 10 ^ Z.of_nat w). assert (Hp : 0 < p) by (apply Z.pow_pos_nonneg; lia).
  pose proof (Z.mod_pos_bound n p Hp). pose proof (Z.mod_pos_bound m p Hp).
  pose proof (Z.mod_pos_bound (n / p) 10 ltac:(lia)). pose proof (Z.mod_pos_bound (m / p) 10 ltac:(lia)).
  intros Hlt. rewrite !digit_char_byte by done. apply orb_true_iff.
  destruct (Z.lt_trichotomy (n / p mod 10) (m / p mod 10)) as [?|[E|?]]; [|right|nia].
  - left. apply N.ltb_lt. lia.
  - rewrite E, bool_decide_eq_true_2 by done. apply IH. fold p. lia.
Qed.

Lemma text_lt_common p s t : text_lt (p +:+ s) (p +:+ t) = text_lt s t.
Proof.
  induction p as [|c p IH]; [done|]. rewrite !sapp_cons. cbn.
  by rewrite N.ltb_irrefl, bool_decide_eq_true_2, IH.
Qed.

(** One field of a layout. *)
Lemma field_lt w n m s t :
  0 <= n < 10 ^ Z.of_nat w -> 0 <= m < 10 ^ Z.of_nat w -> n < m \/ n = m /\ text_lt s t = true ->
  text_lt (digits w n +:+ s) (digits w m +:+ t) = true.
Proof.
  intros Hn Hm [H|[-> H]]; [|by rewrite text_lt_common].
  apply digits_lt. by rewrite !Z.mod_small.
Qed.

Lemma appendInt_width n w : 0 <= n < 10 ^ Z.of_nat w -> appendInt n w = digits w n.
Proof.
  intros H. unfold appendInt. rewrite (proj2 (Z.ltb_ge _ _)) by lia. f_equal.
  destruct (Z.to_nat (Z.log2 n)); cbn; [done|]. by rewrite (proj2 (Z.ltb_lt _ _)) by lia.
Qed.

Definition four_digits (t : Time) : Prop := 0 <= f_year (fields t) < 10000.

(** An instant between two in years of four digits. *)
Lemma four_digits_between lo t hi : four_digits lo -> four_digits hi -> lo <= t <= hi -> four_digits t.
Proof.
  assert (Hy : forall a b, a <= b -> f_year (fields a) <= f_year (fields b)).
  { intros a b Hab. destruct (Z.eq_dec a b) as [->|]; [lia|]. pose proof (fields_lex a b ltac:(lia)) as H. cbn [key lex] in H. lia. }
  unfold four_digits. intros Hlo Hhi [H1%Hy H2%Hy]. lia.
Qed.

(** The fields of an instant in a year of four digits, in the layout. *)
Lemma dateTime_eq t :
  four_digits t ->
  let f := fields t in
  dateTime f = digits 4 (f_year f) +:+ "-" +:+ digits 2 (f_month f) +:+ "-" +:+ digits 2 (f_day f)
    +:+ "T" +:+ digits 2 (f_hour f) +:+ ":" +:+ digits 2 (f_min f) +:+ ":" +:+ digits 2 (f_sec f).
Proof.
  intros Hy f. destruct (fields_spec t) as [(? & ? & ? & ? & ? & ? & ?) _]. unfold dateTime, f.
  rewrite !appendInt_width; [done|unfold four_digits in Hy; lia..].
Qed.

(** Compare the next field of two texts, from the order [L] of the fields left. *)
Ltac next_field L :=
  apply field_lt; [lia..|]; destruct L as [L|[? L]]; [by left|right; split; [done|]]; rewrite text_lt_common.

(** The texts of the fixed-width layout are ordered as the instants. *)
Lemma formatTimestamp_mono t t' :
  four_digits t -> four_digits t' -> t < t' -> text_lt (formatTimestamp t) (formatTimestamp t') = true.
Proof.
  intros Hy Hy' Hlt. pose proof (fields_lex t t' Hlt) as L.
  unfold formatTimestamp. rewrite !dateTime_eq by done. rewrite !sapp_assoc.
  destruct (fields_spec t) as [(? & ? & ? & ? & ? & ? & ?) _].
  destruct (fields_spec t') as [(? & ? & ? & ? & ? & ? & ?) _].
  unfold four_digits in *. unfold key in L. cbn [lex] in L.
  do 6 next_field L.
  apply field_lt; [lia..|]. destruct L as [L|[_ []]]. by left.
Qed.

Lemma formatTimestamp_lt t t' :
  four_digits t -> four_digits t' -> text_lt (formatTimestamp t) (formatTimestamp t') = true <-> t < t'.
Proof.
  intros Hy Hy'. split; [|by apply formatTimestamp_mono]. intros H.
  destruct (Z.lt_trichotomy t t') as [?|[->|Hgt]]; [done|by rewrite text_lt_irrefl in H|].
  apply formatTimestamp_mono, text_lt_asym in Hgt; [congruence|done..].
Qed.

(** ** Lemmas: parsing *)

Lemma digit_char_is n : 0 <= n < 10 -> is_digit (digit_char n) = true.
Proof.
  intros H. unfold is_digit, between. rewrite digit_char_byte by done.
  apply andb_true_iff. rewrite !N.leb_le. lia.
Qed.

Lemma atoi_app acc s t x : atoi acc s = Some x -> atoi acc (s +:+ t) = atoi x t.
Proof.
  revert acc. induction s as [|c s IH]; intros acc; [by intros [= ->]|]. rewrite sapp_cons. cbn.
  destruct (is_digit c); [apply IH|done].
Qed.

Lemma atoi_digits w n acc : atoi acc (digits w n) = Some (acc * 10 ^ Z.of_nat w + n mod 10 ^ Z.of_nat w).
Proof.
  revert acc. induction w as [|w IH]; intros acc; [cbn; rewrite Z.mod_1_r; f_equal; lia|].
  cbn [digits atoi]. pose proof (Z.mod_pos_bound (n / 10 ^ Z.of_nat w) 10 ltac:(lia)).
  rewrite digit_char_is, digit_char_byte by done. rewrite IH, mod_pow_succ.
  rewrite Nat2Z.inj_succ, Z.pow_succ_r by lia. f_equal. lia.
Qed.

Lemma parseUint_digits w n min max :
  0 <= n < 10 ^ Z.of_nat w -> min <= n <= max -> parseUint (digits w n) min max = Some n.
Proof.
  intros Hn Hr. unfold parseUint. rewrite atoi_digits, Z.mod_small by done. cbn [Z.mul Z.add].
  by rewrite (proj2 (Z.leb_le _ _)), (proj2 (Z.leb_le _ _)) by lia.
Qed.

Lemma digits_length w n : String.length (digits w n) = w.
Proof. induction w as [|w IH]; cbn; congruence. Qed.

(** Reading the date and time of a text of the layouts. *)
Lemma parse_dateTime t rest :
  four_digits t ->
  parseRFC3339 (dateTime (fields t) +:+ rest) =
    let '(nsec, zone) := parse_fraction rest in
    offset ← parse_zone zone; Some (t - f_nsec (fields t) + nsec - offset * 1000000000).
Proof.
  intros Hy. destruct (fields_spec t) as [V E]. rewrite dateTime_eq by done. cbv zeta.
  destruct (fields t) as [y mo d h mi sc ns] eqn:Ef. unfold four_digits in Hy. rewrite Ef in Hy.
  unfold valid in V. cbn [f_year f_month f_day f_hour f_min f_sec f_nsec] in *.
  destruct V as (Hmo & Hd & Hd' & Hh & Hmi & Hs & _). rewrite !sapp_assoc.
  set (s := digits 4 y +:+ _). unfold parseRFC3339.
  change (String.length s) with (19 + String.length rest)%nat. cbn [Nat.ltb Nat.leb Nat.add].
  change (stake 4 s) with (digits 4 y). change (stake 2 (sdrop 5 s)) with (digits 2 mo).
  change (stake 2 (sdrop 8 s)) with (digits 2 d). change (stake 2 (sdrop 11 s)) with (digits 2 h).
  change (stake 2 (sdrop 14 s)) with (digits 2 mi). change (stake 2 (sdrop 17 s)) with (digits 2 sc).
  change (sdrop 19 s) with rest.
  rewrite (parseUint_digits 4), (parseUint_digits 2 mo) by lia. cbn [mbind option_bind].
  rewrite (parseUint_digits 2 d), (parseUint_digits 2 h), (parseUint_digits 2 mi), (parseUint_digits 2 sc) by lia.
  cbn [mbind option_bind].
  change (has_byte s 4 "-" && has_byte s 7 "-" && has_byte s 10 "T" && has_byte s 13 ":" && has_byte s 16 ":") with true.
  destruct (parse_fraction rest) as [nsec zone]. destruct (parse_zone zone) as [off|]; [|done].
  cbn [mbind option_bind]. f_equal. rewrite <- E. unfold Date. cbn [f_year f_month f_day f_hour f_min f_sec f_nsec]. lia.
Qed.

Fixpoint zero_digits (k : nat) : string :=
  match k with O => EmptyString | S k' => String "0" (zero_digits k') end.

Lemma trim_zeros_spec s : exists k, s = trim_zeros s +:+ zero_digits k.
Proof.
  unfold trim_zeros. induction s as [|c s [k IH]]; [by exists 0%nat|]. cbn [TrimRight byte_in].
  destruct (TrimRight s "0") as [|d u].
  - rewrite sapp_nil in IH. subst s. rewrite orb_false_r.
    case_bool_decide; subst; [by exists (S k)|by exists k].
  - exists k. rewrite sapp_cons. by f_equal.
Qed.

Lemma atoi_zeros k x : atoi x (zero_digits k) = Some (x * 10 ^ Z.of_nat k).
Proof.
  revert x. induction k as [|k IH]; intros x; [cbn; f_equal; lia|]. cbn [zero_digits atoi].
  change (is_digit "0") with true. cbv iota. rewrite IH.
  change (Z.of_N (byteN "0") - 48) with 0. rewrite Nat2Z.inj_succ, Z.pow_succ_r by lia. f_equal. lia.
Qed.

Definition all_digits (s : string) : bool := sforall is_digit s.

Lemma digits_all w n : all_digits (digits w n) = true.
Proof.
  unfold all_digits. induction w as [|w IH]; cbn; [done|]. rewrite IH, digit_char_is; [done|].
  apply Z.mod_pos_bound. lia.
Qed.

Lemma all_digits_app s t : all_digits (s +:+ t) = all_digits s && all_digits t.
Proof. unfold all_digits. induction s as [|c s IH]; [done|]. rewrite sapp_cons. cbn. by rewrite IH, andb_assoc. Qed.

Lemma span_digits_app s c t :
  all_digits s = true -> is_digit c = false -> span_digits (s +:+ String c t) = (s, String c t).
Proof.
  intros Hs Hc. induction s as [|d s IH]; [rewrite sapp_nil; cbn; by rewrite Hc|].
  apply andb_true_iff in Hs as [Hd Hs]. rewrite sapp_cons. cbn. by rewrite Hd, (IH Hs).
Qed.

Lemma atoi_total s acc : all_digits s = true -> is_Some (atoi acc s).
Proof.
  revert acc. induction s as [|c s IH]; intros acc Hs; cbn; [eauto|].
  apply andb_true_iff in Hs as [-> Hs]. by apply IH.
Qed.

(** Nanoseconds survive the trimming of zeros. *)
Lemma nanoseconds_trim ns : 0 <= ns < 1000000000 -> nanoseconds (trim_zeros (digits 9 ns)) = ns.
Proof.
  intros H. destruct (trim_zeros_spec (digits 9 ns)) as [k E]. set (ds := trim_zeros _) in *.
  assert (Hl : (String.length ds + k = 9)%nat).
  { rewrite <- (digits_length 9 ns), E, slength_app. f_equal.
    clear. induction k as [|k IH]; cbn; congruence. }
  unfold nanoseconds. replace (stake 9 ds) with ds.
  2:{ rewrite <- (stake_sdrop 9 ds) at 1. replace (sdrop 9 ds) with EmptyString; [apply sapp_nil_r|].
      pose proof (sdrop_length 9 ds) as Hd. destruct (sdrop 9 ds); [done|cbn [String.length] in Hd; lia]. }
  destruct (atoi_total ds 0) as [x Hx].
  { pose proof (digits_all 9 ns) as Ha. rewrite E, all_digits_app in Ha. by apply andb_true_iff in Ha as [Ha _]. }
  pose proof (atoi_digits 9 ns 0) as Ed. rewrite E, (atoi_app _ _ _ _ Hx), atoi_zeros in Ed.
  injection Ed as Ed. rewrite Hx. cbn [default]. rewrite Z.mod_small in Ed by lia.
  replace (9 - Z.of_nat (String.length ds)) with (Z.of_nat k) by lia. unfold from_option, id. lia.
Qed.

Lemma nanoseconds_digits ns : 0 <= ns < 1000000000 -> nanoseconds (digits 9 ns) = ns.
Proof.
  intros H. unfold nanoseconds. change (stake 9 (digits 9 ns)) with (digits 9 ns).
  rewrite atoi_digits, digits_length, Z.mod_small by lia. cbn. lia.
Qed.

Lemma parse_fraction_digits ds :
  all_digits ds = true -> ds <> EmptyString -> parse_fraction ("." +:+ ds +:+ "Z") = (nanoseconds ds, "Z").
Proof.
  intros Ha Hn. change ("." +:+ ds +:+ "Z") with (String "." (ds +:+ "Z")). cbn [parse_fraction].
  rewrite bool_decide_eq_true_2 by done. change "Z" with (String "Z" EmptyString).
  rewrite span_digits_app by done. by destruct ds.
Qed.

Lemma parse_zone_Z : parse_zone "Z" = Some 0.
Proof. reflexivity. Qed.

Lemma formatTimestamp_nonempty t : formatTimestamp t <> EmptyString.
Proof.
  unfold formatTimestamp. intros H%(f_equal String.length). rewrite !slength_app in H.
  cbn [String.length] in H. lia.
Qed.

(** Both layouts are read back. *)
Lemma parse_formatTimestamp t : four_digits t -> parseRFC3339 (formatTimestamp t) = Some t.
Proof.
  intros Hy. destruct (fields_spec t) as [(_ & _ & _ & _ & _ & _ & Hn) _].
  unfold formatTimestamp. rewrite parse_dateTime by done.
  rewrite parse_fraction_digits; [|apply digits_all|done]. rewrite nanoseconds_digits by done.
  rewrite parse_zone_Z. cbn [mbind option_bind]. f_equal. lia.
Qed.

Lemma parse_FormatRFC3339Nano t : four_digits t -> parseRFC3339 (FormatRFC3339Nano t) = Some t.
Proof.
  intros Hy. destruct (fields_spec t) as [(_ & _ & _ & _ & _ & _ & Hn) _].
  unfold FormatRFC3339Nano. rewrite parse_dateTime by done.
  assert (parse_fraction (fraction (f_nsec (fields t)) +:+ "Z") = (f_nsec (fields t), "Z")) as ->.
  2:{ rewrite parse_zone_Z. cbn [mbind option_bind]. f_equal. lia. }
  pose proof (nanoseconds_trim (f_nsec (fields t)) Hn) as E. unfold fraction.
  destruct (trim_zeros (digits 9 (f_nsec (fields t)))) as [|c ds] eqn:Et.
  - change (nanoseconds EmptyString) with 0 in E. by rewrite <- E.
  - rewrite sapp_assoc, parse_fraction_digits; [by rewrite E| |done].
    destruct (trim_zeros_spec (digits 9 (f_nsec (fields t)))) as [k Ek].
    pose proof (digits_all 9 (f_nsec (fields t))) as Ha. rewrite Ek, all_digits_app, Et in Ha.
    by apply andb_true_iff in Ha as [Ha _].
Qed.

(** C33.  The layout of the registry sorts and reads back: for instants in years of
    four digits, the byte order of the texts that DeleteExpired's SQL relies on is
    the order of time, and parsing a text gives the instant it was made from. *)
Theorem expiry_layout_sorts t t' :
  four_digits t -> four_digits t' ->
  (text_le (formatTimestamp t) (formatTimestamp t') = true <-> t <= t')
  /\ parseRFC3339 (formatTimestamp t) = Some t.
Proof.
  intros Hy Hy'. split; [|by apply parse_formatTimestamp].
  unfold text_le. rewrite negb_true_iff, <- not_true_iff_false, formatTimestamp_lt by done. lia.
Qed.

Lemma expiry_layout_sorts_witness :
  let t := Date (mkFields 2026 12 31 23 59 59 999999999) in
  let t' := Date (mkFields 2027 1 1 0 0 0 0) in
  (text_le (formatTimestamp t) (formatTimestamp t') = true <-> t <= t') /\ parseRFC3339 (formatTimestamp t) = Some t.
Proof. apply expiry_layout_sorts; vm_compute; split; congruence. Defined.

(** Beyond year 9999 the layout has five digits and no longer sorts. *)
Example far_years_do_not_sort :
  text_le (formatTimestamp (Date (mkFields 10000 1 1 0 0 0 0))) (formatTimestamp (Date (mkFields 2026 1 1 0 0 0 0))) = true.
Proof. vm_compute. reflexivity. Qed.
