(* ===== verification/Base64.v ===== *)
(** * Base64 without padding (package encoding/base64)

    RawStdEncoding, in which the registry keeps encrypted passwords, and
    RawURLEncoding, in which it writes random tokens; the decoder, with its round
    trip. *)

From S2P Require Import Prelude GoStrings.

Local Open Scope N_scope.

(** The character of a value below 64; [c62] and [c63] are the last two of the
    alphabet. *)
Definition sextet_char (c62 c63 : ascii) (n : N) : ascii :=
  if n <? 26 then ascii_of_N (65 + n)
  else if n <? 52 then ascii_of_N (97 + (n - 26))
  else if n <? 62 then ascii_of_N (48 + (n - 52))
  else if n =? 62 then c62 else c63.

Definition char_sextet (c62 c63 c : ascii) : option N :=
  let b := byteN c in
  if between 65 90 b then Some (b - 65)
  else if between 97 122 b then Some (b - 97 + 26)
  else if between 48 57 b then Some (b - 48 + 52)
  else if bool_decide (c = c62) then Some 62
  else if bool_decide (c = c63) then Some 63
  else None.

Section Alphabet.
Variables c62 c63 : ascii.
Let char : N -> ascii := sextet_char c62 c63.

(** [EncodeToString]: three bytes are four characters; one or two bytes that are
    left are two or three. *)
Fixpoint encode (s : string) : string :=
  match s with
  | String b0 (String b1 (String b2 s')) =>
      let n := byteN b0 * 65536 + byteN b1 * 256 + byteN b2 in
      String (char (n / 262144)) (String (char (n / 4096 mod 64))
        (String (char (n / 64 mod 64)) (String (char (n mod 64)) (encode s'))))
  | String b0 (String b1 EmptyString) =>
      let n := byteN b0 * 65536 + byteN b1 * 256 in
      String (char (n / 262144)) (String (char (n / 4096 mod 64)) (String (char (n / 64 mod 64)) EmptyString))
  | String b0 EmptyString =>
      let n := byteN b0 * 65536 in
      String (char (n / 262144)) (String (char (n / 4096 mod 64)) EmptyString)
  | EmptyString => EmptyString
  end.

(** The values of a text; line breaks are skipped. *)
Fixpoint sextets (s : string) : option (list N) :=
  match s with
  | EmptyString => Some []
  | String c s' =>
      if (byteN c =? 10) || (byteN c =? 13) then sextets s'
      else
        match char_sextet c62 c63 c, sextets s' with
        | Some n, Some ns => Some (n :: ns)
        | _, _ => None
        end
  end.

Definition octet (n : N) : ascii := ascii_of_N (n mod 256).

(** The bytes of the values; bits that fill no byte are not looked at, and a
    single value at the end is an error. *)
Fixpoint octets (ns : list N) : option string :=
  match ns with
  | s0 :: s1 :: s2 :: s3 :: ns' =>
      let n := s0 * 262144 + s1 * 4096 + s2 * 64 + s3 in
      match octets ns' with
      | Some s => Some (String (octet (n / 65536)) (String (octet (n / 256)) (String (octet n) s)))
      | None => None
      end
  | [s0; s1; s2] =>
      let n := s0 * 262144 + s1 * 4096 + s2 * 64 in
      Some (String (octet (n / 65536)) (String (octet (n / 256)) EmptyString))
  | [s0; s1] => Some (String (octet ((s0 * 262144 + s1 * 4096) / 65536)) EmptyString)
  | [_] => None
  | [] => Some EmptyString
  end.

(** [DecodeString] *)
Definition decode (s : string) : option string :=
  match sextets s with Some ns => octets ns | None => None end.
End Alphabet.

(** The two alphabets. *)
Definition RawStd_Encode : string -> string := encode "+" "/".
Definition RawStd_Decode : string -> option string := decode "+" "/".
Definition RawURL_Encode : string -> string := encode "-" "_".

Example encoded : RawStd_Encode <$> [""; "M"; "Ma"; "Man"; "Many"; "???~~~"] = [""; "TQ"; "TWE"; "TWFu"; "TWFueQ"; "Pz8/fn5+"].
Proof. vm_compute. reflexivity. Qed.
Example decoded : RawStd_Decode <$> ["TWFueQ"; "TWFu"; "T"; "TQ=="; "T*"] = [Some "Many"; Some "Man"; None; None; None].
Proof. vm_compute. reflexivity. Qed.

(** ** Lemmas *)

(** The last characters of an alphabet: no letter, no digit, no line break. *)
Definition alphabet_ok (c62 c63 : ascii) : bool :=
  bool_decide (char_sextet c62 c63 c62 = Some 62) && bool_decide (char_sextet c62 c63 c63 = Some 63)
  && forallb (fun c => negb ((byteN c =? 10) || (byteN c =? 13))) [c62; c63].

Section Roundtrip.
Variables c62 c63 : ascii.
Hypothesis Hok : alphabet_ok c62 c63 = true.

Lemma sextet_char_spec n :
  n < 64 -> char_sextet c62 c63 (sextet_char c62 c63 n) = Some n
         /\ ((byteN (sextet_char c62 c63 n) =? 10) || (byteN (sextet_char c62 c63 n) =? 13)) = false.
Proof.
  intros Hn. unfold alphabet_ok in Hok. cbn [forallb] in Hok.
  rewrite !andb_true_iff, !bool_decide_eq_true, !negb_true_iff in Hok.
  destruct Hok as [[H62 H63] [L62 [L63 _]]].
  assert (Hc : n < 62 \/ n = 62 \/ n = 63) by lia. destruct Hc as [Hc|[->| ->]]; [|done..].
  unfold sextet_char, char_sextet, between, byteN.
  destruct (N.ltb_spec n 26); [|destruct (N.ltb_spec n 52); [|rewrite (proj2 (N.ltb_lt n 62)) by lia]];
    rewrite N_ascii_embedding by lia;
    repeat match goal with |- context [(?a <=? ?b)] => destruct (N.leb_spec a b); try lia end;
    repeat match goal with |- context [(?a =? ?b)] => destruct (N.eqb_spec a b); try lia end;
    cbn [andb orb]; split; try done; f_equal; lia.
Qed.

Lemma sextets_char n s :
  n < 64 -> sextets c62 c63 (String (sextet_char c62 c63 n) s) = cons n <$> sextets c62 c63 s.
Proof.
  intros Hn. destruct (sextet_char_spec n Hn) as [E L]. cbn [sextets]. rewrite L, E.
  by destruct (sextets c62 c63 s).
Qed.

Lemma byte_bound c : byteN c < 256.
Proof. unfold byteN. pose proof (Ascii.N_ascii_bounded c). done. Qed.

Lemma octet_byte n c : n mod 256 = byteN c -> octet n = c.
Proof. intros E. unfold octet. rewrite E. apply ascii_N_embedding. Qed.

Lemma group_bytes x y z :
  x < 256 -> y < 256 -> z < 256 ->
  let n := x * 65536 + y * 256 + z in
  (n / 65536) mod 256 = x /\ (n / 256) mod 256 = y /\ n mod 256 = z.
Proof.
  intros Hx Hy Hz n. unfold n.
  assert (E1 : (x * 65536 + y * 256 + z) / 65536 = x) by (symmetry; apply (N.div_unique _ _ _ (y * 256 + z)); lia).
  assert (E2 : (x * 65536 + y * 256 + z) / 256 = x * 256 + y) by (symmetry; apply (N.div_unique _ _ _ z); lia).
  rewrite E1, E2. split_and!.
  - by apply N.mod_small.
  - symmetry. apply (N.mod_unique _ _ x); lia.
  - symmetry. apply (N.mod_unique _ _ (x * 256 + y)); lia.
Qed.

(** The values of the characters are below 64. *)
Ltac small := first [apply N.mod_lt; discriminate | apply N.Div0.div_lt_upper_bound; lia].

Lemma group_values n : n / 262144 * 262144 + n / 4096 mod 64 * 4096 + n / 64 mod 64 * 64 + n mod 64 = n.
Proof.
  pose proof (N.div_mod n 64 ltac:(done)). pose proof (N.div_mod (n / 64) 64 ltac:(done)).
  pose proof (N.div_mod (n / 4096) 64 ltac:(done)).
  assert (n / 4096 = n / 64 / 64) by by rewrite N.Div0.div_div.
  assert (n / 262144 = n / 4096 / 64) by by rewrite N.Div0.div_div. lia.
Qed.

Lemma sextets_encode_cons b0 b1 b2 s :
  decode c62 c63 (encode c62 c63 s) = Some s ->
  decode c62 c63 (encode c62 c63 (String b0 (String b1 (String b2 s)))) = Some (String b0 (String b1 (String b2 s))).
Proof.
  pose proof (byte_bound b0). pose proof (byte_bound b1). pose proof (byte_bound b2).
  unfold decode. intros IH. cbn [encode]. cbv zeta. set (n := byteN b0 * 65536 + byteN b1 * 256 + byteN b2).
  rewrite !sextets_char by small.
  destruct (sextets c62 c63 (encode c62 c63 s)) as [ns|]; [|done]. cbn [fmap option_fmap option_map octets]. rewrite IH.
  cbv zeta. f_equal.
  rewrite (group_values n).
  destruct (group_bytes (byteN b0) (byteN b1) (byteN b2)) as (E0 & E1 & E2); [done..|].
  fold n in E0, E1, E2. by rewrite (octet_byte _ b0 E0), (octet_byte _ b1 E1), (octet_byte _ b2 E2).
Qed.

Lemma decode_encode s : decode c62 c63 (encode c62 c63 s) = Some s.
Proof.
  assert (H : forall k s, (String.length s <= k)%nat -> decode c62 c63 (encode c62 c63 s) = Some s).
  { induction k as [|k IH]; intros [|b0 [|b1 [|b2 s']]] Hl; cbn [String.length] in Hl; try done; try lia.
    - pose proof (byte_bound b0). unfold decode. cbn [encode]. cbv zeta. set (n := byteN b0 * 65536).
      rewrite !sextets_char by small. cbn [sextets fmap option_fmap option_map octets].
      pose proof (group_values n) as G. destruct (group_bytes (byteN b0) 0 0) as (E0 & _); [done..|].
      replace (byteN b0 * 65536 + 0 * 256 + 0) with n in E0 by (unfold n; lia).
      assert (n mod 64 = 0) by (symmetry; apply (N.mod_unique _ _ (byteN b0 * 1024)); unfold n; lia).
      assert (E64 : n / 64 = byteN b0 * 16 * 64) by (symmetry; apply (N.div_unique _ _ _ 0); unfold n; lia).
      assert ((n / 64) mod 64 = 0) by (rewrite E64; apply N.Div0.mod_mul).
      replace (n / 262144 * 262144 + n / 4096 mod 64 * 4096) with n by lia. by rewrite (octet_byte _ b0 E0).
    - pose proof (byte_bound b0). pose proof (byte_bound b1). unfold decode. cbn [encode]. cbv zeta.
      set (n := byteN b0 * 65536 + byteN b1 * 256).
      rewrite !sextets_char by small. cbn [sextets fmap option_fmap option_map octets]. cbv zeta.
      pose proof (group_values n) as G. destruct (group_bytes (byteN b0) (byteN b1) 0) as (E0 & E1 & _); [done..|].
      replace (byteN b0 * 65536 + byteN b1 * 256 + 0) with n in E0, E1 by (unfold n; lia).
      assert (n mod 64 = 0) by (symmetry; apply (N.mod_unique _ _ (byteN b0 * 1024 + byteN b1 * 4)); unfold n; lia).
      replace (n / 262144 * 262144 + n / 4096 mod 64 * 4096 + n / 64 mod 64 * 64) with n by lia.
      by rewrite (octet_byte _ b0 E0), (octet_byte _ b1 E1).
    - apply sextets_encode_cons, IH. lia. }
  by apply (H (String.length s)).
Qed.
End Roundtrip.

Lemma RawStd_roundtrip s : RawStd_Decode (RawStd_Encode s) = Some s.
Proof. by apply decode_encode. Qed.

(** The length of a text: four characters for three bytes, rounded up. *)
Lemma encode_length c62 c63 s :
  String.length (encode c62 c63 s) = ((4 * String.length s + 2) / 3)%nat.
Proof.
  assert (H : forall k s, (String.length s <= k)%nat ->
    String.length (encode c62 c63 s) = ((4 * String.length s + 2) / 3)%nat).
  { induction k as [|k IH]; intros [|b0 [|b1 [|b2 s']]] Hl; cbn [String.length] in Hl; try done; try lia.
    cbn [encode String.length]. rewrite IH by lia.
    replace (4 * S (S (S (String.length s'))) + 2)%nat with (4 * 3 + (4 * String.length s' + 2))%nat by lia.
    rewrite Nat.div_add_l by lia. lia. }
  by apply (H (String.length s)).
Qed.

(** A property of the 64 characters is a property of every text. *)
Lemma encode_forall c62 c63 p s :
  forallb (fun i => p (sextet_char c62 c63 (N.of_nat i))) (seq 0 64) = true -> sforall p (encode c62 c63 s) = true.
Proof.
  intros H. assert (Hc : forall n, p (sextet_char c62 c63 n) = true).
  { rewrite forallb_forall in H. intros n. destruct (N.ltb_spec n 64).
    - rewrite <- (N2Nat.id n). apply H, in_seq. lia.
    - replace (sextet_char c62 c63 n) with (sextet_char c62 c63 (N.of_nat 63)) by
        (unfold sextet_char; do 2 (repeat rewrite (proj2 (N.ltb_ge _ _)) by lia); by rewrite (proj2 (N.eqb_neq n 62)) by lia).
      apply H, in_seq. lia. }
  enough (Hk : forall k s, (String.length s <= k)%nat -> sforall p (encode c62 c63 s) = true) by by apply (Hk (String.length s)).
  induction k as [|k IH]; intros [|b0 [|b1 [|b2 s']]] Hl; cbn [String.length] in Hl; try done; try lia;
    cbn [encode sforall]; rewrite !Hc; [done..|]. apply IH. lia.
Qed.
