(* ===== verification/GoNet.v ===== *)
(** * Addresses, numbers and URLs (packages net, strconv and net/url)

    Splitting and joining host and port, IP addresses as far as IsLoopback needs
    them, [strconv.ParseInt], [strconv.Atoi] and [url.QueryEscape]. *)

From S2P Require Import Prelude GoStrings GoText Timestamp.

(** ** Package strings *)

(** [strings.LastIndexByte] *)
Fixpoint LastIndexByte (s : string) (b : ascii) : option nat :=
  match s with
  | EmptyString => None
  | String c s' =>
      match LastIndexByte s' b with
      | Some i => Some (S i)
      | None => if bool_decide (c = b) then Some 0 else None
      end
  end.

(** [strings.CutSuffix] for a suffix of one byte. *)
Definition CutSuffix (s : string) (b : ascii) : option string :=
  let n := String.length s in
  if bool_decide (byte_at s (n - 1) = Some b) then Some (stake (n - 1) s) else None.

Definition has_byte_in (s : string) (b : ascii) : bool := if IndexByte s b is Some _ then true else false.

(** [strings.EqualFold] against an ASCII text: the runes up to case; U+017F and
    U+212A are in the classes of s and k, and no other class mixes ASCII with
    more. *)
Definition fold_rune (r : rune) : rune :=
  if (r =? 383)%N then 115%N else if (r =? 8490)%N then 107%N
  else if between 65 90 r then (r + 32)%N else r.
Definition EqualFoldASCII (s t : string) : bool := bool_decide (fold_rune <$> runes s = fold_rune <$> runes t).

(** ** Package net *)

Definition JoinHostPort (host port : string) : string :=
  if has_byte_in host ":" then "[" +:+ host +:+ "]:" +:+ port else host +:+ ":" +:+ port.

(** The part of [SplitHostPort] after host and last colon are known: the
    brackets that are left over are errors. *)
Definition split_rest (hostport host : string) (i j k : nat) : option (string * string) :=
  if has_byte_in (sdrop j hostport) "[" then None
  else if has_byte_in (sdrop k hostport) "]" then None
  else Some (host, sdrop (i + 1) hostport).

Definition SplitHostPort (hostport : string) : option (string * string) :=
  match LastIndexByte hostport ":" with
  | None => None
  | Some i =>
      if bool_decide (byte_at hostport 0 = Some "["%char) then
        match IndexByte hostport "]" with
        | None => None
        | Some e =>
            if (e + 1 =? i)%nat then split_rest hostport (stake (e - 1) (sdrop 1 hostport)) i 1 (e + 1)
            else None
        end
      else
        let host := stake i hostport in
        if has_byte_in host ":" then None else split_rest hostport host i 0 0
  end.

(** One field of a dotted address: at most 255, without leading zeros. *)
Definition ipv4_field (s : string) : option Z :=
  match s with
  | EmptyString => None
  | String c s' =>
      match atoi 0 s with
      | Some n => if (n <=? 255)%Z && negb (bool_decide (c = "0"%char) && negb (bool_decide (s' = EmptyString))) then Some n else None
      | None => None
      end
  end.

Definition parseIPv4 (s : string) : option (list Z) :=
  let parts := Split s "." in
  if (length parts =? 4)%nat then map_opt ipv4_field parts else None.

Definition hex_value (c : ascii) : option Z :=
  let b := byteN c in
  if between 48 57 b then Some (Z.of_N b - 48)%Z
  else if between 97 102 b then Some (Z.of_N b - 87)%Z
  else if between 65 70 b then Some (Z.of_N b - 55)%Z
  else None.

(** The hexadecimal digits at the start of a text: how many, their value, and
    the rest. *)
Fixpoint hex_prefix (s : string) (n : nat) (acc : Z) : nat * Z * string :=
  match s with
  | String c s' =>
      match hex_value c with Some v => hex_prefix s' (S n) (acc * 16 + v)%Z | None => (n, acc, s) end
  | EmptyString => (n, acc, s)
  end.

(** The loop of parseIPv6 after [groups] bytes have been read: the bytes and the
    place of the ellipsis.  Each round reads at least a byte. *)
Fixpoint ipv6_loop (fuel : nat) (s : string) (bytes : list Z) (ellipsis : option nat) : option (list Z * option nat) :=
  match fuel with
  | O => None
  | S fuel' =>
      if (16 <=? length bytes)%nat then (if bool_decide (s = EmptyString) then Some (bytes, ellipsis) else None)
      else
        let '(n, acc, rest) := hex_prefix s 0 0 in
        if (n =? 0)%nat || (4 <? n)%nat then None
        else
          match rest with
          | EmptyString => Some (bytes ++ [acc / 256; acc mod 256]%Z, ellipsis)
          | String c rest' =>
              if bool_decide (c = "."%char) then
                if (if ellipsis is None then negb (length bytes =? 12)%nat else false) || (12 <? length bytes)%nat then None
                else
                  match parseIPv4 s with Some ip4 => Some (bytes ++ ip4, ellipsis) | None => None end
              else if bool_decide (c = ":"%char) then
                let bytes := bytes ++ [acc / 256; acc mod 256]%Z in
                match rest' with
                | EmptyString => None
                | String d rest'' =>
                    if bool_decide (d = ":"%char) then
                      if ellipsis is Some _ then None
                      else if bool_decide (rest'' = EmptyString) then Some (bytes, Some (length bytes))
                      else ipv6_loop fuel' rest'' bytes (Some (length bytes))
                    else ipv6_loop fuel' rest' bytes ellipsis
                end
              else None
          end
  end.

(** The sixteen bytes, the ellipsis filled with zeros. *)
Definition expand (r : list Z * option nat) : option (list Z) :=
  let '(bytes, ellipsis) := r in
  match ellipsis with
  | None => if (length bytes =? 16)%nat then Some bytes else None
  | Some e =>
      if (length bytes <? 16)%nat
      then Some (take e bytes ++ replicate (16 - length bytes) 0%Z ++ drop e bytes) else None
  end.

Definition parseIPv6 (s : string) : option (list Z) :=
  if HasPrefix s "::" then
    let s' := sdrop 2 s in
    if bool_decide (s' = EmptyString) then Some (replicate 16 0%Z)
    else ipv6_loop (S (String.length s)) s' [] (Some 0) ≫= expand
  else ipv6_loop (S (String.length s)) s [] None ≫= expand.

(** [net.ParseIP]: the bytes of the address, four or sixteen.  The first of
    these bytes decides the family; an address with a zone is refused. *)
Fixpoint first_separator (s : string) : option ascii :=
  match s with
  | EmptyString => None
  | String c s' =>
      if bool_decide (c = "."%char) || bool_decide (c = ":"%char) || bool_decide (c = "%"%char)
      then Some c else first_separator s'
  end.
Definition ParseIP (s : string) : option (list Z) :=
  match first_separator s with
  | Some c =>
      if bool_decide (c = "."%char) then parseIPv4 s
      else if bool_decide (c = ":"%char) then (if has_byte_in s "%" then None else parseIPv6 s)
      else None
  | None => None
  end.

(** [ip.To4()]: the four bytes of an address, also of one mapped into IPv6. *)
Definition To4 (ip : list Z) : option (list Z) :=
  if (length ip =? 4)%nat then Some ip
  else if bool_decide (take 12 ip = replicate 10 0%Z ++ [255; 255]%Z) then Some (drop 12 ip) else None.
Definition IsLoopback (ip : list Z) : bool :=
  match To4 ip with
  | Some ip4 => bool_decide (ip4 !! 0 = Some 127%Z)
  | None => bool_decide (ip = replicate 15 0%Z ++ [1%Z])
  end.

(** ** Package strconv *)

(** [strconv.ParseInt(s, 10, 64)]; [strconv.Atoi] is the same on 64-bit machines. *)
Definition ParseInt (s : string) : option Z :=
  let '(neg, ds) :=
    match s with
    | String c s' =>
        if bool_decide (c = "-"%char) then (true, s') else if bool_decide (c = "+"%char) then (false, s') else (false, s)
    | EmptyString => (false, s)
    end in
  if bool_decide (ds = EmptyString) then None
  else
    match atoi 0 ds with
    | None => None
    | Some n =>
        let v := if (neg : bool) then (- n)%Z else n in
        if (- 2 ^ 63 <=? v)%Z && (v <? 2 ^ 63)%Z then Some v else None
    end.
Definition Atoi : string -> option Z := ParseInt.

(** A 64-bit signed integer keeps the last 64 bits of a result. *)
Definition int64 (n : Z) : Z := ((n + 2 ^ 63) mod 2 ^ 64 - 2 ^ 63)%Z.

(** ** Package net/url *)

(** The bytes QueryEscape leaves as they are. *)
Definition unreserved (c : ascii) : bool :=
  let b := byteN c in
  between 97 122 b || between 65 90 b || between 48 57 b
  || (b =? 45)%N || (b =? 95)%N || (b =? 46)%N || (b =? 126)%N.
Definition upper_hex (n : N) : ascii := if (n <? 10)%N then ascii_of_N (48 + n) else ascii_of_N (55 + n).
Fixpoint QueryEscape (s : string) : string :=
  match s with
  | EmptyString => EmptyString
  | String c s' =>
      if unreserved c then String c (QueryEscape s')
      else if bool_decide (c = " "%char) then String "+" (QueryEscape s')
      else String "%" (String (upper_hex (byteN c / 16)) (String (upper_hex (byteN c mod 16)) (QueryEscape s')))
  end.

Example split_hosts :
  SplitHostPort <$> ["localhost:6432"; ":6432"; "[::1]:6432"; "::1:6432"; "host"; "[::1]"; "[::1"; "a]:1"; "[a]b:1"; "a:b:1"]
  = [Some ("localhost", "6432"); Some ("", "6432"); Some ("::1", "6432"); None; None; None; None; None; None; None].
Proof. vm_compute. reflexivity. Qed.
Example loopbacks :
  (fun s => IsLoopback <$> ParseIP s) <$>
    ["127.0.0.1"; "127.9.9.9"; "10.0.0.1"; "::1"; "0:0:0:0:0:0:0:1"; "::ffff:127.0.0.1"; "::"; "fe80::1"; "1::2::3"; "127.0.0"; "127.0.0.01"; "::1%lo"; "localhost"; ""]
  = [Some true; Some true; Some false; Some true; Some true; Some true; Some false; Some false; None; None; None; None; None; None].
Proof. vm_compute. reflexivity. Qed.
Example escaped : QueryEscape "a b/c~d_é" = "a+b%2Fc~d_%C3%A9".
Proof. vm_compute. reflexivity. Qed.
Example integers :
  ParseInt <$> ["7"; "-7"; "+7"; "007"; ""; "-"; "7a"; "9223372036854775807"; "9223372036854775808"; "-9223372036854775808"]
  = [Some 7; Some (-7); Some 7; Some 7; None; None; None; Some 9223372036854775807; None; Some (-9223372036854775808)]%Z.
Proof. vm_compute. reflexivity. Qed.

(** ** Lemmas *)

Lemma stake_app n s t : String.length s = n -> stake n (s +:+ t) = s.
Proof.
  intros <-. induction s as [|c s IH]; [by destruct t|]. rewrite sapp_cons. cbn. by rewrite IH.
Qed.

(** A text with no byte [b] does not have it anywhere. *)
Lemma without_byte s b : without b s = true <-> has_byte_in s b = false.
Proof.
  unfold has_byte_in, without. induction s as [|c s IH]; [done|]. cbn [sforall IndexByte].
  destruct (decide (c = b)) as [->|H].
  - by rewrite bool_decide_eq_false_2 by (intros []; done).
  - rewrite bool_decide_eq_true_2 by done. cbn [andb]. rewrite IH. by destruct (IndexByte s b).
Qed.

Lemma LastIndexByte_none s b : without b s = true -> LastIndexByte s b = None.
Proof.
  unfold without. induction s as [|c s IH]; [done|]. cbn. intros [Hc Hs]%andb_true_iff. rewrite IH by done.
  apply bool_decide_eq_true in Hc. by rewrite bool_decide_eq_false_2.
Qed.

Lemma LastIndexByte_app s b t : without b t = true -> LastIndexByte (s +:+ String b t) b = Some (String.length s).
Proof.
  intros Ht. induction s as [|c s IH].
  - rewrite sapp_nil. cbn [LastIndexByte]. rewrite LastIndexByte_none by done. by rewrite bool_decide_eq_true_2.
  - rewrite sapp_cons. cbn [LastIndexByte String.length]. by rewrite IH.
Qed.

(** A host and a port that has neither colon nor bracket survive joining and
    splitting: names, IPv4 and IPv6 addresses alike. *)
Theorem SplitHostPort_JoinHostPort host port :
  without "[" host = true -> without "]" host = true ->
  without ":" port = true -> without "[" port = true -> without "]" port = true ->
  SplitHostPort (JoinHostPort host port) = Some (host, port).
Proof.
  intros Hl Hr Pc Pl Pr. unfold JoinHostPort, SplitHostPort. destruct (has_byte_in host ":") eqn:Hc.
  - replace ("[" +:+ host +:+ "]:" +:+ port) with (("[" +:+ host +:+ "]") +:+ String ":" port)
      by (rewrite !sapp_assoc; done).
    rewrite LastIndexByte_app by done.
    rewrite bool_decide_eq_true_2 by done.
    replace (IndexByte (("[" +:+ host +:+ "]") +:+ String ":" port) "]") with (Some (S (String.length host))).
    2:{ rewrite !sapp_assoc. change ("]" +:+ String ":" port) with (String "]" (String ":" port)).
        rewrite <- (sapp_assoc "[" host). symmetry. rewrite IndexByte_app; [done|]. cbn. exact Hr. }
    rewrite !slength_app. cbn [String.length].
    rewrite (proj2 (Nat.eqb_eq _ _)) by lia. unfold split_rest.
    replace (sdrop 1 (("[" +:+ host +:+ "]") +:+ String ":" port)) with (host +:+ "]" +:+ String ":" port)
      by (rewrite !sapp_assoc; done).
    replace (sdrop (S (String.length host) + 1) (("[" +:+ host +:+ "]") +:+ String ":" port)) with (String ":" port).
    2:{ replace (S (String.length host) + 1) with (String.length ("[" +:+ host +:+ "]")) by (rewrite !slength_app; cbn; lia).
        by rewrite sdrop_app. }
    assert (has_byte_in (host +:+ "]" +:+ String ":" port) "[" = false) as ->
      by (apply without_byte; rewrite !without_app, Hl; exact Pl).
    assert (has_byte_in (String ":" port) "]" = false) as -> by (apply without_byte; exact Pr).
    rewrite stake_app by lia. do 2 f_equal.
    replace (1 + (String.length host + 1) + 1) with (String.length (("[" +:+ host +:+ "]") +:+ ":") + 0)
      by (rewrite !slength_app; cbn; lia).
    replace (("[" +:+ host +:+ "]") +:+ String ":" port) with ((("[" +:+ host +:+ "]") +:+ ":") +:+ port)
      by (rewrite !sapp_assoc; done).
    by rewrite sdrop_app_plus.
  - change (host +:+ ":" +:+ port) with (host +:+ String ":" port).
    rewrite LastIndexByte_app by done. rewrite bool_decide_eq_false_2.
    2:{ destruct host as [|c host]; [by rewrite sapp_nil|]. rewrite sapp_cons. cbn. intros [= ->]. by cbn in Hl. }
    rewrite stake_app by done. rewrite Hc. unfold split_rest. cbn [sdrop].
    assert (has_byte_in (host +:+ String ":" port) "[" = false) as ->
      by (apply without_byte; rewrite without_app, Hl; exact Pl).
    assert (has_byte_in (host +:+ String ":" port) "]" = false) as ->
      by (apply without_byte; rewrite without_app, Hr; exact Pr).
    do 2 f_equal. replace (host +:+ String ":" port) with ((host +:+ ":") +:+ port) by (rewrite sapp_assoc; done).
    replace (String.length host + 1) with (String.length (host +:+ ":") + 0) by (rewrite slength_app; cbn; lia).
    by rewrite sdrop_app_plus.
Qed.

(** Texts of unreserved bytes need no escaping. *)
Lemma QueryEscape_plain s : sforall unreserved s = true -> QueryEscape s = s.
Proof. induction s as [|c s IH]; [done|]. cbn. intros [-> Hs]%andb_true_iff. by rewrite IH. Qed.

Lemma int64_range n : (- 2 ^ 63 <= int64 n < 2 ^ 63)%Z.
Proof. unfold int64. pose proof (Z.mod_pos_bound (n + 2 ^ 63) (2 ^ 64) ltac:(lia)). lia. Qed.

Lemma int64_id n : (- 2 ^ 63 <= n < 2 ^ 63)%Z -> int64 n = n.
Proof. intros H. unfold int64. rewrite Z.mod_small by lia. lia. Qed.

Lemma ParseInt_range s n : ParseInt s = Some n -> (- 2 ^ 63 <= n < 2 ^ 63)%Z.
Proof.
  unfold ParseInt. destruct (match s with EmptyString => _ | String _ _ => _ end) as [neg ds].
  case_bool_decide; [done|]. destruct (atoi 0 ds); [|done].
  destruct (_ && _) eqn:E; [|done]. intros [= <-]. apply andb_true_iff in E as [?%Z.leb_le ?%Z.ltb_lt]. done.
Qed.

(** The fuel of [ipv6_loop] is enough: more of it gives the same. *)
Lemma hex_prefix_rest s n acc : String.length (hex_prefix s n acc).2 <= String.length s.
Proof.
  revert n acc. induction s as [|c s IH]; intros n acc; cbn [hex_prefix]; [done|].
  destruct (hex_value c); [|done]. specialize (IH (S n) (acc * 16 + z)%Z). cbn. lia.
Qed.

Lemma ipv6_loop_fuel f1 f2 s bytes e :
  String.length s < f1 -> String.length s < f2 -> ipv6_loop f1 s bytes e = ipv6_loop f2 s bytes e.
Proof.
  revert f2 s bytes e. induction f1 as [|f1 IH]; intros [|f2] s bytes e H1 H2; [lia..|]. cbn [ipv6_loop].
  destruct (16 <=? length bytes)%nat; [done|]. pose proof (hex_prefix_rest s 0 0) as Hr.
  destruct (hex_prefix s 0 0) as [[n acc] rest]. cbn [snd] in Hr. destruct ((n =? 0)%nat || (4 <? n)%nat); [done|].
  destruct rest as [|c rest']; [done|]. cbn in Hr. case_bool_decide; [done|]. case_bool_decide; [|done].
  destruct rest' as [|d rest'']; [done|]. cbn in Hr.
  case_bool_decide; [destruct e; [done|]; case_bool_decide; [done|]|]; apply IH; cbn; lia.
Qed.
