(* ===== verification/Json.v ===== *)
(** * Package encoding/json

    What the program uses of encoding/json: the text of a value as Marshal and
    Encoder write it (compact, with HTML escapes), the scanner of the package as a
    push-down automaton over bytes, the values that Unmarshal and Decoder.Decode
    take from a text, and the rules by which a value fills a Go variable.  The round
    trips are in JsonProps.v. *)

From stdpp Require Import pretty.
From S2P Require Import Prelude GoStrings GoText Timestamp GoNet.

#[local] Set Warnings "-register-all".

(** ** Values *)

(** A number is kept as its text, as the decoder keeps it. *)
Inductive json : Type :=
| JNull
| JBool (b : bool)
| JNumber (text : string)
| JString (s : string)
| JArray (items : list json)
| JObject (members : list (string * json)).

Section JsonInd.
Variable P : json -> Prop.
Hypothesis H_null : P JNull.
Hypothesis H_bool : forall b, P (JBool b).
Hypothesis H_number : forall t, P (JNumber t).
Hypothesis H_string : forall s, P (JString s).
Hypothesis H_array : forall vs, Forall P vs -> P (JArray vs).
Hypothesis H_object : forall ms, Forall (fun m => P m.2) ms -> P (JObject ms).

Fixpoint json_induction (v : json) : P v :=
  match v with
  | JNull => H_null
  | JBool b => H_bool b
  | JNumber t => H_number t
  | JString s => H_string s
  | JArray vs =>
      H_array vs ((fix go vs := match vs return Forall P vs with
                   | [] => Forall_nil_2 P
                   | v :: vs' => Forall_cons_2 P v vs' (json_induction v) (go vs')
                   end) vs)
  | JObject ms =>
      H_object ms ((fix go ms := match ms return Forall (fun m => P m.2) ms with
                    | [] => Forall_nil_2 _
                    | m :: ms' => Forall_cons_2 (fun m => P m.2) m ms' (json_induction m.2) (go ms')
                    end) ms)
  end.
End JsonInd.

(** ** Encoding *)

(** The escape of a byte below 0x80, if it needs one: the control characters, the
    quote, the backslash, and <, > and & (htmlSafeSet). *)
Definition escape_byte (c : ascii) : string :=
  let b := byteN c in
  if (b =? 34)%N || (b =? 92)%N then String "\" (String c EmptyString)
  else if (b =? 8)%N then "\b"
  else if (b =? 12)%N then "\f"
  else if (b =? 10)%N then "\n"
  else if (b =? 13)%N then "\r"
  else if (b =? 9)%N then "\t"
  else if (b <? 32)%N || (b =? 60)%N || (b =? 62)%N || (b =? 38)%N then "\u" +:+ hex_digits 4 b
  else String c EmptyString.

(** One rune of [appendString] with the bytes it was read from. *)
Definition escape_piece (p : rune * string) : string :=
  let '(r, bytes) := p in
  if (r <? 128)%N then match bytes with String c _ => escape_byte c | EmptyString => EmptyString end
  else if (r =? RuneError)%N && (String.length bytes =? 1) then "\ufffd"
  else if (r =? 8232)%N || (r =? 8233)%N then "\u" +:+ hex_digits 4 r
  else bytes.

Definition escape (s : string) : string := foldr (fun p t => escape_piece p +:+ t) EmptyString (pieces s).

Definition appendString (s : string) : string := quote_mark +:+ escape s +:+ quote_mark.

(** The text of a value. *)
Fixpoint encode_json (v : json) : string :=
  match v with
  | JNull => "null"
  | JBool true => "true"
  | JBool false => "false"
  | JNumber t => t
  | JString s => appendString s
  | JArray vs => "[" +:+ Join (map encode_json vs) "," +:+ "]"
  | JObject ms => "{" +:+ Join (map (fun m => appendString m.1 +:+ ":" +:+ encode_json m.2) ms) "," +:+ "}"
  end.

Definition JInt (n : Z) : json := JNumber (pretty n).

(** ** Unquoting *)

(** The value of the four hexadecimal digits at the start of [s] ([getu4] after
    its backslash and u). *)
Definition hex4 (s : string) : option N :=
  match s with
  | String a (String b (String c (String d _))) =>
      match hex_value a, hex_value b, hex_value c, hex_value d with
      | Some a, Some b, Some c, Some d => Some (Z.to_N (a * 4096 + b * 256 + c * 16 + d))
      | _, _, _, _ => None
      end
  | _ => None
  end.

Definition getu4 (s : string) : option N :=
  match CutPrefix s "\u" with Some s' => hex4 s' | None => None end.

(** [utf16.DecodeRune]: the rune of a surrogate pair, or U+FFFD. *)
Definition surrogate_pair (r1 r2 : N) : rune :=
  if between 55296 56319 r1 && between 56320 57343 r2
  then ((r1 - 55296) * 1024 + (r2 - 56320) + 65536)%N else RuneError.

Definition single_escape (c : ascii) : option string :=
  match c with
  | "/"%char => Some "/"
  | "b"%char => Some (String (ascii_of_N 8) EmptyString)
  | "f"%char => Some (String (ascii_of_N 12) EmptyString)
  | "n"%char => Some (String (ascii_of_N 10) EmptyString)
  | "r"%char => Some (String (ascii_of_N 13) EmptyString)
  | "t"%char => Some (String (ascii_of_N 9) EmptyString)
  | _ => if (byteN c =? 34)%N || (byteN c =? 92)%N || (byteN c =? 39)%N then Some (String c EmptyString) else None
  end.

(** [unquoteBytes] on the bytes between the quotes; [skip] bytes belong to an
    escape or a rune that has been read. *)
Fixpoint unquote_from (skip : nat) (s : string) : option string :=
  match s with
  | EmptyString => Some EmptyString
  | String c s' =>
      match skip with
      | S k => unquote_from k s'
      | O =>
          if (byteN c =? 92)%N then
            match s' with
            | EmptyString => None
            | String e s'' =>
                if bool_decide (e = "u"%char) then
                  match hex4 s'' with
                  | None => None
                  | Some r =>
                      if between 55296 57343 r then
                        let pair := match getu4 (sdrop 4 s'') with Some r2 => surrogate_pair r r2 | None => RuneError end in
                        if (pair =? RuneError)%N then String.append (EncodeRune RuneError) <$> unquote_from 5 s'
                        else String.append (EncodeRune pair) <$> unquote_from 11 s'
                      else String.append (EncodeRune r) <$> unquote_from 5 s'
                  end
                else
                  match single_escape e with
                  | None => None
                  | Some t => String.append t <$> unquote_from 1 s'
                  end
            end
          else if (byteN c =? 34)%N || (byteN c <? 32)%N then None
          else let '(r, w) := DecodeRune s in String.append (EncodeRune r) <$> unquote_from (pred w) s'
      end
  end.
Definition unquote (s : string) : option string := unquote_from 0 s.

(** ** The scanner *)

(** Where the scanner is inside a number (state0, state1 and so on). *)
Inductive num_state : Type := NNeg | NZero | NInt | NDot | NFrac | NExp | NExpSign | NExpDigits.

(** The step function of the scanner, with the text read of the current literal.
    In a string, [key] says that it is the name of a member. *)
Inductive mode : Type :=
| BeginValue
| BeginValueOrEmpty
| BeginString
| BeginStringOrEmpty
| InString (key : bool) (text : string)
| InStringEsc (key : bool) (text : string)
| InStringEscU (key : bool) (digits : nat) (text : string)
| InNumber (st : num_state) (text : string)
| InLiteral (rest : string) (v : json)
| EndKey
| EndValue.

(** A container that is open, with what it holds so far, the last first. *)
Inductive frame : Type :=
| FArray (items : list json)
| FObject (members : list (string * json)) (key : string).

Definition maxNestingDepth : N := 10000.

Inductive step_result : Type :=
| Continue (m : mode) (st : list frame)
| Finished (v : json) (consumed : bool)
| Failed.

Definition isSpace (c : ascii) : bool := let b := byteN c in (b =? 32)%N || (b =? 9)%N || (b =? 13)%N || (b =? 10)%N.

(** A value has ended with the byte just read. *)
Definition deliver_value (v : json) (st : list frame) : step_result :=
  match st with
  | [] => Finished v true
  | FArray vs :: st' => Continue EndValue (FArray (v :: vs) :: st')
  | FObject ms k :: st' => Continue EndValue (FObject ((k, v) :: ms) k :: st')
  end.

Definition pushParseState (m : mode) (f : frame) (st : list frame) : step_result :=
  if (N.of_nat (length st) + 1 <=? maxNestingDepth)%N then Continue m (f :: st) else Failed.

(** stateEndValue in a container. *)
Definition end_value (st : list frame) (c : ascii) : step_result :=
  if isSpace c then Continue EndValue st
  else
    match st with
    | FArray vs :: st' =>
        if bool_decide (c = ","%char) then Continue BeginValue st
        else if bool_decide (c = "]"%char) then deliver_value (JArray (reverse vs)) st'
        else Failed
    | FObject ms k :: st' =>
        if bool_decide (c = ","%char) then Continue BeginString st
        else if bool_decide (c = "}"%char) then deliver_value (JObject (reverse ms)) st'
        else Failed
    | [] => Failed
    end.

(** stateBeginValue *)
Definition begin_value (st : list frame) (c : ascii) : step_result :=
  if isSpace c then Continue BeginValue st
  else
    match c with
    | "{"%char => pushParseState BeginStringOrEmpty (FObject [] EmptyString) st
    | "["%char => pushParseState BeginValueOrEmpty (FArray []) st
    | "-"%char => Continue (InNumber NNeg "-") st
    | "0"%char => Continue (InNumber NZero "0") st
    | "t"%char => Continue (InLiteral "rue" (JBool true)) st
    | "f"%char => Continue (InLiteral "alse" (JBool false)) st
    | "n"%char => Continue (InLiteral "ull" JNull) st
    | _ =>
        if (byteN c =? 34)%N then Continue (InString false EmptyString) st
        else if between 49 57 (byteN c) then Continue (InNumber NInt (String c EmptyString)) st
        else Failed
    end.

(** stateBeginString *)
Definition begin_string (st : list frame) (c : ascii) : step_result :=
  if isSpace c then Continue BeginString st
  else if (byteN c =? 34)%N then Continue (InString true EmptyString) st
  else Failed.

(** The state after one more byte of a number; [None] when the byte is not part
    of it. *)
Definition number_step (n : num_state) (c : ascii) : option num_state :=
  let digit := between 48 57 (byteN c) in
  let exponent := bool_decide (c = "e"%char) || bool_decide (c = "E"%char) in
  match n with
  | NNeg => if bool_decide (c = "0"%char) then Some NZero else if digit then Some NInt else None
  | NZero => if bool_decide (c = "."%char) then Some NDot else if exponent then Some NExp else None
  | NInt => if digit then Some NInt else if bool_decide (c = "."%char) then Some NDot else if exponent then Some NExp else None
  | NDot => if digit then Some NFrac else None
  | NFrac => if digit then Some NFrac else if exponent then Some NExp else None
  | NExp => if bool_decide (c = "+"%char) || bool_decide (c = "-"%char) then Some NExpSign
            else if digit then Some NExpDigits else None
  | NExpSign | NExpDigits => if digit then Some NExpDigits else None
  end.

(** A number may end here. *)
Definition number_ends (n : num_state) : bool :=
  match n with NZero | NInt | NFrac | NExpDigits => true | _ => false end.

(** The end of a string: the name of a member, or a value. *)
Definition end_string (key : bool) (text : string) (st : list frame) : step_result :=
  match unquote text, key, st with
  | Some s, true, FObject ms _ :: st' => Continue EndKey (FObject ms s :: st')
  | Some s, false, _ => deliver_value (JString s) st
  | _, _, _ => Failed
  end.

Definition step_json (m : mode) (st : list frame) (c : ascii) : step_result :=
  match m with
  | BeginValue => begin_value st c
  | BeginValueOrEmpty =>
      if isSpace c then Continue BeginValueOrEmpty st
      else if bool_decide (c = "]"%char) then end_value st c else begin_value st c
  | BeginString => begin_string st c
  | BeginStringOrEmpty =>
      if isSpace c then Continue BeginStringOrEmpty st
      else if bool_decide (c = "}"%char) then end_value st c else begin_string st c
  | InString key text =>
      if (byteN c =? 34)%N then end_string key text st
      else if (byteN c =? 92)%N then Continue (InStringEsc key (text +:+ String c EmptyString)) st
      else if (byteN c <? 32)%N then Failed
      else Continue (InString key (text +:+ String c EmptyString)) st
  | InStringEsc key text =>
      match c with
      | "b"%char | "f"%char | "n"%char | "r"%char | "t"%char | "/"%char =>
          Continue (InString key (text +:+ String c EmptyString)) st
      | "u"%char => Continue (InStringEscU key 4 (text +:+ String c EmptyString)) st
      | _ => if (byteN c =? 34)%N || (byteN c =? 92)%N then Continue (InString key (text +:+ String c EmptyString)) st
             else Failed
      end
  | InStringEscU key n text =>
      if hex_value c is Some _ then
        let text := text +:+ String c EmptyString in
        match n with
        | S (S _ as k) => Continue (InStringEscU key k text) st
        | _ => Continue (InString key text) st
        end
      else Failed
  | InNumber n text =>
      match number_step n c with
      | Some n' => Continue (InNumber n' (text +:+ String c EmptyString)) st
      | None =>
          if number_ends n then
            match deliver_value (JNumber text) st with
            | Continue _ st' => end_value st' c
            | Finished v _ => Finished v false
            | Failed => Failed
            end
          else Failed
      end
  | InLiteral (String d EmptyString) v => if bool_decide (c = d) then deliver_value v st else Failed
  | InLiteral (String d rest) v => if bool_decide (c = d) then Continue (InLiteral rest v) st else Failed
  | InLiteral EmptyString v => Failed
  | EndKey =>
      if isSpace c then Continue EndKey st
      else if bool_decide (c = ":"%char) then Continue BeginValue st else Failed
  | EndValue => end_value st c
  end.

(** The first value of a text, and the bytes after it. *)
Fixpoint scan_json (m : mode) (st : list frame) (s : string) : option (json * string) :=
  match s with
  | EmptyString =>
      match m, st with
      | InNumber n text, [] => if number_ends n then Some (JNumber text, EmptyString) else None
      | _, _ => None
      end
  | String c s' =>
      match step_json m st c with
      | Continue m' st' => scan_json m' st' s'
      | Finished v consumed => Some (v, if consumed then s' else s)
      | Failed => None
      end
  end.

(** The value [Unmarshal] decodes: the text holds nothing else. *)
Definition Unmarshal_value (s : string) : option json :=
  match scan_json BeginValue [] s with
  | Some (v, rest) => if sforall isSpace rest then Some v else None
  | None => None
  end.

(** The value the first [Decode] of a Decoder decodes: the text may go on. *)
Definition Decode_value (s : string) : option json := fst <$> scan_json BeginValue [] s.

(** ** Filling variables

    [A -> json -> option A]: the variable after the value was stored in it, or an
    error.  An error leaves the variable in part filled; no caller looks at it. *)

Section Fill.
Context {A : Type}.

Definition fill_string (prev : string) (v : json) : option string :=
  match v with JNull => Some prev | JString s => Some s | _ => None end.
Definition fill_bool (prev : bool) (v : json) : option bool :=
  match v with JNull => Some prev | JBool b => Some b | _ => None end.
Definition fill_int (prev : Z) (v : json) : option Z :=
  match v with JNull => Some prev | JNumber t => ParseInt t | _ => None end.
Definition fill_pointer (zero : A) (fill : A -> json -> option A) (prev : option A) (v : json) : option (option A) :=
  match v with JNull => Some None | _ => Some <$> fill (default zero prev) v end.

(** The members of an object fill the fields of a struct in turn; the names are
    compared up to case, and members of other names are ignored. *)
Definition field_of (fields : list (string * (A -> json -> option A))) (key : string) : option (A -> json -> option A) :=
  snd <$> head (filter (fun f => EqualFoldASCII key f.1 = true) fields).
Fixpoint fill_members (fields : list (string * (A -> json -> option A))) (prev : A) (ms : list (string * json)) : option A :=
  match ms with
  | [] => Some prev
  | (key, v) :: ms' =>
      match field_of fields key with
      | None => fill_members fields prev ms'
      | Some f => match f prev v with Some a => fill_members fields a ms' | None => None end
      end
  end.
Definition fill_struct (fields : list (string * (A -> json -> option A))) (prev : A) (v : json) : option A :=
  match v with JNull => Some prev | JObject ms => fill_members fields prev ms | _ => None end.

(** A slice: its backing array up to the capacity, and its length.  Elements are
    stored over those the array holds, and the slice is cut to their number. *)
Fixpoint fill_elements (zero : A) (fill : A -> json -> option A) (array : list A) (vs : list json) : option (list A) :=
  match vs with
  | [] => Some array
  | v :: vs' =>
      match fill (default zero (head array)) v with
      | Some a => cons a <$> fill_elements zero fill (tail array) vs'
      | None => None
      end
  end.
Definition fill_slice (zero : A) (fill : A -> json -> option A) (prev : list A * nat) (v : json) : option (list A * nat) :=
  match v with
  | JNull | JArray [] => Some ([], 0)
  | JArray vs => (fun array => (array, length vs)) <$> fill_elements zero fill prev.1 vs
  | _ => None
  end.
Definition slice_items (s : list A * nat) : list A := take s.2 s.1.
End Fill.

Example json_texts :
  encode_json (JObject [("a", JString "<x>"); ("b", JArray [JInt 0; JInt (-12)]); ("c", JNull)])
    = "{" +:+ appendString "a" +:+ ":" +:+ appendString "<x>" +:+ "," +:+ appendString "b" +:+ ":[0,-12],"
      +:+ appendString "c" +:+ ":null}"
  /\ escape "<x>" = "\u003cx\u003e"
  /\ Unmarshal_value " [1.5e+3 , true,{}, []] " = Some (JArray [JNumber "1.5e+3"; JBool true; JObject []; JArray []])
  /\ Unmarshal_value "[1,]" = None /\ Unmarshal_value "01" = None /\ Unmarshal_value "1 2" = None
  /\ Decode_value "{} tail" = Some (JObject [])
  /\ Unmarshal_value (quote_mark +:+ "\ud83d\ude00\ud83d" +:+ quote_mark)
    = Some (JString (EncodeRune 128512%N +:+ EncodeRune RuneError)).
Proof. vm_compute. split_and!; reflexivity. Qed.
