(* ===== verification/JsonProps.v ===== *)
(** * Round trips of encoding/json

    Unquoting undoes escaping, the scanner reads an encoded value back in every
    context ([encode_scans]), and with it Unmarshal and Decode; numbers are read as
    the integers they were written from.  Strings come back with every ill-formed
    byte replaced by U+FFFD ([sanitize]), valid UTF-8 unchanged. *)

From stdpp Require Import pretty.
From Stdlib Require Import ZifyN.
From S2P Require Import Prelude GoStrings GoText Timestamp GoNet Json.

#[local] Set Warnings "-register-all".

(** ** Strings: unquoting undoes escaping *)

(** The string with every ill-formed byte replaced by U+FFFD. *)
Definition sanitize (s : string) : string := encode_runes (runes s).

(** Valid UTF-8. *)
Definition utf8 (s : string) : Prop := sanitize s = s.

Lemma ascii_utf8 s : isASCII s = true -> utf8 s.
Proof.
  unfold isASCII, utf8, sanitize, runes. induction s as [|c s IH]; [done|]. cbn [sforall]. intros [Hc Hs]%andb_true_iff.
  cbn [runes_from]. rewrite DecodeRune_ascii by done. cbn [pred encode_runes]. rewrite IH by done.
  revert Hc. by destruct c as [[] [] [] [] [] [] [] []].
Qed.

Definition high_byte (c : ascii) : bool := (128 <=? byteN c)%N.

(** What decoding the first rune of a string can give. *)
Inductive decoded (c : ascii) (s : string) : rune * nat -> Prop :=
| decoded_ascii : ascii_byte c = true -> decoded c s (byteN c, 1)
| decoded_bad : ascii_byte c = false -> decoded c s (RuneError, 1)
| decoded_long r w :
    ascii_byte c = false -> (128 <= r)%N -> 1 <= w <= String.length s -> sforall high_byte (stake w s) = true ->
    (forall t, DecodeRune (String c (stake w s +:+ t)) = (r, S w)) -> decoded c s (r, S w).

Lemma between_spec lo hi b : between lo hi b = true <-> (lo <= b <= hi)%N.
Proof. unfold between. rewrite andb_true_iff, !N.leb_le. done. Qed.

Lemma between_high lo hi c : (128 <= lo)%N -> between lo hi (byteN c) = true -> high_byte c = true.
Proof. rewrite between_spec. intros Hlo [H _]. apply N.leb_le. lia. Qed.

Lemma first_low n (b : bool) : (128 <=? n)%N = true -> (128 <= if b then n else 128)%N.
Proof. intros H%N.leb_le. by destruct b. Qed.

Lemma DecodeRune_decoded c s : decoded c s (DecodeRune (String c s)).
Proof.
  destruct (ascii_byte c) eqn:Hc; [rewrite DecodeRune_ascii by done; by apply decoded_ascii|].
  unfold ascii_byte in Hc. cbn [DecodeRune]. rewrite Hc.
  assert (Hb : ascii_byte c = false) by done. apply N.ltb_ge in Hc.
  destruct s as [|c1 s]; [by apply decoded_bad|].
  destruct (between 194 223 (byteN c)) eqn:E2.
  { destruct (between 128 191 (byteN c1)) eqn:E1; [|by apply decoded_bad].
    rewrite between_spec in E2. apply decoded_long; [done| |cbn; lia| |].
    - zify. Z.div_mod_to_equations. nia.
    - cbn [stake sforall]. by rewrite (between_high _ _ _ (N.le_refl _) E1).
    - intros t. cbn [stake]. rewrite ?sapp_cons. cbn [DecodeRune]. rewrite (proj2 (N.ltb_ge _ _)) by done. by rewrite (proj2 (between_spec _ _ _) E2), E1. }
  destruct (between 224 239 (byteN c)) eqn:E3.
  { destruct s as [|c2 s]; [by apply decoded_bad|]. cbv zeta.
    destruct (between _ _ (byteN c1) && between 128 191 (byteN c2)) eqn:E1; [|by apply decoded_bad].
    apply decoded_long; [done| |cbn; lia| |].
    - apply andb_true_iff in E1 as [E1 _]. rewrite between_spec in E1, E3. revert E1.
      destruct (N.eqb_spec (byteN c) 224); destruct (N.eqb_spec (byteN c) 237);
        zify; Z.div_mod_to_equations; nia.
    - cbn [stake sforall]. apply andb_true_iff in E1 as [E1 E5].
      rewrite (between_high _ _ _ (N.le_refl _) E5), (between_high _ _ _ (first_low 160 _ eq_refl) E1). done.
    - intros t. cbn [stake]. rewrite ?sapp_cons. cbn [DecodeRune]. rewrite (proj2 (N.ltb_ge _ _)) by done. by rewrite E2, E3, E1. }
  destruct (between 240 244 (byteN c)) eqn:E4; [|by apply decoded_bad].
  destruct s as [|c2 [|c3 s]]; [by apply decoded_bad..|]. cbv zeta.
  destruct (_ && _ && _) eqn:E1; [|by apply decoded_bad].
  apply decoded_long; [done| |cbn; lia| |].
  - apply andb_true_iff in E1 as [[E1 _]%andb_true_iff _]. rewrite between_spec in E1, E4. revert E1.
    destruct (N.eqb_spec (byteN c) 240); destruct (N.eqb_spec (byteN c) 244);
      zify; Z.div_mod_to_equations; nia.
  - cbn [stake sforall]. apply andb_true_iff in E1 as [[E1 E5]%andb_true_iff E6].
    rewrite (between_high _ _ _ (N.le_refl _) E5), (between_high _ _ _ (N.le_refl _) E6),
      (between_high _ _ _ (first_low 144 _ eq_refl) E1). done.
  - intros t. cbn [stake]. rewrite ?sapp_cons. cbn [DecodeRune]. rewrite (proj2 (N.ltb_ge _ _)) by done. by rewrite E2, E3, E4, E1.
Qed.

Lemma runes_pieces s : runes s = fst <$> pieces s.
Proof.
  unfold runes, pieces. generalize 0. induction s as [|c s IH]; intros k; [done|].
  cbn [runes_from pieces_from]. destruct k as [|k]; [|apply IH].
  destruct (DecodeRune (String c s)) as [r w]. cbn. by rewrite IH.
Qed.

Lemma unquote_skip p t : unquote_from (String.length p) (p +:+ t) = unquote_from 0 t.
Proof. induction p as [|c p IH]; [done|]. rewrite sapp_cons. cbn [String.length unquote_from]. exact IH. Qed.

Lemma unquote_ascii c t : ascii_byte c = true -> unquote_from 0 (escape_byte c +:+ t) = String c <$> unquote_from 0 t.
Proof. destruct c as [[] [] [] [] [] [] [] []]; intros H; (discriminate H || reflexivity). Qed.

Lemma unquote_raw c s r w t :
  ascii_byte c = false -> w <= String.length s ->
  (forall u, DecodeRune (String c (stake w s +:+ u)) = (r, S w)) ->
  unquote_from 0 (String c (stake w s) +:+ t) = String.append (EncodeRune r) <$> unquote_from 0 t.
Proof.
  unfold ascii_byte. intros Hc%N.ltb_ge Hw Hd. rewrite sapp_cons. cbn [unquote_from]. rewrite Hd.
  rewrite (proj2 (N.eqb_neq _ _)), (proj2 (N.eqb_neq _ _)), (proj2 (N.ltb_ge _ _)) by lia. cbn [orb pred].
  rewrite <- (stake_length w s Hw) at 1. by rewrite unquote_skip.
Qed.

Lemma stake_one c s : stake 1 (String c s) = String c EmptyString.
Proof. done. Qed.

(** One piece: unquoting its escape gives the rune. *)
Lemma unquote_piece c s r w t :
  DecodeRune (String c s) = (r, w) ->
  unquote_from 0 (escape_piece (r, stake w (String c s)) +:+ t) = String.append (EncodeRune r) <$> unquote_from 0 t.
Proof.
  intros E. pose proof (DecodeRune_decoded c s) as H. rewrite E in H.
  inversion H as [Ha|Ha|r' w' Ha Hr Hw Hh Hd]; subst; cbn [escape_piece].
  - rewrite (proj2 (N.ltb_lt _ _)) by (apply N.ltb_lt, Ha). rewrite stake_one, unquote_ascii by done.
    revert Ha. by destruct c as [[] [] [] [] [] [] [] []].
  - rewrite stake_one. reflexivity.
  - rewrite (proj2 (N.ltb_ge _ _)) by done. cbn [stake]. cbn [String.length].
    rewrite stake_length by lia. rewrite (proj2 (Nat.eqb_neq (S w') 1)), andb_false_r by lia.
    destruct (_ || _) eqn:El; [|apply unquote_raw; [done|lia|done]].
    apply orb_true_iff in El as [->%N.eqb_eq| ->%N.eqb_eq]; reflexivity.
Qed.

Lemma fmap_append_assoc a b (o : option string) :
  String.append a <$> (String.append b <$> o) = String.append (a +:+ b) <$> o.
Proof. destruct o; [|done]. cbn. by rewrite <- sapp_assoc. Qed.

Lemma unquote_escape s : unquote (escape s) = Some (sanitize s).
Proof.
  unfold unquote, escape, sanitize, pieces, runes. generalize 0 at 2 3.
  induction s as [|c s IH]; intros k; [done|]. cbn [pieces_from runes_from]. destruct k as [|k]; [|apply IH].
  destruct (DecodeRune (String c s)) as [r w] eqn:E. cbn [foldr encode_runes].
  rewrite (unquote_piece _ _ _ _ _ E), IH. done.
Qed.

(** ** Strings in the scanner *)

(** The scanner stays inside the string over [t]. *)
Definition in_string (t : string) : Prop := forall key text st rest,
  scan_json (InString key text) st (t +:+ rest) = scan_json (InString key (text +:+ t)) st rest.

Lemma sapp_push s c d t : s +:+ String c (String d t) = (s +:+ String c EmptyString) +:+ String d t.
Proof. by rewrite sapp_assoc. Qed.

(** Run the scanner over a constant text inside a string. *)
Ltac scan_constant t :=
  let t' := eval vm_compute in t in change t with t';
  rewrite ?sapp_cons, ?sapp_nil, ?sapp_push; reflexivity.

Lemma in_string_nil : in_string EmptyString.
Proof. intros key text st rest. by rewrite sapp_nil_r. Qed.

Lemma in_string_app t u : in_string t -> in_string u -> in_string (t +:+ u).
Proof. intros Ht Hu key text st rest. by rewrite sapp_assoc, Ht, Hu, sapp_assoc. Qed.

Lemma in_string_escape c : ascii_byte c = true -> in_string (escape_byte c).
Proof.
  intros Hc key text st rest. revert Hc.
  destruct c as [[] [] [] [] [] [] [] []]; intros H; first [discriminate H
    | match goal with |- context [escape_byte ?c +:+ rest] => scan_constant (escape_byte c) end].
Qed.

Lemma in_string_high c : ascii_byte c = false -> in_string (String c EmptyString).
Proof.
  unfold ascii_byte. intros Hc%N.ltb_ge key text st rest. rewrite sapp_cons, sapp_nil. cbn [scan_json step_json].
  by rewrite (proj2 (N.eqb_neq _ _)), (proj2 (N.eqb_neq _ _)), (proj2 (N.ltb_ge _ _)) by lia.
Qed.

Lemma in_string_code : in_string "\ufffd" /\ in_string ("\u" +:+ hex_digits 4 8232) /\ in_string ("\u" +:+ hex_digits 4 8233).
Proof.
  split_and!; intros key text st rest;
    match goal with |- context [scan_json _ _ (?t +:+ rest)] => scan_constant t end.
Qed.

Lemma in_string_raw t : sforall high_byte t = true -> in_string t.
Proof.
  induction t as [|c t IH]; [intros _; apply in_string_nil|]. cbn [sforall]. intros [Hc%N.leb_le Ht]%andb_true_iff.
  apply (in_string_app (String c EmptyString) t); [|by apply IH]. apply in_string_high. apply N.ltb_ge, Hc.
Qed.

Lemma in_string_escaped s : in_string (escape s).
Proof.
  unfold escape, pieces. generalize 0. induction s as [|c s IH]; intros k; [apply in_string_nil|].
  cbn [pieces_from]. destruct k as [|k]; [|apply IH]. pose proof (DecodeRune_decoded c s) as H.
  destruct (DecodeRune (String c s)) as [r w]. cbn [foldr]. apply in_string_app; [|apply IH].
  inversion H as [Ha|Ha|r' w' Ha Hr Hw Hh Hd]; subst; cbn [escape_piece].
  - rewrite (proj2 (N.ltb_lt _ _)) by (apply N.ltb_lt, Ha). rewrite stake_one. by apply in_string_escape.
  - rewrite stake_one. exact (proj1 in_string_code).
  - rewrite (proj2 (N.ltb_ge _ _)) by done. cbn [stake]. cbn [String.length].
    rewrite stake_length by lia. rewrite (proj2 (Nat.eqb_neq (S w') 1)), andb_false_r by lia.
    destruct (_ || _) eqn:El.
    + apply orb_true_iff in El as [->%N.eqb_eq| ->%N.eqb_eq]; exact (proj1 (proj2 in_string_code)) || exact (proj2 (proj2 in_string_code)).
    + apply in_string_raw. cbn [sforall]. rewrite Hh. unfold high_byte, ascii_byte in *.
      by rewrite (proj2 (N.leb_le _ _)) by (by apply N.ltb_ge).
Qed.

(** The scanner over a whole string. *)
Lemma scan_quoted key text st s rest :
  scan_json (InString key text) st (escape s +:+ quote_mark +:+ rest) =
    match end_string key (text +:+ escape s) st with
    | Continue m st' => scan_json m st' rest
    | Finished v _ => Some (v, rest)
    | Failed => None
    end.
Proof.
  rewrite in_string_escaped. unfold quote_mark. rewrite sapp_cons, sapp_nil. cbn [scan_json].
  change (step_json _ st (ascii_of_N 34)) with (end_string key (text +:+ escape s) st).
  unfold end_string, deliver_value. by destruct (unquote _), key, st as [|[] ?].
Qed.

(** ** Values: what was encoded is scanned *)

(** The value with its strings as they are read back. *)
Fixpoint norm (v : json) : json :=
  match v with
  | JString s => JString (sanitize s)
  | JArray vs => JArray (map norm vs)
  | JObject ms => JObject (map (fun m => (sanitize m.1, norm m.2)) ms)
  | _ => v
  end.

Fixpoint depth (v : json) : nat :=
  match v with
  | JArray vs => S (max_list (map depth vs))
  | JObject ms => S (max_list (map (fun m => depth m.2) ms))
  | _ => 0
  end.

(** The texts of numbers that the scanner takes. *)
Fixpoint number_run (n : num_state) (t : string) : option num_state :=
  match t with
  | EmptyString => Some n
  | String c t' => match number_step n c with Some n' => number_run n' t' | None => None end
  end.
Definition number_text (t : string) : bool :=
  match t with
  | EmptyString => false
  | String c t' =>
      match begin_value [] c with
      | Continue (InNumber n _) _ => match number_run n t' with Some n' => number_ends n' | None => false end
      | _ => false
      end
  end.

Inductive encodable : json -> Prop :=
| enc_null : encodable JNull
| enc_bool b : encodable (JBool b)
| enc_number t : number_text t = true -> encodable (JNumber t)
| enc_string s : encodable (JString s)
| enc_array vs : Forall encodable vs -> encodable (JArray vs)
| enc_object ms : Forall (fun m => encodable m.2) ms -> encodable (JObject ms).

(** A text after which a number ends. *)
Definition delimits (rest : string) : Prop :=
  match rest with String c _ => In c [","%char; "]"%char; "}"%char; " "%char; "010"%char] | EmptyString => True end.

(** The scanner when the value [v] has ended before [rest]. *)
Definition after_value (v : json) (st : list frame) (rest : string) : option (json * string) :=
  match deliver_value v st with
  | Continue m st' => scan_json m st' rest
  | Finished v _ => Some (v, rest)
  | Failed => None
  end.

Lemma delimiter_ends n c : In c [","%char; "]"%char; "}"%char; " "%char; "010"%char] -> number_step n c = None.
Proof. intros [<-|[<-|[<-|[<-|[<-|[]]]]]]; by destruct n. Qed.

Lemma scan_number n t st rest n' text :
  number_run n t = Some n' -> number_ends n' = true -> delimits rest ->
  scan_json (InNumber n text) st (t +:+ rest) = after_value (JNumber (text +:+ t)) st rest.
Proof.
  revert n text. induction t as [|c t IH]; intros n text Hn He Hr.
  - injection Hn as <-. rewrite sapp_nil, sapp_nil_r. unfold after_value.
    destruct rest as [|c rest]; cbn [scan_json].
    + rewrite He. destruct st as [|[] st]; done.
    + cbn [step_json]. rewrite delimiter_ends, He by done. destruct st as [|[] st]; done.
  - cbn [number_run] in Hn. destruct (number_step n c) as [m|] eqn:E; [|done].
    rewrite sapp_cons. cbn [scan_json step_json]. rewrite E, (IH m) by done.
    by rewrite sapp_assoc.
Qed.

Lemma scan_number_text t st rest :
  number_text t = true -> delimits rest ->
  scan_json BeginValue st (t +:+ rest) = after_value (JNumber t) st rest.
Proof.
  destruct t as [|c t]; [done|]. cbn [number_text]. intros Hn Hr.
  assert (E : exists n, begin_value [] c = Continue (InNumber n (String c EmptyString)) []
    /\ begin_value st c = Continue (InNumber n (String c EmptyString)) st).
  { revert Hn. destruct c as [[] [] [] [] [] [] [] []]; intros H; (discriminate H || by eexists). }
  destruct E as (n & E1 & E2). rewrite E1 in Hn. rewrite sapp_cons. cbn [scan_json step_json]. rewrite E2.
  destruct (number_run n t) as [n'|] eqn:En; [|done]. by rewrite (scan_number _ _ _ _ _ _ En Hn Hr).
Qed.

(** The first byte of an encoded value: not a space, not the end of a container. *)
Lemma encode_head v : encodable v ->
  exists c s, encode_json v = String c s /\ isSpace c = false /\ c <> "]"%char /\ c <> "}"%char.
Proof.
  intros [|b|t Ht|s|vs _|ms _]; cbn [encode_json].
  - by do 2 eexists.
  - destruct b; by do 2 eexists.
  - destruct t as [|c t]; [done|]. exists c, t. split; [done|]. revert Ht. cbn [number_text].
    destruct c as [[] [] [] [] [] [] [] []]; intros H; (discriminate H || done).
  - by do 2 eexists.
  - by do 2 eexists.
  - by do 2 eexists.
Qed.

Lemma scan_or_empty st s c s' : s = String c s' -> isSpace c = false -> c <> "]"%char ->
  scan_json BeginValueOrEmpty st s = scan_json BeginValue st s.
Proof. intros -> Hs Hc. cbn [scan_json step_json]. by rewrite Hs, bool_decide_eq_false_2. Qed.

Lemma scan_string st s rest :
  scan_json BeginValue st (appendString s +:+ rest) = after_value (JString (sanitize s)) st rest.
Proof.
  unfold appendString, quote_mark at 1. rewrite !sapp_assoc, sapp_cons, sapp_nil.
  change (scan_json BeginValue st (String (ascii_of_N 34) ?t)) with (scan_json (InString false EmptyString) st t).
  rewrite scan_quoted, sapp_nil. unfold end_string. by rewrite unquote_escape.
Qed.

Lemma scan_key m ms k st s rest : m = BeginString \/ m = BeginStringOrEmpty ->
  scan_json m (FObject ms k :: st) (appendString s +:+ rest) = scan_json EndKey (FObject ms (sanitize s) :: st) rest.
Proof.
  intros Hm. unfold appendString, quote_mark at 1. rewrite !sapp_assoc, sapp_cons, sapp_nil.
  transitivity (scan_json (InString true EmptyString) (FObject ms k :: st) (escape s +:+ quote_mark +:+ rest)).
  { by destruct Hm as [->| ->]. }
  rewrite scan_quoted, sapp_nil. unfold end_string. by rewrite unquote_escape.
Qed.

Definition room (v : json) (st : list frame) : Prop := (N.of_nat (length st) + N.of_nat (depth v) <= maxNestingDepth)%N.

(** Scanning the text of [v] in any context gives [v]. *)
Definition scans (v : json) : Prop := forall st rest, room v st -> delimits rest ->
  scan_json BeginValue st (encode_json v +:+ rest) = after_value (norm v) st rest.

Lemma Join_cons p q ps sep : Join (p :: q :: ps) sep = p +:+ sep +:+ Join (q :: ps) sep.
Proof. done. Qed.

Lemma scan_comma f st rest :
  scan_json EndValue (f :: st) ("," +:+ rest) =
    scan_json (match f with FArray _ => BeginValue | FObject _ _ => BeginString end) (f :: st) rest.
Proof. by destruct f. Qed.

Lemma scan_close_array vs st rest :
  scan_json EndValue (FArray vs :: st) ("]" +:+ rest) = after_value (JArray (reverse vs)) st rest.
Proof. by destruct st as [|[] ?]. Qed.

Lemma scan_close_object ms k st rest :
  scan_json EndValue (FObject ms k :: st) ("}" +:+ rest) = after_value (JObject (reverse ms)) st rest.
Proof. by destruct st as [|[] ?]. Qed.

Lemma scan_items v vs acc st rest :
  Forall scans (v :: vs) -> Forall (fun v => room v (FArray [] :: st)) (v :: vs) ->
  scan_json BeginValue (FArray acc :: st) (Join (map encode_json (v :: vs)) "," +:+ "]" +:+ rest) =
    after_value (JArray (reverse acc ++ map norm (v :: vs))) st rest.
Proof.
  revert v acc. induction vs as [|v' vs IH]; intros v acc Hs Hr; inv Hs; inv Hr.
  - cbn [map Join]. rewrite H1; [|done|by right; left]. unfold after_value at 1. cbn [deliver_value].
    by rewrite scan_close_array, reverse_cons.
  - cbn [map]. rewrite Join_cons, !sapp_assoc. rewrite H1; [|done|by left]. unfold after_value at 1. cbn [deliver_value].
    rewrite scan_comma. change (encode_json v' :: map encode_json vs) with (map encode_json (v' :: vs)).
    rewrite (IH v' (norm v :: acc)) by done. by rewrite reverse_cons, <- app_assoc.
Qed.

Definition encode_member (m : string * json) : string := appendString m.1 +:+ ":" +:+ encode_json m.2.
Definition norm_member (m : string * json) : string * json := (sanitize m.1, norm m.2).

Lemma scan_member b ms k st m rest :
  b = BeginString \/ b = BeginStringOrEmpty -> scans m.2 -> room m.2 (FObject [] EmptyString :: st) -> delimits rest ->
  scan_json b (FObject ms k :: st) (encode_member m +:+ rest) =
    scan_json EndValue (FObject (norm_member m :: ms) (sanitize m.1) :: st) rest.
Proof.
  intros Hb Hs Hr Hd. unfold encode_member. rewrite !sapp_assoc, scan_key by done.
  change (scan_json EndKey ?st (":" +:+ ?t)) with (scan_json BeginValue st t). by rewrite Hs.
Qed.

Lemma scan_members b m ms acc k st rest :
  b = BeginString \/ b = BeginStringOrEmpty ->
  Forall (fun m => scans m.2) (m :: ms) -> Forall (fun m => room m.2 (FObject [] EmptyString :: st)) (m :: ms) ->
  scan_json b (FObject acc k :: st) (Join (map encode_member (m :: ms)) "," +:+ "}" +:+ rest) =
    after_value (JObject (reverse acc ++ map norm_member (m :: ms))) st rest.
Proof.
  revert b m acc k. induction ms as [|m' ms IH]; intros b m acc k Hb Hs Hr; inv Hs; inv Hr.
  - cbn [map Join]. rewrite scan_member by (done || by right; right; left).
    by rewrite scan_close_object, reverse_cons.
  - cbn [map]. rewrite Join_cons, !sapp_assoc, scan_member by (done || by left).
    rewrite scan_comma. change (encode_member m' :: map encode_member ms) with (map encode_member (m' :: ms)).
    rewrite (IH BeginString m' (norm_member m :: acc)) by (done || by left). by rewrite reverse_cons, <- app_assoc.
Qed.

Lemma room_items d ds (st : list frame) :
  (N.of_nat (length st) + N.of_nat (S (max_list ds)) <= maxNestingDepth)%N -> In d ds ->
  (N.of_nat (S (length st)) + N.of_nat d <= maxNestingDepth)%N.
Proof. intros H Hd. assert (d <= max_list ds); [|lia]. by apply max_list_elem_of_le, list_elem_of_In. Qed.

Lemma Join_head c s p ps sep t : p = String c s -> exists s', Join (p :: ps) sep +:+ t = String c s'.
Proof. intros ->. destruct ps as [|q ps]; [cbn [Join]|rewrite Join_cons, sapp_assoc]; rewrite sapp_cons; eauto. Qed.

Lemma push_room m f v st : room v st -> 0 < depth v -> pushParseState m f st = Continue m (f :: st).
Proof. unfold room, pushParseState. intros H Hd. by rewrite (proj2 (N.leb_le _ _)) by lia. Qed.

Lemma Forall_apply {A} (P Q : A -> Prop) l : Forall (fun x => P x -> Q x) l -> Forall P l -> Forall Q l.
Proof. induction 1; intros H'; inv H'; auto. Qed.

(** The text of a value is scanned to the value, its strings sanitized. *)
Lemma encode_scans v : encodable v -> scans v.
Proof.
  induction v as [| |t|s|vs IH|ms IH] using json_induction; intros Hv st rest Hr Hd.
  - by destruct st as [|[] ?].
  - destruct b; by destruct st as [|[] ?].
  - inv Hv. by apply scan_number_text.
  - apply scan_string.
  - cbn [encode_json]. rewrite !sapp_assoc, sapp_cons, sapp_nil. cbn [scan_json step_json].
    change (begin_value st "[") with (pushParseState BeginValueOrEmpty (FArray []) st).
    rewrite (push_room _ _ _ _ Hr) by (cbn; lia). inv Hv.
    destruct vs as [|v vs]; [by destruct st as [|[] ?]|].
    pose proof (Forall_apply _ _ _ IH H0) as Hs. inv H0. destruct (encode_head v) as (c & s & E & Hc & Hb & _); [done|].
    destruct (Join_head c s (encode_json v) (map encode_json vs) "," ("]" +:+ rest) E) as [s' E'].
    cbn [map]. rewrite (scan_or_empty _ _ _ _ E' Hc Hb). change (encode_json v :: map encode_json vs)
      with (map encode_json (v :: vs)).
    rewrite scan_items; [done|done|]. apply Forall_forall. intros x Hx%list_elem_of_In.
    eapply room_items; [exact Hr|]. by apply in_map.
  - cbn [encode_json]. rewrite !sapp_assoc, sapp_cons, sapp_nil. cbn [scan_json step_json].
    change (begin_value st "{") with (pushParseState BeginStringOrEmpty (FObject [] EmptyString) st).
    rewrite (push_room _ _ _ _ Hr) by (cbn; lia). inv Hv.
    destruct ms as [|m ms]; [by destruct st as [|[] ?]|].
    change (fun m => appendString m.1 +:+ ":" +:+ encode_json m.2) with encode_member.
    rewrite scan_members; [done|by right|by apply (Forall_apply _ _ _ IH)|].
    apply Forall_forall. intros x Hx%list_elem_of_In.
    eapply room_items; [exact Hr|]. by apply (in_map (fun m => depth m.2)).
Qed.

(** Round trips. *)
Lemma Unmarshal_encode v :
  encodable v -> (N.of_nat (depth v) <= maxNestingDepth)%N -> Unmarshal_value (encode_json v) = Some (norm v).
Proof.
  intros Hv Hd. unfold Unmarshal_value. rewrite <- (sapp_nil_r (encode_json v)).
  by rewrite (encode_scans v Hv [] EmptyString).
Qed.

Lemma Decode_encode v rest :
  encodable v -> (N.of_nat (depth v) <= maxNestingDepth)%N -> delimits rest ->
  Decode_value (encode_json v +:+ rest) = Some (norm v).
Proof. intros Hv Hd Hr. unfold Decode_value. by rewrite (encode_scans v Hv [] rest). Qed.

(** ** Integers *)

Lemma pretty_char_digit n : (n < 10)%N -> is_digit (pretty_N_char n) = true /\ byteN (pretty_N_char n) = (48 + n)%N.
Proof.
  intros H. assert (E : n = N.of_nat (N.to_nat n)) by lia. rewrite E. assert (L : N.to_nat n < 10) by lia.
  revert L. generalize (N.to_nat n). intros k L. do 10 (destruct k as [|k]; [done|]). lia.
Qed.

(** The digits of a positive number: the first is not zero. *)
Lemma pretty_go_digits x s : (0 < x)%N -> exists c ds,
  pretty_N_go x s = String c (ds +:+ s) /\ between 49 57 (byteN c) = true /\ sforall is_digit ds = true
  /\ atoi 0 (String c ds) = Some (Z.of_N x).
Proof.
  revert s. induction (N.lt_wf_0 x) as [x _ IH]. intros s Hx. rewrite pretty_N_go_step by done.
  destruct (pretty_char_digit (x mod 10)) as [Hd Hb]; [lia|].
  destruct (decide (x / 10 = 0)%N) as [E|E].
  - rewrite E, pretty_N_go_0. exists (pretty_N_char (x mod 10)), EmptyString. split_and!; [done| |done|].
    + apply between_spec. rewrite Hb. zify. Z.div_mod_to_equations. lia.
    + cbn [atoi]. rewrite Hd, Hb. f_equal. zify. Z.div_mod_to_equations. lia.
  - destruct (IH (x / 10)%N ltac:(lia) (String (pretty_N_char (x mod 10)) s)) as (c & ds & -> & Hc & Hds & Ha);
      [lia|].
    exists c, (ds +:+ String (pretty_N_char (x mod 10)) EmptyString). split_and!; [|done| |].
    + by rewrite sapp_assoc.
    + rewrite sforall_app, Hds. cbn [sforall]. by rewrite Hd.
    + change (String c (ds +:+ ?t)) with (String c ds +:+ t). rewrite (atoi_app _ _ _ _ Ha). cbn [atoi].
      rewrite Hd, Hb. f_equal. zify. Z.div_mod_to_equations. lia.
Qed.

Lemma number_run_digits ds n' : sforall is_digit ds = true -> n' = NInt -> number_run n' ds = Some NInt.
Proof.
  intros Hd ->. induction ds as [|c ds IH]; [done|]. cbn [sforall] in Hd. apply andb_true_iff in Hd as [Hc Hd].
  cbn [number_run]. rewrite <- (IH Hd). revert Hc.
  destruct c as [[] [] [] [] [] [] [] []]; intros H; (discriminate H || done).
Qed.

Lemma number_text_positive c ds :
  between 49 57 (byteN c) = true -> sforall is_digit ds = true ->
  number_text (String c ds) = true /\ number_run NNeg (String c ds) = Some NInt.
Proof.
  intros Hc Hd. cbn [number_text number_run].
  assert (E : begin_value [] c = Continue (InNumber NInt (String c EmptyString)) [] /\ number_step NNeg c = Some NInt).
  { revert Hc. destruct c as [[] [] [] [] [] [] [] []]; intros H; (discriminate H || done). }
  destruct E as [-> ->]. by rewrite (number_run_digits ds NInt).
Qed.

Lemma pretty_pos_digits p : exists c ds,
  pretty (Z.pos p) = String c ds /\ between 49 57 (byteN c) = true /\ sforall is_digit ds = true
  /\ atoi 0 (String c ds) = Some (Z.pos p).
Proof.
  destruct (pretty_go_digits (N.pos p) EmptyString) as (c & ds & E & H); [done|]. rewrite sapp_nil_r in E.
  exists c, ds. split; [exact E|exact H].
Qed.

(** The text of an integer is a number and ParseInt reads it back. *)
Lemma JInt_encodable n : encodable (JInt n).
Proof.
  apply enc_number. destruct n as [|p|p]; [done| |].
  - destruct (pretty_pos_digits p) as (c & ds & -> & Hc & Hd & _). by apply number_text_positive.
  - change (pretty (Z.neg p)) with (String "-" (pretty (Z.pos p))).
    destruct (pretty_pos_digits p) as (c & ds & -> & Hc & Hd & _).
    destruct (number_text_positive c ds Hc Hd) as [_ E].
    cbn [number_text]. change (begin_value [] "-") with (Continue (InNumber NNeg "-") []). cbv iota. by rewrite E.
Qed.

Lemma ParseInt_pretty n : (- 2 ^ 63 <= n < 2 ^ 63)%Z -> ParseInt (pretty n) = Some n.
Proof.
  intros H.
  assert (R : (- 2 ^ 63 <=? n)%Z && (n <? 2 ^ 63)%Z = true) by lia.
  destruct n as [|p|p]; [done| |].
  - destruct (pretty_pos_digits p) as (c & ds & -> & Hc & Hd & Ha).
    unfold ParseInt. rewrite (bool_decide_eq_false_2 (c = "-"%char)), (bool_decide_eq_false_2 (c = "+"%char)) by (intros ->; done).
    by rewrite (bool_decide_eq_false_2 (String c ds = EmptyString)), Ha, R by done.
  - change (pretty (Z.neg p)) with (String "-" (pretty (Z.pos p))).
    destruct (pretty_pos_digits p) as (c & ds & -> & Hc & Hd & Ha).
    unfold ParseInt. rewrite (bool_decide_eq_true_2 ("-"%char = "-"%char)) by done.
    rewrite (bool_decide_eq_false_2 (String c ds = EmptyString)), Ha by done.
    change (- Z.pos p)%Z with (Z.neg p). by rewrite R.
Qed.

#[export] Hint Resolve JInt_encodable : go.
#[export] Hint Constructors encodable : go.

(** Storing a string or an integer that was encoded. *)
Lemma fill_int_JInt prev n : (- 2 ^ 63 <= n < 2 ^ 63)%Z -> fill_int prev (norm (JInt n)) = Some n.
Proof. apply ParseInt_pretty. Qed.

Lemma fill_elements_map {A B} zero (fill : A -> json -> option A) (f : B -> json) (g : B -> A) bs :
  (forall b, fill zero (f b) = Some (g b)) -> fill_elements zero fill [] (map f bs) = Some (g <$> bs).
Proof. intros H. induction bs as [|b bs IH]; [done|]. cbn. by rewrite H, IH. Qed.

Lemma slice_of_items {A} (l : list A) : slice_items (l, length l) = l.
Proof. unfold slice_items. cbn. by rewrite firstn_all. Qed.

(** ** Strings that were decoded are valid UTF-8 *)

Definition valid_rune (r : rune) : Prop := (r <= 1114111)%N /\ between 55296 57343 r = false.

Lemma byteN_ascii n : (n < 256)%N -> byteN (ascii_of_N n) = n.
Proof. apply N_ascii_embedding. Qed.

Lemma between_true lo hi n : (lo <= n)%N -> (n <= hi)%N -> between lo hi n = true.
Proof. rewrite between_spec. done. Qed.

Lemma between_false lo hi n : (n < lo)%N \/ (hi < n)%N -> between lo hi n = false.
Proof. intros H. apply not_true_iff_false. rewrite between_spec. lia. Qed.

#[local] Ltac arith := zify; Z.div_mod_to_equations; lia.

Lemma Decode_Encode r t : valid_rune r -> DecodeRune (EncodeRune r +:+ t) = (r, String.length (EncodeRune r)).
Proof.
  intros [Hr Hs]. unfold EncodeRune. rewrite Hs, (proj2 (N.ltb_ge _ _)) by done. cbn [orb]. cbv zeta.
  assert (Hs' : (r < 55296)%N \/ (57343 < r)%N).
  { apply not_true_iff_false in Hs. rewrite between_spec in Hs. lia. }
  destruct (N.leb_spec r 127); [|destruct (N.leb_spec r 2047); [|destruct (N.leb_spec r 65535)]];
    rewrite !sapp_cons, sapp_nil; unfold DecodeRune; rewrite !byteN_ascii by arith.
  - by rewrite (proj2 (N.ltb_lt _ _)) by lia.
  - rewrite (proj2 (N.ltb_ge _ _)), !between_true by arith. cbn [String.length]. f_equal. arith.
  - rewrite (proj2 (N.ltb_ge _ _)), (between_false 194 223), (between_true 224 239), (between_true 128 191 (128 + r mod 64)) by arith.
    rewrite between_true; [cbn [andb String.length]; f_equal; arith| |];
      destruct (N.eqb_spec (224 + r / 4096) 224), (N.eqb_spec (224 + r / 4096) 237); arith.
  - rewrite (proj2 (N.ltb_ge _ _)), (between_false 194 223), (between_false 224 239), (between_true 240 244),
      (between_true 128 191 (128 + (r / 64) mod 64)), (between_true 128 191 (128 + r mod 64)) by arith.
    rewrite between_true; [cbn [andb String.length]; f_equal; arith| |];
      destruct (N.eqb_spec (240 + r / 262144) 240), (N.eqb_spec (240 + r / 262144) 244); arith.
Qed.

Lemma EncodeRune_valid r : exists r', valid_rune r' /\ EncodeRune r = EncodeRune r'.
Proof.
  destruct ((1114111 <? r)%N || between 55296 57343 r) eqn:E.
  - exists RuneError. split; [done|]. unfold EncodeRune. by rewrite E.
  - exists r. apply orb_false_iff in E as [E%N.ltb_ge Eb]. by split.
Qed.

Lemma EncodeRune_cons r : exists c s, EncodeRune r = String c s.
Proof. unfold EncodeRune. repeat case_match; eauto. Qed.

Lemma runes_encode r t : valid_rune r -> runes (EncodeRune r +:+ t) = r :: runes t.
Proof.
  intros Hr. pose proof (Decode_Encode r t Hr) as E. destruct (EncodeRune_cons r) as (c & s & Hc). rewrite Hc in *.
  rewrite sapp_cons in *. rewrite runes_unfold, E by done. cbn [fst snd String.length pred sdrop].
  rewrite runes_from_skip, sdrop_app by (rewrite slength_app; lia). done.
Qed.

Lemma utf8_encode rs : utf8 (encode_runes rs).
Proof.
  unfold utf8, sanitize. induction rs as [|r rs IH]; [done|]. cbn [encode_runes].
  destruct (EncodeRune_valid r) as (r' & Hr & ->). rewrite runes_encode by done. cbn [encode_runes]. by rewrite IH.
Qed.

Lemma utf8_sanitize s : utf8 (sanitize s).
Proof. apply utf8_encode. Qed.

Lemma single_escape_rune c t : single_escape c = Some t -> exists r, t = EncodeRune r.
Proof.
  destruct c as [[] [] [] [] [] [] [] []]; intros H; try discriminate H; injection H as <-;
    first [by exists 34%N | by exists 92%N | by exists 39%N | by exists 47%N | by exists 8%N | by exists 12%N | by exists 10%N
          | by exists 13%N | by exists 9%N].
Qed.

(** The runes that unquoting writes. *)
Lemma unquote_runes k s t : unquote_from k s = Some t -> exists rs, t = encode_runes rs.
Proof.
  assert (Hr : forall r o u, (forall u, o = Some u -> exists rs, u = encode_runes rs) ->
    String.append (EncodeRune r) <$> o = Some u -> exists rs, u = encode_runes rs).
  { intros r [v|] u Ho; [|done]. cbn. intros [= <-]. destruct (Ho v eq_refl) as [rs ->]. by exists (r :: rs). }
  revert k t. induction s as [|c s IH]; intros k t; cbn [unquote_from]; [intros [= <-]; by exists []|].
  destruct k as [|k]; [|apply IH]. destruct (byteN c =? 92)%N.
  - destruct s as [|e s]; [done|]. case_bool_decide.
    + destruct (hex4 s); [|done]. repeat case_match; (eapply Hr; intros u; apply IH).
    + destruct (single_escape e) as [p|] eqn:Ep; [|done]. apply single_escape_rune in Ep as [r ->].
      eapply Hr. intros u. apply IH.
  - destruct (_ || _); [done|]. destruct (DecodeRune _) as [r w]. eapply Hr. intros u. apply IH.
Qed.

Lemma unquote_utf8 s t : unquote s = Some t -> utf8 t.
Proof. intros [rs ->]%unquote_runes. apply utf8_encode. Qed.

(** All strings in the value are valid UTF-8. *)
Inductive utf8_json : json -> Prop :=
| utf8_null : utf8_json JNull
| utf8_bool b : utf8_json (JBool b)
| utf8_number t : utf8_json (JNumber t)
| utf8_string s : utf8 s -> utf8_json (JString s)
| utf8_array vs : Forall utf8_json vs -> utf8_json (JArray vs)
| utf8_object ms : Forall (fun m => utf8 m.1 /\ utf8_json m.2) ms -> utf8_json (JObject ms).
#[export] Hint Constructors utf8_json : go.

(** The same of what the scanner holds. *)
Definition utf8_frame (f : frame) : Prop :=
  match f with
  | FArray vs => Forall utf8_json vs
  | FObject ms k => Forall (fun m => utf8 m.1 /\ utf8_json m.2) ms /\ utf8 k
  end.
Definition utf8_result (r : step_result) : Prop :=
  match r with
  | Continue m st => Forall utf8_frame st /\ (if m is InLiteral _ v then utf8_json v else True)
  | Finished v _ => utf8_json v
  | Failed => True
  end.

Lemma deliver_utf8 v st : utf8_json v -> Forall utf8_frame st -> utf8_result (deliver_value v st).
Proof.
  intros Hv Hst. destruct st as [|[vs|ms k] st]; [done|..]; inversion_clear Hst as [|? ? Hf Hst']; (split; [|done]); constructor; try done.
  - by constructor.
  - destruct Hf as [Hm Hk]. split; [|done]. by constructor.
Qed.

Lemma end_value_utf8 st c : Forall utf8_frame st -> utf8_result (end_value st c).
Proof.
  intros Hst. unfold end_value. destruct (isSpace c); [done|]. destruct st as [|[vs|ms k] st]; [done|..];
    (case_bool_decide; [done|]; case_bool_decide; [|done]); inversion_clear Hst as [|? ? Hf Hst']; apply deliver_utf8; try done; constructor.
  - by apply Forall_reverse.
  - apply Forall_reverse. by destruct Hf.
Qed.

Lemma begin_value_utf8 st c : Forall utf8_frame st -> utf8_result (begin_value st c).
Proof.
  intros Hst. unfold begin_value, pushParseState.
  destruct (isSpace c); [done|]. repeat case_match; try done; by repeat constructor.
Qed.

Lemma begin_string_utf8 st c : Forall utf8_frame st -> utf8_result (begin_string st c).
Proof. intros Hst. unfold begin_string. by repeat case_match. Qed.

Lemma end_string_utf8 key text st : Forall utf8_frame st -> utf8_result (end_string key text st).
Proof.
  intros Hst. unfold end_string. destruct (unquote text) as [s|] eqn:E; [|done]. apply unquote_utf8 in E.
  destruct key; [|by apply deliver_utf8; [constructor|]]. destruct st as [|[|ms k] st]; try done.
  inversion_clear Hst as [|? ? Hf Hst']. destruct Hf as [Hm Hk]. split; [|done]. by constructor.
Qed.

Lemma step_utf8 m st c :
  Forall utf8_frame st -> (if m is InLiteral _ v then utf8_json v else True) -> utf8_result (step_json m st c).
Proof.
  intros Hst Hm. destruct m; cbn [step_json]; auto using begin_value_utf8, begin_string_utf8, end_value_utf8.
  - destruct (isSpace c); [done|]. case_bool_decide; auto using begin_value_utf8, end_value_utf8.
  - destruct (isSpace c); [done|]. case_bool_decide; auto using begin_string_utf8, end_value_utf8.
  - destruct (byteN c =? 34)%N; [by apply end_string_utf8|]. by repeat case_match.
  - by repeat case_match.
  - destruct (hex_value c); [|done]. by repeat case_match.
  - destruct (number_step st0 c); [done|]. destruct (number_ends st0); [|done].
    pose proof (deliver_utf8 (JNumber text) st (utf8_number text) Hst) as H.
    destruct (deliver_value _ st); [|done..]. apply end_value_utf8, H.
  - destruct rest as [|d rest]; [done|]. destruct rest as [|e rest]; case_bool_decide; try done. by apply deliver_utf8.
  - repeat case_match; done.
Qed.

Lemma scan_utf8 m st s v rest :
  Forall utf8_frame st -> (if m is InLiteral _ v then utf8_json v else True) ->
  scan_json m st s = Some (v, rest) -> utf8_json v.
Proof.
  revert m st. induction s as [|c s IH]; intros m st Hst Hm; cbn [scan_json].
  - repeat case_match; try done. intros [= <- _]. constructor.
  - pose proof (step_utf8 m st c Hst Hm) as H. destruct (step_json m st c) as [m' st'|v' b|]; [|intros [= <- _]; exact H|done].
    destruct H as [H1 H2]. by apply IH.
Qed.

Lemma Decode_utf8 s v : Decode_value s = Some v -> utf8_json v.
Proof.
  unfold Decode_value. destruct (scan_json BeginValue [] s) as [[v' rest]|] eqn:E; [|done]. intros [= <-].
  by apply scan_utf8 in E.
Qed.

(** Filling keeps a property of the variable that holds of every value stored. *)
Definition fills {A} (P : A -> Prop) (fill : A -> json -> option A) : Prop :=
  forall a v a', P a -> utf8_json v -> fill a v = Some a' -> P a'.

Lemma fill_string_utf8 : fills utf8 fill_string.
Proof. intros a v a' Ha Hv. inv Hv; cbn; congruence. Qed.

Lemma fill_struct_utf8 {A} (P : A -> Prop) fields : Forall (fun f => fills P f.2) fields -> fills P (fill_struct (A := A) fields).
Proof.
  intros Hf a v a' Ha Hv. inv Hv; cbn [fill_struct]; try congruence. revert a Ha.
  induction H as [|[k v] ms [_ Hv] _ IH]; intros a Ha; cbn [fill_members]; [congruence|].
  destruct (field_of fields k) as [f|] eqn:E; [|by apply IH].
  unfold field_of in E. destruct (head _) as [[n f']|] eqn:Eh; [|done]. injection E as <-.
  apply head_Some_elem_of, list_elem_of_filter in Eh as [_ Hin]. rewrite Forall_forall in Hf.
  destruct (f' a v) as [a1|] eqn:Ea; [|done]. apply IH. exact (Hf _ Hin a v a1 Ha Hv Ea).
Qed.

Lemma fill_slice_utf8 {A} (P : A -> Prop) zero fill : P zero -> fills P fill ->
  fills (fun s => Forall P s.1) (fill_slice (A := A) zero fill).
Proof.
  intros Hz Hf [array n] v a' Ha Hv. inv Hv; cbn [fill_slice]; [by intros [= <-]|done..| |done].
  destruct vs as [|v vs]; [by intros [= <-]|]. cbn [fst] in *.
  destruct (fill_elements zero fill array (v :: vs)) as [r|] eqn:E; [|done]. intros [= <-]. cbn.
  revert array r Ha E. induction H as [|v' vs' Hv' _ IH]; intros array r Ha; cbn [fill_elements]; [by intros [= <-]|].
  destruct (fill (default zero (head array)) v') as [a|] eqn:Ea; [|done].
  destruct (fill_elements zero fill (tail array) vs') as [r'|] eqn:Er; [|done]. intros [= <-].
  constructor; [|eapply IH; [|exact Er]].
  - eapply Hf; [|exact Hv'|exact Ea]. destruct Ha; done.
  - destruct Ha; done.
Qed.
