(* ===== verification/GoFlag.v ===== *)
(** * Command lines (package flag)

    What the commands use of package flag: flag sets of text, integer, boolean
    and duration flags with [ExitOnError], and [strconv.ParseInt] with base 0 and
    [strconv.ParseBool], by which values are read. *)

From S2P Require Import Prelude GoStrings GoText Timestamp GoNet.

(** ** Values *)

Definition lower (c : ascii) : N := N.lor (byteN c) 32.

Definition digit_value (c : ascii) : option Z :=
  if between 48 57 (byteN c) then Some (Z.of_N (byteN c) - 48)%Z
  else if between 97 122 (lower c) then Some (Z.of_N (lower c) - 87)%Z
  else None.

(** The digits of a base; underscores are skipped. *)
Fixpoint base_digits (base : Z) (s : string) (n : Z) : option Z :=
  match s with
  | EmptyString => Some n
  | String c s' =>
      if bool_decide (c = "_"%char) then base_digits base s' n
      else
        match digit_value c with
        | Some d => if (d <? base)%Z then base_digits base s' (n * base + d)%Z else None
        | None => None
        end
  end.

(** [underscoreOK] on the text without its sign: whether the number is
    hexadecimal, and the class of the last character. *)
Inductive Saw : Type := SawStart | SawDigit | SawUnderscore | SawOther.
Fixpoint underscores_ok (hex : bool) (saw : Saw) (s : string) : bool :=
  match s with
  | EmptyString => if saw is SawUnderscore then false else true
  | String c s' =>
      if between 48 57 (byteN c) || hex && between 97 102 (lower c) then underscores_ok hex SawDigit s'
      else if bool_decide (c = "_"%char) then
        (if saw is SawDigit then underscores_ok hex SawUnderscore s' else false)
      else if saw is SawUnderscore then false
      else underscores_ok hex SawOther s'
  end.

(** The base that a prefix says, the digits, and whether underscores are well
    placed: [ParseUint(s, 0, 64)] before the check of the range. *)
Definition parse_base0 (s : string) : option Z :=
  let plain (base : Z) (ds : string) := if underscores_ok false SawStart s then base_digits base ds 0 else None in
  match s with
  | EmptyString => None
  | String c s' =>
      if negb (bool_decide (c = "0"%char)) then plain 10%Z s
      else
        match s' with
        | String p (String _ _ as ds) =>
            let prefixed (base : Z) :=
              if underscores_ok (base =? 16)%Z SawDigit ds then base_digits base ds 0 else None in
            if (lower p =? 98)%N then prefixed 2%Z
            else if (lower p =? 111)%N then prefixed 8%Z
            else if (lower p =? 120)%N then prefixed 16%Z
            else plain 8%Z s'
        | _ => plain 8%Z s'
        end
  end.

(** [strconv.ParseInt(s, 0, 64)] *)
Definition ParseInt0 (s : string) : option Z :=
  let '(neg, ds) :=
    match s with
    | String c s' => if bool_decide (c = "-"%char) then (true, s') else if bool_decide (c = "+"%char) then (false, s') else (false, s)
    | EmptyString => (false, s)
    end in
  match parse_base0 ds with
  | None => None
  | Some n =>
      if (neg : bool) then (if n <=? 2 ^ 63 then Some (- n) else None)%Z
      else (if n <? 2 ^ 63 then Some n else None)%Z
  end.

Example base0_integers :
  ParseInt0 <$> ["1000"; "-5"; "0x1F"; "0b101"; "0o17"; "017"; "1_000"; "1__0"; "_1"; "0x_1f"; "0"; "09"; ""; "9223372036854775808"; "-9223372036854775808"; "1e3"]
  = [Some 1000; Some (-5); Some 31; Some 5; Some 15; Some 15; Some 1000; None; None; Some 31; Some 0; None; None; None; Some (-9223372036854775808); None]%Z.
Proof. vm_compute. reflexivity. Qed.

(** [strconv.ParseBool] *)
Definition ParseBool (s : string) : option bool :=
  if bool_decide (s ∈ ["1"; "t"; "T"; "TRUE"; "true"; "True"]) then Some true
  else if bool_decide (s ∈ ["0"; "f"; "F"; "FALSE"; "false"; "False"]) then Some false
  else None.

(** ** Flags *)

(** The current value of a flag, which also says its type. *)
Inductive Value : Type := VString (s : string) | VInt (n : Z) | VBool (b : bool) | VDuration (d : Duration).

Definition FlagSet : Type := list (string * Value).

Definition set_value (old : Value) (text : string) : option Value :=
  match old with
  | VString _ => Some (VString text)
  | VInt _ => VInt <$> ParseInt0 text
  | VBool _ => VBool <$> ParseBool text
  | VDuration _ => VDuration <$> ParseDuration text
  end.

Fixpoint lookup_flag (fs : FlagSet) (name : string) : option Value :=
  match fs with
  | [] => None
  | (n, v) :: fs' => if bool_decide (n = name) then Some v else lookup_flag fs' name
  end.

Definition assign (fs : FlagSet) (name : string) (v : Value) : FlagSet :=
  (fun f => if bool_decide (f.1 = name) then (f.1, v) else f) <$> fs.

(** The first argument as a flag: no flag, the end of the flags, a syntax error,
    or a name with a value after [=]. *)
Inductive Argument : Type := NoFlag | Terminator | BadSyntax | FlagArg (name : string) (value : option string).

Definition split_value (name : string) : string * option string :=
  match name with
  | EmptyString => (name, None)
  | String c rest =>
      match IndexByte rest "=" with
      | Some i => (String c (stake i rest), Some (sdrop (i + 1) rest))
      | None => (name, None)
      end
  end.

Definition argument (s : string) : Argument :=
  match s with
  | String m (String c rest) =>
      if negb (bool_decide (m = "-"%char)) then NoFlag
      else
        let minus := bool_decide (c = "-"%char) in
        if minus && bool_decide (rest = EmptyString) then Terminator
        else
          let name := if minus then rest else String c rest in
          if bool_decide (name = EmptyString) || HasPrefix name "-" || HasPrefix name "=" then BadSyntax
          else let '(n, v) := split_value name in FlagArg n v
  | _ => NoFlag
  end.

(** [fs.Parse(args)] with ExitOnError: the values and the arguments left, or the
    exit code. *)
Fixpoint ParseFlags (fs : FlagSet) (args : list string) : (FlagSet * list string) + Z :=
  match args with
  | [] => inl (fs, [])
  | s :: rest =>
      match argument s with
      | NoFlag => inl (fs, args)
      | Terminator => inl (fs, rest)
      | BadSyntax => inr 2%Z
      | FlagArg name value =>
          match lookup_flag fs name with
          | None => inr (if bool_decide (name = "help") || bool_decide (name = "h") then 0%Z else 2%Z)
          | Some old =>
              let set (text : string) (k : FlagSet -> (FlagSet * list string) + Z) : (FlagSet * list string) + Z :=
                match set_value old text with Some v => k (assign fs name v) | None => inr 2%Z end in
              match old, value with
              | VBool _, None => set "true" (fun fs => ParseFlags fs rest)
              | _, Some text => set text (fun fs => ParseFlags fs rest)
              | _, None => match rest with [] => inr 2%Z | text :: rest' => set text (fun fs => ParseFlags fs rest') end
              end
          end
      end
  end.

Definition get_string (fs : FlagSet) (name : string) : string :=
  match lookup_flag fs name with Some (VString s) => s | _ => EmptyString end.
Definition get_int (fs : FlagSet) (name : string) : Z :=
  match lookup_flag fs name with Some (VInt n) => n | _ => 0%Z end.
Definition get_bool (fs : FlagSet) (name : string) : bool :=
  match lookup_flag fs name with Some (VBool b) => b | _ => false end.
Definition get_duration (fs : FlagSet) (name : string) : Duration :=
  match lookup_flag fs name with Some (VDuration d) => d | _ => 0%Z end.

Example parsed_flags :
  let fs := [("name", VString ""); ("max-rows", VInt 1000); ("gate", VBool true); ("every", VDuration 0%Z)] in
  ParseFlags fs ["-name"; "a=b"; "--max-rows=0x10"; "-gate=false"; "-every"; "8h"; "rest"; "-gate"]
    = inl ([("name", VString "a=b"); ("max-rows", VInt 16); ("gate", VBool false); ("every", VDuration 28800000000000%Z)], ["rest"; "-gate"])
  /\ ParseFlags fs ["-x"] = inr 2%Z /\ ParseFlags fs ["-h"] = inr 0%Z /\ ParseFlags fs ["-name"] = inr 2%Z /\ ParseFlags fs ["--"; "-x"] = inl (fs, ["-x"])
  /\ ParseFlags fs ["-gate"; "false"] = inl (fs, ["false"]) /\ ParseFlags fs ["-"] = inl (fs, ["-"]) /\ ParseFlags fs ["---x"] = inr 2%Z.
Proof. vm_compute. split_and!; reflexivity. Qed.

(** ** Lemmas *)

Lemma lookup_assign fs name name' v :
  lookup_flag (assign fs name v) name' =
    if bool_decide (name = name') then (fun _ => v) <$> lookup_flag fs name' else lookup_flag fs name'.
Proof.
  unfold assign. induction fs as [|[n w] fs IH]; [by destruct (bool_decide _)|]. cbn [fmap list_fmap lookup_flag fst].
  destruct (decide (n = name)) as [->|Hn].
  - rewrite (bool_decide_eq_true_2 (name = name)) by done. cbn [lookup_flag]. unfold fmap in IH.
    destruct (bool_decide (name = name')) eqn:E; [done|]. exact IH.
  - rewrite (bool_decide_eq_false_2 (n = name)) by done. cbn [lookup_flag]. unfold fmap in IH.
    destruct (decide (n = name')) as [->|Hn'].
    + rewrite (bool_decide_eq_true_2 (name' = name')) by done. by rewrite bool_decide_eq_false_2.
    + rewrite (bool_decide_eq_false_2 (n = name')) by done. exact IH.
Qed.
