(* ===== verification/Classify.v ===== *)
(** * Statement classification (internal/policy/classify.go)

    The gate decides from the text of a statement alone whether it is a read, a
    session statement or a mutation.  The functions of classify.go are
    translated one by one, loops included: a loop that Go writes with [for] is a
    [Fixpoint] on a fuel argument that returns [None] when the fuel runs out, and
    the lemmas [stripLeading_loop_total] and [containsWord_loop_total] show that
    the fuel the wrappers pass is always enough. *)

From S2P Require Import Prelude GoStrings.

(** ** Definitions *)

Inductive Kind : Type := KindRead | KindMutation | KindSession.

#[export] Instance Kind_eq_dec : EqDecision Kind.
Proof. solve_decision. Defined.

Definition Kind_String (k : Kind) : string :=
  match k with
  | KindRead => "read"
  | KindMutation => "mutation"
  | KindSession => "session"
  end.

Definition readKeywords : list string := ["SELECT"; "SHOW"; "TABLE"; "VALUES"; "FETCH"].

Definition sessionKeywords : list string :=
  ["BEGIN"; "START"; "COMMIT"; "END"; "ROLLBACK"; "SAVEPOINT"; "RELEASE"; "SET"; "RESET";
   "DISCARD"; "DEALLOCATE"; "CLOSE"; "LISTEN"; "UNLISTEN"; "CHECKPOINT"].

Definition dangerKeywords : list string :=
  ["INSERT"; "UPDATE"; "DELETE"; "TRUNCATE"; "MERGE";
   "DROP"; "CREATE"; "ALTER"; "GRANT"; "REVOKE"; "COPY"].

Definition tab : ascii := ascii_of_N 9.
Definition newline : ascii := ascii_of_N 10.
Definition cr : ascii := ascii_of_N 13.
Definition space : ascii := ascii_of_N 32.

(** The cutset " \t\r\n" *)
Definition blanks : string := String space (String tab (String cr (String newline EmptyString))).

(** The [for] loop of stripLeading: one unit of fuel per iteration. *)
Fixpoint stripLeading_loop (fuel : nat) (sql : string) : option string :=
  match fuel with
  | O => None
  | S fuel' =>
      let sql := TrimLeft sql blanks in
      if HasPrefix sql "--" then
        match IndexByte sql newline with
        | Some i => stripLeading_loop fuel' (sdrop (i + 1) sql)
        | None => Some EmptyString
        end
      else if HasPrefix sql "/*" then
        match Index sql "*/" with
        | Some i => stripLeading_loop fuel' (sdrop (i + 2) sql)
        | None => Some EmptyString
        end
      else Some sql
  end.

Definition stripLeading (sql : string) : string :=
  default EmptyString (stripLeading_loop (S (String.length sql)) sql).

(** The scan of firstToken: the bytes before the first separator. *)
Fixpoint firstToken (s : string) : string :=
  match s with
  | EmptyString => EmptyString
  | String c s' =>
      if bool_decide (c = space) || bool_decide (c = tab) || bool_decide (c = cr)
         || bool_decide (c = newline) || bool_decide (c = "("%char) || bool_decide (c = ";"%char)
      then EmptyString
      else String c (firstToken s')
  end.

Definition isIdentChar (b : ascii) : bool :=
  bool_decide (b = "_"%char) || between 65 90 (byteN b) || between 97 122 (byteN b)
  || between 48 57 (byteN b).

(** [isIdentChar(s[i])]; the callers guard the range of [i]. *)
Definition ident_at (s : string) (i : nat) : bool :=
  match byte_at s i with Some c => isIdentChar c | None => false end.

(** The [for] loop of containsWord, at the offset [from]. *)
Fixpoint containsWord_loop (fuel : nat) (s word : string) (from : nat) : option bool :=
  match fuel with
  | O => None
  | S fuel' =>
      match Index (sdrop from s) word with
      | None => Some false
      | Some i0 =>
          let i := i0 + from in
          let before := bool_decide (i = 0) || negb (ident_at s (i - 1)) in
          let afterIdx := i + String.length word in
          let after := bool_decide (String.length s <= afterIdx) || negb (ident_at s afterIdx) in
          if before && after then Some true
          else containsWord_loop fuel' s word (i + String.length word)
      end
  end.

Definition containsWord (s word : string) : bool :=
  default false (containsWord_loop (S (String.length s)) s word 0).

Section Classify.
Context {U : Unicode}.

Definition containsDanger (s : string) : bool :=
  let upper := ToUpper s in
  existsb (fun kw => containsWord upper kw) dangerKeywords.

Definition Classify (sql : string) : Kind :=
  let s := stripLeading sql in
  let first := firstToken s in
  let upper := ToUpper first in
  if bool_decide (upper = "WITH") || bool_decide (upper = "EXPLAIN") then
    if containsDanger s then KindMutation
    else if bool_decide (upper = "EXPLAIN") && containsWord (ToUpper s) "ANALYZE"
    then KindRead
    else KindRead
  else if bool_decide (upper ∈ readKeywords) then KindRead
  else if bool_decide (upper ∈ sessionKeywords) then KindSession
  else if bool_decide (upper = "PREPARE") then KindSession
  else if bool_decide (upper = "EXECUTE") then KindMutation
  else KindMutation.
End Classify.

(** ** The classification on the repository's own test table *)

Module Tests.
#[local] Existing Instance ascii_only.

Example reads :
  Classify <$> ["SELECT * FROM users"; "  select 1"; String newline (String tab " SELECT now()");
     "-- a comment" +:+ String newline "SELECT 1"; "/* block */ SELECT 1"; "TABLE users";
     "VALUES (1), (2)"; "SHOW search_path"; "EXPLAIN SELECT * FROM users";
     "WITH t AS (SELECT 1) SELECT * FROM t"; "SELECT * FROM audit WHERE action = 'delete'"]
  = replicate 11 KindRead.
Proof. vm_compute. reflexivity. Qed.

Example mutations :
  Classify <$> ["INSERT INTO t VALUES (1)"; "update users set name = 'x'"; "DELETE FROM t";
     "TRUNCATE t"; "GRANT SELECT ON t TO bob"; "COPY t FROM stdin";
     "WITH d AS (DELETE FROM t RETURNING *) SELECT * FROM d"; "EXPLAIN ANALYZE DELETE FROM t";
     "EXECUTE my_plan"; ""; "-- nothing here"]
  = replicate 11 KindMutation.
Proof. vm_compute. reflexivity. Qed.

Example sessions :
  Classify <$> ["BEGIN"; "COMMIT"; "ROLLBACK"; "SET search_path = public"; "RESET ALL"; "DISCARD ALL"]
  = replicate 6 KindSession.
Proof. vm_compute. reflexivity. Qed.

Example words :
  (fun p => containsWord p.1 p.2) <$>
    [("FOO DELETE BAR", "DELETE"); ("DELETED_AT", "DELETE"); ("X_DELETE", "DELETE");
     ("(DELETE", "DELETE"); ("DELETE", "DELETE"); ("NODELETE", "DELETE")]
  = [true; false; false; true; true; false].
Proof. vm_compute. reflexivity. Qed.
End Tests.

(** ** stripLeading *)

Lemma stripLeading_loop_mono fuel fuel' sql r :
  stripLeading_loop fuel sql = Some r -> fuel <= fuel' -> stripLeading_loop fuel' sql = Some r.
Proof.
  revert fuel' sql. induction fuel as [|fuel IH]; intros [|fuel'] sql; simpl; try done; [lia|].
  intros H L. repeat split_match; try done; apply IH; (done || lia).
Qed.

(** Each iteration that continues drops at least two bytes, so a fuel above the
    length is enough. *)
Lemma stripLeading_loop_total fuel sql :
  String.length sql < fuel -> is_Some (stripLeading_loop fuel sql).
Proof.
  revert sql. induction fuel as [|fuel IH]; intros sql L; [lia|]. simpl.
  pose proof (TrimLeft_length sql blanks) as Ht.
  repeat split_match; try (eexists; done).
  all: apply IH; rewrite sdrop_length.
  - match goal with H : IndexByte _ _ = _ |- _ => apply IndexByte_Some in H;
      assert (n < String.length (TrimLeft sql blanks)) by (apply byte_at_Some; eauto) end. lia.
  - match goal with H : Index _ _ = _ |- _ => apply Index_bound in H; simpl in H end. lia.
Qed.

Lemma stripLeading_loop_default fuel sql :
  String.length sql < fuel -> stripLeading_loop fuel sql = Some (stripLeading sql).
Proof.
  intros L. unfold stripLeading.
  destruct (stripLeading_loop_total (S (String.length sql)) sql) as [r Hr]; [lia|].
  rewrite Hr. simpl. eapply stripLeading_loop_mono; [done|lia].
Qed.

Lemma stripLeading_loop_S fuel sql :
  stripLeading_loop (S fuel) sql =
    (let t := TrimLeft sql blanks in
     if HasPrefix t "--" then
       match IndexByte t newline with
       | Some i => stripLeading_loop fuel (sdrop (i + 1) t)
       | None => Some EmptyString
       end
     else if HasPrefix t "/*" then
       match Index t "*/" with
       | Some i => stripLeading_loop fuel (sdrop (i + 2) t)
       | None => Some EmptyString
       end
     else Some t).
Proof. done. Qed.

(** One turn of the loop, without fuel. *)
Lemma stripLeading_unfold sql :
  stripLeading sql =
    (let t := TrimLeft sql blanks in
     if HasPrefix t "--" then
       match IndexByte t newline with
       | Some i => stripLeading (sdrop (i + 1) t)
       | None => EmptyString
       end
     else if HasPrefix t "/*" then
       match Index t "*/" with
       | Some i => stripLeading (sdrop (i + 2) t)
       | None => EmptyString
       end
     else t).
Proof.
  assert (H := stripLeading_loop_default (S (S (String.length sql))) sql ltac:(lia)).
  rewrite stripLeading_loop_S in H. cbv zeta in *.
  pose proof (TrimLeft_length sql blanks) as Ht.
  assert (E : forall n t, String.length t <= String.length sql ->
    stripLeading_loop (S (String.length sql)) (sdrop n t) = Some (stripLeading (sdrop n t))).
  { intros n t Hn. apply stripLeading_loop_default. rewrite sdrop_length. lia. }
  repeat split_match; rewrite ?E in H by done; by injection H.
Qed.

(** What stripLeading skips: blanks, [--] comments up to their newline, and
    block comments up to the first closing mark, which the code searches for
    from the opening mark on. *)
Definition line_comment (c : string) : Prop :=
  exists body, sforall (fun b => bool_decide (b <> newline)) body = true /\
    c = "--" +:+ body +:+ String newline EmptyString.
Definition block_comment (c : string) : Prop :=
  HasPrefix c "/*" = true /\ exists i, Index c "*/" = Some i /\ i + 2 = String.length c.

Inductive leading : string -> Prop :=
| leading_nil : leading EmptyString
| leading_blank c p : byte_in c blanks = true -> leading p -> leading (String c p)
| leading_line c p : line_comment c -> leading p -> leading (c +:+ p)
| leading_block c p : block_comment c -> leading p -> leading (c +:+ p).

(** Where stripLeading stops: no blank and no comment starts here. *)
Definition code_start (s : string) : Prop :=
  TrimLeft s blanks = s /\ HasPrefix s "--" = false /\ HasPrefix s "/*" = false.

Lemma leading_blanks p q :
  sforall (fun c => byte_in c blanks) p = true -> leading q -> leading (p +:+ q).
Proof.
  induction p as [|c p IH]; [done|]. rewrite sapp_cons. simpl.
  intros [Hc Hp]%andb_true_iff Hq. constructor; auto.
Qed.

Lemma stripLeading_trim s : stripLeading (TrimLeft s blanks) = stripLeading s.
Proof. rewrite (stripLeading_unfold (TrimLeft s blanks)), (stripLeading_unfold s). by rewrite TrimLeft_idem. Qed.

Lemma stripLeading_blank c s :
  byte_in c blanks = true -> stripLeading (String c s) = stripLeading s.
Proof.
  intros H. rewrite <- (stripLeading_trim (String c s)), <- (stripLeading_trim s).
  cbn [TrimLeft]. by rewrite H.
Qed.

Lemma stripLeading_line c s : line_comment c -> stripLeading (c +:+ s) = stripLeading s.
Proof.
  intros (body & Hb & ->).
  replace (("--" +:+ body +:+ String newline EmptyString) +:+ s)
    with (("--" +:+ body) +:+ String newline s) by (autorewrite with gostr; done).
  rewrite stripLeading_unfold. cbv zeta. rewrite (sapp_assoc "--").
  change (TrimLeft ("--" +:+ body +:+ String newline s) blanks)
    with ("--" +:+ body +:+ String newline s).
  rewrite HasPrefix_app, <- sapp_assoc.
  rewrite IndexByte_app by (rewrite sforall_app, Hb; done).
  by rewrite sdrop_app_plus.
Qed.

Lemma block_comment_inv c : block_comment c -> exists body, c = "/*" +:+ body.
Proof. intros [[r ->]%HasPrefix_true _]. eauto. Qed.

Lemma stripLeading_block c s : block_comment c -> stripLeading (c +:+ s) = stripLeading s.
Proof.
  intros Hc. destruct (block_comment_inv c Hc) as [body ->].
  destruct Hc as (_ & i & Hi & Hl).
  rewrite stripLeading_unfold. cbv zeta.
  change (TrimLeft (("/*" +:+ body) +:+ s) blanks) with (("/*" +:+ body) +:+ s).
  rewrite (Index_app_l _ _ _ _ Hi), Hl, sdrop_app, sapp_assoc, HasPrefix_app. done.
Qed.

(** Leading blanks and complete comments have no influence. *)
Lemma stripLeading_leading p s : leading p -> stripLeading (p +:+ s) = stripLeading s.
Proof.
  induction 1 as [|c p Hc _ IH|c p Hc _ IH|c p Hc _ IH]; [done|..].
  - rewrite sapp_cons. by rewrite stripLeading_blank.
  - rewrite sapp_assoc. by rewrite stripLeading_line.
  - rewrite sapp_assoc. by rewrite stripLeading_block.
Qed.

(** A comment that is never closed: the rest of the statement. *)
Definition unterminated (c : string) : Prop :=
  (HasPrefix c "--" = true /\ IndexByte c newline = None)
  \/ (HasPrefix c "/*" = true /\ Index c "*/" = None).

Lemma leading_app p q : leading p -> leading q -> leading (p +:+ q).
Proof.
  induction 1 as [|c p Hc _ IH|c p Hc _ IH|c p Hc _ IH]; [done|..]; intros Hq;
    rewrite ?sapp_cons, ?sapp_assoc.
  - by apply leading_blank; auto.
  - by apply leading_line; auto.
  - by apply leading_block; auto.
Qed.

Lemma line_comment_cut t i :
  HasPrefix t "--" = true -> IndexByte t newline = Some i ->
  exists c, line_comment c /\ t = c +:+ sdrop (i + 1) t.
Proof.
  intros [r ->]%HasPrefix_true (p & q & E & <- & Hp)%IndexByte_split.
  destruct p as [|c0 [|c1 p]]; [done|done|].
  rewrite !sapp_cons, !sapp_nil in E. injection E as <- <- ->.
  exists ("--" +:+ p +:+ String newline EmptyString). split.
  - exists p. by split.
  - pose proof (sdrop_app_plus (String "-" (String "-" p)) (String newline q) 1) as D.
    rewrite !sapp_cons, !sapp_nil, !sapp_assoc, !sapp_cons, sapp_nil in *. by rewrite D.
Qed.

Lemma block_comment_cut t i :
  HasPrefix t "/*" = true -> Index t "*/" = Some i ->
  exists c, block_comment c /\ t = c +:+ sdrop (i + 2) t.
Proof.
  intros Hp Hi. pose proof (Index_bound _ _ _ Hi) as B. simpl in B.
  exists (stake (i + 2) t). rewrite stake_sdrop. split; [|done].
  pose proof (stake_sdrop (i + 2) t) as E. pose proof (stake_length (i + 2) t B) as L.
  assert (Hi' := Hi). apply Index_Some in Hi' as [H1 H2]. split.
  - rewrite <- E, HasPrefix_app_l in Hp; [done|simpl; lia].
  - exists i. split; [|lia]. apply Index_least.
    + rewrite <- E, sdrop_app_l, HasPrefix_app_l in H1; [done| |lia].
      rewrite sdrop_length. simpl. lia.
    + intros j Hj. specialize (H2 j Hj).
      rewrite <- E, sdrop_app_l, HasPrefix_app_l in H2; [done| |lia].
      rewrite sdrop_length. simpl. lia.
Qed.

(** The loop of stripLeading, specified: it removes a maximal run of blanks and
    complete comments, or everything when it meets an unterminated comment. *)
Lemma stripLeading_run sql :
  exists p r, leading p /\ sql = p +:+ r /\
    ((stripLeading sql = r /\ code_start r)
     \/ (stripLeading sql = EmptyString /\ unterminated r)).
Proof.
  remember (String.length sql) as n eqn:Hn. revert sql Hn.
  induction n as [n IH] using lt_wf_ind. intros sql ->.
  destruct (TrimLeft_suffix sql blanks) as (b & Eb & Hb).
  assert (Hlen : String.length sql = String.length b + String.length (TrimLeft sql blanks))
    by (rewrite Eb at 1; apply slength_app).
  rewrite stripLeading_unfold. cbv zeta. set (t := TrimLeft sql blanks) in *.
  (* a comment at the head of t is skipped and the rest handled by induction *)
  assert (Hskip : forall c k, leading c -> t = c +:+ sdrop (k + 1) t -> k + 1 <= String.length t ->
    exists p r, leading p /\ sql = p +:+ r /\
      ((stripLeading (sdrop (k + 1) t) = r /\ code_start r)
       \/ (stripLeading (sdrop (k + 1) t) = EmptyString /\ unterminated r))).
  { intros c k Hc Et Hk.
    destruct (IH (String.length (sdrop (k + 1) t))) with (sql := sdrop (k + 1) t)
      as (p & r & Hp & E & Hr); [rewrite sdrop_length; lia|done|].
    exists (b +:+ c +:+ p), r. split; [|split; [|done]].
    - apply leading_blanks; [done|]. by apply leading_app.
    - rewrite Eb, Et, E, !sapp_assoc. done. }
  destruct (HasPrefix t "--") eqn:E1; [|destruct (HasPrefix t "/*") eqn:E2].
  - destruct (IndexByte t newline) as [i|] eqn:Ei.
    + destruct (line_comment_cut t i E1 Ei) as (c & Hc & Et).
      apply (Hskip c i); [rewrite <- (sapp_nil_r c); apply leading_line; [done|constructor]|done|].
      apply IndexByte_Some in Ei. assert (i < String.length t) by (apply byte_at_Some; eauto). lia.
    + exists b, t. split; [|split; [done|right; split; [done|by left]]].
      rewrite <- (sapp_nil_r b). apply leading_blanks; [done|constructor].
  - destruct (Index t "*/") as [i|] eqn:Ei.
    + destruct (block_comment_cut t i E2 Ei) as (c & Hc & Et).
      replace (i + 2) with (i + 1 + 1) in * by lia.
      apply (Hskip c (i + 1)); [rewrite <- (sapp_nil_r c); apply leading_block; [done|constructor]|done|].
      apply Index_bound in Ei. simpl in Ei. lia.
    + exists b, t. split; [|split; [done|right; split; [done|by right]]].
      rewrite <- (sapp_nil_r b). apply leading_blanks; [done|constructor].
  - exists b, t. split; [|split; [done|left; split; [done|split; [apply TrimLeft_idem|done]]]].
    rewrite <- (sapp_nil_r b). apply leading_blanks; [done|constructor].
Qed.

(** ** containsWord *)

(** [word] occurs at [i] in [s], delimited by non-identifier bytes or the ends. *)
Definition word_at (s word : string) (i : nat) : Prop :=
  HasPrefix (sdrop i s) word = true
  /\ (i = 0 \/ ident_at s (i - 1) = false)
  /\ ident_at s (i + String.length word) = false.

Definition all_ident (w : string) : bool := sforall isIdentChar w.

Lemma ident_at_out s i : String.length s <= i -> ident_at s i = false.
Proof. unfold ident_at. by intros ->%byte_at_None. Qed.

Lemma containsWord_loop_mono fuel fuel' s w from b :
  containsWord_loop fuel s w from = Some b -> fuel <= fuel' ->
  containsWord_loop fuel' s w from = Some b.
Proof.
  revert fuel' from. induction fuel as [|fuel IH]; intros [|fuel'] from; simpl; try done; [lia|].
  intros H L. repeat split_match; try done. apply IH; [done|lia].
Qed.

(** The offset grows by the length of the word: with a non-empty word the loop
    ends within the length of the text. *)
Lemma containsWord_loop_total fuel s w from :
  w <> EmptyString -> from <= String.length s -> String.length s - from < fuel ->
  is_Some (containsWord_loop fuel s w from).
Proof.
  intros Hw. assert (0 < String.length w) by (destruct w; [done|simpl; lia]).
  revert from. induction fuel as [|fuel IH]; intros from L F; [lia|]. simpl.
  repeat split_match; try (eexists; done).
  match goal with H : Index _ _ = _ |- _ => apply Index_bound in H; rewrite sdrop_length in H end.
  apply IH; lia.
Qed.

(** The bytes inside an occurrence of an all-identifier word are identifier
    bytes, so no delimited occurrence starts inside another occurrence. *)
Lemma no_word_inside s w i j :
  all_ident w = true -> HasPrefix (sdrop i s) w = true -> i < j < i + String.length w ->
  ~ word_at s w j.
Proof.
  intros Hw Hi Hj (_ & [->|Hb] & _); [lia|].
  pose proof (HasPrefix_sdrop _ _ _ Hi (j - 1 - i) ltac:(lia)) as E.
  replace (i + (j - 1 - i)) with (j - 1) in E by lia.
  unfold ident_at in Hb. rewrite E in Hb.
  destruct (byte_at w (j - 1 - i)) as [c|] eqn:Ec.
  - by rewrite (sforall_byte_at _ _ _ _ Hw Ec) in Hb.
  - apply byte_at_None in Ec. lia.
Qed.

Lemma containsWord_loop_spec fuel s w from b :
  w <> EmptyString -> all_ident w = true ->
  containsWord_loop fuel s w from = Some b ->
  (forall j, j < from -> ~ word_at s w j) ->
  b = true <-> exists i, word_at s w i.
Proof.
  intros Hne Hw. revert from. induction fuel as [|fuel IH]; intros from; [done|]. simpl.
  destruct (Index (sdrop from s) w) as [i0|] eqn:Ei.
  - apply Index_Some in Ei as [H1 H2]. rewrite <- sdrop_add in H1.
    replace (from + i0) with (i0 + from) in H1 by lia. intros H Hlt.
    assert (Hlt' : forall j, j < i0 + from -> ~ word_at s w j).
    { intros j Hj Hwj. destruct (decide (j < from)) as [L|L].
      - by apply (Hlt j L).
      - destruct Hwj as [Hp _]. specialize (H2 (j - from) ltac:(lia)). rewrite <- sdrop_add in H2.
        replace (from + (j - from)) with j in H2 by lia. congruence. }
    destruct (bool_decide (i0 + from = 0) || negb (ident_at s (i0 + from - 1))) eqn:Eb;
      [destruct (bool_decide (String.length s <= i0 + from + String.length w)
                 || negb (ident_at s (i0 + from + String.length w))) eqn:Ea|]; simpl in H.
    + injection H as <-. split; [intros _|done]. exists (i0 + from).
      apply orb_true_iff in Eb, Ea. split; [done|split].
      * destruct Eb as [Eb|Eb]; [left; by apply bool_decide_eq_true in Eb|right; by apply negb_true_iff].
      * destruct Ea as [Ea|Ea]; [apply bool_decide_eq_true in Ea; by apply ident_at_out|by apply negb_true_iff].
    + apply (IH _ H). intros j Hj. destruct (decide (j < i0 + from)); [auto|].
      destruct (decide (j = i0 + from)) as [->|]; [|apply (no_word_inside s w (i0 + from)); (done || lia)].
      apply orb_false_iff in Ea as [_ Ea%negb_false_iff]. intros (_ & _ & ?). congruence.
    + apply (IH _ H). intros j Hj. destruct (decide (j < i0 + from)); [auto|].
      destruct (decide (j = i0 + from)) as [->|]; [|apply (no_word_inside s w (i0 + from)); (done || lia)].
      apply orb_false_iff in Eb as [Eb%bool_decide_eq_false Eb'%negb_false_iff].
      intros (_ & [?|?] & _); congruence.
  - intros [= <-] Hlt. split; [done|]. intros (i & Hi).
    destruct (decide (i < from)); [by destruct (Hlt i)|].
    pose proof (Index_None _ _ Ei (i - from)) as Hn. rewrite <- sdrop_add in Hn.
    replace (from + (i - from)) with i in Hn by lia. destruct Hi as [Hi _]. congruence.
Qed.

Lemma containsWord_run s w :
  w <> EmptyString ->
  containsWord_loop (S (String.length s)) s w 0 = Some (containsWord s w).
Proof.
  intros Hw. unfold containsWord.
  destruct (containsWord_loop_total (S (String.length s)) s w 0 Hw) as [b Hb]; [lia..|].
  by rewrite Hb.
Qed.

Lemma containsWord_word_at s w :
  w <> EmptyString -> all_ident w = true ->
  containsWord s w = true <-> exists i, word_at s w i.
Proof.
  intros Hw Hi. eapply containsWord_loop_spec; [done..|by apply containsWord_run|lia].
Qed.

(** The same in terms of a decomposition of the text: [delimiter] bytes are
    ASCII bytes that do not belong to identifiers. *)
Definition delimiter (c : ascii) : bool := ascii_byte c && negb (isIdentChar c).
Definition left_delimited (p : string) : Prop :=
  p = EmptyString \/ exists q c, p = q +:+ String c EmptyString /\ delimiter c = true.
Definition right_delimited (q : string) : Prop :=
  q = EmptyString \/ exists c r, q = String c r /\ delimiter c = true.

Lemma delimiter_inv c : delimiter c = true -> ascii_byte c = true /\ isIdentChar c = false.
Proof. unfold delimiter. rewrite andb_true_iff, negb_true_iff. done. Qed.

Lemma word_at_split p w q :
  left_delimited p -> right_delimited q -> word_at (p +:+ (w +:+ q)) w (String.length p).
Proof.
  intros Hp Hq. repeat split.
  - rewrite sdrop_app. apply HasPrefix_app.
  - destruct Hp as [->|(p' & c & -> & [_ Hc]%delimiter_inv)]; [by left|right].
    unfold ident_at. rewrite slength_app. simpl.
    replace (String.length p' + 1 - 1) with (String.length p' + 0) by lia.
    by rewrite sapp_assoc, byte_at_app_r.
  - unfold ident_at. rewrite byte_at_app_r.
    replace (String.length w) with (String.length w + 0) by lia. rewrite byte_at_app_r.
    destruct Hq as [->|(c & r & -> & [_ Hc]%delimiter_inv)]; [done|exact Hc].
Qed.

(** ** Case insensitivity of the scan *)

Definition no_letter (d : ascii) : bool :=
  negb (between 97 122 (byteN d)) && negb (between 65 90 (byteN d)).
Definition no_letters : string -> bool := sforall no_letter.

Definition upper_stable (c d : ascii) : bool :=
  implb (no_letter d) (Bool.eqb (bool_decide (upper_byte c = d)) (bool_decide (c = d))).

Lemma upper_byte_stable c d :
  no_letter d = true -> bool_decide (upper_byte c = d) = bool_decide (c = d).
Proof.
  intros Hd. assert (H : upper_stable c d = true)
    by (apply all_bytes_spec2; vm_compute; reflexivity).
  unfold upper_stable in H. rewrite Hd in H. by apply Bool.eqb_prop in H.
Qed.

Lemma upper_byte_eq c d : no_letter d = true -> upper_byte c = d <-> c = d.
Proof.
  intros Hd. pose proof (upper_byte_stable c d Hd) as E.
  rewrite <- (bool_decide_eq_true (upper_byte c = d)), <- (bool_decide_eq_true (c = d)). by rewrite E.
Qed.

Lemma byte_in_upper c cs :
  no_letters cs = true -> byte_in (upper_byte c) cs = byte_in c cs.
Proof.
  induction cs as [|d cs IH]; [done|]. intros [Hd Hs]%andb_true_iff.
  cbn [byte_in]. by rewrite upper_byte_stable, IH.
Qed.

Lemma TrimLeft_upper s : TrimLeft (smap upper_byte s) blanks = smap upper_byte (TrimLeft s blanks).
Proof.
  induction s as [|c s IH]; [done|]. cbn [smap TrimLeft].
  rewrite byte_in_upper by (vm_compute; done). by destruct (byte_in c blanks).
Qed.

Lemma HasPrefix_upper s p : no_letters p = true -> HasPrefix (smap upper_byte s) p = HasPrefix s p.
Proof.
  unfold HasPrefix. revert s. induction p as [|d p IH]; intros [|c s]; try done.
  intros [Hd Hs]%andb_true_iff. cbn [smap CutPrefix].
  pose proof (upper_byte_eq c d Hd) as E.
  destruct (decide (d = upper_byte c)) as [E1|E1], (decide (d = c)) as [E2|E2].
  - by apply IH.
  - by destruct E2; symmetry; apply E.
  - by destruct E1; symmetry; apply E.
  - done.
Qed.

Lemma sdrop_smap n f s : sdrop n (smap f s) = smap f (sdrop n s).
Proof. revert s. induction n as [|n IH]; intros [|c s]; try done. cbn. apply IH. Qed.

Lemma Index_upper s p : no_letters p = true -> Index (smap upper_byte s) p = Index s p.
Proof.
  intros Hp. induction s as [|c s IH]; [done|]. cbn [smap Index].
  rewrite <- IH, <- (HasPrefix_upper (String c s)) by done. done.
Qed.

Lemma IndexByte_upper s d : no_letter d = true -> IndexByte (smap upper_byte s) d = IndexByte s d.
Proof.
  intros Hd. induction s as [|c s IH]; [done|]. cbn [smap IndexByte].
  pose proof (upper_byte_eq c d Hd) as E. rewrite IH.
  destruct (decide (upper_byte c = d)) as [E1|E1], (decide (c = d)) as [E2|E2]; try done.
  - by destruct E2; apply E.
  - by destruct E1; apply E.
Qed.

Lemma stripLeading_upper s : stripLeading (smap upper_byte s) = smap upper_byte (stripLeading s).
Proof.
  remember (String.length s) as n eqn:Hn. revert s Hn.
  induction n as [n IH] using lt_wf_ind. intros s ->.
  rewrite (stripLeading_unfold (smap _ s)), (stripLeading_unfold s). cbv zeta.
  pose proof (TrimLeft_length s blanks) as Ht.
  rewrite TrimLeft_upper, !HasPrefix_upper, Index_upper, IndexByte_upper by (vm_compute; done).
  repeat split_match; try done; rewrite sdrop_smap; (eapply IH; [|done]);
    rewrite sdrop_length.
  - match goal with H : IndexByte _ _ = _ |- _ => apply IndexByte_Some in H;
      assert (n < String.length (TrimLeft s blanks)) by (apply byte_at_Some; eauto) end. lia.
  - match goal with H : Index _ _ = _ |- _ => apply Index_bound in H; simpl in H end. lia.
Qed.

Lemma firstToken_upper s : firstToken (smap upper_byte s) = smap upper_byte (firstToken s).
Proof.
  induction s as [|c s IH]; [done|]. cbn [smap firstToken].
  rewrite !upper_byte_stable, IH by (vm_compute; done). by split_match.
Qed.

Lemma sforall_suffix p s q : sforall p (q +:+ s) = true -> sforall p s = true.
Proof. rewrite sforall_app. by intros [_ ?]%andb_true_iff. Qed.

Lemma stripLeading_ascii s : isASCII s = true -> isASCII (stripLeading s) = true.
Proof.
  intros H. destruct (stripLeading_run s) as (p & r & _ & -> & [[-> _]|[-> _]]); [|done].
  by apply sforall_suffix in H.
Qed.

Lemma firstToken_prefix s : exists q, s = firstToken s +:+ q.
Proof.
  induction s as [|c s [q IH]]; [by exists EmptyString|]. cbn [firstToken].
  split_match; [by exists (String c s)|]. exists q. by rewrite sapp_cons, <- IH.
Qed.

Lemma firstToken_ascii s : isASCII s = true -> isASCII (firstToken s) = true.
Proof.
  intros H. destruct (firstToken_prefix s) as [q E]. unfold isASCII in *.
  rewrite E, sforall_app in H. by apply andb_true_iff in H as [? _].
Qed.

Definition upper_idem_check (c : ascii) : bool :=
  bool_decide (upper_byte (upper_byte c) = upper_byte c)
  && Bool.eqb (isIdentChar (upper_byte c)) (isIdentChar c).

Lemma upper_byte_idem c : upper_byte (upper_byte c) = upper_byte c.
Proof.
  assert (H : upper_idem_check c = true) by (apply all_bytes_spec; vm_compute; reflexivity).
  apply andb_true_iff in H as [H _]. by apply bool_decide_eq_true in H.
Qed.

Lemma isIdentChar_upper c : isIdentChar (upper_byte c) = isIdentChar c.
Proof.
  assert (H : upper_idem_check c = true) by (apply all_bytes_spec; vm_compute; reflexivity).
  apply andb_true_iff in H as [_ H]. by apply Bool.eqb_prop in H.
Qed.

Lemma smap_upper_idem s : smap upper_byte (smap upper_byte s) = smap upper_byte s.
Proof. induction s as [|c s IH]; [done|]. cbn. by rewrite upper_byte_idem, IH. Qed.

Lemma smap_upper_ascii s : isASCII s = true -> isASCII (smap upper_byte s) = true.
Proof.
  induction s as [|c s IH]; [done|]. intros [Hc Hs]%andb_true_iff. apply andb_true_iff.
  split; [by apply upper_byte_ascii|by apply IH].
Qed.

(** The bytes that end the first token. *)
Definition separator (c : ascii) : bool :=
  bool_decide (c = space) || bool_decide (c = tab) || bool_decide (c = cr)
  || bool_decide (c = newline) || bool_decide (c = "("%char) || bool_decide (c = ";"%char).

Definition token_byte_check (c : ascii) : bool :=
  implb (isIdentChar c)
    (negb (separator c) && negb (byte_in c blanks) && negb (bool_decide ("-"%char = c))
     && negb (bool_decide ("/"%char = c))).

Lemma ident_token_byte c :
  isIdentChar c = true ->
  separator c = false /\ byte_in c blanks = false /\ "-"%char <> c /\ "/"%char <> c.
Proof.
  intros Hc. assert (H : token_byte_check c = true) by (apply all_bytes_spec; vm_compute; reflexivity).
  unfold token_byte_check in H. rewrite Hc in H. cbn [implb] in H.
  rewrite !andb_true_iff, !negb_true_iff, !bool_decide_eq_false in H. tauto.
Qed.

Lemma firstToken_word w d q :
  all_ident w = true -> separator d = true -> firstToken (w +:+ String d q) = w.
Proof.
  intros Hw Hd. induction w as [|c w IH].
  - rewrite sapp_nil. cbn [firstToken]. unfold separator in Hd. by rewrite Hd.
  - apply andb_true_iff in Hw as [Hc Hw]. rewrite sapp_cons. cbn [firstToken].
    destruct (ident_token_byte c Hc) as (Hs & _). unfold separator in Hs. rewrite Hs. by rewrite IH.
Qed.

Lemma stripLeading_ident c s : isIdentChar c = true -> stripLeading (String c s) = String c s.
Proof.
  intros Hc. destruct (ident_token_byte c Hc) as (_ & Hb & H1 & H2).
  rewrite stripLeading_unfold. cbn [TrimLeft]. rewrite Hb. cbv zeta.
  unfold HasPrefix. cbn [CutPrefix]. by rewrite !decide_False by done.
Qed.

(** ** Classify *)

Lemma dangerKeywords_ident kw : kw ∈ dangerKeywords -> all_ident kw = true /\ kw <> EmptyString.
Proof.
  intros H. assert (C : forallb (fun k => all_ident k && negb (bool_decide (k = EmptyString)))
    dangerKeywords = true) by (vm_compute; reflexivity).
  rewrite forallb_forall in C. apply list_elem_of_In in H. apply C in H.
  apply andb_true_iff in H as [? ?%negb_true_iff%bool_decide_eq_false]. done.
Qed.

Lemma delimiter_upper c : delimiter c = true -> delimiter (upper_byte c) = true.
Proof.
  intros [H1 H2]%delimiter_inv. unfold delimiter.
  by rewrite upper_byte_ascii, isIdentChar_upper, H2.
Qed.

Section ClassifyTheorems.
Context {U : Unicode}.

Lemma containsDanger_iff s :
  containsDanger s = true <-> exists kw i, kw ∈ dangerKeywords /\ word_at (ToUpper s) kw i.
Proof.
  unfold containsDanger. rewrite existsb_exists. split.
  - intros (kw & Hin%list_elem_of_In & H). destruct (dangerKeywords_ident kw Hin) as [Hi Hne].
    apply containsWord_word_at in H as [i Hw]; eauto.
  - intros (kw & i & Hin & Hw). exists kw. destruct (dangerKeywords_ident kw Hin) as [Hi Hne].
    split; [by apply list_elem_of_In|]. apply containsWord_word_at; eauto.
Qed.

Lemma left_delimited_upper p : left_delimited p -> left_delimited (ToUpper p).
Proof.
  intros [->|(q & c & -> & Hc)]; [by left|right].
  destruct (delimiter_inv c Hc) as [Ha _]. rewrite ToUpper_app by done.
  exists (ToUpper q), (upper_byte c). split; [done|by apply delimiter_upper].
Qed.

Lemma right_delimited_upper q : right_delimited q -> right_delimited (ToUpper q).
Proof.
  intros [->|(c & r & -> & Hc)]; [by left|right].
  destruct (delimiter_inv c Hc) as [Ha _]. rewrite <- (sapp_nil (String c r)), ToUpper_app by done.
  exists (upper_byte c), (ToUpper r). split; [done|by apply delimiter_upper].
Qed.

(** The keyword the classification dispatches on. *)
Definition keyword (sql : string) : string := ToUpper (firstToken (stripLeading sql)).
Definition scanned : list string := ["WITH"; "EXPLAIN"].
Definition ungated : list string := readKeywords ++ sessionKeywords ++ ["PREPARE"].

Lemma Classify_by_keyword sql :
  Classify sql =
    if bool_decide (keyword sql ∈ scanned) then
      (if containsDanger (stripLeading sql) then KindMutation else KindRead)
    else if bool_decide (keyword sql ∈ readKeywords) then KindRead
    else if bool_decide (keyword sql ∈ sessionKeywords ++ ["PREPARE"]) then KindSession
    else KindMutation.
Proof.
  unfold Classify. fold (keyword sql). cbv zeta. unfold scanned.
  rewrite !(bool_decide_ext (keyword sql ∈ ["WITH"; "EXPLAIN"])
              (keyword sql = "WITH" \/ keyword sql = "EXPLAIN"))
    by (rewrite elem_of_cons, list_elem_of_singleton; done).
  rewrite bool_decide_or.
  rewrite !(bool_decide_ext (keyword sql ∈ sessionKeywords ++ ["PREPARE"])
              (keyword sql ∈ sessionKeywords \/ keyword sql = "PREPARE"))
    by (rewrite elem_of_app, list_elem_of_singleton; done).
  rewrite bool_decide_or. repeat split_match; done.
Qed.

(** C16.  The classification fails closed: a statement is a mutation exactly
    when its first keyword is none of the listed read, session and scanned
    keywords, or when it is [WITH]/[EXPLAIN] and some danger keyword occurs in
    it, in any case, as a whole word. *)
Theorem Classify_mutation_iff sql :
  Classify sql = KindMutation <->
    keyword sql ∉ scanned ++ ungated
    \/ (keyword sql ∈ scanned /\
        exists kw i, kw ∈ dangerKeywords /\ word_at (ToUpper (stripLeading sql)) kw i).
Proof.
  rewrite Classify_by_keyword, <- containsDanger_iff. unfold ungated.
  case_bool_decide as E1; [|case_bool_decide as E2; [|case_bool_decide as E3]];
    rewrite !elem_of_app.
  - destruct (containsDanger _); split; intros H; try done; [by right|].
    destruct H as [H|[_ ?]]; [by destruct H; left|done].
  - split; [done|]. intros [H|[? _]]; [|done]. by destruct H; right; left.
  - split; [done|]. rewrite elem_of_app in E3. intros [H|[? _]]; [|done].
    by destruct H; right; right.
  - rewrite elem_of_app in E3. split; [intros _; left; tauto|done].
Qed.

(** Leading blanks and complete comments have no influence on the
    classification. *)
Theorem Classify_leading p sql : leading p -> Classify (p +:+ sql) = Classify sql.
Proof. intros Hp. unfold Classify. by rewrite (stripLeading_leading p sql Hp). Qed.

(** A data-modifying keyword in a [WITH] or [EXPLAIN] statement is found
    wherever it stands and whatever its case, also in a text with non-ASCII
    characters, as long as ASCII delimiters surround it. *)
Theorem Classify_danger sql p w q :
  keyword sql ∈ scanned ->
  stripLeading sql = p +:+ (w +:+ q) ->
  isASCII w = true -> smap upper_byte w ∈ dangerKeywords ->
  left_delimited p -> right_delimited q ->
  Classify sql = KindMutation.
Proof.
  intros Hk E Hw Hd Hp Hq. rewrite Classify_by_keyword, bool_decide_eq_true_2 by done.
  rewrite (proj2 (containsDanger_iff _)); [done|].
  exists (smap upper_byte w), (String.length (ToUpper p)). split; [done|].
  rewrite E, ToUpper_infix by (done || (intros ->; by apply dangerKeywords_ident in Hd as [_ ?])).
  apply word_at_split; [by apply left_delimited_upper|by apply right_delimited_upper].
Qed.

(** The classification does not depend on the case of the statement. *)
Theorem Classify_case sql : isASCII sql = true -> Classify (ToUpper sql) = Classify sql.
Proof.
  intros Ha. rewrite ToUpper_ascii by done. rewrite !Classify_by_keyword. unfold keyword, containsDanger.
  rewrite stripLeading_upper, firstToken_upper.
  pose proof (stripLeading_ascii _ Ha) as Hs. pose proof (firstToken_ascii _ Hs) as Ht.
  rewrite !(ToUpper_ascii (smap _ _)), !ToUpper_ascii, !smap_upper_idem
    by auto using smap_upper_ascii. done.
Qed.

Lemma keyword_word p w d q :
  leading p -> all_ident w = true -> w <> EmptyString -> separator d = true ->
  keyword (p +:+ (w +:+ String d q)) = ToUpper w.
Proof.
  intros Hp Hw Hne Hd. unfold keyword. rewrite stripLeading_leading by done.
  destruct w as [|c w]; [done|]. rewrite sapp_cons, stripLeading_ident, <- sapp_cons, firstToken_word;
    [done..|by apply andb_true_iff in Hw as [? _]].
Qed.

Lemma ungated_word kw : kw ∈ ungated -> all_ident kw = true /\ kw <> EmptyString /\ ToUpper kw = kw.
Proof.
  intros H. assert (C : forallb (fun k => all_ident k && negb (bool_decide (k = EmptyString))
    && isASCII k && bool_decide (smap upper_byte k = k)) ungated = true) by (vm_compute; reflexivity).
  rewrite forallb_forall in C. apply list_elem_of_In in H. apply C in H.
  rewrite !andb_true_iff, negb_true_iff, bool_decide_eq_false, bool_decide_eq_true in H.
  rewrite ToUpper_ascii; tauto.
Qed.

Lemma ungated_not_mutation sql : keyword sql ∈ ungated -> Classify sql <> KindMutation.
Proof.
  intros H Hm. rewrite Classify_by_keyword in Hm. rewrite bool_decide_eq_false_2 in Hm.
  - repeat case_bool_decide; try done. unfold ungated in H.
    by apply elem_of_app in H as [?|?].
  - intros Hs. assert (C : forallb (fun k => bool_decide (k ∉ ungated)) scanned = true)
      by (vm_compute; reflexivity).
    rewrite forallb_forall in C. apply list_elem_of_In in Hs. apply C in Hs.
    by apply bool_decide_eq_true in Hs.
Qed.

(** The classification reads one token: after one of the listed read,
    session or [PREPARE] keywords and a separator, the rest of the text is not
    looked at, whatever statements it holds. *)
Theorem Classify_first_token p kw d q :
  leading p -> kw ∈ ungated -> separator d = true ->
  Classify (p +:+ (kw +:+ String d q)) <> KindMutation.
Proof.
  intros Hp Hk Hd. destruct (ungated_word kw Hk) as (Hi & Hne & Hu).
  apply ungated_not_mutation. by rewrite keyword_word, Hu.
Qed.

End ClassifyTheorems.

(** containsWord decides the occurrence of a delimited word: for a
    non-empty word of identifier characters (every keyword it is called with)
    its loop ends and finds a delimited occurrence exactly when there is one,
    although it skips a whole word length after each rejected occurrence. *)
Theorem containsWord_spec s w :
  w <> EmptyString -> all_ident w = true ->
  containsWord_loop (S (String.length s)) s w 0 = Some (containsWord s w)
  /\ (containsWord s w = true <-> exists i, word_at s w i).
Proof. intros Hw Hi. split; [by apply containsWord_run|by apply containsWord_word_at]. Qed.

(** The loop of stripLeading ends, and removes a run of blanks and
    complete comments up to the first byte that is neither, or everything when
    it meets an unterminated comment. *)
Theorem stripLeading_spec sql :
  stripLeading_loop (S (String.length sql)) sql = Some (stripLeading sql) /\
  exists p r, leading p /\ sql = p +:+ r /\
    ((stripLeading sql = r /\ code_start r)
     \/ (stripLeading sql = EmptyString /\ unterminated r)).
Proof. split; [apply stripLeading_loop_default; lia|apply stripLeading_run]. Qed.

(** ** The theorems at concrete inputs *)

Module Witnesses.
#[local] Existing Instance ascii_only.

Definition comment : string := "/* why */ ".

Lemma comment_leading : leading comment.
Proof.
  apply (leading_block "/* why */" " ").
  - split; [reflexivity|]. exists 7. split; vm_compute; reflexivity.
  - apply (leading_blank " "%char EmptyString eq_refl leading_nil).
Defined.

Lemma Classify_leading_witness :
  leading comment /\ Classify (comment +:+ "DROP TABLE t") = Classify "DROP TABLE t".
Proof. split; [exact comment_leading|exact (Classify_leading comment "DROP TABLE t" comment_leading)]. Defined.

Lemma Classify_danger_witness :
  stripLeading "EXPLAIN ANALYZE deLete FROM t" = "EXPLAIN ANALYZE " +:+ ("deLete" +:+ " FROM t") /\
  Classify "EXPLAIN ANALYZE deLete FROM t" = KindMutation.
Proof.
  split; [vm_compute; reflexivity|].
  apply (Classify_danger "EXPLAIN ANALYZE deLete FROM t" "EXPLAIN ANALYZE " "deLete" " FROM t");
    try (vm_compute; reflexivity); try (apply (bool_decide_unpack _); vm_compute; exact I).
  - right. exists "EXPLAIN ANALYZE", " "%char. split; vm_compute; reflexivity.
  - right. exists " "%char, "FROM t". split; vm_compute; reflexivity.
Defined.

Lemma Classify_case_witness :
  isASCII "select * from t" = true /\ Classify (ToUpper "select * from t") = Classify "select * from t".
Proof. split; [reflexivity|exact (Classify_case "select * from t" eq_refl)]. Defined.

Lemma containsWord_spec_witness :
  "DELETE" <> EmptyString /\
  containsWord_loop 18 "DELETED OR DELETE" "DELETE" 0 = Some (containsWord "DELETED OR DELETE" "DELETE") /\
  (containsWord "DELETED OR DELETE" "DELETE" = true <-> exists i, word_at "DELETED OR DELETE" "DELETE" i).
Proof.
  split; [discriminate|].
  exact (containsWord_spec "DELETED OR DELETE" "DELETE" ltac:(discriminate) eq_refl).
Defined.

Lemma Classify_first_token_witness :
  "SELECT" ∈ ungated /\ Classify (comment +:+ ("SELECT" +:+ String " " "1; DELETE FROM t")) <> KindMutation.
Proof.
  assert (H : "SELECT" ∈ ungated) by (apply (bool_decide_unpack _); vm_compute; exact I).
  split; [exact H|].
  exact (Classify_first_token comment "SELECT" " "%char "1; DELETE FROM t" comment_leading H eq_refl).
Defined.
End Witnesses.
