(* ===== verification/Sha256.v ===== *)
(** * SHA-256 and hexadecimal (packages crypto/sha256 and encoding/hex)

    policy.AnonymizeValue replaces a value by the hexadecimal SHA-256 digest of
    the salt followed by the value.  This file is FIPS 180-4's SHA-256 on 32-bit
    words held in [N], with every addition reduced modulo 2^32, and
    encoding/hex's [Encode]; both run under [vm_compute] and are checked on the
    standard's test vectors. *)

From S2P Require Import Prelude GoStrings.

Local Open Scope N_scope.

(** ** 32-bit words *)

Definition word32 : Type := N.
Definition wrap32 (n : N) : word32 := n mod 4294967296.
Definition add32 (a b : word32) : word32 := wrap32 (a + b).
Definition rotr32 (n : N) (x : word32) : word32 :=
  N.lor (N.shiftr x n) (wrap32 (N.shiftl x (32 - n))).
Definition not32 (x : word32) : word32 := N.lxor x 4294967295.

Definition Ch (x y z : word32) : word32 := N.lxor (N.land x y) (N.land (not32 x) z).
Definition Maj (x y z : word32) : word32 :=
  N.lxor (N.lxor (N.land x y) (N.land x z)) (N.land y z).
Definition Sigma0 (x : word32) : word32 := N.lxor (N.lxor (rotr32 2 x) (rotr32 13 x)) (rotr32 22 x).
Definition Sigma1 (x : word32) : word32 := N.lxor (N.lxor (rotr32 6 x) (rotr32 11 x)) (rotr32 25 x).
Definition sigma0 (x : word32) : word32 := N.lxor (N.lxor (rotr32 7 x) (rotr32 18 x)) (N.shiftr x 3).
Definition sigma1 (x : word32) : word32 := N.lxor (N.lxor (rotr32 17 x) (rotr32 19 x)) (N.shiftr x 10).

(** The constants of the standard are the first 32 bits of the fractional parts
    of the cube roots (of the square roots, for the initial state) of the first
    primes; they are computed here from this definition. *)
Definition prime (n : N) : bool :=
  forallb (fun d => negb (n mod N.of_nat d =? 0)) (seq 2 (N.to_nat n - 2)).
Definition primes : list N :=
  Eval vm_compute in List.filter prime (N.of_nat <$> seq 2 310).

(** The greatest [r] below [2^bits] with [r^k <= x], bit by bit. *)
Fixpoint root (k : N) (bits : nat) (x r : N) : N :=
  match bits with
  | O => r
  | S b => let r' := r + 2 ^ N.of_nat b in root k b x (if r' ^ k <=? x then r' else r)
  end.
Definition root_fraction (k p : N) : word32 := wrap32 (root k 38 (p * 2 ^ (32 * k)) 0).

Definition K256 : list word32 := Eval vm_compute in root_fraction 3 <$> primes.

Record hash_state : Type := HashState {
  st_a : N; st_b : N; st_c : N; st_d : N; st_e : N; st_f : N; st_g : N; st_h : N
}.

Definition initial_state : hash_state :=
  Eval vm_compute in
  match root_fraction 2 <$> take 8 primes with
  | [a; b; c; d; e; f; g; h] => HashState a b c d e f g h
  | _ => HashState 0 0 0 0 0 0 0 0
  end.

Example constants_count : length K256 = 64%nat.
Proof. reflexivity. Qed.

(** ** Padding and blocks *)

Fixpoint string_bytes (s : string) : list N :=
  match s with
  | EmptyString => []
  | String c s' => byteN c :: string_bytes s'
  end.

(** [n] bytes of [x], most significant first. *)
Fixpoint be_bytes (n : nat) (x : N) : list N :=
  match n with
  | O => []
  | S n' => be_bytes n' (x / 256) ++ [x mod 256]
  end.

(** One bit 1, zeros up to 8 bytes before a multiple of 64, the bit length. *)
Definition pad (msg : list N) : list N :=
  let len := length msg in
  msg ++ [128] ++ replicate ((119 - len mod 64) mod 64) 0 ++ be_bytes 8 (8 * N.of_nat len).

Fixpoint words (bs : list N) : list word32 :=
  match bs with
  | a :: b :: c :: d :: bs' => (a * 16777216 + b * 65536 + c * 256 + d) :: words bs'
  | _ => []
  end.

(** The message schedule, newest word first. *)
Fixpoint schedule (n : nat) (w : list word32) : list word32 :=
  match n with
  | O => w
  | S n' =>
      let nth i := default 0 (w !! i) in
      schedule n' (add32 (add32 (sigma1 (nth 1%nat)) (nth 6%nat)) (add32 (sigma0 (nth 14%nat)) (nth 15%nat)) :: w)
  end.

Definition round (s : hash_state) (kw : word32 * word32) : hash_state :=
  let '(k, w) := kw in
  let '(HashState a b c d e f g h) := s in
  let t1 := add32 (add32 (add32 h (Sigma1 e)) (add32 (Ch e f g) k)) w in
  let t2 := add32 (Sigma0 a) (Maj a b c) in
  HashState (add32 t1 t2) a b c (add32 d t1) e f g.

Definition compress (s : hash_state) (block : list word32) : hash_state :=
  let w := reverse (schedule 48 (reverse block)) in
  let r := foldl round s (zip K256 w) in
  HashState (add32 (st_a s) (st_a r)) (add32 (st_b s) (st_b r)) (add32 (st_c s) (st_c r)) (add32 (st_d s) (st_d r))
            (add32 (st_e s) (st_e r)) (add32 (st_f s) (st_f r)) (add32 (st_g s) (st_g r)) (add32 (st_h s) (st_h r)).

(** The blocks of 16 words, [n] of them. *)
Fixpoint blocks (n : nat) (ws : list word32) : list (list word32) :=
  match n with
  | O => []
  | S n' => take 16 ws :: blocks n' (drop 16 ws)
  end.

Definition digest_words (s : hash_state) : list word32 :=
  [st_a s; st_b s; st_c s; st_d s; st_e s; st_f s; st_g s; st_h s].

(** [sha256.New(); Write(msg); Sum(nil)] *)
Definition sha256 (msg : string) : list N :=
  let ws := words (pad (string_bytes msg)) in
  let s := foldl compress initial_state (blocks (length ws / 16)%nat ws) in
  digest_words s ≫= be_bytes 4.

(** ** encoding/hex *)

Fixpoint hex_encode (bs : list N) : string :=
  match bs with
  | [] => EmptyString
  | b :: bs' => String (hex_digit (b / 16)) (String (hex_digit (b mod 16)) (hex_encode bs'))
  end.

(** ** Test vectors *)

Example sha256_empty :
  hex_encode (sha256 "") = "e3b0c44298fc1c149afbf4c8996fb92427ae41e4649b934ca495991b7852b855".
Proof. vm_compute. reflexivity. Qed.

Example sha256_abc :
  hex_encode (sha256 "abc") = "ba7816bf8f01cfea414140de5dae2223b00361a396177a9cb410ff61f20015ad".
Proof. vm_compute. reflexivity. Qed.

Example sha256_two_blocks :
  hex_encode (sha256 "abcdbcdecdefdefgefghfghighijhijkijkljklmklmnlmnomnopnopq")
  = "248d6a61d20638b8e5c026930c3e6039a33ce45964ff2167f6ecedd419db06c1".
Proof. vm_compute. reflexivity. Qed.

(** ** Lemmas *)

Lemma be_bytes_length n x : length (be_bytes n x) = n.
Proof. revert x. induction n as [|n IH]; intros x; [done|]. cbn [be_bytes]. rewrite length_app, IH. cbn. lia. Qed.

Lemma sha256_length msg : length (sha256 msg) = 32%nat.
Proof.
  unfold sha256. generalize (foldl compress initial_state (blocks
    (length (words (pad (string_bytes msg))) / 16) (words (pad (string_bytes msg))))).
  intros st. unfold digest_words. rewrite !bind_cons, !length_app, !be_bytes_length. done.
Qed.

Lemma be_bytes_bounded n x : Forall (fun b => b < 256) (be_bytes n x).
Proof.
  revert x. induction n as [|n IH]; intros x; [constructor|]. cbn [be_bytes].
  apply Forall_app. split; [apply IH|]. repeat constructor. by apply N.mod_lt.
Qed.

Lemma sha256_bounded msg : Forall (fun b => b < 256) (sha256 msg).
Proof.
  unfold sha256. generalize (digest_words (foldl compress initial_state (blocks
    (length (words (pad (string_bytes msg))) / 16) (words (pad (string_bytes msg)))))).
  intros ws. induction ws as [|w ws IH]; [constructor|]. rewrite bind_cons.
  apply Forall_app. split; [apply (be_bytes_bounded 4)|done].
Qed.

Lemma hex_encode_length bs : String.length (hex_encode bs) = (2 * length bs)%nat.
Proof. induction bs as [|b bs IH]; [done|]. cbn [hex_encode String.length length]. lia. Qed.

Definition is_hex (c : ascii) : bool := between 48 57 (byteN c) || between 97 102 (byteN c).

Definition hex_digits : list N := N.of_nat <$> seq 0 16.

Lemma hex_digits_spec n : n < 16 -> n ∈ hex_digits.
Proof.
  intros H. apply list_elem_of_fmap. exists (N.to_nat n). split; [lia|]. apply elem_of_seq. lia.
Qed.

Lemma hex_digit_hex n : n < 16 -> is_hex (hex_digit n) = true.
Proof.
  intros H%hex_digits_spec.
  assert (C : forallb (fun n => is_hex (hex_digit n)) hex_digits = true) by (vm_compute; reflexivity).
  rewrite forallb_forall in C. apply C. by apply list_elem_of_In.
Qed.

Lemma hex_digit_inj n m : n < 16 -> m < 16 -> hex_digit n = hex_digit m -> n = m.
Proof.
  intros Hn%hex_digits_spec Hm%hex_digits_spec E.
  assert (C : forallb (fun n => forallb (fun m => bool_decide (hex_digit n = hex_digit m -> n = m))
    hex_digits) hex_digits = true) by (vm_compute; reflexivity).
  rewrite forallb_forall in C. specialize (C n (proj1 (list_elem_of_In _ _) Hn)).
  rewrite forallb_forall in C. specialize (C m (proj1 (list_elem_of_In _ _) Hm)).
  by apply bool_decide_eq_true in C; apply C.
Qed.

Lemma hex_encode_hex bs : Forall (fun b => b < 256) bs -> sforall is_hex (hex_encode bs) = true.
Proof.
  induction 1 as [|b bs Hb _ IH]; [done|]. cbn [hex_encode sforall].
  rewrite !hex_digit_hex, IH; [done|by apply N.mod_lt|by apply N.Div0.div_lt_upper_bound].
Qed.

Lemma hex_encode_inj bs bs' :
  Forall (fun b => b < 256) bs -> Forall (fun b => b < 256) bs' ->
  hex_encode bs = hex_encode bs' -> bs = bs'.
Proof.
  intros H. revert bs'. induction H as [|b bs Hb _ IH]; intros ? [|b' bs' Hb' Hbs']; try done.
  cbn [hex_encode]. intros [= E1 E2 E].
  apply hex_digit_inj in E1; [|by apply N.Div0.div_lt_upper_bound..].
  apply hex_digit_inj in E2; [|by apply N.mod_lt..].
  rewrite (IH bs' Hbs' E). f_equal. rewrite (N.div_mod b 16), (N.div_mod b' 16) by done. congruence.
Qed.
