(* ===== verification/Policy.v ===== *)
(** * Per-connection policy (internal/policy/policy.go)

    A connection's PII rules are compiled into a map from lower-cased column
    names to actions; AnonymizeValue applies an action to a value of a column of
    a given PostgreSQL type.  A column value is an [option string]: [None] is
    Go's nil slice, the SQL NULL of the wire protocol. *)

From S2P Require Import Prelude GoStrings Sha256 Json JsonProps.

(** ** Definitions *)

Inductive Action : Type := ActionNone | ActionHash | ActionRedact.

#[export] Instance Action_eq_dec : EqDecision Action.
Proof. solve_decision. Defined.

Record PIIRule : Type := mkRule { rule_Name : string; rule_Table : string; rule_Action : string }.

#[export] Instance PIIRule_eq_dec : EqDecision PIIRule.
Proof. solve_decision. Defined.

(** The JSON of a rule, by its struct tags: the table is left out when empty. *)
Definition PIIRule_json (r : PIIRule) : json :=
  JObject ([("name", JString (rule_Name r))]
    ++ (if bool_decide (rule_Table r = EmptyString) then [] else [("table", JString (rule_Table r))])
    ++ [("action", JString (rule_Action r))]).
Definition PIIRule_fields : list (string * (PIIRule -> json -> option PIIRule)) :=
  [("name", fun r v => (fun x => mkRule x (rule_Table r) (rule_Action r)) <$> fill_string (rule_Name r) v);
   ("table", fun r v => (fun x => mkRule (rule_Name r) x (rule_Action r)) <$> fill_string (rule_Table r) v);
   ("action", fun r v => (fun x => mkRule (rule_Name r) (rule_Table r) x) <$> fill_string (rule_Action r) v)].
Definition zeroRule : PIIRule := mkRule EmptyString EmptyString EmptyString.
Definition fill_rule : PIIRule -> json -> option PIIRule := fill_struct PIIRule_fields.
Definition fill_rules : list PIIRule * nat -> json -> option (list PIIRule * nat) := fill_slice zeroRule fill_rule.

Record Policy : Type := mkPolicy {
  byColumn : gmap string Action;
  rules : list PIIRule;
  salt : string;
  redact : string;
  maxRows : Z;
  gateMutations : bool
}.

(** A value on the wire: a byte string, or NULL. *)
Definition value : Type := option string.

Definition textFamilyOIDs : list Z := [0; 18; 19; 25; 1042; 1043; 705]%Z.
Definition IsTextFamilyOID (oid : Z) : bool := bool_decide (oid ∈ textFamilyOIDs).

Section Policy.
Context {U : Unicode}.

Definition ParseAction (s : string) : Action :=
  let l := ToLower s in
  if bool_decide (l = "hash") then ActionHash
  else if bool_decide (l = "redact") then ActionRedact
  else ActionNone.

(** The map the loop of [New] fills: a later rule overwrites an earlier one. *)
Definition compile (rs : list PIIRule) : gmap string Action :=
  foldl (fun m r => <[ToLower (rule_Name r) := ParseAction (rule_Action r)]> m) ∅ rs.

Definition New (rs : list PIIRule) (hashSalt redactString : string) (max : Z) (gate : bool) : Policy :=
  let redactString := if bool_decide (redactString = EmptyString) then "[REDACTED]" else redactString in
  {| byColumn := compile rs; rules := rs; salt := hashSalt; redact := redactString;
     maxRows := max; gateMutations := gate |}.

Definition ActionFor (p : Policy) (columnName : string) : Action :=
  match byColumn p !! ToLower columnName with
  | Some a => a
  | None => ActionNone
  end.
End Policy.

Definition AnonymizeValue (p : Policy) (action : Action) (typeOID : Z) (v : value) : value :=
  match v with
  | None => v
  | Some raw =>
      if bool_decide (action = ActionNone) then v
      else if negb (IsTextFamilyOID typeOID) then None
      else
        match action with
        | ActionHash => Some (hex_encode (sha256 (salt p +:+ raw)))
        | ActionRedact => Some (redact p)
        | ActionNone => v
        end
  end.

(** ** Rules as JSON *)

Definition sanitize_rule (r : PIIRule) : PIIRule :=
  mkRule (sanitize (rule_Name r)) (sanitize (rule_Table r)) (sanitize (rule_Action r)).

(** All texts of the rule are valid UTF-8. *)
Definition utf8_rule (r : PIIRule) : Prop := utf8 (rule_Name r) /\ utf8 (rule_Table r) /\ utf8 (rule_Action r).

Lemma utf8_rule_sanitize r : utf8_rule r -> sanitize_rule r = r.
Proof. destruct r. unfold utf8_rule, utf8, sanitize_rule. cbn. by intros (-> & -> & ->). Qed.

Lemma PIIRule_encodable r : encodable (PIIRule_json r).
Proof. constructor. destruct r as [n t a]. cbn [rule_Table]. case_bool_decide; repeat constructor. Qed.

Lemma PIIRule_depth r : depth (PIIRule_json r) = 1.
Proof. unfold PIIRule_json. by case_bool_decide. Qed.

Lemma fill_rule_json r : fill_rule zeroRule (norm (PIIRule_json r)) = Some (sanitize_rule r).
Proof.
  destruct r as [n t a]. unfold PIIRule_json. cbn [rule_Name rule_Table rule_Action].
  case_bool_decide; [subst t|]; reflexivity.
Qed.

(** Rules read back from their JSON, in an array of any length. *)
Lemma fill_rules_json rs :
  slice_items <$> fill_rules ([], 0) (norm (JArray (PIIRule_json <$> rs))) = Some (sanitize_rule <$> rs).
Proof.
  unfold fill_rules. destruct rs as [|r rs]; [done|].
  change (slice_items <$> ((fun array => (array, length (map norm (PIIRule_json <$> r :: rs))))
    <$> fill_elements zeroRule fill_rule [] (map norm (PIIRule_json <$> r :: rs))) = Some (sanitize_rule <$> r :: rs)).
  change (PIIRule_json <$> r :: rs) with (map PIIRule_json (r :: rs)). rewrite map_map, length_map.
  rewrite (fill_elements_map _ _ _ sanitize_rule) by apply fill_rule_json. cbn [fmap option_fmap option_map].
  f_equal. rewrite <- (length_fmap sanitize_rule (r :: rs)). apply slice_of_items.
Qed.

Lemma utf8_rules_sanitize rs : Forall utf8_rule rs -> sanitize_rule <$> rs = rs.
Proof. induction 1 as [|r rs Hr _ IH]; [done|]. cbn. by rewrite IH, utf8_rule_sanitize. Qed.

(** Rules that were decoded are valid UTF-8. *)
Lemma fill_rule_utf8 : fills utf8_rule fill_rule.
Proof.
  apply fill_struct_utf8. unfold PIIRule_fields. repeat apply Forall_cons_2; [..|apply Forall_nil_2];
    intros [n t a] v r' (Hn & Ht & Ha) Hv; cbn [snd rule_Name rule_Table rule_Action];
    (destruct (fill_string _ v) as [x|] eqn:E; [|done]); apply fill_string_utf8 in E; try done; intros [= <-]; by split_and!.
Qed.

Lemma fill_rules_utf8 : fills (fun s => Forall utf8_rule s.1) fill_rules.
Proof. apply fill_slice_utf8; [done|apply fill_rule_utf8]. Qed.

(** ** The rules compiled by [New] *)

Section Rules.
Context {U : Unicode}.

Definition matches (col : string) (r : PIIRule) : Prop := ToLower (rule_Name r) = ToLower col.
#[export] Instance matches_dec col r : Decision (matches col r).
Proof. unfold matches. apply _. Defined.

Lemma compile_lookup rs k :
  compile rs !! k = ParseAction ∘ rule_Action <$> last (filter (fun r => ToLower (rule_Name r) = k) rs).
Proof.
  induction rs as [|r rs IH] using rev_ind; [done|].
  unfold compile in *. rewrite foldl_app, filter_app. cbn [foldl].
  rewrite filter_cons, filter_nil. case_decide as E.
  - subst. by rewrite lookup_insert_eq, last_snoc.
  - by rewrite lookup_insert_ne, app_nil_r.
Qed.

(** The action of a column is that of the last rule whose name matches it
    up to case, and none when no rule matches. *)
Theorem ActionFor_last_rule rs hashSalt redactString max gate col :
  ActionFor (New rs hashSalt redactString max gate) col =
    match last (filter (matches col) rs) with
    | Some r => ParseAction (rule_Action r)
    | None => ActionNone
    end.
Proof.
  unfold ActionFor, New. cbn [byColumn]. rewrite compile_lookup. by destruct (last _).
Qed.
End Rules.

(** ** Anonymized values *)

Lemma AnonymizeValue_null p a oid : AnonymizeValue p a oid None = None.
Proof. done. Qed.

Lemma AnonymizeValue_none p oid v : AnonymizeValue p ActionNone oid v = v.
Proof. by destruct v. Qed.

Lemma AnonymizeValue_nontext p a oid raw :
  a <> ActionNone -> IsTextFamilyOID oid = false -> AnonymizeValue p a oid (Some raw) = None.
Proof. intros Ha Ho. unfold AnonymizeValue. by rewrite bool_decide_eq_false_2, Ho. Qed.

Lemma AnonymizeValue_hash p oid raw :
  IsTextFamilyOID oid = true ->
  AnonymizeValue p ActionHash oid (Some raw) = Some (hex_encode (sha256 (salt p +:+ raw))).
Proof. intros Ho. unfold AnonymizeValue. by rewrite Ho. Qed.

Lemma AnonymizeValue_redact p oid raw :
  IsTextFamilyOID oid = true ->
  AnonymizeValue p ActionRedact oid (Some raw) = Some (redact p).
Proof. intros Ho. unfold AnonymizeValue. by rewrite Ho. Qed.

(** What leaves AnonymizeValue for a column with an action: NULL for NULL
    and for non-text types, a digest of 64 lower-case hexadecimal digits under
    [ActionHash], the redaction string under [ActionRedact]; never the value by
    default. *)
Theorem AnonymizeValue_shape p a oid v :
  a <> ActionNone ->
  match AnonymizeValue p a oid v with
  | None => v = None \/ IsTextFamilyOID oid = false
  | Some out =>
      IsTextFamilyOID oid = true /\
      ((a = ActionHash /\ String.length out = 64 /\ sforall is_hex out = true
        /\ exists raw, v = Some raw /\ out = hex_encode (sha256 (salt p +:+ raw)))
       \/ (a = ActionRedact /\ out = redact p))
  end.
Proof.
  intros Ha. destruct v as [raw|]; [|by left].
  destruct (IsTextFamilyOID oid) eqn:Ho; [|rewrite AnonymizeValue_nontext by done; by right].
  destruct a; [done|rewrite AnonymizeValue_hash by done|rewrite AnonymizeValue_redact by done].
  - split; [done|left]. split_and!; [done|..].
    + by rewrite hex_encode_length, sha256_length.
    + apply hex_encode_hex, sha256_bounded.
    + eauto.
  - split; [done|right]. done.
Qed.

Lemma AnonymizeValue_shape_witness :
  ActionHash <> ActionNone /\
  match AnonymizeValue (mkPolicy ∅ [] "s" "[REDACTED]" 0 true) ActionHash 25 (Some "x") with
  | None => Some "x" = None \/ IsTextFamilyOID 25 = false
  | Some out =>
      IsTextFamilyOID 25 = true /\
      ((ActionHash = ActionHash /\ String.length out = 64 /\ sforall is_hex out = true
        /\ exists raw, Some "x" = Some raw /\ out = hex_encode (sha256 ("s" +:+ raw)))
       \/ (ActionHash = ActionRedact /\ out = "[REDACTED]"))
  end.
Proof.
  split; [discriminate|].
  exact (AnonymizeValue_shape (mkPolicy ∅ [] "s" "[REDACTED]" 0 true) ActionHash 25 (Some "x")
           ltac:(discriminate)).
Defined.

(** Hashed text values can be compared for identity exactly as far as
    SHA-256 of the salted values can: the printed digests are equal if and only
    if the digests are. *)
Theorem AnonymizeValue_hash_eq p oid v1 v2 :
  IsTextFamilyOID oid = true ->
  AnonymizeValue p ActionHash oid (Some v1) = AnonymizeValue p ActionHash oid (Some v2)
  <-> sha256 (salt p +:+ v1) = sha256 (salt p +:+ v2).
Proof.
  intros Ho. rewrite !AnonymizeValue_hash by done. split; [|by intros ->].
  intros E%(inj Some). by apply hex_encode_inj in E; [|apply sha256_bounded..].
Qed.

Lemma AnonymizeValue_hash_eq_witness :
  IsTextFamilyOID 25 = true /\
  (AnonymizeValue (mkPolicy ∅ [] "s" "r" 0 true) ActionHash 25 (Some "a")
     = AnonymizeValue (mkPolicy ∅ [] "s" "r" 0 true) ActionHash 25 (Some "b")
   <-> sha256 ("s" +:+ "a") = sha256 ("s" +:+ "b")).
Proof.
  split; [reflexivity|].
  exact (AnonymizeValue_hash_eq (mkPolicy ∅ [] "s" "r" 0 true) 25 "a" "b" eq_refl).
Defined.

Module PolicyTests.
#[local] Existing Instance ascii_only.

Definition testPolicy : Policy :=
  New [mkRule "email" "" "hash"; mkRule "SSN" "" "redact"; mkRule "phone" "users" "hash"]
    "s4lt" "[REDACTED]" 1000 true.

Example ActionFor_tests :
  ActionFor testPolicy <$> ["email"; "EMAIL"; "ssn"; "phone"; "name"]
  = [ActionHash; ActionHash; ActionRedact; ActionHash; ActionNone].
Proof. vm_compute. reflexivity. Qed.
End PolicyTests.
