(* ===== verification/Approval.v ===== *)
(** * Approvals (internal/approval/approval.go)

    The data of an approval request and its decision, the identifier of a
    request, the interface the proxy session is verified against (the class
    [Approver]), the fixed approvers of the modes [auto_approve] and
    [auto_deny], and the approver that asks an HTTP endpoint.  The dashboard's
    approver is in Broker.v. *)

From stdpp Require Import pretty.
From S2P Require Import Prelude GoStrings GoText Timestamp GoNet Json JsonProps Sha256.

(** ** Requests and decisions *)

Inductive Reason : Type := ReasonMutation | ReasonLargeRead.

#[export] Instance Reason_eq_dec : EqDecision Reason.
Proof. solve_decision. Defined.

Record Request : Type := mkRequest {
  req_ID : string;
  req_Reason : Reason;
  req_Statement : string;
  req_Query : string;
  req_RowCount : nat;
  req_Client : string;
  req_Connection : string;
  req_Database : string
}.

#[export] Instance Request_eq_dec : EqDecision Request.
Proof. solve_decision. Defined.

Record ApprovalDecision : Type := mkDecision { Approved : bool; dec_Reason : string }.

#[export] Instance ApprovalDecision_eq_dec : EqDecision ApprovalDecision.
Proof. solve_decision. Defined.

Definition denied (reason : string) : ApprovalDecision := mkDecision false reason.

(** ** The environment: a world [W] threaded through every call *)

(** [crypto/rand.Read] of [n] bytes; [None] is its error. *)
Class Rand (W : Type) : Type := rand_read : nat -> W -> option string * W.

(** The interface [approval.Approver]: a call may block, but returns a decision. *)
Class Approver (W : Type) : Type := Approve : Request -> W -> ApprovalDecision * W.

Definition NewID {W : Type} {R : Rand W} (w : W) : string * W :=
  let '(b, w') := rand_read 8 w in
  match b with
  | None => ("req-unknown", w')
  | Some b => ("req-" +:+ hex_encode (string_bytes b), w')
  end.

(** ** The static approvers *)

Definition staticApprover {W : Type} (d : ApprovalDecision) : Approver W := fun _ w => (d, w).
Definition auto_approve : ApprovalDecision := mkDecision true "auto_approve".
Definition auto_deny : ApprovalDecision := mkDecision false "auto_deny".

(** What a client may rely on when the mode of approval is [auto_deny]. *)
Class NeverApproves (W : Type) {A : Approver W} : Prop :=
  never_approves : forall req w, Approved (Approve req w).1 = false.

#[export] Instance auto_deny_never W : @NeverApproves W (staticApprover auto_deny).
Proof. done. Qed.

(** ** The HTTP approver *)

Record HTTPResponse : Type := mkHTTPResponse { hr_StatusCode : Z; hr_Status : string }.

(** The JSON of a request, by its struct tags: a row count of zero is left out.
    Marshal does not fail on it. *)
Definition Reason_text (r : Reason) : string :=
  match r with ReasonMutation => "mutation" | ReasonLargeRead => "large_read" end.
Definition Request_json (req : Request) : json :=
  JObject ([("id", JString (req_ID req)); ("reason", JString (Reason_text (req_Reason req)));
            ("statement", JString (req_Statement req)); ("query", JString (req_Query req))]
    ++ (if bool_decide (req_RowCount req = 0) then [] else [("row_count", JInt (Z.of_nat (req_RowCount req)))])
    ++ [("client", JString (req_Client req)); ("connection", JString (req_Connection req));
        ("database", JString (req_Database req))]).

(** The fields of a decision. *)
Definition Decision_fields : list (string * (ApprovalDecision -> json -> option ApprovalDecision)) :=
  [("approved", fun d v => (fun b => mkDecision b (dec_Reason d)) <$> fill_bool (Approved d) v);
   ("reason", fun d v => mkDecision (Approved d) <$> fill_string (dec_Reason d) v)].
Definition fill_decision : ApprovalDecision -> json -> option ApprovalDecision := fill_struct Decision_fields.

(** net/http: the error of building a request for a URL, the POST of a body under
    a timeout, and the body of a response: the bytes received and, unless it was
    received in full, the error; the texts of the decoder's errors. *)
Class HTTPClient (W : Type) : Type := {
  request_error : string -> option string;
  client_Do : string -> string -> Duration -> W -> (HTTPResponse + string) * W;
  read_body : HTTPResponse -> W -> (string * option string) * W;
  decode_error : string -> option string -> string
}.

Section HTTP.
Context {W : Type} {H : HTTPClient W}.

(** [json.NewDecoder(resp.Body).Decode(&dec)] *)
Definition decode_answer (resp : HTTPResponse) (w : W) : (ApprovalDecision + string) * W :=
  let '(body, err, w) := read_body resp w in
  match v ← Decode_value body; fill_decision (mkDecision false EmptyString) v with
  | Some dec => (inl dec, w)
  | None => (inr (decode_error body err), w)
  end.

Definition httpApprover (url : string) (timeout : Duration) : Approver W := fun req w =>
  let body := encode_json (Request_json req) in
  match request_error url with
  | Some err => (denied ("build request: " +:+ err), w)
  | None =>
      let '(answer, w) := client_Do url body timeout w in
      match answer with
      | inr err => (denied ("approval endpoint unreachable: " +:+ err), w)
      | inl resp =>
          if (hr_StatusCode resp <? 200)%Z || (300 <=? hr_StatusCode resp)%Z then
            (denied ("approval endpoint returned " +:+ hr_Status resp), w)
          else
            let '(dec, w) := decode_answer resp w in
            match dec with
            | inr err => (denied ("decode decision: " +:+ err), w)
            | inl dec => (dec, w)
            end
      end
  end.

(** A JSON value that says "approved": an object with a member of that name, up to
    case, that is true. *)
Definition says_approved (v : json) : Prop :=
  exists ms k, v = JObject ms /\ (k, JBool true) ∈ ms /\ EqualFoldASCII k "approved" = true.

(** The endpoint approved the request: it was sent the whole request, the answer
    came within the timeout with a status of success, and its body says so. *)
Definition granted_over_http (url : string) (timeout : Duration) (req : Request) (w : W) : Prop :=
  exists resp w1 body err w2 v,
    request_error url = None
    /\ client_Do url (encode_json (Request_json req)) timeout w = (inl resp, w1) /\ (200 <= hr_StatusCode resp < 300)%Z
    /\ read_body resp w1 = (body, err, w2) /\ Decode_value body = Some v /\ says_approved v.

(** The members of an answer that can make a decision an approval. *)
Lemma fill_decision_approves d ms d' :
  fill_members Decision_fields d ms = Some d' -> Approved d' = true ->
  Approved d = true \/ exists k, (k, JBool true) ∈ ms /\ EqualFoldASCII k "approved" = true.
Proof.
  revert d. induction ms as [|[k v] ms IH]; intros d; cbn [fill_members]; [intros [= <-]; by left|].
  assert (Hlater : forall d1, Approved d1 = Approved d -> fill_members Decision_fields d1 ms = Some d' ->
    Approved d' = true ->
    Approved d = true \/ exists k0, (k0, JBool true) ∈ (k, v) :: ms /\ EqualFoldASCII k0 "approved" = true).
  { intros d1 Hd1 E Hd. destruct (IH d1 E Hd) as [Ha|(k0 & Hin & Hk)]; [left; congruence|].
    right. exists k0. split; [by right|done]. }
  unfold field_of, Decision_fields at 1. rewrite !filter_cons, filter_nil. cbn [fst].
  destruct (decide (EqualFoldASCII k "approved" = true)) as [Ek|Ek]; cbn [head fmap option_fmap option_map snd].
  - destruct v as [|b| | | |]; cbn [fill_bool fmap option_fmap option_map]; try done; [by apply Hlater|].
    destruct b; [|by intros E Hd; destruct (IH _ E Hd) as [?|(k0 & Hin & Hk)]; [done|]; right; exists k0; split; [right|]].
    intros _ _. right. exists k. split; [by left|done].
  - destruct (decide (EqualFoldASCII k "reason" = true)); cbn [head fmap option_fmap option_map snd]; [|by apply Hlater].
    destruct v; cbn [fill_string fmap option_fmap option_map]; try done; by apply Hlater.
Qed.

Lemma decision_says_approved v d :
  fill_decision (mkDecision false EmptyString) v = Some d -> Approved d = true -> says_approved v.
Proof.
  destruct v as [| | | | |ms]; cbn; try done; [by intros [= <-]|]. intros E Hd.
  destruct (fill_decision_approves _ _ _ E Hd) as [?|(k & Hin & Hk)]; [done|]. by exists ms, k.
Qed.

Lemma http_fails_closed url timeout req w :
  Approved (httpApprover url timeout req w).1 = true -> granted_over_http url timeout req w.
Proof.
  unfold httpApprover, decode_answer. cbv zeta. destruct (request_error url) eqn:Er; [done|].
  destruct (client_Do url _ timeout w) as [[resp|] w1] eqn:Ed; [|done].
  destruct (Z.ltb_spec (hr_StatusCode resp) 200); [done|]. destruct (Z.leb_spec 300 (hr_StatusCode resp)); [done|].
  cbn [orb]. destruct (read_body resp w1) as [[body err] w2] eqn:Eb.
  destruct (Decode_value body) as [v|] eqn:Ev; [|done]. cbn [mbind option_bind].
  destruct (fill_decision _ v) as [d|] eqn:Efill; [|done]. intros Hd.
  exists resp, w1, body, err, w2, v. split_and!; try done; [lia..|]. by apply (decision_says_approved v d).
Qed.

(** What the endpoint decodes from the request it was sent. *)
Lemma request_received req :
  Decode_value (encode_json (Request_json req)) = Some (norm (Request_json req)).
Proof.
  rewrite <- (sapp_nil_r (encode_json _)). unfold Request_json. apply Decode_encode; [| |done].
  - constructor. case_bool_decide; cbn [app]; repeat first [apply JInt_encodable | constructor].
  - by case_bool_decide.
Qed.
End HTTP.
