(* ===== verification/Broker.v ===== *)
(** * The dashboard broker (internal/approval/broker.go)

    Approve and Decide are called from many goroutines; the model is a
    transition system whose steps are the atomic actions of the code: each
    critical section of the mutex, each channel operation, each timer event is
    one step, in any interleaving.  A call of Approve allocates one pendingReq,
    which is named by the call; the map [pending] holds pointers, so two calls
    with the same request identifier share an entry. *)

From stdpp Require Import sorting.
From S2P Require Import Prelude Approval.

(** ** Data *)

Abbreviation call := nat (only parsing).

Record pendingReq : Type := mkPending {
  pr_req : Request;
  pr_createdAt : Z;
  (** the buffered channel of capacity one *)
  pr_decided : option ApprovalDecision
}.

Record Broker : Type := mkBroker { pending : gmap string call; timeout : Z }.

(** Durations are nanoseconds; a timeout that is not positive is two minutes. *)
Definition NewBroker (t : Z) : Broker :=
  mkBroker ∅ (if bool_decide (t <= 0)%Z then 120000000000 else t).

(** Where a call of Approve is. *)
Inductive approve_pc : Type :=
| AStart (req : Request)
| AAllocated (req : Request)
| ARegistered (req : Request)
| AWaiting (req : Request) (started : Z)
| ALeaving (req : Request) (dec : ApprovalDecision)
| AReturned (req : Request) (dec : ApprovalDecision).

(** Where a call of Decide is; [sent] is the request its decision went to, and
    the call returned true exactly when there is one. *)
Inductive decide_pc : Type :=
| DStart (id : string) (approved : bool) (reason : string)
| DFound (p : call) (id : string) (approved : bool) (reason : string)
| DReturned (id : string) (approved : bool) (reason : string) (sent : option call).

Record sys : Type := mkSys {
  broker : Broker;
  heap : gmap call pendingReq;
  approves : gmap call approve_pc;
  decides : gmap nat decide_pc;
  now : Z
}.

Definition initial (t : Z) : sys := mkSys (NewBroker t) ∅ ∅ ∅ 0.

Definition set_pending (f : gmap string call -> gmap string call) (s : sys) : sys :=
  mkSys (mkBroker (f (pending (broker s))) (timeout (broker s))) (heap s) (approves s) (decides s) (now s).
Definition set_heap (f : gmap call pendingReq -> gmap call pendingReq) (s : sys) : sys :=
  mkSys (broker s) (f (heap s)) (approves s) (decides s) (now s).
Definition set_approve (t : call) (pc : approve_pc) (s : sys) : sys :=
  mkSys (broker s) (heap s) (<[t := pc]> (approves s)) (decides s) (now s).
Definition set_decide (d : nat) (pc : decide_pc) (s : sys) : sys :=
  mkSys (broker s) (heap s) (approves s) (<[d := pc]> (decides s)) (now s).

Definition timed_out : ApprovalDecision := mkDecision false "timed out waiting for dashboard approval".
Definition disconnected : ApprovalDecision := mkDecision false "client disconnected".

(** The decision Decide sends: an empty reason gets a default. *)
Definition decision (approved : bool) (reason : string) : ApprovalDecision :=
  mkDecision approved
    (if bool_decide (reason = EmptyString)
     then (if approved then "approved in dashboard" else "denied in dashboard") else reason).

(** ** Steps *)

Inductive label : Type :=
| LApprove (t : call) (req : Request)     (* Approve is called *)
| LAllocate (t : call)                    (* p := &pendingReq{...} *)
| LRegister (t : call)                    (* b.pending[req.ID] = p *)
| LTimer (t : call)                       (* time.NewTimer(b.timeout) *)
| LReceive (t : call)                     (* case dec := <-p.decided *)
| LTimeout (t : call)                     (* case <-timer.C *)
| LCancel (t : call)                      (* case <-ctx.Done() *)
| LLeave (t : call)                       (* the deferred delete, return *)
| LDecide (d : nat) (id : string) (approved : bool) (reason : string)
| LLookup (d : nat)                       (* p, ok := b.pending[id] *)
| LSend (d : nat)                         (* the select on p.decided *)
| LTick (n : N).                          (* time passes *)

Definition step (l : label) (s : sys) : option sys :=
  match l with
  | LApprove t req =>
      match approves s !! t with None => Some (set_approve t (AStart req) s) | _ => None end
  | LAllocate t =>
      match approves s !! t with
      | Some (AStart req) =>
          Some (set_approve t (AAllocated req) (set_heap (insert t (mkPending req (now s) None)) s))
      | _ => None
      end
  | LRegister t =>
      match approves s !! t with
      | Some (AAllocated req) =>
          Some (set_approve t (ARegistered req) (set_pending (insert (req_ID req) t) s))
      | _ => None
      end
  | LTimer t =>
      match approves s !! t with
      | Some (ARegistered req) => Some (set_approve t (AWaiting req (now s)) s)
      | _ => None
      end
  | LReceive t =>
      match approves s !! t, heap s !! t with
      | Some (AWaiting req _), Some (mkPending r c (Some dec)) =>
          Some (set_approve t (ALeaving req dec) (set_heap (insert t (mkPending r c None)) s))
      | _, _ => None
      end
  | LTimeout t =>
      match approves s !! t with
      | Some (AWaiting req started) =>
          if bool_decide (started + timeout (broker s) <= now s)%Z
          then Some (set_approve t (ALeaving req timed_out) s) else None
      | _ => None
      end
  | LCancel t =>
      match approves s !! t with
      | Some (AWaiting req _) => Some (set_approve t (ALeaving req disconnected) s)
      | _ => None
      end
  | LLeave t =>
      match approves s !! t with
      | Some (ALeaving req dec) =>
          Some (set_approve t (AReturned req dec) (set_pending (delete (req_ID req)) s))
      | _ => None
      end
  | LDecide d id approved reason =>
      match decides s !! d with None => Some (set_decide d (DStart id approved reason) s) | _ => None end
  | LLookup d =>
      match decides s !! d with
      | Some (DStart id approved reason) =>
          Some (set_decide d
            (match pending (broker s) !! id with
             | Some p => DFound p id approved reason
             | None => DReturned id approved reason None
             end) s)
      | _ => None
      end
  | LSend d =>
      match decides s !! d with
      | Some (DFound p id approved reason) =>
          match heap s !! p with
          | Some (mkPending r c None) =>
              Some (set_decide d (DReturned id approved reason (Some p))
                (set_heap (insert p (mkPending r c (Some (decision approved reason)))) s))
          | _ => Some (set_decide d (DReturned id approved reason None) s)
          end
      | _ => None
      end
  | LTick n => Some (mkSys (broker s) (heap s) (approves s) (decides s) (now s + Z.of_N n))
  end.

(** A run of the system. *)
Fixpoint steps (ls : list label) (s : sys) : option sys :=
  match ls with
  | [] => Some s
  | l :: ls' => s' ← step l s; steps ls' s'
  end.

Definition reachable (t : Z) (s : sys) : Prop := exists ls, steps ls (initial t) = Some s.

(** ** The dashboard's view *)

Record PendingView : Type := mkView { pv_req : Request; pv_CreatedAt : Z }.

Definition createdBefore (v1 v2 : PendingView) : Prop := (pv_CreatedAt v1 <= pv_CreatedAt v2)%Z.
#[export] Instance createdBefore_dec v1 v2 : Decision (createdBefore v1 v2).
Proof. unfold createdBefore. apply _. Defined.

(** The waiting requests, oldest first (the order of equal times is that of the
    sort, which the code leaves open). *)
Definition Pending (s : sys) : list PendingView :=
  merge_sort createdBefore
    (omap (fun e => (fun p => mkView (pr_req p) (pr_createdAt p)) <$> heap s !! e.2)
       (map_to_list (pending (broker s)))).

(** ** Invariant *)

Definition pc_req (pc : approve_pc) : Request :=
  match pc with
  | AStart r | AAllocated r | ARegistered r | AWaiting r _ | ALeaving r _ | AReturned r _ => r
  end.

(** The call has allocated its pendingReq. *)
Definition allocated (pc : approve_pc) : bool :=
  match pc with AStart _ => false | _ => true end.

(** The call is between its registration and its deferred delete. *)
Definition registered (pc : approve_pc) : bool :=
  match pc with ARegistered _ | AWaiting _ _ | ALeaving _ _ => true | _ => false end.

(** The decision a call leaves with. *)
Definition outcome_of (pc : approve_pc) : option ApprovalDecision :=
  match pc with ALeaving _ dec | AReturned _ dec => Some dec | _ => None end.

(** A Decide with this request's identifier returned true for [dec]. *)
Definition decided_by (s : sys) (t : call) (dec : ApprovalDecision) : Prop :=
  exists d approved reason pr,
    heap s !! t = Some pr /\
    decides s !! d = Some (DReturned (req_ID (pr_req pr)) approved reason (Some t)) /\
    dec = decision approved reason.

Record inv (s : sys) : Prop := {
  inv_heap t pc : approves s !! t = Some pc -> allocated pc = true ->
    exists pr, heap s !! t = Some pr /\ pr_req pr = pc_req pc;
  inv_fresh t pr : heap s !! t = Some pr -> exists pc, approves s !! t = Some pc /\ allocated pc = true;
  inv_pending id t : pending (broker s) !! id = Some t ->
    exists pc, approves s !! t = Some pc /\ registered pc = true /\ req_ID (pc_req pc) = id;
  inv_channel t pr dec : heap s !! t = Some pr -> pr_decided pr = Some dec -> decided_by s t dec;
  inv_outcome t pc dec : approves s !! t = Some pc -> outcome_of pc = Some dec ->
    dec = timed_out \/ dec = disconnected \/ decided_by s t dec;
  inv_found d p id a r : decides s !! d = Some (DFound p id a r) ->
    exists pr, heap s !! p = Some pr /\ req_ID (pr_req pr) = id
}.

(** What a step keeps: allocated requests and returned decisions. *)
Record extends (s s' : sys) : Prop := {
  ext_heap t pr : heap s !! t = Some pr -> exists pr', heap s' !! t = Some pr' /\ pr_req pr' = pr_req pr;
  ext_decides d id a r o : decides s !! d = Some (DReturned id a r o) ->
    decides s' !! d = Some (DReturned id a r o)
}.

Lemma decided_by_extends s s' t dec : extends s s' -> decided_by s t dec -> decided_by s' t dec.
Proof.
  intros [Hh Hd] (d & a & r & pr & H1 & H2 & H3). destruct (Hh _ _ H1) as (pr' & H1' & E).
  exists d, a, r, pr'. rewrite E. eauto.
Qed.

Lemma extends_refl s : extends s s.
Proof. split; eauto. Qed.

(** The shapes of the steps: a change of one call of Approve, of the entry of one
    request, or of one call of Decide. *)
Lemma extends_heap s t pr pr' f :
  heap s !! t = Some pr -> pr_req pr' = pr_req pr ->
  heap (f s) = <[t := pr']> (heap s) -> decides (f s) = decides s -> extends s (f s).
Proof.
  intros Ht E Hh Hd. split; [|by rewrite Hd]. intros u pu Hu. rewrite Hh.
  destruct (decide (t = u)) as [<-|]; [|rewrite lookup_insert_ne by done; eauto].
  exists pr'. rewrite lookup_insert_eq. split; [done|congruence].
Qed.

Lemma extends_same s s' : heap s' = heap s -> decides s' = decides s -> extends s s'.
Proof. intros Hh Hd. split; rewrite ?Hh, ?Hd; eauto. Qed.

Ltac lookups :=
  repeat match goal with
  | H : <[?a := _]> _ !! ?b = Some _ |- _ => rewrite lookup_insert_Some in H; destruct H as [[? ?]|[? ?]]
  | H : delete _ _ !! _ = Some _ |- _ => rewrite lookup_delete_Some in H; destruct H
  | |- context [<[?a := _]> _ !! ?a] => rewrite lookup_insert_eq
  | H : ?a <> ?b |- context [<[?a := _]> _ !! ?b] => rewrite (lookup_insert_ne _ a b) by done
  end; simplify_eq/=.

(** A change of the program counter of a call that keeps its request. *)
Lemma inv_set_approve s t pc pc' :
  inv s -> approves s !! t = Some pc -> pc_req pc' = pc_req pc ->
  allocated pc' = allocated pc -> (registered pc = true -> registered pc' = true) ->
  (forall dec, outcome_of pc' = Some dec -> dec = timed_out \/ dec = disconnected \/ decided_by s t dec) ->
  inv (set_approve t pc' s).
Proof.
  intros [I1 I2 I3 I4 I5 I6] Ht Er Ea Hreg Ho.
  assert (X : extends s (set_approve t pc' s)) by by apply extends_same.
  split; cbn; intros; lookups.
  - rewrite Er. eapply I1; [done|congruence].
  - eauto.
  - destruct (I2 _ _ H) as (pc0 & H1 & H2). destruct (decide (t = t0)) as [->|]; lookups; [|eauto].
    exists pc'. split; [done|congruence].
  - destruct (I3 _ _ H) as (pc0 & H1 & H2 & H3). destruct (decide (t = t0)) as [->|]; lookups; [|eauto].
    exists pc'. rewrite Er. auto.
  - eapply decided_by_extends; eauto.
  - destruct (Ho _ H0) as [?|[?|?]]; eauto using decided_by_extends.
  - destruct (I5 _ _ _ H1 H0) as [?|[?|?]]; eauto using decided_by_extends.
  - eauto.
Qed.

(** A change of the entry of a request that has one. *)
Lemma inv_set_heap s t pr pr' :
  inv s -> heap s !! t = Some pr -> pr_req pr' = pr_req pr ->
  (forall dec, pr_decided pr' = Some dec -> decided_by s t dec) ->
  inv (set_heap (insert t pr') s).
Proof.
  intros [I1 I2 I3 I4 I5 I6] Ht Er Hd.
  assert (X : extends s (set_heap (insert t pr') s)) by by eapply (extends_heap s t pr pr').
  split; cbn; intros.
  - destruct (I1 _ _ H H0) as (p0 & H1 & H2). destruct (decide (t = t0)) as [->|]; lookups; eauto.
    exists pr'. split; [done|congruence].
  - lookups; eauto.
  - eauto.
  - eapply decided_by_extends; [done|]. lookups; eauto.
  - destruct (I5 _ _ _ H H0) as [?|[?|?]]; eauto using decided_by_extends.
  - destruct (I6 _ _ _ _ _ H) as (p0 & H1 & H2). destruct (decide (t = p)) as [->|]; lookups; eauto.
    exists pr'. split; [done|congruence].
Qed.

(** A step of a call of Decide. *)
Lemma inv_set_decide s d pc :
  inv s -> (forall id a r o, decides s !! d <> Some (DReturned id a r o)) ->
  (forall p id a r, pc = DFound p id a r -> exists pr, heap s !! p = Some pr /\ req_ID (pr_req pr) = id) ->
  inv (set_decide d pc s).
Proof.
  intros [I1 I2 I3 I4 I5 I6] Hd Hf.
  assert (X : extends s (set_decide d pc s)).
  { split; cbn; [eauto|]. intros d' id a r o H. rewrite lookup_insert_ne; [done|].
    intros <-. by destruct (Hd id a r o). }
  split; cbn; intros; eauto using decided_by_extends.
  - destruct (I5 _ _ _ H H0) as [?|[?|?]]; eauto using decided_by_extends.
  - lookups; eauto.
Qed.

Lemma inv_tick s n : inv s -> inv (mkSys (broker s) (heap s) (approves s) (decides s) n).
Proof.
  intros [I1 I2 I3 I4 I5 I6].
  assert (X : extends s (mkSys (broker s) (heap s) (approves s) (decides s) n)) by by apply extends_same.
  split; cbn; intros; eauto using decided_by_extends.
Qed.

Lemma inv_call s t req : inv s -> approves s !! t = None -> inv (set_approve t (AStart req) s).
Proof.
  intros [I1 I2 I3 I4 I5 I6] Ht.
  assert (X : extends s (set_approve t (AStart req) s)) by by apply extends_same.
  split; cbn; intros; lookups; eauto using decided_by_extends.
  - destruct (I2 _ _ H) as (pc & H1 & H2). destruct (decide (t = t0)) as [->|]; lookups; eauto.
  - destruct (I3 _ _ H) as (pc & H1 & H2). destruct (decide (t = t0)) as [->|]; lookups; eauto.
Qed.

Lemma inv_allocate s t req :
  inv s -> approves s !! t = Some (AStart req) ->
  inv (set_approve t (AAllocated req) (set_heap (insert t (mkPending req (now s) None)) s)).
Proof.
  intros [I1 I2 I3 I4 I5 I6] Ht.
  assert (Hf : heap s !! t = None).
  { destruct (heap s !! t) eqn:E; [|done]. destruct (I2 _ _ E) as (pc & H1 & H2).
    rewrite Ht in H1. by simplify_eq/=. }
  set (s' := set_approve _ _ _).
  assert (X : extends s s').
  { split; cbn; [|eauto]. intros u pu Hu. exists pu. rewrite lookup_insert_ne by congruence. done. }
  split; cbn.
  - intros u pc Hu Ha. destruct (decide (t = u)) as [<-|]; lookups; eauto.
  - intros u pr Hu. destruct (decide (t = u)) as [<-|]; lookups; eauto.
  - intros id u Hu. destruct (I3 _ _ Hu) as (pc & H1 & H2 & H3).
    destruct (decide (t = u)) as [<-|]; lookups; eauto.
  - intros u pr dec Hu Hc. lookups. eauto using decided_by_extends.
  - intros u pc dec Hu Ho. lookups. destruct (I5 u pc dec) as [?|[?|?]]; eauto using decided_by_extends.
  - intros d p id a r Hd. destruct (I6 _ _ _ _ _ Hd) as (pr & H1 & H2). exists pr.
    rewrite lookup_insert_ne by congruence. done.
Qed.

Lemma inv_register s t req :
  inv s -> approves s !! t = Some (AAllocated req) ->
  inv (set_approve t (ARegistered req) (set_pending (insert (req_ID req) t) s)).
Proof.
  intros I Ht. pose proof (inv_set_approve s t _ (ARegistered req) I Ht) as H.
  destruct (H eq_refl eq_refl) as [I1 I2 I3 I4 I5 I6]; [done|done|].
  split; cbn in *; [done|done| |done|done|done].
  intros id u Hu. rewrite lookup_insert_Some in Hu. destruct Hu as [[<- <-]|[Hne Hu]].
  - exists (ARegistered req). by rewrite lookup_insert_eq.
  - by apply I3.
Qed.

Lemma inv_leave s t req dec :
  inv s -> approves s !! t = Some (ALeaving req dec) ->
  inv (set_approve t (AReturned req dec) (set_pending (delete (req_ID req)) s)).
Proof.
  intros [I1 I2 I3 I4 I5 I6] Ht. set (s' := set_approve _ _ _).
  assert (X : extends s s') by by apply extends_same.
  split; cbn.
  - intros u pc Hu Ha. destruct (decide (t = u)) as [<-|]; lookups; [|eauto]. by apply (I1 _ _ Ht).
  - intros u pr Hu. destruct (I2 _ _ Hu) as (pc & H1 & H2). destruct (decide (t = u)) as [<-|]; lookups; eauto.
  - intros id u [Hne Hu]%lookup_delete_Some. destruct (I3 _ _ Hu) as (pc & H1 & H2 & H3).
    destruct (decide (t = u)) as [<-|]; lookups; eauto.
  - eauto using decided_by_extends.
  - intros u pc d' Hu Ho. destruct (decide (t = u)) as [<-|]; lookups.
    + destruct (I5 _ _ _ Ht eq_refl) as [?|[?|?]]; eauto using decided_by_extends.
    + destruct (I5 u pc d') as [?|[?|?]]; eauto using decided_by_extends.
  - eauto.
Qed.

Lemma step_inv l s s' : inv s -> step l s = Some s' -> inv s'.
Proof.
  intros I. destruct l; cbn [step]; intros E.
  - destruct (approves s !! t) eqn:Et; simplify_eq. by apply inv_call.
  - destruct (approves s !! t) as [[]|] eqn:Et; simplify_eq. by apply inv_allocate.
  - destruct (approves s !! t) as [[]|] eqn:Et; simplify_eq. by apply inv_register.
  - destruct (approves s !! t) as [[]|] eqn:Et; simplify_eq. by eapply inv_set_approve.
  - destruct (approves s !! t) as [[| | |req st| |]|] eqn:Et; simplify_eq.
    destruct (heap s !! t) as [[r c [dec|]]|] eqn:Eh; simplify_eq.
    pose proof (inv_channel s I _ _ dec Eh eq_refl) as Hd.
    assert (I' : inv (set_approve t (ALeaving req dec) s)).
    { eapply inv_set_approve; try done. intros dec' [= <-]. auto. }
    apply (inv_set_heap _ t (mkPending r c (Some dec)) (mkPending r c None) I'); done.
  - destruct (approves s !! t) as [[]|] eqn:Et; simplify_eq. case_bool_decide; simplify_eq.
    eapply inv_set_approve; try done. intros dec' [= <-]. auto.
  - destruct (approves s !! t) as [[]|] eqn:Et; simplify_eq.
    eapply inv_set_approve; try done. intros dec' [= <-]. auto.
  - destruct (approves s !! t) as [[]|] eqn:Et; simplify_eq. by apply inv_leave.
  - destruct (decides s !! d) eqn:Ed; simplify_eq. apply inv_set_decide; [done|congruence|done].
  - destruct (decides s !! d) as [[]|] eqn:Ed; simplify_eq.
    apply inv_set_decide; [done|congruence|]. intros p i a r.
    destruct (pending (broker s) !! id) as [q|] eqn:Ep; [|done]. intros [= <- <- <- <-].
    destruct (inv_pending s I _ _ Ep) as (pc & H1 & H2 & H3).
    destruct (inv_heap s I _ _ H1) as (pr & H4 & H5); [by destruct pc|]. exists pr. split; [done|congruence].
  - destruct (decides s !! d) as [[|p id a r|]|] eqn:Ed; simplify_eq.
    destruct (inv_found s I _ _ _ _ _ Ed) as (pr & Hp & Hid). rewrite Hp in E.
    destruct pr as [rq c [dec|]]; simplify_eq.
    + apply inv_set_decide; [done|congruence|done].
    + assert (I' : inv (set_decide d (DReturned (req_ID rq) a r (Some p)) s))
        by (apply inv_set_decide; [done|congruence|done]).
      apply (inv_set_heap _ p (mkPending rq c None) _ I'); [done|done|].
      intros dec [= <-]. exists d, a, r, (mkPending rq c None). cbn. by rewrite lookup_insert_eq.
  - simplify_eq. by apply inv_tick.
Qed.

Lemma initial_inv t : inv (initial t).
Proof. split; cbn; intros *; rewrite ?lookup_empty; done. Qed.

Lemma steps_inv ls s s' : inv s -> steps ls s = Some s' -> inv s'.
Proof.
  revert s. induction ls as [|l ls IH]; intros s I; cbn; [by intros [= <-]|].
  destruct (step l s) as [s1|] eqn:E; [|done]. cbn. apply IH. by eapply step_inv.
Qed.

Lemma reachable_inv t s : reachable t s -> inv s.
Proof. intros [ls H]. eapply steps_inv; [apply initial_inv|done]. Qed.

(** ** Theorems *)

Lemma approval_decided s c req dec :
  inv s -> approves s !! c = Some (AReturned req dec) -> Approved dec = true ->
  exists d reason, decides s !! d = Some (DReturned (req_ID req) true reason (Some c)) /\
    dec = decision true reason.
Proof.
  intros I Hc Hd.
  destruct (inv_outcome s I c _ dec Hc eq_refl) as [->|[->|(d & a & r & pr & Hp & Hs & ->)]]; [done..|].
  destruct (inv_heap s I c _ Hc eq_refl) as (pr' & Hp' & E). assert (pr' = pr) as -> by congruence.
  rewrite E in Hs. cbn in Hs. destruct a; [|done]. eauto.
Qed.

(** C9.  Approve fails closed: in every reachable state of the broker, a call
    that returned an approval was approved by a call of Decide that named its
    request, said approved, and returned true; its reason is the one given there
    (or the default).  Timeouts and cancelled contexts deny. *)
Theorem approve_fails_closed t s c req dec :
  reachable t s -> approves s !! c = Some (AReturned req dec) -> Approved dec = true ->
  exists d reason, decides s !! d = Some (DReturned (req_ID req) true reason (Some c)) /\
    dec = decision true reason.
Proof. intros Hr%reachable_inv. by apply approval_decided. Qed.

(** C39.  Nothing stays behind: an entry of [pending] always belongs to a call of
    Approve that has registered and not yet left, with the entry's identifier,
    even when identifiers repeat; when every call has returned, no entry is left. *)
Theorem no_pending_leak t s :
  reachable t s ->
  (forall id c, pending (broker s) !! id = Some c ->
     exists pc, approves s !! c = Some pc /\ registered pc = true /\ req_ID (pc_req pc) = id) /\
  ((forall c pc, approves s !! c = Some pc -> registered pc = false) -> pending (broker s) = ∅).
Proof.
  intros Hr. pose proof (inv_pending s (reachable_inv t s Hr)) as H. split; [exact H|].
  intros Hn. apply map_empty. intros id. destruct (pending (broker s) !! id) as [c|] eqn:E; [|done].
  destruct (H id c E) as (pc & Hc & Hreg & _). by rewrite (Hn c pc Hc) in Hreg.
Qed.

(** The steps of one call of Approve on its own, and the passing of time. *)
Definition own (c : call) (l : label) : bool :=
  match l with
  | LAllocate t | LRegister t | LTimer t | LTimeout t | LLeave t => bool_decide (t = c)
  | LTick _ => true
  | _ => false
  end.

(** The schedule that returns from where a call is, by its timeout at the latest. *)
Definition finish (c : call) (n : N) (pc : approve_pc) : list label :=
  match pc with
  | AStart _ => [LAllocate c; LRegister c; LTimer c; LTick n; LTimeout c; LLeave c]
  | AAllocated _ => [LRegister c; LTimer c; LTick n; LTimeout c; LLeave c]
  | ARegistered _ => [LTimer c; LTick n; LTimeout c; LLeave c]
  | AWaiting _ _ => [LTick n; LTimeout c; LLeave c]
  | ALeaving _ _ => [LLeave c]
  | AReturned _ _ => []
  end.

Lemma steps_cons l ls s s1 : step l s = Some s1 -> steps (l :: ls) s = steps ls s1.
Proof. intros H. cbn. by rewrite H. Qed.

(** The timer of a call fires within the timeout from now. *)
Definition timers_ok (s : sys) : Prop :=
  forall c req st, approves s !! c = Some (AWaiting req st) -> (st <= now s)%Z.

Lemma step_timers l s s' : timers_ok s -> step l s = Some s' -> timers_ok s'.
Proof.
  intros Ht E. assert (Hset : forall c pc s0, timers_ok s0 ->
    (forall req st, pc = AWaiting req st -> (st <= now s0)%Z) -> timers_ok (set_approve c pc s0)).
  { intros c pc s0 H0 Hpc u req st Hu. cbn in Hu. lookups; eauto. }
  destruct l; cbn [step] in E; repeat case_match; simplify_eq; try done;
    try (by apply Hset; [done|intros * [=]; subst; cbn; lia]).
  intros u req st Hu. cbn in *. specialize (Ht u req st Hu). lia.
Qed.

Lemma steps_timers ls s s' : timers_ok s -> steps ls s = Some s' -> timers_ok s'.
Proof.
  revert s. induction ls as [|l ls IH]; intros s I; cbn; [by intros [= <-]|].
  destruct (step l s) as [s1|] eqn:E; [|done]. cbn. apply IH. by eapply step_timers.
Qed.

Lemma finish_step (l : label) ls s s1 (P : sys -> Prop) :
  step l s = Some s1 -> (exists s', steps ls s1 = Some s' /\ P s') ->
  exists s', steps (l :: ls) s = Some s' /\ P s'.
Proof. intros H (s' & E & Hs). exists s'. by rewrite (steps_cons _ _ _ _ H). Qed.

Definition returned_call (c : call) (req : Request) (s : sys) : Prop :=
  exists dec, approves s !! c = Some (AReturned req dec).

Lemma finish_leaving c req dec s :
  approves s !! c = Some (ALeaving req dec) ->
  exists s', steps [LLeave c] s = Some s' /\ returned_call c req s'.
Proof.
  intros H. eapply finish_step; [cbn [step]; by rewrite H|]. eexists. split; [done|].
  exists dec. cbn. apply lookup_insert_eq.
Qed.

Lemma finish_waiting c req st n s :
  approves s !! c = Some (AWaiting req st) -> (st <= now s)%Z -> (timeout (broker s) <= Z.of_N n)%Z ->
  exists s', steps [LTick n; LTimeout c; LLeave c] s = Some s' /\ returned_call c req s'.
Proof.
  intros H Hst Hn. eapply finish_step; [done|]. eapply finish_step.
  { cbn [step approves]. rewrite H. rewrite bool_decide_eq_true_2; [done|]. cbn. lia. }
  eapply (finish_leaving _ _ timed_out). cbn. apply lookup_insert_eq.
Qed.

Lemma finish_registered c req n s :
  approves s !! c = Some (ARegistered req) -> (timeout (broker s) <= Z.of_N n)%Z ->
  exists s', steps [LTimer c; LTick n; LTimeout c; LLeave c] s = Some s' /\ returned_call c req s'.
Proof.
  intros H Hn. eapply finish_step; [cbn [step]; by rewrite H|].
  apply (finish_waiting _ _ (now s)); [cbn; apply lookup_insert_eq|done|done].
Qed.

Lemma finish_allocated c req n s :
  approves s !! c = Some (AAllocated req) -> (timeout (broker s) <= Z.of_N n)%Z ->
  exists s', steps [LRegister c; LTimer c; LTick n; LTimeout c; LLeave c] s = Some s' /\ returned_call c req s'.
Proof.
  intros H Hn. eapply finish_step; [cbn [step]; by rewrite H|].
  apply finish_registered; [cbn; apply lookup_insert_eq|done].
Qed.

Lemma call_finishes t s c pc :
  reachable t s -> approves s !! c = Some pc ->
  exists s', steps (finish c (Z.to_N (timeout (broker s))) pc) s = Some s' /\ returned_call c (pc_req pc) s'.
Proof.
  intros [ls Hr] Hc. assert (Hn : (timeout (broker s) <= Z.of_N (Z.to_N (timeout (broker s))))%Z) by lia.
  assert (Ht : timers_ok s).
  { eapply steps_timers; [|done]. intros u req st Hu. cbn in Hu. by rewrite lookup_empty in Hu. }
  destruct pc; cbn [finish pc_req].
  - eapply finish_step; [cbn [step]; by rewrite Hc|].
    apply finish_allocated; [cbn; apply lookup_insert_eq|done].
  - by apply finish_allocated.
  - by apply finish_registered.
  - eapply finish_waiting; eauto.
  - by eapply finish_leaving.
  - exists s. split; [done|]. by exists dec.
Qed.

(** C38.  No call of Approve waits for ever: from every reachable state, whatever
    the other calls did, a call can go on by its own steps alone and return once
    its timeout has passed, without any decision. *)
Theorem approve_returns t s c pc :
  reachable t s -> approves s !! c = Some pc ->
  let n := Z.to_N (timeout (broker s)) in
  Forall (fun l => own c l = true) (finish c n pc) /\
  exists s', steps (finish c n pc) s = Some s' /\ returned_call c (pc_req pc) s'.
Proof.
  intros Hr Hc. cbv zeta. split; [destruct pc; repeat constructor; cbn; by apply bool_decide_eq_true|].
  by apply (call_finishes t).
Qed.

(** There is a schedule by which a decision reaches its request: when a call waits,
    its entry is the one under its identifier and its channel is empty, a call of
    Decide with this identifier can return true, and the waiting call the decision. *)
Theorem decide_schedule s c d req started approved reason pr :
  approves s !! c = Some (AWaiting req started) -> pending (broker s) !! req_ID req = Some c ->
  heap s !! c = Some pr -> pr_decided pr = None -> decides s !! d = None ->
  exists s',
    steps [LDecide d (req_ID req) approved reason; LLookup d; LSend d; LReceive c; LLeave c] s = Some s' /\
    decides s' !! d = Some (DReturned (req_ID req) approved reason (Some c)) /\
    approves s' !! c = Some (AReturned req (decision approved reason)) /\
    pending (broker s') !! req_ID req = None.
Proof.
  intros Hc Hp Hh Hn Hd. destruct pr as [r cr ch]. cbn in Hn. subst ch.
  eapply finish_step; [cbn [step]; by rewrite Hd|].
  eapply finish_step; [cbn [step decides set_decide]; rewrite lookup_insert_eq; cbn; by rewrite Hp|].
  eapply finish_step; [cbn [step decides set_decide heap]; rewrite lookup_insert_eq; cbn; by rewrite Hh|].
  eapply finish_step.
  { cbn [step decides set_decide set_heap heap approves]. rewrite Hc, lookup_insert_eq. done. }
  eapply finish_step; [cbn [step approves set_approve]; by rewrite lookup_insert_eq|].
  eexists. split; [done|]. cbn. rewrite !lookup_insert_eq, lookup_delete_eq. done.
Qed.

(** A decision that was accepted for a call is not lost: the call has an outcome, or
    its channel holds a decision. *)
Definition held (s : sys) : Prop :=
  forall d id a r c, decides s !! d = Some (DReturned id a r (Some c)) ->
    exists pc pr, approves s !! c = Some pc /\ allocated pc = true /\ req_ID (pc_req pc) = id /\ heap s !! c = Some pr
      /\ (outcome_of pc = None -> is_Some (pr_decided pr)).

(** A change of the program counter of a call that has allocated its entry. *)
Lemma held_set_approve s t pc pc' :
  held s -> approves s !! t = Some pc -> pc_req pc' = pc_req pc -> allocated pc' = true ->
  (outcome_of pc' = None -> outcome_of pc = None) -> held (set_approve t pc' s).
Proof.
  intros H Ht Er Ea Ho d id a r c Hd. destruct (H d id a r c Hd) as (pc0 & pr & Hc & Hal & Hid & Hh & Hout). cbn.
  destruct (decide (t = c)) as [->|Hne]; lookups; [exists pc', pr|exists pc0, pr]; split_and!; auto. by rewrite Er.
Qed.

(** A step of Decide that does not return true. *)
Lemma held_set_decide s d pc :
  held s -> (forall id a r c, pc <> DReturned id a r (Some c)) -> held (set_decide d pc s).
Proof. intros H Hpc d' id a r c Hd. cbn in *. lookups; [by destruct (Hpc id a r c)|]. by apply (H d' id a r c). Qed.

Lemma held_fresh s t (f : sys -> sys) pc :
  held s -> (forall pc0, approves s !! t = Some pc0 -> allocated pc0 = false) ->
  decides (f s) = decides s -> (forall c, c <> t -> heap (f s) !! c = heap s !! c) -> approves (f s) = <[t := pc]> (approves s) ->
  held (f s).
Proof.
  intros H Ht Ed Eh Ea d id a r c Hd. rewrite Ed in Hd. destruct (H d id a r c Hd) as (pc0 & pr & Hc & Hal & H1).
  assert (c <> t) as Hne by (intros ->; rewrite (Ht _ Hc) in Hal; discriminate). exists pc0, pr.
  rewrite Ea, Eh, lookup_insert_ne by congruence. by destruct H1 as (? & ? & ?); split_and!.
Qed.

Lemma held_send s d p id a r rq c0 :
  inv s -> held s -> decides s !! d = Some (DFound p id a r) -> heap s !! p = Some (mkPending rq c0 None) ->
  held (set_decide d (DReturned id a r (Some p)) (set_heap (insert p (mkPending rq c0 (Some (decision a r)))) s)).
Proof.
  intros I H Hd Hp d' id' a' r' c Hd'. cbn in Hd' |- *. lookups.
  - destruct (inv_found s I _ _ _ _ _ Hd) as (pr & Hpr & Hid). rewrite Hp in Hpr. injection Hpr as <-.
    destruct (inv_fresh s I _ _ Hp) as (pc & Hpc & Hal). destruct (inv_heap s I _ _ Hpc Hal) as (pr' & Hpr' & Er).
    rewrite Hp in Hpr'. injection Hpr' as <-. exists pc. eexists. rewrite lookup_insert_eq. split_and!; [done..| |done|by eexists].
    by rewrite <- Er.
  - match goal with H0 : decides s !! d' = _ |- _ => destruct (H d' id' a' r' c H0) as (pc & pr & Hc & Hal & Hi & Hh & Ho) end.
    exists pc. destruct (decide (p = c)) as [->|Hne].
    + eexists. rewrite lookup_insert_eq. split_and!; [done..|]. by eexists.
    + exists pr. rewrite lookup_insert_ne by done. by split_and!.
Qed.

Lemma step_held l s s' : inv s -> held s -> step l s = Some s' -> held s'.
Proof.
  intros I H. destruct l; cbn [step]; intros E.
  - destruct (approves s !! t) eqn:Et; simplify_eq. by apply (held_fresh s t (set_approve t (AStart req)) (AStart req)); congruence || done.
  - destruct (approves s !! t) as [[]|] eqn:Et; simplify_eq.
    apply (held_fresh s t (fun s => set_approve t (AAllocated req) (set_heap (insert t (mkPending req (now s) None)) s)) (AAllocated req));
      [done|intros pc Hpc; rewrite Et in Hpc; by injection Hpc as <-|done| |done]. intros c Hc. by apply lookup_insert_ne.
  - destruct (approves s !! t) as [[]|] eqn:Et; simplify_eq. by eapply (held_set_approve (set_pending _ s)).
  - destruct (approves s !! t) as [[]|] eqn:Et; simplify_eq. by eapply held_set_approve.
  - destruct (approves s !! t) as [[| | |req st| |]|] eqn:Et; simplify_eq.
    destruct (heap s !! t) as [[r c [dec|]]|] eqn:Eh; simplify_eq. intros d id a r' c' Hd.
    destruct (H d id a r' c' Hd) as (pc & pr & Hc & Hal & Hi & Hh & Ho). cbn. destruct (decide (t = c')) as [->|Hne].
    + rewrite !lookup_insert_eq. rewrite Et in Hc. injection Hc as <-. by do 2 eexists.
    + rewrite !lookup_insert_ne by done. by exists pc, pr.
  - destruct (approves s !! t) as [[]|] eqn:Et; simplify_eq. case_bool_decide; simplify_eq. by eapply held_set_approve.
  - destruct (approves s !! t) as [[]|] eqn:Et; simplify_eq. by eapply held_set_approve.
  - destruct (approves s !! t) as [[]|] eqn:Et; simplify_eq. by eapply (held_set_approve (set_pending _ s)).
  - destruct (decides s !! d) eqn:Ed; simplify_eq. by apply held_set_decide.
  - destruct (decides s !! d) as [[]|] eqn:Ed; simplify_eq. apply held_set_decide; [done|]. by destruct (pending (broker s) !! id).
  - destruct (decides s !! d) as [[|p id a r|]|] eqn:Ed; simplify_eq.
    destruct (heap s !! p) as [[rq c [dec|]]|] eqn:Eh; simplify_eq; [by apply held_set_decide|by apply held_send|by apply held_set_decide].
  - by simplify_eq.
Qed.

Lemma reachable_held t s : reachable t s -> held s.
Proof.
  intros [ls H]. assert (Hi : inv (initial t) /\ held (initial t)).
  { split; [apply initial_inv|]. intros d id a r c Hd. cbn in Hd. by rewrite lookup_empty in Hd. }
  revert Hi H. generalize (initial t). induction ls as [|l ls IH]; intros s0 [I0 H0]; cbn; [by intros [= <-]|].
  destruct (step l s0) as [s1|] eqn:E; [|done]. cbn. apply IH. split; [by eapply step_inv|by eapply step_held].
Qed.

(** The decision of a call of Decide that returned true for the call [c]. *)
Definition accepted (s : sys) (c : call) (id : string) (dec : ApprovalDecision) : Prop :=
  exists d a r, decides s !! d = Some (DReturned id a r (Some c)) /\ dec = decision a r.

Lemma accepted_by s t pc dec : inv s -> approves s !! t = Some pc -> allocated pc = true ->
  decided_by s t dec -> accepted s t (req_ID (pc_req pc)) dec.
Proof.
  intros I Ht Ha (d & a & r & pr & Hp & Hd & ->). destruct (inv_heap s I _ _ Ht Ha) as (pr' & Hp' & E).
  rewrite Hp in Hp'. injection Hp' as <-. rewrite E in Hd. by exists d, a, r.
Qed.

(** C37.  Accepted decisions reach their request, in every reachable state and whatever
    the interleaving: when a call of Decide has returned true, there is a call of
    Approve with its identifier that has returned, or is about to, with the decision
    of a Decide that was accepted for it (this very one when no other was), unless
    it has timed out or its client has gone; or that has not taken a decision yet,
    and then its channel holds one, which it returns as soon as it receives. *)
Theorem decide_reaches t s d id approved reason c :
  reachable t s -> decides s !! d = Some (DReturned id approved reason (Some c)) ->
  exists pc, approves s !! c = Some pc /\ req_ID (pc_req pc) = id
    /\ match outcome_of pc with
       | Some dec => dec = timed_out \/ dec = disconnected \/ accepted s c id dec
       | None => exists pr dec, heap s !! c = Some pr /\ pr_decided pr = Some dec /\ accepted s c id dec
                  /\ forall req started, pc = AWaiting req started ->
                       exists s', steps [LReceive c; LLeave c] s = Some s' /\ approves s' !! c = Some (AReturned req dec)
       end.
Proof.
  intros Hr Hd. pose proof (reachable_inv t s Hr) as I.
  destruct (reachable_held t s Hr d id approved reason c Hd) as (pc & pr & Hc & Ha & <- & Hh & Ho).
  exists pc. split_and!; [done..|]. destruct (outcome_of pc) as [dec|] eqn:Eo.
  - destruct (inv_outcome s I _ _ _ Hc Eo) as [?|[?|?]]; auto using accepted_by.
  - destruct (Ho eq_refl) as [dec Hdec]. exists pr, dec. split_and!; [done..| |].
    + by apply accepted_by, (inv_channel s I c pr).
    + intros req started ->. destruct pr as [rq cr ch]. cbn in Hdec. subst ch.
      eapply finish_step; [cbn [step]; by rewrite Hc, Hh|].
      eapply finish_step; [cbn [step approves set_approve]; by rewrite lookup_insert_eq|].
      eexists. split; [done|]. cbn. by rewrite lookup_insert_eq.
Qed.

(** Requests with their own identifiers. *)
Definition distinct (s : sys) : Prop :=
  forall c1 c2 pc1 pc2, approves s !! c1 = Some pc1 -> approves s !! c2 = Some pc2 ->
    req_ID (pc_req pc1) = req_ID (pc_req pc2) -> c1 = c2.

Definition listed (s : sys) : Prop :=
  forall c pc, approves s !! c = Some pc -> registered pc = true ->
    pending (broker s) !! req_ID (pc_req pc) = Some c.

Lemma approves_step l s s' c pc :
  step l s = Some s' -> approves s !! c = Some pc ->
  exists pc', approves s' !! c = Some pc' /\ pc_req pc' = pc_req pc.
Proof.
  intros E Hc. destruct l; cbn [step] in E; repeat case_match; simplify_eq; cbn; eauto;
    (destruct (decide (t = c)) as [->|]; [rewrite lookup_insert_eq; simplify_eq; eexists; split; done
                                         |rewrite lookup_insert_ne by done; eauto]).
Qed.

Lemma distinct_step l s s' : step l s = Some s' -> distinct s' -> distinct s.
Proof.
  intros E H c1 c2 pc1 pc2 H1 H2 Heq.
  destruct (approves_step _ _ _ _ _ E H1) as (pc1' & H1' & E1).
  destruct (approves_step _ _ _ _ _ E H2) as (pc2' & H2' & E2).
  eapply H; [done..|congruence].
Qed.

(** A call keeps its registration, and no other call registers its identifier. *)
Lemma listed_step l s s' : distinct s' -> listed s -> step l s = Some s' -> listed s'.
Proof.
  intros Hd Hl E. pose proof (distinct_step _ _ _ E Hd) as Hds.
  assert (Hset : forall s0 c pc pc', broker s0 = broker s -> approves s0 = approves s ->
    approves s !! c = Some pc -> pc_req pc' = pc_req pc ->
    (registered pc' = true -> registered pc = true) -> listed (set_approve c pc' s0)).
  { intros s0 c pc pc' Eb Ea Hc Er Hreg u pu Hu. cbn in *. rewrite Eb. rewrite Ea in Hu. intros Hru. lookups.
    - rewrite Er. apply Hl; [done|auto].
    - by apply Hl. }
  destruct l; cbn [step] in E; repeat case_match; simplify_eq; try exact Hl;
    try (by eapply Hset; [done|done|done|done|]).
  - intros u pu Hu Hru. cbn in *. lookups. by apply Hl.
  - intros u pu Hu Hru. cbn in *. destruct (decide (t = u)) as [<-|Hne]; lookups.
    + cbn. by rewrite lookup_insert_eq.
    + rewrite lookup_insert_ne; [by apply Hl|]. intros He. apply Hne.
      apply (Hds t u (AAllocated req) pu); done.
  - intros u pu Hu Hru. cbn in *. destruct (decide (t = u)) as [<-|Hne]; lookups.
    rewrite lookup_delete_ne; [by apply Hl|]. intros He. apply Hne.
    apply (Hds t u (ALeaving req dec) pu); done.
Qed.

Lemma steps_listed ls s s' : distinct s' -> listed s -> steps ls s = Some s' -> listed s'.
Proof.
  intros Hd. revert s. induction ls as [|l ls IH]; intros s Hl; cbn; [by intros [= <-]|].
  destruct (step l s) as [s1|] eqn:E; [|done]. cbn. intros Hs. apply (IH s1); [|done].
  eapply listed_step; [|done|done].
  clear IH Hl E. revert s1 Hs. induction ls as [|l' ls IH]; intros s1; cbn; [by intros [= ->]|].
  destruct (step l' s1) as [s2|] eqn:E; [|done]. cbn. intros Hs. eapply distinct_step; eauto.
Qed.

#[local] Instance createdBefore_total : Total createdBefore.
Proof. intros v1 v2. unfold createdBefore. lia. Qed.
#[local] Instance createdBefore_trans : Transitive createdBefore.
Proof. intros v1 v2 v3. unfold createdBefore. lia. Qed.

(** The dashboard's list is complete and ordered: with distinct request
    identifiers, in every reachable state Pending is sorted by creation time and
    holds exactly the requests of the calls that have registered and not left. *)
Theorem Pending_spec t s :
  reachable t s -> distinct s ->
  Sorted createdBefore (Pending s) /\
  forall v, v ∈ Pending s <->
    exists c pc pr, approves s !! c = Some pc /\ registered pc = true /\ heap s !! c = Some pr /\
      pr_req pr = pc_req pc /\ v = mkView (pc_req pc) (pr_createdAt pr).
Proof.
  intros Hr Hd. pose proof (reachable_inv t s Hr) as I. destruct Hr as [ls Hr]. split.
  - apply Sorted_merge_sort, _.
  - intros v. unfold Pending. rewrite merge_sort_Permutation, list_elem_of_omap. split.
    + intros ([id c] & Hin & Hv). apply elem_of_map_to_list in Hin. cbn in Hv.
      destruct (inv_pending s I _ _ Hin) as (pc & Hc & Hreg & _).
      destruct (inv_heap s I _ _ Hc) as (pr & Hp & E); [by destruct pc|].
      rewrite Hp in Hv. injection Hv as <-. exists c, pc, pr. by rewrite E.
    + intros (c & pc & pr & Hc & Hreg & Hp & E & ->).
      assert (Hl : listed s).
      { eapply (steps_listed ls (initial t)); [done| |done]. intros u pu Hu. cbn in Hu.
        by rewrite lookup_empty in Hu. }
      exists (req_ID (pc_req pc), c). split; [apply elem_of_map_to_list; by apply Hl|].
      cbn. rewrite Hp. cbn. by rewrite E.
Qed.

(** ** Races *)

Definition request (id : string) : Request := mkRequest id ReasonMutation "mutation" "DELETE FROM t" 0 "c" "n" "d".

(** Up to the point where call 0 waits for its decision. *)
Definition waiting_run : list label :=
  [LApprove 0 (request "req-1"); LAllocate 0; LRegister 0; LTimer 0].

(** Decide can return true for a request that is denied: the lookup and the
    send of Decide are not one step with the timeout of Approve, so a decision
    can go into the channel of a call that has already timed out; the dashboard
    shows "approved" and the statement is denied. *)
Theorem decide_true_after_timeout :
  exists ls s', steps ls (initial 60) = Some s' /\
    approves s' !! 0 = Some (AReturned (request "req-1") timed_out) /\
    decides s' !! 0 = Some (DReturned "req-1" true "ok" (Some 0)).
Proof.
  exists (waiting_run ++ [LDecide 0 "req-1" true "ok"; LLookup 0; LTick 60; LTimeout 0; LSend 0; LLeave 0]).
  destruct (steps _ _) as [s'|] eqn:E; [|revert E; vm_compute; discriminate].
  exists s'. split; [done|]. revert E. vm_compute. intros [= <-]. by split.
Qed.

(** Two contradictory calls of Decide can both return true: once the first
    decision was taken out of the channel, the second finds room in it. *)
Theorem two_decisions_accepted :
  exists ls s', steps ls (initial 60) = Some s' /\
    approves s' !! 0 = Some (AReturned (request "req-1") (decision true "yes")) /\
    decides s' !! 0 = Some (DReturned "req-1" true "yes" (Some 0)) /\
    decides s' !! 1 = Some (DReturned "req-1" false "no" (Some 0)).
Proof.
  exists (waiting_run ++ [LDecide 0 "req-1" true "yes"; LLookup 0; LSend 0; LDecide 1 "req-1" false "no";
    LLookup 1; LReceive 0; LSend 1; LLeave 0]).
  destruct (steps _ _) as [s'|] eqn:E; [|revert E; vm_compute; discriminate].
  exists s'. split; [done|]. revert E. vm_compute. intros [= <-]. by split_and!.
Qed.

(** ** The theorems at concrete inputs *)

Module BrokerWitnesses.

Definition run_of (ls : list label) : sys := default (initial 60) (steps ls (initial 60)).
Definition approved_run : list label :=
  waiting_run ++ [LDecide 0 "req-1" true ""; LLookup 0; LSend 0; LReceive 0; LLeave 0].

Lemma run_reachable ls : is_Some (steps ls (initial 60)) -> reachable 60 (run_of ls).
Proof. intros [s E]. exists ls. unfold run_of. by rewrite E. Qed.

Lemma approved_reachable : reachable 60 (run_of approved_run).
Proof. apply run_reachable. eexists. vm_compute. reflexivity. Qed.

Lemma waiting_reachable : reachable 60 (run_of waiting_run).
Proof. apply run_reachable. eexists. vm_compute. reflexivity. Qed.

Lemma approve_fails_closed_witness :
  approves (run_of approved_run) !! 0 = Some (AReturned (request "req-1") (decision true "")) /\
  exists d reason,
    decides (run_of approved_run) !! d = Some (DReturned "req-1" true reason (Some 0)) /\
    decision true "" = decision true reason.
Proof.
  assert (H : approves (run_of approved_run) !! 0 = Some (AReturned (request "req-1") (decision true "")))
    by (vm_compute; reflexivity).
  split; [exact H|].
  exact (approve_fails_closed 60 (run_of approved_run) 0 (request "req-1") (decision true "")
           approved_reachable H eq_refl).
Defined.

Lemma no_pending_leak_witness :
  reachable 60 (run_of approved_run) /\ pending (broker (run_of approved_run)) = ∅.
Proof.
  split; [exact approved_reachable|].
  apply (no_pending_leak 60 (run_of approved_run) approved_reachable).
  intros c pc H. assert (E : approves (run_of approved_run) =
    {[0 := AReturned (request "req-1") (decision true "")]}) by (vm_compute; reflexivity).
  rewrite E in H. apply lookup_singleton_Some in H as [_ <-]. reflexivity.
Defined.

Lemma approve_returns_witness :
  approves (run_of waiting_run) !! 0 = Some (AWaiting (request "req-1") 0) /\
  exists s', steps [LTick 60; LTimeout 0; LLeave 0] (run_of waiting_run) = Some s' /\
    returned_call 0 (request "req-1") s'.
Proof.
  assert (H : approves (run_of waiting_run) !! 0 = Some (AWaiting (request "req-1") 0))
    by (vm_compute; reflexivity).
  split; [exact H|].
  exact (proj2 (approve_returns 60 (run_of waiting_run) 0 _ waiting_reachable H)).
Defined.

Definition decided_run : list label := waiting_run ++ [LDecide 7 "req-1" true "ok"; LLookup 7; LSend 7].

Lemma decide_reaches_witness :
  decides (run_of decided_run) !! 7 = Some (DReturned "req-1" true "ok" (Some 0)) /\
  exists s', steps [LReceive 0; LLeave 0] (run_of decided_run) = Some s' /\
    approves s' !! 0 = Some (AReturned (request "req-1") (decision true "ok")).
Proof.
  assert (Hd : decides (run_of decided_run) !! 7 = Some (DReturned "req-1" true "ok" (Some 0))) by (vm_compute; reflexivity).
  assert (Hr : reachable 60 (run_of decided_run)) by (apply run_reachable; eexists; vm_compute; reflexivity).
  split; [exact Hd|]. destruct (decide_reaches 60 _ 7 "req-1" true "ok" 0 Hr Hd) as (pc & Hc & _ & H).
  assert (Hw : approves (run_of decided_run) !! 0 = Some (AWaiting (request "req-1") 0)) by (vm_compute; reflexivity).
  rewrite Hw in Hc. injection Hc as <-. destruct H as (pr & dec & Hp & Hdec & _ & Hs).
  destruct (Hs _ _ eq_refl) as (s' & E & Ha). exists s'. split; [exact E|].
  assert (Hh : heap (run_of decided_run) !! 0 = Some (mkPending (request "req-1") 0 (Some (decision true "ok")))) by (vm_compute; reflexivity).
  rewrite Hh in Hp. injection Hp as <-. injection Hdec as <-. exact Ha.
Defined.

Lemma waiting_distinct : distinct (run_of waiting_run).
Proof.
  intros c1 c2 pc1 pc2 H1 H2 _. assert (E : approves (run_of waiting_run) =
    {[0 := AWaiting (request "req-1") 0]}) by (vm_compute; reflexivity).
  rewrite E in H1, H2. apply lookup_singleton_Some in H1 as [<- _], H2 as [<- _]. reflexivity.
Qed.

Lemma Pending_spec_witness :
  distinct (run_of waiting_run) /\ mkView (request "req-1") 0 ∈ Pending (run_of waiting_run).
Proof.
  split; [exact waiting_distinct|].
  apply (Pending_spec 60 (run_of waiting_run) waiting_reachable waiting_distinct).
  exists 0, (AWaiting (request "req-1") 0), (mkPending (request "req-1") 0 None).
  split_and!; vm_compute; reflexivity.
Defined.
End BrokerWitnesses.
