(* ===== verification/Proto.v ===== *)
(** * The wire protocol and the upstream connection

    The PostgreSQL messages the proxy exchanges with its client (pgproto3) and
    the operations of the upstream connection (pgconn) are code outside the
    repository.  Messages are plain data, given here by the fields the proxy
    reads and writes; the upstream is the class [Upstream], whose operations
    return what the proxy can observe of a result. *)

From S2P Require Import Prelude GoStrings Policy Approval.

(** ** Messages *)

Record FieldDescription : Type := mkField {
  fd_Name : string;
  fd_TableOID : Z;
  fd_TableAttributeNumber : Z;
  fd_DataTypeOID : Z;
  fd_DataTypeSize : Z;
  fd_TypeModifier : Z;
  fd_Format : Z
}.

#[export] Instance FieldDescription_eq_dec : EqDecision FieldDescription.
Proof. solve_decision. Defined.

Inductive FrontendMessage : Type :=
| Query (sql : string)
| Parse (name query : string) (paramOIDs : list Z)
| Bind (portal stmt : string) (paramFormats : list Z) (params : list value) (resultFormats : list Z)
| Describe (objectType : ascii) (name : string)
| Execute (portal : string) (max : Z)
| Sync
| Close (objectType : ascii) (name : string)
| Flush
| Terminate
| OtherMessage.

Record ErrorFields : Type := mkError {
  e_Severity : string; e_Code : string; e_Message : string; e_Detail : string; e_Hint : string
}.

#[export] Instance ErrorFields_eq_dec : EqDecision ErrorFields.
Proof. solve_decision. Defined.

Inductive BackendMessage : Type :=
| ParseComplete
| BindComplete
| CloseComplete
| NoData
| ParameterDescription (oids : list Z)
| RowDescription (fields : list FieldDescription)
| DataRow (values : list value)
| CommandComplete (tag : string)
| ReadyForQuery (txStatus : ascii)
| ErrorResponse (e : ErrorFields).

#[export] Instance BackendMessage_eq_dec : EqDecision BackendMessage.
Proof. solve_decision. Defined.

(** ** The upstream connection *)

(** An error of pgconn: a server error, or anything else by its text. *)
Inductive QueryErr : Type :=
| PgError (code message detail hint : string)
| OtherErr (text : string).

(** A [pgconn.ResultReader] read to its end: the columns, the rows, and what
    [Close] returns (a command tag or an error). *)
Record ResultReader : Type := mkResult {
  rr_fields : list FieldDescription;
  rr_rows : list (list value);
  rr_close : string + QueryErr
}.

(** A [pgconn.MultiResultReader] read to its end: the results of the statements
    of one simple query, and the error [Close] returns. *)
Record MultiResult : Type := mkMulti {
  mrr_results : list ResultReader;
  mrr_close : option QueryErr
}.

Record StatementDescription : Type := mkStmtDesc {
  sd_ParamOIDs : list Z;
  sd_Fields : list FieldDescription
}.

Class Upstream (W : Type) : Type := {
  up_Exec : string -> W -> MultiResult * W;
  up_ExecParams : string -> list value -> list Z -> list Z -> list Z -> W -> ResultReader * W;
  up_Prepare : string -> string -> list Z -> W -> (StatementDescription + QueryErr) * W
}.

(** ** The read buffer of pgproto3

    The parameters of a Bind message are slices of the buffer that messages are
    read into, and are valid only until the next message is received: a slice that
    was handed out with some bytes is later read as whatever the buffer holds then. *)
Class ReadBuffer (W : Type) : Type := read_buffer : string -> W -> string * W.

(** A buffer in which nothing has been overwritten yet. *)
Definition intact {W : Type} : ReadBuffer W := fun bytes w => (bytes, w).

(** ** Events: what a session does, in order *)

Inductive event : Type :=
| EvSend (m : BackendMessage)
| EvFlush
| EvApprove (req : Request) (dec : ApprovalDecision)
| EvExec (sql : string)
| EvExecParams (sql : string) (params : list value) (oids paramFormats resultFormats : list Z)
| EvPrepare (name sql : string) (oids : list Z).

#[export] Instance event_eq_dec : EqDecision event.
Proof. solve_decision. Defined.

(** The statement an event makes the upstream execute. *)
Definition executes (e : event) : option string :=
  match e with
  | EvExec sql => Some sql
  | EvExecParams sql _ _ _ _ => Some sql
  | _ => None
  end.
