(* ===== verification/Session.v ===== *)
(** * The proxy session (internal/proxy: session.go, exec.go, extended.go, schema.go)

    One session serves one client connection: it reads messages, keeps the
    prepared statements and portals of the extended protocol, runs statements on
    the upstream and queues responses.  Every handler is a computation of the
    state monad over [St]: the session's fields, the world that answers the
    approver, the upstream and the random generator, and the trace of events.

    A prepared statement is a pointer in the Go code, but it is reachable only
    through the map [statements] (portals hold statement names), so an update of
    the map entry is the assignment through the pointer. *)

From stdpp Require Import pretty.
From S2P Require Import Prelude GoStrings Sha256 Classify Policy Approval Proto.

(** ** State *)

Record preparedStmt : Type := mkStmt {
  ps_query : string;
  ps_kind : Kind;
  ps_paramOIDs : list Z;
  ps_fields : list FieldDescription;
  ps_described : bool;
  ps_isSchema : bool
}.

Record portal : Type := mkPortal {
  po_stmt : string;
  po_paramFormats : list Z;
  (** slices of the read buffer, with the bytes they had when they were bound *)
  po_params : list value;
  po_resultFormats : list Z
}.

Record session : Type := mkSession {
  s_policy : Policy;
  s_connName : string;
  s_upstreamDB : string;
  s_client : string;
  s_SchemaFunction : string;
  statements : gmap string preparedStmt;
  portals : gmap string portal;
  batchFailed : bool
}.

Definition set_statements (f : gmap string preparedStmt -> gmap string preparedStmt) (s : session) : session :=
  mkSession (s_policy s) (s_connName s) (s_upstreamDB s) (s_client s) (s_SchemaFunction s)
    (f (statements s)) (portals s) (batchFailed s).
Definition set_portals (f : gmap string portal -> gmap string portal) (s : session) : session :=
  mkSession (s_policy s) (s_connName s) (s_upstreamDB s) (s_client s) (s_SchemaFunction s)
    (statements s) (f (portals s)) (batchFailed s).
Definition set_batchFailed (b : bool) (s : session) : session :=
  mkSession (s_policy s) (s_connName s) (s_upstreamDB s) (s_client s) (s_SchemaFunction s)
    (statements s) (portals s) b.

Record St (W : Type) : Type := mkSt { sess : session; world : W; trace : list event }.
Arguments mkSt {W} _ _ _.
Arguments sess {W} _.
Arguments world {W} _.
Arguments trace {W} _.

(** ** Constants of schema.go *)

Definition textOID : Z := 25.

Definition introspectSQL : string :=
  String newline ("SELECT table_schema, table_name, column_name, data_type, ordinal_position"
  +:+ String newline ("FROM information_schema.columns"
  +:+ String newline ("WHERE table_schema NOT IN ('pg_catalog', 'information_schema')"
  +:+ String newline "ORDER BY table_schema, table_name, ordinal_position"))).

Definition schemaColumns : list string :=
  ["table_schema"; "table_name"; "column_name"; "data_type"; "pii_action"].

Definition schemaRowDescription : BackendMessage :=
  RowDescription ((fun name => mkField name 0 0 textOID (-1) (-1) 0) <$> schemaColumns).

Definition actionName (a : Action) : string :=
  match a with
  | ActionHash => "hash"
  | ActionRedact => "redact"
  | ActionNone => ""
  end.

(** ** Result formats and row descriptions *)

Definition formatAt (formats : list Z) (i : nat) : Z :=
  match formats with
  | [] => 0
  | [f] => f
  | _ => default 0%Z (formats !! i)
  end.

Definition rowDescription (fds : list FieldDescription) : list FieldDescription :=
  (fun fd => mkField (fd_Name fd) (fd_TableOID fd) (fd_TableAttributeNumber fd) (fd_DataTypeOID fd)
     (fd_DataTypeSize fd) (fd_TypeModifier fd) (fd_Format fd)) <$> fds.

Definition rowDescriptionWithFormats (fds : list FieldDescription) (formats : list Z) : list FieldDescription :=
  imap (fun i fd => mkField (fd_Name fd) (fd_TableOID fd) (fd_TableAttributeNumber fd) (fd_DataTypeOID fd)
     (fd_DataTypeSize fd) (fd_TypeModifier fd) (formatAt formats i)) (rowDescription fds).

(** The error message of sendQueryError. *)
Definition queryError (err : QueryErr) : ErrorFields :=
  match err with
  | PgError code message detail hint => mkError "ERROR" code message detail hint
  | OtherErr text => mkError "ERROR" "58000" text "" ""
  end.

(** ReadAll of a multi-result: all results, or the error of [Close]. *)
Definition ReadAll (m : MultiResult) : list ResultReader + QueryErr :=
  match mrr_close m with
  | Some err => inr err
  | None => inl (mrr_results m)
  end.

Section Session.
Context {U : Unicode} {W : Type} {R : Rand W} {A : Approver W} {RB : ReadBuffer W} {Up : Upstream W}.

Abbreviation Go := (M (St W)).

(** ** Elementary effects *)

Definition emit (e : event) : Go unit :=
  modify (fun s => mkSt (sess s) (world s) (trace s ++ [e])).
Definition send (m : BackendMessage) : Go unit := emit (EvSend m).
Definition flush : Go unit := emit EvFlush.
Definition get_session : Go session := s <- get_state ;; ret (sess s).
Definition set_session (f : session -> session) : Go unit :=
  modify (fun s => mkSt (f (sess s)) (world s) (trace s)).

(** Run an operation of the environment. *)
Definition env {B : Type} (f : W -> B * W) : Go B :=
  fun s => let '(b, w) := f (world s) in Ok b (mkSt (sess s) w (trace s)).

Definition approve (req : Request) : Go ApprovalDecision :=
  dec <- env (Approve req) ;;
  emit (EvApprove req dec) ;;
  ret dec.
Definition upstream_Exec (sql : string) : Go MultiResult :=
  emit (EvExec sql) ;; env (up_Exec sql).
Definition upstream_ExecParams (sql : string) (params : list value) (oids pf rf : list Z) : Go ResultReader :=
  emit (EvExecParams sql params oids pf rf) ;; env (up_ExecParams sql params oids pf rf).
Definition upstream_Prepare (name sql : string) (oids : list Z) : Go (StatementDescription + QueryErr) :=
  emit (EvPrepare name sql oids) ;; env (up_Prepare name sql oids).

(** ** Response helpers (session.go) *)

Definition ready : Go unit := send (ReadyForQuery "I") ;; flush.
Definition sendError (code message : string) : Go unit :=
  send (ErrorResponse (mkError "ERROR" code message "" "")).
Definition sendQueryError (err : QueryErr) : Go unit := send (ErrorResponse (queryError err)).
Definition failBatch (code message : string) : Go unit :=
  sendError code message ;; set_session (set_batchFailed true).

(** ** Schema introspection (schema.go) *)

Definition isSchemaCommand (s : session) (sql : string) : bool :=
  Contains (ToLower sql) (ToLower (s_SchemaFunction s) +:+ "(").

(** The map [idx] from column names to positions: a later column wins. *)
Definition column_index (fds : list FieldDescription) : gmap string nat :=
  foldl (fun m p => <[fd_Name (snd p) := fst p]> m) ∅ (imap pair fds).

Definition cell (idx : gmap string nat) (row : list value) (name : string) : value :=
  match idx !! name with
  | Some i => match row !! i with Some v => v | None => None end
  | None => None
  end.

Definition schemaRow (p : Policy) (idx : gmap string nat) (row : list value) : list value :=
  let column := cell idx row "column_name" in
  [cell idx row "table_schema"; cell idx row "table_name"; column; cell idx row "data_type";
   Some (actionName (ActionFor p (default EmptyString column)))].

Definition schemaRows : Go (list (list value) + QueryErr) :=
  mrr <- upstream_Exec introspectSQL ;;
  match ReadAll mrr with
  | inr err => ret (inr err)
  | inl results =>
      match last results with
      | None => panic                       (* results[len(results)-1] of no result *)
      | Some result =>
          s <- get_session ;;
          ret (inl (schemaRow (s_policy s) (column_index (rr_fields result)) <$> rr_rows result))
      end
  end.

Definition select_tag (rows : list (list value)) : string := "SELECT " +:+ pretty (length rows).

Definition handleSchemaSimple : Go unit :=
  r <- schemaRows ;;
  match r with
  | inr err => sendQueryError err
  | inl rows =>
      send schemaRowDescription ;;
      for_each rows (fun row => send (DataRow row)) ;;
      send (CommandComplete (select_tag rows))
  end.

Definition executeSchema : Go unit :=
  r <- schemaRows ;;
  match r with
  | inr err => sendQueryError err ;; set_session (set_batchFailed true)
  | inl rows =>
      for_each rows (fun row => send (DataRow row)) ;;
      send (CommandComplete (select_tag rows))
  end.

(** ** Statement execution (exec.go) *)

Definition newRequestID : Go string := env NewID.

Definition approveMutation (kind : Kind) (sql : string) : Go bool :=
  s <- get_session ;;
  id <- newRequestID ;;
  dec <- approve (mkRequest id ReasonMutation (Kind_String kind) sql 0
                    (s_client s) (s_connName s) (s_upstreamDB s)) ;;
  if negb (Approved dec) then
    sendError "28000" ("pg-agent-proxy: statement denied (" +:+ dec_Reason dec +:+ ")") ;;
    ret false
  else ret true.

(** One cell of the row loop of streamResult.  [None] is the panic of an index
    out of range of [actions]. *)
Definition anonymizeCell (p : Policy) (fds : list FieldDescription) (i : nat) (v : value) : option value :=
  match v with
  | None => Some None
  | Some raw =>
      match fds !! i with
      | None => None
      | Some fd =>
          let action := ActionFor p (fd_Name fd) in
          if bool_decide (action = ActionNone) then Some (Some raw)
          else Some (AnonymizeValue p action (fd_DataTypeOID fd) v)
      end
  end.

Definition anonymizeRow (p : Policy) (fds : list FieldDescription) (vals : list value) : option (list value) :=
  map_opt (fun iv => anonymizeCell p fds (fst iv) (snd iv)) (imap pair vals).

Definition large_read_denied (n : nat) (max : Z) (reason : string) : string :=
  "pg-agent-proxy: result of " +:+ pretty n +:+ " rows exceeds limit of " +:+ pretty max
  +:+ " and was not approved (" +:+ reason +:+ ")".

(** The row-limit check: [true] when the result was denied. *)
Definition limitDenied (rows : list (list value)) (kind : Kind) (query : string) : Go bool :=
  s <- get_session ;;
  let max := maxRows (s_policy s) in
  if bool_decide (0 < max)%Z && bool_decide (max < Z.of_nat (length rows))%Z then
    id <- newRequestID ;;
    dec <- approve (mkRequest id ReasonLargeRead (Kind_String kind) query (length rows)
                      (s_client s) (s_connName s) (s_upstreamDB s)) ;;
    if negb (Approved dec) then
      sendError "53400" (large_read_denied (length rows) max (dec_Reason dec)) ;;
      ret true
    else ret false
  else ret false.

Definition streamResult (rr : ResultReader) (sendRowDesc : bool) (kind : Kind) (query : string) : Go bool :=
  s <- get_session ;;
  match map_opt (anonymizeRow (s_policy s) (rr_fields rr)) (rr_rows rr) with
  | None => panic
  | Some rows =>
      match rr_close rr with
      | inr err => sendQueryError err ;; ret true
      | inl tag =>
          failed <- limitDenied rows kind query ;;
          if failed then ret true
          else
            (if sendRowDesc && bool_decide (0 < length (rr_fields rr))
             then send (RowDescription (rowDescription (rr_fields rr))) else ret tt) ;;
            for_each rows (fun row => send (DataRow row)) ;;
            send (CommandComplete tag) ;;
            ret false
      end
  end.

(** [for mrr.NextResult() { if s.streamResult(...) { break } }] *)
Fixpoint streamResults (results : list ResultReader) (kind : Kind) (sql : string) : Go unit :=
  match results with
  | [] => ret tt
  | rr :: results' =>
      failed <- streamResult rr true kind sql ;;
      if (failed : bool) then ret tt else streamResults results' kind sql
  end.

Definition runSimple (kind : Kind) (sql : string) : Go unit :=
  mrr <- upstream_Exec sql ;;
  streamResults (mrr_results mrr) kind sql ;;
  match mrr_close mrr with
  | Some err => sendQueryError err
  | None => ret tt
  end ;;
  ready.

Definition handleSimpleQuery (sql : string) : Go unit :=
  s <- get_session ;;
  if isSchemaCommand s sql then handleSchemaSimple ;; ready
  else
    let kind := Classify sql in
    if bool_decide (kind = KindMutation) && gateMutations (s_policy s) then
      ok <- approveMutation kind sql ;;
      if negb ok then ready else runSimple kind sql
    else runSimple kind sql.

(** ** Extended protocol (extended.go) *)

(** [if s.batchFailed { return }] *)
Definition unlessFailed (m : Go unit) : Go unit :=
  s <- get_session ;; if batchFailed s then ret tt else m.

Definition handleParse (name query : string) (oids : list Z) : Go unit :=
  unlessFailed (
    s <- get_session ;;
    set_session (set_statements
      (insert name (mkStmt query (Classify query) oids [] false (isSchemaCommand s query)))) ;;
    send ParseComplete).

Definition handleBind (dst stmt : string) (pf : list Z) (params : list value) (rf : list Z) : Go unit :=
  unlessFailed (
    set_session (set_portals (insert dst (mkPortal stmt pf params rf))) ;;
    send BindComplete).

(** ensureFields on the statement stored under [name]: the statement with its
    fields, or the error of Prepare. *)
Definition ensureFields (name : string) (st : preparedStmt) : Go (preparedStmt + QueryErr) :=
  if ps_described st then ret (inl st)
  else
    r <- upstream_Prepare "" (ps_query st) (ps_paramOIDs st) ;;
    match r with
    | inr err => ret (inr err)
    | inl sd =>
        let st' := mkStmt (ps_query st) (ps_kind st)
          (match ps_paramOIDs st with [] => sd_ParamOIDs sd | oids => oids end)
          (sd_Fields sd) true (ps_isSchema st) in
        set_session (set_statements (insert name st')) ;;
        ret (inl st')
    end.

Definition describeStatement (name : string) : Go unit :=
  s <- get_session ;;
  match statements s !! name with
  | None => failBatch "26000" ("unknown prepared statement " +:+ name)
  | Some st =>
      if ps_isSchema st then send (ParameterDescription []) ;; send schemaRowDescription
      else
        r <- ensureFields name st ;;
        match r with
        | inr err => sendQueryError err ;; set_session (set_batchFailed true)
        | inl st' =>
            send (ParameterDescription (ps_paramOIDs st')) ;;
            match ps_fields st' with
            | [] => send NoData
            | fds => send (RowDescription (rowDescription fds))
            end
        end
  end.

Definition describePortal (name : string) : Go unit :=
  s <- get_session ;;
  match portals s !! name with
  | None => failBatch "34000" ("unknown portal " +:+ name)
  | Some por =>
      match statements s !! po_stmt por with
      | None => failBatch "26000" ("unknown prepared statement " +:+ po_stmt por)
      | Some st =>
          if ps_isSchema st then send schemaRowDescription
          else
            r <- ensureFields (po_stmt por) st ;;
            match r with
            | inr err => sendQueryError err ;; set_session (set_batchFailed true)
            | inl st' =>
                match ps_fields st' with
                | [] => send NoData
                | fds => send (RowDescription (rowDescriptionWithFormats fds (po_resultFormats por)))
                end
            end
      end
  end.

Definition handleDescribe (objectType : ascii) (name : string) : Go unit :=
  unlessFailed (
    if bool_decide (objectType = "S"%char) then describeStatement name
    else if bool_decide (objectType = "P"%char) then describePortal name
    else ret tt).

(** The parameters of a portal, read when they are used. *)
Fixpoint read_params (params : list value) : Go (list value) :=
  match params with
  | [] => ret []
  | None :: params' => rest <- read_params params' ;; ret (None :: rest)
  | Some bytes :: params' =>
      held <- env (read_buffer bytes) ;;
      rest <- read_params params' ;;
      ret (Some held :: rest)
  end.

Definition runPortal (st : preparedStmt) (por : portal) : Go unit :=
  params <- read_params (po_params por) ;;
  rr <- upstream_ExecParams (ps_query st) params (ps_paramOIDs st)
          (po_paramFormats por) (po_resultFormats por) ;;
  failed <- streamResult rr false (ps_kind st) (ps_query st) ;;
  if (failed : bool) then set_session (set_batchFailed true) else ret tt.

Definition handleExecute (name : string) : Go unit :=
  unlessFailed (
    s <- get_session ;;
    match portals s !! name with
    | None => failBatch "34000" ("unknown portal " +:+ name)
    | Some por =>
        match statements s !! po_stmt por with
        | None => failBatch "26000" ("unknown prepared statement " +:+ po_stmt por)
        | Some st =>
            if ps_isSchema st then executeSchema
            else if bool_decide (ps_kind st = KindMutation) && gateMutations (s_policy s) then
              ok <- approveMutation (ps_kind st) (ps_query st) ;;
              if negb ok then set_session (set_batchFailed true) else runPortal st por
            else runPortal st por
        end
    end).

Definition handleClose (objectType : ascii) (name : string) : Go unit :=
  unlessFailed (
    (if bool_decide (objectType = "S"%char) then set_session (set_statements (delete name))
     else if bool_decide (objectType = "P"%char) then set_session (set_portals (delete name))
     else ret tt) ;;
    send CloseComplete).

(** ** The loop (session.go) *)

Definition dispatch (m : FrontendMessage) : Go unit :=
  match m with
  | Query sql => handleSimpleQuery sql
  | Parse name query oids => handleParse name query oids
  | Bind dst stmt pf params rf => handleBind dst stmt pf params rf
  | Describe t name => handleDescribe t name
  | Execute name _ => handleExecute name
  | Sync => set_session (set_batchFailed false) ;; send (ReadyForQuery "I") ;; flush
  | Close t name => handleClose t name
  | Flush => flush
  | Terminate => ret tt
  | OtherMessage => ret tt
  end.

(** The messages the client sends until it disconnects (the end of the list is
    the error of Receive) or terminates. *)
Fixpoint loop (msgs : list FrontendMessage) : Go unit :=
  match msgs with
  | [] => ret tt
  | Terminate :: _ => ret tt
  | m :: msgs' => dispatch m ;; loop msgs'
  end.
End Session.

(** The session of a client that has just been authenticated: no statement, no
    portal, no failed batch (server.go; the policy is that of the connection). *)
Definition established (p : Policy) (conn db client schemaFunction : string) : session :=
  mkSession p conn db client schemaFunction ∅ ∅ false.

(** ** Running computations symbolically

    The equations of the rewrite database [run] execute a computation step by
    step from a state; calls of the environment need their equation. *)

Section Run.
Context {W : Type}.

Lemma run_bind_bind {S A B C : Type} (m : M S A) (f : A -> M S B) (g : B -> M S C) s :
  bind (bind m f) g s = bind m (fun a => bind (f a) g) s.
Proof. unfold bind. by destruct (m s). Qed.

Lemma run_ret {S A B : Type} (a : A) (k : A -> M S B) s : bind (ret a) k s = k a s.
Proof. done. Qed.

Lemma run_panic {S A B : Type} (k : A -> M S B) s : bind panic k s = Panic s.
Proof. done. Qed.

Lemma run_get_session {B} (k : session -> M (St W) B) s : bind get_session k s = k (sess s) s.
Proof. done. Qed.

Lemma run_set_session {B} f (k : unit -> M (St W) B) s :
  bind (set_session f) k s = k tt (mkSt (f (sess s)) (world s) (trace s)).
Proof. done. Qed.

Lemma run_emit {B} e (k : unit -> M (St W) B) s :
  bind (emit e) k s = k tt (mkSt (sess s) (world s) (trace s ++ [e])).
Proof. done. Qed.

Lemma run_send {B} m (k : unit -> M (St W) B) s :
  bind (send m) k s = k tt (mkSt (sess s) (world s) (trace s ++ [EvSend m])).
Proof. done. Qed.

Lemma run_flush {B} (k : unit -> M (St W) B) s :
  bind flush k s = k tt (mkSt (sess s) (world s) (trace s ++ [EvFlush])).
Proof. done. Qed.

Lemma run_env {A B} (f : W -> A * W) (k : A -> M (St W) B) s :
  bind (env f) k s = k (f (world s)).1 (mkSt (sess s) (f (world s)).2 (trace s)).
Proof. unfold bind, env. by destruct (f (world s)). Qed.

Lemma end_emit e (s : St W) : emit e s = Ok tt (mkSt (sess s) (world s) (trace s ++ [e])).
Proof. done. Qed.

Lemma end_send m (s : St W) : send m s = Ok tt (mkSt (sess s) (world s) (trace s ++ [EvSend m])).
Proof. done. Qed.

Lemma end_flush (s : St W) : flush s = Ok tt (mkSt (sess s) (world s) (trace s ++ [EvFlush])).
Proof. done. Qed.

Lemma end_set_session f (s : St W) : set_session f s = Ok tt (mkSt (f (sess s)) (world s) (trace s)).
Proof. done. Qed.

Lemma end_ret {S A : Type} (a : A) (s : S) : ret a s = Ok a s.
Proof. done. Qed.
End Run.

#[export] Hint Rewrite @run_bind_bind @run_ret @run_panic @run_get_session @run_set_session
  @run_emit @run_send @run_flush @run_env @end_emit @end_send @end_flush @end_set_session @end_ret : run.

(** Execute up to the next case distinction. *)
Ltac run := repeat (autorewrite with run; cbn beta iota; cbn [sess world trace negb andb orb fst snd]; cbv zeta).

(** ** Reading parameters *)

Section Parameters.
Context {W : Type} {RB : ReadBuffer W}.

(** What a world's buffer holds of some slices, one after the other. *)
Fixpoint held_params (ps : list value) (w : W) : list value * W :=
  match ps with
  | [] => ([], w)
  | None :: ps' => let '(rest, w1) := held_params ps' w in (None :: rest, w1)
  | Some bytes :: ps' =>
      let '(held, w1) := read_buffer bytes w in let '(rest, w2) := held_params ps' w1 in (Some held :: rest, w2)
  end.

(** Reading the parameters of a portal changes nothing but the world. *)
Lemma read_params_eq ps (s : St W) :
  read_params ps s = Ok (held_params ps (world s)).1 (mkSt (sess s) (held_params ps (world s)).2 (trace s)).
Proof.
  revert s. induction ps as [|[bytes|] ps IH]; intros s; cbn [read_params held_params]; [by destruct s| |].
  - rewrite run_env. destruct (read_buffer bytes (world s)) as [held w1]. unfold bind. rewrite IH. cbn [sess world trace fst snd].
    by destruct (held_params ps w1).
  - unfold bind. rewrite IH. by destruct (held_params ps (world s)).
Qed.

Lemma run_read_params {B} ps (k : list value -> M (St W) B) s :
  bind (read_params ps) k s = k (held_params ps (world s)).1 (mkSt (sess s) (held_params ps (world s)).2 (trace s)).
Proof. unfold bind. by rewrite read_params_eq. Qed.

Lemma wp_read_params ps (Q : list value -> St W -> Prop) E s :
  (forall ps' w, Q ps' (mkSt (sess s) w (trace s))) -> wp (read_params ps) Q E s.
Proof. intros H. unfold wp. rewrite read_params_eq. apply H. Qed.

Lemma preserves_read_params (I : St W -> Prop) ps :
  (forall bytes, preserves I (env (read_buffer bytes))) -> preserves I (read_params ps).
Proof.
  intros H. induction ps as [|[bytes|] ps IH]; cbn [read_params]; [apply preserves_ret| |].
  - apply preserves_bind; [done|intros held]. apply preserves_bind; [done|]. intros rest. apply preserves_ret.
  - apply preserves_bind; [done|]. intros rest. apply preserves_ret.
Qed.
End Parameters.

(** Parameters that nothing has overwritten are the ones bound. *)
Lemma held_params_intact {W} ps (w : W) : held_params (RB := intact) ps w = (ps, w).
Proof. revert w. induction ps as [|[bytes|] ps IH]; intros w; cbn; [done| |]; by rewrite IH. Qed.

#[export] Hint Resolve preserves_read_params : go.
#[export] Hint Rewrite @run_read_params : run.
