(* ===== verification/Store.v ===== *)
(** * The registry of connections (internal/store/store.go)

    The data of a registered connection and what authentication needs of the
    registry: the lookup by agent user name, which treats expired connections
    as unknown, the password check, and the policy of a connection.  The SQLite
    query behind the lookup, the clock and bcrypt are outside the repository:
    the classes [Database], [Clock] and [Bcrypt]. *)

From S2P Require Import Prelude GoStrings GoText Timestamp Policy.

Record Connection : Type := mkConnection {
  cn_ID : Z;
  cn_Name : string;
  cn_AgentUsername : string;
  cn_UpstreamURL : string;
  cn_MaxRows : Z;
  cn_GateMutations : bool;
  cn_PIIRules : list PIIRule;
  cn_CreatedAt : Time;
  cn_ExpiresAt : Time;
  cn_RotateEvery : Duration;
  cn_RotatedAt : Time;
  cn_AgentPassword : string;
  cn_passwordHash : string
}.

Definition Expired (c : Connection) (now : Time) : bool :=
  negb (IsZero (cn_ExpiresAt c)) && negb (Before now (cn_ExpiresAt c)).

Definition NextRotation (c : Connection) : Time :=
  if bool_decide (cn_RotateEvery c <= 0)%Z || IsZero (cn_RotatedAt c) then 0%Z
  else (cn_RotatedAt c + cn_RotateEvery c)%Z.

(** [time.Now]; the row of a user name, decoded by finishScan ([None]: no such
    row, or an error); [bcrypt.CompareHashAndPassword] without error. *)
Class Clock (W : Type) : Type := Now : W -> Time * W.
Class Database (W : Type) : Type := row_by_username : string -> W -> option Connection * W.
Class Bcrypt : Type := bcrypt_matches : string -> string -> bool.

Section Store.
Context {W : Type} {C : Clock W} {D : Database W} {B : Bcrypt} {U : Unicode}.

Definition GetByUsername (username : string) (w : W) : option Connection * W :=
  let '(row, w) := row_by_username username w in
  match row with
  | None => (None, w)
  | Some c =>
      let '(now, w) := Now w in
      if Expired c now then (None, w) else (Some c, w)
  end.

Definition VerifyPassword (c : Connection) (plaintext : string) : bool :=
  bcrypt_matches (cn_passwordHash c) plaintext.

Definition ConnectionPolicy (c : Connection) (hashSalt redactString : string) : Policy :=
  New (cn_PIIRules c) hashSalt redactString (cn_MaxRows c) (cn_GateMutations c).
End Store.

(** ** Lemmas *)

Lemma Expired_iff c now :
  Expired c now = true <-> cn_ExpiresAt c <> 0%Z /\ (cn_ExpiresAt c <= now)%Z.
Proof.
  unfold Expired, IsZero, Before. rewrite andb_true_iff, !negb_true_iff, !bool_decide_eq_false. lia.
Qed.

Lemma NextRotation_zero c :
  NextRotation c = 0%Z <->
  (cn_RotateEvery c <= 0)%Z \/ cn_RotatedAt c = 0%Z \/ (cn_RotatedAt c + cn_RotateEvery c = 0)%Z.
Proof.
  unfold NextRotation, IsZero. destruct (bool_decide _ || bool_decide _) eqn:E.
  - apply orb_true_iff in E. rewrite !bool_decide_eq_true in E. tauto.
  - apply orb_false_iff in E. rewrite !bool_decide_eq_false in E. lia.
Qed.

Section Lookup.
Context {W : Type} {C : Clock W} {D : Database W}.

(** A connection that is found is stored under the name, and not expired now. *)
Lemma GetByUsername_Some username w c w2 :
  GetByUsername username w = (Some c, w2) ->
  exists w1 now, row_by_username username w = (Some c, w1) /\ Now w1 = (now, w2) /\ Expired c now = false.
Proof.
  unfold GetByUsername. destruct (row_by_username username w) as [[row|] w1]; [|done].
  destruct (Now w1) as [now w'] eqn:En. destruct (Expired row now) eqn:Ee; [done|].
  intros [= <- <-]. eauto.
Qed.
End Lookup.
