(* ===== verification/Registry.v ===== *)
(** * The registry over its table (internal/store/store.go)

    The operations of [Store] on the SQLite table [connections].  A row is what
    the columns hold; a table is its rows in the order of their identifiers and
    the last identifier given out (AUTOINCREMENT).  Each SQL statement of the
    source is a function on tables; that a statement can fail for reasons of the
    engine is [db_error].  bcrypt, AES-GCM and the general parser of package time
    are parameters. *)

From stdpp Require Import pretty.
From S2P Require Import Prelude GoStrings GoText Timestamp Base64 Sha256 Json JsonProps Policy Approval Store.

(** ** The table *)

Record Row : Type := mkRow {
  r_id : Z;
  r_name : string;
  r_agent_username : string;
  r_agent_password_hash : string;
  r_agent_password_enc : string;
  r_upstream_url : string;
  r_max_rows : Z;
  r_gate_mutations : Z;
  r_pii_rules : string;
  r_created_at : string;
  r_expires_at : string;
  r_rotate_every : Z;
  r_rotated_at : string
}.

Record Table : Type := mkTable { tb_rows : list Row; tb_seq : Z }.

(** [INSERT INTO connections ...] of the row with the next identifier, or the
    violation of UNIQUE. *)
Definition sql_insert (row : Z -> Row) (tb : Table) : option Z * Table :=
  let id := (tb_seq tb + 1)%Z in
  if bool_decide (r_agent_username (row id) ∈ r_agent_username <$> tb_rows tb) then (None, tb)
  else (Some id, mkTable (tb_rows tb ++ [row id]) id).

(** [UPDATE connections SET ... WHERE id = ?] and the number of rows affected. *)
Definition sql_update (id : Z) (set : Row -> Row) (tb : Table) : nat * Table :=
  (length (filter (fun r => r_id r = id) (tb_rows tb)),
   mkTable ((fun r => if bool_decide (r_id r = id) then set r else r) <$> tb_rows tb) (tb_seq tb)).

(** [DELETE FROM connections WHERE ...] and the number of rows affected. *)
Definition sql_delete (cond : Row -> bool) (tb : Table) : nat * Table :=
  (length (filter (fun r => cond r = true) (tb_rows tb)),
   mkTable (filter (fun r => cond r = false) (tb_rows tb)) (tb_seq tb)).

(** ** Parameters *)

Class TimeParser : Type := parse_general : string -> option Time.
(** AES-256-GCM with a key of 32 bytes: [Seal] and [Open]. *)
Class GCM : Type := {
  gcm_Seal : list N -> string -> string -> string;
  gcm_Open : list N -> string -> string -> option string
}.
Class BcryptGenerate (W : Type) : Type := bcrypt_generate : string -> W -> option string * W.
(** The engine: the message of a failing statement, and of a violated UNIQUE. *)
Class Engine (W : Type) : Type := {
  db_error : W -> option string * W;
  unique_message : string
}.

Inductive StoreError : Type := ErrNotFound | ErrOther (message : string).

Definition error_text (e : StoreError) : string :=
  match e with ErrNotFound => "connection not found" | ErrOther msg => msg end.

(** The state: the secret's key ([s.aead]), the table and the world outside. *)
Record DB (W : Type) : Type := mkDB { db_key : option (list N); db_table : Table; db_world : W }.
Arguments mkDB {W} _ _ _.
Arguments db_key {W} _.
Arguments db_table {W} _.
Arguments db_world {W} _.

Record CreateInput : Type := mkCreateInput {
  ci_Name : string;
  ci_UpstreamURL : string;
  ci_MaxRows : Z;
  ci_GateMutations : bool;
  ci_PIIRules : list PIIRule;
  ci_ExpiresAt : Time;
  ci_RotateEvery : Duration
}.

Record UpdateInput : Type := mkUpdateInput {
  ui_Name : string;
  ui_MaxRows : Z;
  ui_GateMutations : bool;
  ui_PIIRules : list PIIRule;
  ui_SetExpiry : bool;
  ui_ExpiresAt : Time;
  ui_SetRotateEvery : bool;
  ui_RotateEvery : Duration
}.

Record Rotation : Type := mkRotation {
  rot_ID : Z;
  rot_Name : string;
  rot_AgentUsername : string;
  rot_NextRotationAt : Time
}.

(** ** Helpers *)

Definition boolToInt (b : bool) : Z := if b then 1 else 0.

(** [json.Marshal] of a slice of rules, a nil one replaced by an empty one, and
    [json.Unmarshal] into a slice: both lists are empty for [null], which is never
    written. *)
Definition marshal_rules (rs : list PIIRule) : string := encode_json (JArray (PIIRule_json <$> rs)).
Definition unmarshal_rules (s : string) : option (list PIIRule) :=
  v ← Unmarshal_value s; slice_items <$> fill_rules ([], 0) v.

Section Helpers.
Context {U : Unicode}.

(** The runes [slugify] keeps. *)
Definition slug_rune (r : rune) : string :=
  if between 97 122 r || between 48 57 r then EncodeRune r
  else if (r =? 32)%N || (r =? 45)%N || (r =? 95)%N then "_"
  else EmptyString.

Definition slugify (name : string) : string :=
  let s := Trim (foldr (fun r s => slug_rune r +:+ s) EmptyString (runes (ToLower name))) "_" in
  let s := if bool_decide (s = EmptyString) then "conn" else s in
  if (24 <? String.length s)%nat then stake 24 s else s.

Definition isUniqueViolation (message : string) : bool := Contains (ToLower message) "unique".
End Helpers.

(** [s.UseSecret(secret)] *)
Definition UseSecret {W : Type} (secret : string) (s : DB W) : DB W :=
  mkDB (if bool_decide (secret = EmptyString) then None else Some (sha256 ("pgproxy:agent-password:v1:" +:+ secret)))
    (db_table s) (db_world s).

Definition nonceSize : nat := 12.

(** [s.decrypt(enc)] *)
Definition decrypt {G : GCM} (key : option (list N)) (enc : string) : string :=
  match key with
  | None => EmptyString
  | Some k =>
      if bool_decide (enc = EmptyString) then EmptyString
      else
        match RawStd_Decode enc with
        | Some raw =>
            if (String.length raw <? nonceSize)%nat then EmptyString
            else default EmptyString (gcm_Open k (stake nonceSize raw) (sdrop nonceSize raw))
        | None => EmptyString
        end
  end.

(** ** Reading rows *)

Section Scan.
Context {T : TimeParser}.

(** [time.Parse(time.RFC3339Nano, s)] *)
Definition ParseTime (s : string) : option Time :=
  match parseRFC3339 s with Some t => Some t | None => parse_general s end.

(** [finishScan] on a row; [password] and [hash] are the columns that the two
    queries read into the connection. *)
Definition finishScan (r : Row) (password hash : string) : Connection + StoreError :=
  match unmarshal_rules (r_pii_rules r) with
  | None => inr (ErrOther "decode pii_rules")
  | Some rules =>
      let created := default 0%Z (ParseTime (r_created_at r)) in
      let expires :=
        if bool_decide (r_expires_at r = EmptyString) then 0%Z else default 0%Z (ParseTime (r_expires_at r)) in
      let every := if (0 <? r_rotate_every r)%Z then r_rotate_every r else 0%Z in
      let rotated :=
        if bool_decide (r_rotated_at r = EmptyString) then created else default created (ParseTime (r_rotated_at r)) in
      inl (mkConnection (r_id r) (r_name r) (r_agent_username r) (r_upstream_url r) (r_max_rows r)
             (negb (r_gate_mutations r =? 0)%Z) rules created expires every rotated password hash)
  end.

(** The connection of a row as the lookup by user name reads it, and as the list
    does. *)
Definition scanConnectionWithHash (r : Row) : Connection + StoreError :=
  finishScan r EmptyString (r_agent_password_hash r).
Definition scanConnection (r : Row) : Connection + StoreError :=
  finishScan r (r_agent_password_enc r) EmptyString.
End Scan.

Lemma rules_back rs : unmarshal_rules (marshal_rules rs) = Some (sanitize_rule <$> rs).
Proof.
  unfold unmarshal_rules, marshal_rules. rewrite Unmarshal_encode.
  - cbn [mbind option_bind]. apply fill_rules_json.
  - constructor. apply Forall_fmap, Forall_forall. intros x _. apply PIIRule_encodable.
  - cbn [depth]. enough (max_list (map depth (PIIRule_json <$> rs)) <= 1) by (unfold maxNestingDepth; lia).
    apply max_list_bound, Forall_fmap, Forall_forall. intros x _. by apply Nat.eq_le_incl, PIIRule_depth.
Qed.

(** C34.  Rules come back from their column as they were written, for every list of rules:
    whatever bytes their texts have, those that are not valid UTF-8 replaced, the
    JSON that the registry stores is read back and is the same rules. *)
Theorem rules_roundtrip rs : unmarshal_rules (marshal_rules rs) = Some (sanitize_rule <$> rs).
Proof. apply rules_back. Qed.

Lemma rules_read rs : Forall utf8_rule rs -> unmarshal_rules (marshal_rules rs) = Some rs.
Proof. intros H. by rewrite rules_back, utf8_rules_sanitize. Qed.

(** ** Operations *)

Section Operations.
Context {U : Unicode} {W : Type} {T : TimeParser} {G : GCM} {R : Rand W} {C : Clock W}
        {B : BcryptGenerate W} {E : Engine W}.

Abbreviation Go := (M (DB W)).

Definition world_db {A : Type} (f : W -> A * W) : Go A :=
  fun s => Ok (f (db_world s)).1 (mkDB (db_key s) (db_table s) (f (db_world s)).2).

(** A statement: it fails without effect, or runs on the table. *)
Definition sql {A : Type} (f : Table -> A * Table) : Go (A + StoreError) :=
  failed <- world_db db_error ;;
  match failed with
  | Some msg => ret (inr (ErrOther msg))
  | None => fun s => Ok (inl (f (db_table s)).1) (mkDB (db_key s) (f (db_table s)).2 (db_world s))
  end.

(** [if err != nil { return ..., err }] *)
Definition try {A A' : Type} (m : Go (A + StoreError)) (k : A -> Go (A' + StoreError)) : Go (A' + StoreError) :=
  r <- m ;; match r with inl a => k a | inr e => ret (inr e) end.

Definition randomToken (nBytes : nat) : Go (string + StoreError) :=
  b <- world_db (rand_read nBytes) ;;
  match b with
  | None => ret (inr (ErrOther "rand"))
  | Some b => ret (inl (RawURL_Encode b))
  end.

Definition GenerateFromPassword (password : string) : Go (string + StoreError) :=
  h <- world_db (bcrypt_generate password) ;;
  match h with None => ret (inr (ErrOther "bcrypt")) | Some h => ret (inl h) end.

Definition encrypt (plaintext : string) : Go (string + StoreError) :=
  s <- get_state ;;
  match db_key s with
  | None => ret (inl EmptyString)
  | Some k =>
      if bool_decide (plaintext = EmptyString) then ret (inl EmptyString)
      else
        nonce <- world_db (rand_read nonceSize) ;;
        match nonce with
        | None => ret (inr (ErrOther "rand"))
        | Some nonce => ret (inl (RawStd_Encode (nonce +:+ gcm_Seal k nonce plaintext)))
        end
  end.

(** The row that Create inserts. *)
Definition new_row (inp : CreateInput) (username hash enc : string) (createdAt : Time) (id : Z) : Row :=
  mkRow id (ci_Name inp) username hash enc (ci_UpstreamURL inp) (ci_MaxRows inp) (boolToInt (ci_GateMutations inp))
    (marshal_rules (ci_PIIRules inp)) (FormatRFC3339Nano createdAt) (formatExpiry (ci_ExpiresAt inp))
    (ci_RotateEvery inp) (formatTimestamp createdAt).

(** The attempts at a user name: the identifier and the name inserted, or
    [None] when all were taken. *)
Fixpoint insert_attempts (attempts : nat) (inp : CreateInput) (hash enc : string) (createdAt : Time) :
    Go (option (Z * string) + StoreError) :=
  match attempts with
  | O => ret (inl None)
  | S n =>
      try (randomToken 4) (fun suffix =>
        if (String.length suffix <? 6)%nat then panic
        else
          let username := slugify (ci_Name inp) +:+ "_" +:+ ToLower (stake 6 suffix) in
          let retry (message : string) :=
            if isUniqueViolation message then insert_attempts n inp hash enc createdAt
            else ret (inr (ErrOther message)) in
          inserted <- sql (sql_insert (new_row inp username hash enc createdAt)) ;;
          match inserted with
          | inl (Some id) => ret (inl (Some (id, username)))
          | inl None => retry unique_message
          | inr e => retry (error_text e)
          end)
  end.

Definition Create (inp : CreateInput) : Go ((Connection * string) + StoreError) :=
  if bool_decide (TrimSpace (ci_Name inp) = EmptyString) then ret (inr (ErrOther "name is required"))
  else if bool_decide (TrimSpace (ci_UpstreamURL inp) = EmptyString) then ret (inr (ErrOther "upstream_url is required"))
  else
    try (randomToken 24) (fun password =>
    try (GenerateFromPassword password) (fun hash =>
    try (encrypt password) (fun encPassword =>
      createdAt <- world_db Now ;;
      try (insert_attempts 5 inp hash encPassword createdAt) (fun inserted =>
        match inserted with
        | None => ret (inr (ErrOther "could not generate a unique agent username"))
        | Some (id, username) =>
            ret (inl (mkConnection id (ci_Name inp) username (ci_UpstreamURL inp) (ci_MaxRows inp)
                        (ci_GateMutations inp) (ci_PIIRules inp) createdAt (ci_ExpiresAt inp) (ci_RotateEvery inp)
                        createdAt password hash, password))
        end)))).

Definition set_password (hash enc : string) (now : Time) (r : Row) : Row :=
  mkRow (r_id r) (r_name r) (r_agent_username r) hash enc (r_upstream_url r) (r_max_rows r) (r_gate_mutations r)
    (r_pii_rules r) (r_created_at r) (r_expires_at r) (r_rotate_every r) (formatTimestamp now).

Definition rotate (id : Z) (now : Time) : Go (string + StoreError) :=
  try (randomToken 24) (fun password =>
  try (GenerateFromPassword password) (fun hash =>
  try (encrypt password) (fun encPassword =>
  try (sql (sql_update id (set_password hash encPassword now))) (fun n =>
    if (n =? 0)%nat then ret (inr ErrNotFound) else ret (inl password))))).

Definition Rotate (id : Z) : Go (string + StoreError) :=
  now <- world_db Now ;; rotate id now.

(** The rows of the first loop of RotateDue. *)
Definition due_rotation (now : Time) (r : Row) : option Rotation :=
  match ParseTime (r_rotated_at r) with
  | None => None
  | Some last =>
      if Before now (last + r_rotate_every r)%Z then None
      else Some (mkRotation (r_id r) (r_name r) (r_agent_username r) (now + r_rotate_every r)%Z)
  end.

(** The second loop: what was rotated, and the first error. *)
Fixpoint rotate_all (due : list Rotation) (now : Time) : Go (list Rotation * option StoreError) :=
  match due with
  | [] => ret ([], None)
  | d :: due' =>
      r <- rotate (rot_ID d) now ;;
      rest <- rotate_all due' now ;;
      ret (match r with
           | inl _ => (d :: rest.1, rest.2)
           | inr ErrNotFound => rest
           | inr (ErrOther msg) =>
               (rest.1, Some (ErrOther ("rotate connection " +:+ pretty (rot_ID d) +:+ ": " +:+ msg)))
           end)
  end.

Definition RotateDue (now : Time) : Go (list Rotation * option StoreError) :=
  rows <- sql (fun tb => (filter (fun r => 0 < r_rotate_every r)%Z (tb_rows tb), tb)) ;;
  match rows with
  | inr e => ret ([], Some e)
  | inl rows => rotate_all (omap (due_rotation now) rows) now
  end.

(** The columns that Update assigns. *)
Definition set_policy (inp : UpdateInput) (r : Row) : Row :=
  mkRow (r_id r) (ui_Name inp) (r_agent_username r) (r_agent_password_hash r) (r_agent_password_enc r)
    (r_upstream_url r) (ui_MaxRows inp) (boolToInt (ui_GateMutations inp)) (marshal_rules (ui_PIIRules inp))
    (r_created_at r)
    (if ui_SetExpiry inp then formatExpiry (ui_ExpiresAt inp) else r_expires_at r)
    (if ui_SetRotateEvery inp
     then (if (ui_RotateEvery inp <? 0)%Z then 0%Z else ui_RotateEvery inp) else r_rotate_every r)
    (r_rotated_at r).

Definition Update (id : Z) (inp : UpdateInput) : Go (unit + StoreError) :=
  if bool_decide (TrimSpace (ui_Name inp) = EmptyString) then ret (inr (ErrOther "name is required"))
  else
    try (sql (sql_update id (set_policy inp))) (fun n =>
      if (n =? 0)%nat then ret (inr ErrNotFound) else ret (inl tt)).

Definition Delete (id : Z) : Go (unit + StoreError) :=
  try (sql (sql_delete (fun r => bool_decide (r_id r = id)))) (fun n =>
    if (n =? 0)%nat then ret (inr ErrNotFound) else ret (inl tt)).

(** [expires_at != '' AND expires_at <= ?] *)
Definition expiry_passed (now : Time) (r : Row) : bool :=
  negb (bool_decide (r_expires_at r = EmptyString)) && text_le (r_expires_at r) (formatTimestamp now).

Definition DeleteExpired (now : Time) : Go (nat + StoreError) :=
  try (sql (sql_delete (expiry_passed now))) (fun n => ret (inl n)).

Definition show (key : option (list N)) (c : Connection) : Connection :=
  mkConnection (cn_ID c) (cn_Name c) (cn_AgentUsername c) (cn_UpstreamURL c) (cn_MaxRows c) (cn_GateMutations c)
    (cn_PIIRules c) (cn_CreatedAt c) (cn_ExpiresAt c) (cn_RotateEvery c) (cn_RotatedAt c)
    (decrypt key (cn_AgentPassword c)) (cn_passwordHash c).

Fixpoint scan_all (key : option (list N)) (rows : list Row) : list Connection + StoreError :=
  match rows with
  | [] => inl []
  | r :: rows' =>
      match scanConnection r, scan_all key rows' with
      | inl c, inl cs => inl (show key c :: cs)
      | inr e, _ => inr e
      | _, inr e => inr e
      end
  end.

Definition List : Go (list Connection + StoreError) :=
  rows <- sql (fun tb => (tb_rows tb, tb)) ;;
  s <- get_state ;;
  match rows with inr e => ret (inr e) | inl rows => ret (scan_all (db_key s) rows) end.
End Operations.

(** ** The registry as the proxy's database

    What authentication uses of the registry (the classes of Store.v): the row
    of a user name, decoded, and the clock. *)

Section Interface.
Context {W : Type} {T : TimeParser} {C : Clock W} {E : Engine W}.

Definition connection_by_username (username : string) : M (DB W) (Connection + StoreError) :=
  rows <- sql (fun tb => (filter (fun r => r_agent_username r = username) (tb_rows tb), tb)) ;;
  match rows with
  | inr e => ret (inr e)
  | inl [] => ret (inr ErrNotFound)
  | inl (r :: _) => ret (scanConnectionWithHash r)
  end.

Definition registry_database : Database (DB W) := fun username s =>
  match connection_by_username username s with
  | Ok (inl c) s' => (Some c, s')
  | Ok (inr _) s' => (None, s')
  | Panic s' => (None, s')
  end.

Definition registry_clock : Clock (DB W) := fun s =>
  ((Now (db_world s)).1, mkDB (db_key s) (db_table s) (Now (db_world s)).2).
End Interface.
