(* ===== verification/Config.v ===== *)
(** * Configuration (internal/config/config.go)

    Load overlays environment variables on the settings of the YAML file, fills
    in defaults and validates.  The YAML decoder is a library outside the
    repository: it is the parameter [yaml], from the text of the file to a
    configuration or an error.  The theorems: what a loaded configuration
    satisfies, which source each setting comes from, and that approvals are
    denied unless something else was configured. *)

From S2P Require Import Prelude GoStrings GoText Approval Broker.

(** ** Data *)

Record TLSConfig : Type := mkTLS {
  tls_Mode : string; tls_Required : bool; tls_Hosts : list string; tls_ACMEEmail : string;
  tls_CacheDir : string; tls_CertFile : string; tls_KeyFile : string
}.

Definition Enabled (t : TLSConfig) : bool :=
  negb (bool_decide (tls_Mode t = EmptyString)) && negb (bool_decide (tls_Mode t = "off")).

Record ApprovalConfig : Type := mkApproval { ap_Mode : string; ap_URL : string; ap_Timeout : Duration }.

Record Config : Type := mkConfig {
  c_Listen : string; c_AdminListen : string; c_Database : string; c_PublicAddr : string;
  c_HashSalt : string; c_RedactString : string; c_SchemaFunction : string;
  c_Approval : ApprovalConfig; c_TLS : TLSConfig
}.

(** The zero value of Go. *)
Definition zero_config : Config :=
  mkConfig "" "" "" "" "" "" "" (mkApproval "" "" 0%Z) (mkTLS "" false [] "" "" "" "").

(** The errors of Load, by their cause. *)
Inductive ConfigError : Type :=
| ErrParse | ErrRead | ErrApprovalTimeout (v : string) | ErrNoURL | ErrApprovalMode (mode : string)
| ErrNoHosts | ErrNoCertFile | ErrTLSMode (mode : string).

(** What [os.ReadFile] returns. *)
Inductive ReadResult : Type := FileContent (text : string) | FileMissing | FileError.

(** ** Loading *)

Section Config.
(** [os.Getenv], empty for an unset variable, and the YAML decoder with
    [KnownFields], [None] for its errors. *)
Variable Getenv : string -> string.
Variable yaml : string -> option Config.

Definition setString (dst env : string) : string :=
  if bool_decide (Getenv env = EmptyString) then dst else Getenv env.

Definition splitList (v : string) : list string :=
  filter (fun p => p <> EmptyString) (TrimSpace <$> Split v ",").

Definition applyTimeout (old : Duration) : Duration + ConfigError :=
  let v := Getenv "PGPROXY_APPROVAL_TIMEOUT" in
  if bool_decide (v = EmptyString) then inl old
  else match ParseDuration v with Some d => inl d | None => inr (ErrApprovalTimeout v) end.

Definition applyEnv (c : Config) : Config + ConfigError :=
  match applyTimeout (ap_Timeout (c_Approval c)) with
  | inr err => inr err
  | inl timeout =>
      let hosts := Getenv "PGPROXY_TLS_HOSTS" in
      let required := Getenv "PGPROXY_TLS_REQUIRED" in
      inl (mkConfig
        (setString (c_Listen c) "PGPROXY_LISTEN")
        (setString (c_AdminListen c) "PGPROXY_ADMIN_LISTEN")
        (setString (c_Database c) "PGPROXY_DATABASE")
        (setString (c_PublicAddr c) "PGPROXY_PUBLIC_ADDR")
        (setString (c_HashSalt c) "PGPROXY_HASH_SALT")
        (setString (c_RedactString c) "PGPROXY_REDACT_STRING")
        (setString (c_SchemaFunction c) "PGPROXY_SCHEMA_FUNCTION")
        (mkApproval
          (setString (ap_Mode (c_Approval c)) "PGPROXY_APPROVAL_MODE")
          (setString (ap_URL (c_Approval c)) "PGPROXY_APPROVAL_URL")
          timeout)
        (mkTLS
          (setString (tls_Mode (c_TLS c)) "PGPROXY_TLS_MODE")
          (if bool_decide (required = EmptyString) then tls_Required (c_TLS c)
           else bool_decide (required = "1") || EqualFold required "true")
          (if bool_decide (hosts = EmptyString) then tls_Hosts (c_TLS c) else splitList hosts)
          (setString (tls_ACMEEmail (c_TLS c)) "PGPROXY_TLS_ACME_EMAIL")
          (setString (tls_CacheDir (c_TLS c)) "PGPROXY_TLS_CACHE_DIR")
          (setString (tls_CertFile (c_TLS c)) "PGPROXY_TLS_CERT_FILE")
          (setString (tls_KeyFile (c_TLS c)) "PGPROXY_TLS_KEY_FILE")))
  end.

(** [if s == "" { s = d }] *)
Definition or_default (s d : string) : string := if bool_decide (s = EmptyString) then d else s.

Definition applyDefaults (c : Config) : Config :=
  mkConfig
    (or_default (c_Listen c) "127.0.0.1:6432")
    (or_default (c_AdminListen c) "127.0.0.1:6480")
    (or_default (c_Database c) "pgproxy.db")
    (c_PublicAddr c)
    (c_HashSalt c)
    (or_default (c_RedactString c) "[REDACTED]")
    (or_default (c_SchemaFunction c) "pgproxy_schema")
    (mkApproval
      (or_default (ap_Mode (c_Approval c))
        (if bool_decide (ap_URL (c_Approval c) = EmptyString) then "auto_deny" else "http"))
      (ap_URL (c_Approval c))
      (if bool_decide (ap_Timeout (c_Approval c) = 0)%Z then 120000000000%Z else ap_Timeout (c_Approval c)))
    (c_TLS c).

(** The two switches of validate. *)
Definition validateApproval (a : ApprovalConfig) : option ConfigError :=
  if bool_decide (ap_Mode a = "http") then
    (if bool_decide (ap_URL a = EmptyString) then Some ErrNoURL else None)
  else if bool_decide (ap_Mode a ∈ ["auto_approve"; "auto_deny"; "dashboard"]) then None
  else Some (ErrApprovalMode (ap_Mode a)).

Definition validateTLS (t : TLSConfig) : option ConfigError :=
  if bool_decide (tls_Mode t ∈ [""; "off"; "self_signed"]) then None
  else if bool_decide (tls_Mode t = "acme") then
    (if bool_decide (tls_Hosts t = []) then Some ErrNoHosts else None)
  else if bool_decide (tls_Mode t = "file") then
    (if bool_decide (tls_CertFile t = EmptyString) || bool_decide (tls_KeyFile t = EmptyString)
     then Some ErrNoCertFile else None)
  else Some (ErrTLSMode (tls_Mode t)).

Definition validate (c : Config) : option ConfigError :=
  match validateApproval (c_Approval c) with
  | Some err => Some err
  | None => validateTLS (c_TLS c)
  end.

(** The settings of the file; a missing file has none. *)
Definition from_file (file : ReadResult) : Config + ConfigError :=
  match file with
  | FileContent text => match yaml text with Some c => inl c | None => inr ErrParse end
  | FileMissing => inl zero_config
  | FileError => inr ErrRead
  end.

Definition Load (file : ReadResult) : Config + ConfigError :=
  match from_file file with
  | inr err => inr err
  | inl c =>
      match applyEnv c with
      | inr err => inr err
      | inl c =>
          let c := applyDefaults c in
          match validate c with Some err => inr err | None => inl c end
      end
  end.
End Config.

(** ** The approver of a configuration (approval.New) *)

Inductive ApproverChoice : Type :=
| StaticApprover (decision : ApprovalDecision)
| BrokerApprover (b : Broker)
| HTTPApprover (url : string) (timeout : Duration).

Definition NewApprover (c : ApprovalConfig) : ApproverChoice :=
  if bool_decide (ap_Mode c = "auto_approve") then StaticApprover auto_approve
  else if bool_decide (ap_Mode c = "auto_deny") then StaticApprover auto_deny
  else if bool_decide (ap_Mode c = "dashboard") then BrokerApprover (NewBroker (ap_Timeout c))
  else HTTPApprover (ap_URL c) (ap_Timeout c).

Section Consent.
Context {W : Type} {H : HTTPClient W}.
(** The dashboard's approver as a call (Broker.v models it as a process). *)
Variable dashboard : Broker -> Approver W.

(** The approver that the proxy is given. *)
Definition approver_of (c : ApprovalConfig) : Approver W :=
  match NewApprover c with
  | StaticApprover d => staticApprover d
  | BrokerApprover b => dashboard b
  | HTTPApprover url timeout => httpApprover url timeout
  end.
End Consent.

(** ** Theorems *)

Section ConfigTheorems.
Variable Getenv : string -> string.
Variable yaml : string -> option Config.

Lemma or_default_nonempty s d : d <> EmptyString -> or_default s d <> EmptyString.
Proof. intros Hd. unfold or_default. by case_bool_decide. Qed.

Lemma Load_inv file cfg :
  Load Getenv yaml file = inl cfg ->
  exists base c, from_file yaml file = inl base /\ applyEnv Getenv base = inl c /\
    cfg = applyDefaults c /\ validate cfg = None.
Proof.
  unfold Load. destruct (from_file yaml file) as [base|]; [|done].
  destruct (applyEnv Getenv base) as [c|] eqn:E; [|done]. cbv zeta.
  destruct (validate (applyDefaults c)) eqn:V; [done|]. intros [= <-]. by exists base, c.
Qed.

(** What the approval and the TLS settings of a loaded configuration satisfy. *)
Definition approval_ok (a : ApprovalConfig) : Prop :=
  ap_Mode a = "http" /\ ap_URL a <> EmptyString
  \/ ap_Mode a ∈ ["auto_approve"; "auto_deny"; "dashboard"].

Definition tls_ok (t : TLSConfig) : Prop :=
  tls_Mode t ∈ [""; "off"; "self_signed"]
  \/ tls_Mode t = "acme" /\ tls_Hosts t <> []
  \/ tls_Mode t = "file" /\ tls_CertFile t <> EmptyString /\ tls_KeyFile t <> EmptyString.

Definition valid (c : Config) : Prop :=
  approval_ok (c_Approval c) /\ tls_ok (c_TLS c) /\
  c_Listen c <> EmptyString /\ c_AdminListen c <> EmptyString /\ c_Database c <> EmptyString /\
  c_RedactString c <> EmptyString /\ c_SchemaFunction c <> EmptyString /\
  ap_Timeout (c_Approval c) <> 0%Z.

Lemma validateApproval_ok a : validateApproval a = None -> approval_ok a.
Proof.
  unfold validateApproval, approval_ok. case_bool_decide; [case_bool_decide; [done|by left]|].
  case_bool_decide; [by right|done].
Qed.

Lemma validateTLS_ok t : validateTLS t = None -> tls_ok t.
Proof.
  unfold validateTLS, tls_ok. case_bool_decide; [by left|]. case_bool_decide.
  { case_bool_decide; [done|]. right; by left. }
  case_bool_decide; [|done]. do 2 case_bool_decide; try done. intros _. right; by right.
Qed.

(** A configuration that loads is valid: its approval mode is one of the
    four, with a URL for http; its TLS mode is one of the five, with what it
    needs; the addresses, the registry, the redaction string, the schema
    function and the timeout are set, whatever the file, the environment and the
    decoder give. *)
Theorem Load_valid file cfg : Load Getenv yaml file = inl cfg -> valid cfg.
Proof.
  intros (base & c & _ & _ & -> & V)%Load_inv. unfold validate in V.
  destruct (validateApproval _) eqn:V1; [done|].
  split; [by apply validateApproval_ok|]. split; [by apply validateTLS_ok|].
  cbn. split_and!; try by apply or_default_nonempty. by case_bool_decide.
Qed.

(** The source of a text setting: the environment, else the file, else the default. *)
Definition setting (env file default : string) : string :=
  or_default (if bool_decide (Getenv env = EmptyString) then file else Getenv env) default.

(** Each setting comes from the environment if its variable is set, else
    from the file, else from the defaults; an empty variable counts as unset. *)
Theorem Load_precedence file base cfg :
  from_file yaml file = inl base -> Load Getenv yaml file = inl cfg ->
  c_Listen cfg = setting "PGPROXY_LISTEN" (c_Listen base) "127.0.0.1:6432" /\
  c_AdminListen cfg = setting "PGPROXY_ADMIN_LISTEN" (c_AdminListen base) "127.0.0.1:6480" /\
  c_Database cfg = setting "PGPROXY_DATABASE" (c_Database base) "pgproxy.db" /\
  c_PublicAddr cfg = setting "PGPROXY_PUBLIC_ADDR" (c_PublicAddr base) "" /\
  c_HashSalt cfg = setting "PGPROXY_HASH_SALT" (c_HashSalt base) "" /\
  c_RedactString cfg = setting "PGPROXY_REDACT_STRING" (c_RedactString base) "[REDACTED]" /\
  c_SchemaFunction cfg = setting "PGPROXY_SCHEMA_FUNCTION" (c_SchemaFunction base) "pgproxy_schema" /\
  ap_URL (c_Approval cfg) = setting "PGPROXY_APPROVAL_URL" (ap_URL (c_Approval base)) "" /\
  ap_Mode (c_Approval cfg) = setting "PGPROXY_APPROVAL_MODE" (ap_Mode (c_Approval base))
    (if bool_decide (ap_URL (c_Approval cfg) = EmptyString) then "auto_deny" else "http") /\
  tls_Mode (c_TLS cfg) = setting "PGPROXY_TLS_MODE" (tls_Mode (c_TLS base)) "" /\
  tls_CertFile (c_TLS cfg) = setting "PGPROXY_TLS_CERT_FILE" (tls_CertFile (c_TLS base)) "" /\
  tls_KeyFile (c_TLS cfg) = setting "PGPROXY_TLS_KEY_FILE" (tls_KeyFile (c_TLS base)) "" /\
  tls_CacheDir (c_TLS cfg) = setting "PGPROXY_TLS_CACHE_DIR" (tls_CacheDir (c_TLS base)) "" /\
  tls_ACMEEmail (c_TLS cfg) = setting "PGPROXY_TLS_ACME_EMAIL" (tls_ACMEEmail (c_TLS base)) "".
Proof.
  intros Hb (base' & c & Hb' & He & -> & _)%Load_inv. assert (base' = base) as -> by congruence.
  unfold applyEnv in He. destruct (applyTimeout _ _) as [d|]; [|done]. injection He as <-.
  assert (Hid : forall s, or_default s "" = s) by (intros s; unfold or_default; by case_bool_decide).
  unfold setting. cbn. rewrite !Hid. done.
Qed.

(** C36.  Approval is closed by default: a loaded configuration selects the
    approver that approves everything only if the environment or the file says
    "auto_approve", and when neither names a mode nor a URL the approver denies
    everything. *)
Theorem approval_closed_by_default file base cfg :
  from_file yaml file = inl base -> Load Getenv yaml file = inl cfg ->
  (NewApprover (c_Approval cfg) = StaticApprover auto_approve ->
     Getenv "PGPROXY_APPROVAL_MODE" = "auto_approve" \/ ap_Mode (c_Approval base) = "auto_approve") /\
  (Getenv "PGPROXY_APPROVAL_MODE" = EmptyString -> ap_Mode (c_Approval base) = EmptyString ->
   Getenv "PGPROXY_APPROVAL_URL" = EmptyString -> ap_URL (c_Approval base) = EmptyString ->
     NewApprover (c_Approval cfg) = StaticApprover auto_deny).
Proof.
  intros Hb (base' & c & Hb' & He & -> & _)%Load_inv. assert (base' = base) as -> by congruence.
  unfold applyEnv in He. destruct (applyTimeout _ _) as [d|]; [|done]. injection He as <-.
  unfold NewApprover, or_default, setString. cbn. split.
  - unfold auto_deny, auto_approve. intros H. case_bool_decide as E;
      [|exfalso; repeat case_bool_decide; congruence].
    clear H. unfold or_default in *. repeat case_bool_decide; auto; discriminate E.
  - intros -> -> -> ->. done.
Qed.

(** C15.  An approval always has a consent behind it: under a configuration that loads,
    a request is approved only in mode auto_approve, by the dashboard's broker in
    mode dashboard, or in mode http by an endpoint that answered within the
    timeout with a status of success and a body that approves; every error on
    the way denies. *)
Theorem approval_needs_consent {W : Type} {H : HTTPClient W} (dashboard : Broker -> Approver W) file cfg req w :
  Load Getenv yaml file = inl cfg ->
  let a := c_Approval cfg in
  Approved (approver_of dashboard a req w).1 = true ->
  ap_Mode a = "auto_approve"
  \/ (ap_Mode a = "dashboard" /\ Approved (dashboard (NewBroker (ap_Timeout a)) req w).1 = true)
  \/ (ap_Mode a = "http" /\ ap_URL a <> EmptyString /\ granted_over_http (ap_URL a) (ap_Timeout a) req w).
Proof.
  intros Hv a. pose proof (validateApproval_ok a) as Hok. unfold approver_of, NewApprover.
  case_bool_decide as E1; [by left|]. case_bool_decide as E2; [done|].
  case_bool_decide as E3; [by right; left|]. intros Ha%http_fails_closed. right; right.
  apply Load_inv in Hv as (_ & c & _ & _ & _ & Hv). unfold validate in Hv. fold a in Hv.
  destruct (validateApproval a); [done|]. destruct (Hok eq_refl) as [[Em Eu]|Hm]; [by split_and!|].
  rewrite !elem_of_cons in Hm. destruct Hm as [Hm|[Hm|[Hm|Hm%not_elem_of_nil]]]; done.
Qed.
End ConfigTheorems.

(** ** The theorems at concrete inputs *)

Module ConfigWitnesses.

(** The environment of the repository's test: one address and a timeout. *)
Definition test_env (v : string) : string :=
  if bool_decide (v = "PGPROXY_LISTEN") then "0.0.0.0:9999"
  else if bool_decide (v = "PGPROXY_APPROVAL_TIMEOUT") then "30s"
  else if bool_decide (v = "PGPROXY_TLS_HOSTS") then " a.example , b.example,"
  else EmptyString.

(** A decoder that knows one file. *)
Definition test_file : Config :=
  mkConfig "127.0.0.1:6432" "" "" "" "abc" "" "" (mkApproval "" "" 0%Z) (mkTLS "acme" true [] "" "" "" "").
Definition test_yaml (text : string) : option Config :=
  if bool_decide (text = "listen: 127.0.0.1:6432") then Some test_file else None.
Definition the_file : ReadResult := FileContent "listen: 127.0.0.1:6432".

Definition loaded : Config :=
  mkConfig "0.0.0.0:9999" "127.0.0.1:6480" "pgproxy.db" "" "abc" "[REDACTED]" "pgproxy_schema"
    (mkApproval "auto_deny" "" 30000000000%Z) (mkTLS "acme" true ["a.example"; "b.example"] "" "" "" "").

Example load_test : Load test_env test_yaml the_file = inl loaded.
Proof. vm_compute. reflexivity. Qed.

Lemma Load_valid_witness : Load test_env test_yaml the_file = inl loaded /\ valid loaded.
Proof.
  assert (H : Load test_env test_yaml the_file = inl loaded) by (vm_compute; reflexivity).
  split; [exact H|exact (Load_valid test_env test_yaml the_file loaded H)].
Defined.

Lemma Load_precedence_witness :
  Load test_env test_yaml the_file = inl loaded /\
  c_Listen loaded = setting test_env "PGPROXY_LISTEN" "127.0.0.1:6432" "127.0.0.1:6432".
Proof.
  assert (H : Load test_env test_yaml the_file = inl loaded) by (vm_compute; reflexivity).
  split; [exact H|]. exact (proj1 (Load_precedence test_env test_yaml the_file test_file loaded eq_refl H)).
Defined.

Lemma approval_closed_by_default_witness :
  Load test_env test_yaml the_file = inl loaded /\
  NewApprover (c_Approval loaded) = StaticApprover auto_deny.
Proof.
  assert (H : Load test_env test_yaml the_file = inl loaded) by (vm_compute; reflexivity).
  split; [exact H|].
  apply (approval_closed_by_default test_env test_yaml the_file test_file loaded eq_refl H); reflexivity.
Defined.

(** An endpoint that approves, under a configuration that names it. *)
#[local] Instance endpoint : HTTPClient unit := {|
  request_error url := None;
  client_Do url body timeout w := (inl (mkHTTPResponse 200 "200 OK"), w);
  read_body resp w := ("{" +:+ quote_mark +:+ "Approved" +:+ quote_mark +:+ ": true}", None, w);
  decode_error body err := "invalid" |}.
Definition http_env (v : string) : string :=
  if bool_decide (v = "PGPROXY_APPROVAL_URL") then "https://approve.example" else EmptyString.
Definition a_request : Request := mkRequest "req-1" ReasonMutation "DELETE" "DELETE FROM t" 0 "c" "main" "db".

Lemma approval_needs_consent_witness :
  exists cfg, Load http_env test_yaml FileMissing = inl cfg /\ ap_Mode (c_Approval cfg) = "http"
    /\ granted_over_http "https://approve.example" 120000000000%Z a_request tt.
Proof.
  assert (Hl : exists cfg, Load http_env test_yaml FileMissing = inl cfg /\ ap_Mode (c_Approval cfg) = "http"
      /\ ap_URL (c_Approval cfg) = "https://approve.example" /\ ap_Timeout (c_Approval cfg) = 120000000000%Z)
    by (eexists; split_and!; vm_compute; reflexivity).
  destruct Hl as (cfg & Hl & Hm & Hu & Ht). exists cfg. split_and!; [exact Hl|exact Hm|].
  destruct (approval_needs_consent http_env test_yaml (fun _ => staticApprover auto_deny) FileMissing cfg a_request tt Hl)
    as [E|[[E _]|(_ & _ & Hg)]].
  - unfold approver_of, NewApprover. rewrite !bool_decide_eq_false_2 by by rewrite Hm. reflexivity.
  - by rewrite Hm in E.
  - by rewrite Hm in E.
  - by rewrite Hu, Ht in Hg.
Defined.
End ConfigWitnesses.
