(* ===== verification/Certs.v ===== *)
(** * Certificates (internal/certs/certs.go)

    How the TLS configuration of the proxy and of the admin server is made: by
    ACME with a self-signed fallback, by a self-signed certificate kept on disk,
    or from files.  The file system is a map from paths to contents whose writes
    and reads may fail; keys, X.509, PEM and autocert are parameters. *)

From S2P Require Import Prelude GoStrings GoText Timestamp GoNet Store Config.

(** ** Paths (package path/filepath) *)

(** The elements of a cleaned path, last first. *)
Definition clean_step (rooted : bool) (out : list string) (elem : string) : list string :=
  if bool_decide (elem = EmptyString) || bool_decide (elem = ".") then out
  else if bool_decide (elem = "..") then
    match out with
    | last :: out' => if bool_decide (last = "..") then elem :: out else out'
    | [] => if rooted then out else [elem]
    end
  else elem :: out.

Definition Clean (path : string) : string :=
  let rooted := HasPrefix path "/" in
  let elems := Join (rev (foldl (clean_step rooted) [] (Split path "/"))) "/" in
  if rooted then "/" +:+ elems else if bool_decide (elems = EmptyString) then "." else elems.

(** [filepath.Join(dir, file)] for a directory that is not empty. *)
Definition JoinPath (dir file : string) : string := Clean (dir +:+ "/" +:+ file).

Example joined_paths :
  (fun dir => JoinPath dir "f") <$> ["certs"; "certs/"; "./certs"; "/var//lib/./x"; "a/../b"; "../c"; "/.."; "."]
  = ["certs/f"; "certs/f"; "certs/f"; "/var/lib/x/f"; "b/f"; "../c/f"; "/f"; "f"].
Proof. vm_compute. reflexivity. Qed.

(** ** Data *)

Record ClientHelloInfo : Type := mkHello { ch_ServerName : string; ch_SupportedProtos : list string }.

(** The template of a certificate. *)
Record Template : Type := mkTemplate {
  tm_SerialNumber : Z;
  tm_CommonName : string;
  tm_NotBefore : Time;
  tm_NotAfter : Time;
  tm_KeyUsage : Z;
  tm_ExtKeyUsage : list Z;
  tm_BasicConstraintsValid : bool;
  tm_DNSNames : list string;
  tm_IPAddresses : list (list Z)
}.

(** autocert's manager: the cache directory, the whitelist of hosts, the address
    of the account. *)
Record Manager : Type := mkManager { mg_Cache : string; mg_Hosts : list string; mg_Email : string }.

(** The files and the world outside. *)
Record Disk (W : Type) : Type := mkDisk { dk_files : gmap string string; dk_world : W }.
Arguments mkDisk {W} _ _.
Arguments dk_files {W} _.
Arguments dk_world {W} _.

(** What the source uses of a [tls.Config]. *)
Record tlsConfig (W Cert : Type) : Type := mkTLSConfig {
  tc_Certificates : list Cert;
  tc_NextProtos : list string;
  tc_GetCertificate : option (ClientHelloInfo -> M (Disk W) (Cert + string))
}.
Arguments mkTLSConfig {W Cert} _ _ _.
Arguments tc_Certificates {W Cert} _.
Arguments tc_NextProtos {W Cert} _.
Arguments tc_GetCertificate {W Cert} _.

(** ** Parameters *)

(** The faults of the file system, by operation and path: the error of making a
    directory or of reading a file, and the error of writing one with what the
    file then holds ([None]: the file is as it was). *)
Class FileFaults (W : Type) : Type := {
  mkdir_fault : string -> W -> option string * W;
  read_fault : string -> W -> option string * W;
  write_fault : string -> string -> W -> option (string * option string) * W
}.

(** crypto and encoding/pem, with the texts of their errors. *)
Class X509 (W Cert Key : Type) : Type := {
  X509KeyPair : string -> string -> Cert + string;
  ecdsa_GenerateKey : W -> (Key + string) * W;
  rand_Int : Z -> W -> (Z + string) * W;
  CreateCertificate : Template -> Key -> W -> (string + string) * W;
  MarshalECPrivateKey : Key -> string + string;
  pem_EncodeToMemory : string -> string -> string
}.

(** golang.org/x/crypto/acme: the protocol of its challenges, the protocols of
    the manager's configuration, and the manager's certificate for a handshake. *)
Class Autocert (W Cert : Type) : Type := {
  ALPNProto : string;
  manager_protos : list string;
  managed : Manager -> ClientHelloInfo -> M (Disk W) (Cert + string)
}.

(** [net.IPv4(a, b, c, d)] and [net.IPv6loopback] *)
Definition IPv4 (a b c d : Z) : list Z := repeat 0%Z 10 ++ [255; 255; a; b; c; d]%Z.
Definition IPv6loopback : list Z := repeat 0%Z 15 ++ [1%Z].

(** [t.AddDate(years, 0, 0)], in UTC. *)
Definition AddYears (years : Z) (t : Time) : Time :=
  let f := fields t in
  Date (mkFields (f_year f + years) (f_month f) (f_day f) (f_hour f) (f_min f) (f_sec f) (f_nsec f)).

Definition pgALPN : string := "postgresql".

(** ** Operations *)

Section Certs.
Context {U : Unicode} {Pr : Printable} {W Cert Key : Type} {C : Clock W} {F : FileFaults W} {X : X509 W Cert Key}
        {A : Autocert W Cert}.

Abbreviation Go := (M (Disk W)).
Abbreviation Provider := (tlsConfig W Cert).

Definition outside {B : Type} (f : W -> B * W) : Go B :=
  fun d => Ok (f (dk_world d)).1 (mkDisk (dk_files d) (f (dk_world d)).2).

(** [if err != nil { return ..., err }], with the error's text in [msg]. *)
Definition check {B B' : Type} (msg : string -> string) (m : Go (B + string)) (k : B -> Go (B' + string)) : Go (B' + string) :=
  r <- m ;; match r with inl b => k b | inr err => ret (inr (msg err)) end.
Definition same (err : string) : string := err.

Definition MkdirAll (dir : string) : Go (unit + string) :=
  fault <- outside (mkdir_fault dir) ;;
  ret (match fault with Some err => inr err | None => inl tt end).

Definition ReadFile (path : string) : Go (string + string) :=
  fault <- outside (read_fault path) ;;
  d <- get_state ;;
  ret (match fault, dk_files d !! path with
       | Some err, _ => inr err
       | None, Some content => inl content
       | None, None => inr ("open " +:+ path +:+ ": no such file or directory")
       end).

Definition WriteFile (path content : string) : Go (unit + string) :=
  fault <- outside (write_fault path content) ;;
  let held := match fault with Some (_, held) => held | None => Some content end in
  modify (fun d => mkDisk (if held is Some text then <[path := text]> (dk_files d) else dk_files d) (dk_world d)) ;;
  ret (match fault with Some (err, _) => inr err | None => inl tt end).

Definition LoadX509KeyPair (certFile keyFile : string) : Go (Cert + string) :=
  check same (ReadFile certFile) (fun certPEM =>
  check same (ReadFile keyFile) (fun keyPEM => ret (X509KeyPair certPEM keyPEM))).

Definition cacheDir (cfg : TLSConfig) : string :=
  if bool_decide (tls_CacheDir cfg = EmptyString) then "certs" else tls_CacheDir cfg.

Definition template (serial : Z) (now1 now2 : Time) (hosts : list string) : Template :=
  mkTemplate serial "pg-agent-proxy" (now1 - 3600000000000)%Z (AddYears 10 now2) 5 [1%Z] true ("localhost" :: hosts)
    [IPv4 127 0 0 1; IPv6loopback].

Definition selfSignedPEM (hosts : list string) : Go ((string * string) + string) :=
  check same (outside ecdsa_GenerateKey) (fun key =>
  check same (outside (rand_Int (2 ^ 128))) (fun serial =>
    now1 <- outside Now ;;
    now2 <- outside Now ;;
    check same (outside (CreateCertificate (template serial now1 now2 hosts) key)) (fun der =>
    check same (ret (MarshalECPrivateKey key)) (fun keyDER =>
      ret (inl (pem_EncodeToMemory "CERTIFICATE" der, pem_EncodeToMemory "EC PRIVATE KEY" keyDER)))))).

Definition generateSelfSigned (hosts : list string) : Go (Cert + string) :=
  check same (selfSignedPEM hosts) (fun pems => ret (X509KeyPair pems.1 pems.2)).

Definition isACMEChallenge (hello : ClientHelloInfo) : bool :=
  existsb (fun p => bool_decide (p = ALPNProto)) (ch_SupportedProtos hello).

(** The GetCertificate that newACME installs. *)
Definition getCertificate (m : Manager) (fallback : Cert) (hello : ClientHelloInfo) : Go (Cert + string) :=
  if isACMEChallenge hello then managed m hello
  else if bool_decide (ch_ServerName hello = EmptyString) then ret (inl fallback)
  else
    cert <- managed m hello ;;
    match cert with
    | inr _ => ret (inl fallback)
    | inl cert => ret (inl cert)
    end.

Definition newACME (cfg : TLSConfig) : Go (Provider + string) :=
  let dir := cacheDir cfg in
  check (fun err => "create acme cache dir: " +:+ err) (MkdirAll dir) (fun _ =>
    let m := mkManager dir (tls_Hosts cfg) (tls_ACMEEmail cfg) in
    check same (generateSelfSigned (tls_Hosts cfg)) (fun fallback =>
      ret (inl (mkTLSConfig [] manager_protos (Some (getCertificate m fallback)))))).

(** A provider with one certificate. *)
Definition with_certificate (cert : Cert) : Provider := mkTLSConfig [cert] [] None.

(** The files of a self-signed certificate. *)
Definition self_signed_files (cfg : TLSConfig) : Go ((string * string) + string) :=
  if bool_decide (tls_CertFile cfg = EmptyString) || bool_decide (tls_KeyFile cfg = EmptyString) then
    let dir := cacheDir cfg in
    check same (MkdirAll dir) (fun _ => ret (inl (JoinPath dir "self-signed.crt", JoinPath dir "self-signed.key")))
  else ret (inl (tls_CertFile cfg, tls_KeyFile cfg)).

Definition newSelfSigned (cfg : TLSConfig) : Go (Provider + string) :=
  check same (self_signed_files cfg) (fun files =>
    loaded <- LoadX509KeyPair files.1 files.2 ;;
    match loaded with
    | inl cert => ret (inl (with_certificate cert))
    | inr _ =>
        check same (selfSignedPEM (tls_Hosts cfg)) (fun pems =>
        check same (WriteFile files.1 pems.1) (fun _ =>
        check same (WriteFile files.2 pems.2) (fun _ =>
        check same (ret (X509KeyPair pems.1 pems.2)) (fun cert => ret (inl (with_certificate cert))))))
    end).

(** A nil Provider is [None]. *)
Definition New (cfg : TLSConfig) : Go (option Provider + string) :=
  if negb (Enabled cfg) then ret (inl None)
  else
    let some (m : Go (Provider + string)) : Go (option Provider + string) := check same m (fun p => ret (inl (Some p))) in
    if bool_decide (tls_Mode cfg = "acme") then some (newACME cfg)
    else if bool_decide (tls_Mode cfg = "self_signed") then some (newSelfSigned cfg)
    else if bool_decide (tls_Mode cfg = "file") then
      check (fun err => "load tls cert/key: " +:+ err) (LoadX509KeyPair (tls_CertFile cfg) (tls_KeyFile cfg))
        (fun cert => ret (inl (Some (with_certificate cert))))
    else ret (inr ("unknown tls mode " +:+ Quote (tls_Mode cfg))).

Definition base (p : option Provider) : option Provider := p.
Definition AdminTLSConfig (p : option Provider) : option Provider := base p.
Definition ProxyTLSConfig (p : option Provider) : option Provider :=
  match base p with
  | None => None
  | Some c => Some (mkTLSConfig (tc_Certificates c) [pgALPN] (tc_GetCertificate c))
  end.
End Certs.
