(* ===== verification/CertsProps.v ===== *)
(** * Correctness of the certificates

    Handshakes under ACME, the self-signed certificate across restarts, when TLS
    is on, and the validity of generated certificates. *)

From S2P Require Import Prelude GoStrings GoText Timestamp GoNet Store Config Certs.

(** ** Paths *)

Lemma Split_app_any s sep t : Split (s +:+ String sep t) sep = Split s sep ++ Split t sep.
Proof.
  induction s as [|c s IH]; [rewrite sapp_nil; cbn [Split]; by rewrite bool_decide_eq_true_2|].
  rewrite sapp_cons. cbn [Split]. rewrite IH. case_bool_decide; [done|].
  destruct (Split s sep) as [|part parts] eqn:E; [|done].
  exfalso. destruct s as [|c' s]; [done|]. cbn [Split] in E. case_bool_decide; [done|]. by destruct (Split s sep).
Qed.

(** A file name in a directory is the last part of the path, after a prefix that
    the directory gives. *)
Definition plain (file : string) : bool :=
  without "/" file && negb (bool_decide (file = EmptyString)) && negb (bool_decide (file = ".")) && negb (bool_decide (file = "..")).

Lemma Join_prefix l sep : exists p, forall x, Join (l ++ [x]) sep = p +:+ x.
Proof.
  induction l as [|y l [p IH]]; [exists EmptyString; by intros x|]. exists (y +:+ sep +:+ p). intros x.
  rewrite !sapp_assoc, <- IH. by destruct l.
Qed.

Lemma JoinPath_prefix dir : dir <> EmptyString -> exists p, forall file, plain file = true -> JoinPath dir file = p +:+ file.
Proof.
  intros Hd. unfold JoinPath, Clean. set (rooted := HasPrefix dir "/").
  destruct (Join_prefix (rev (foldl (clean_step rooted) [] (Split dir "/"))) "/") as [p Hp].
  exists ((if rooted then "/" else EmptyString) +:+ p). intros file Hf. unfold plain in Hf.
  rewrite !andb_true_iff, !negb_true_iff, !bool_decide_eq_false in Hf. destruct Hf as [[[Hw H1] H2] H3].
  assert (HasPrefix (dir +:+ "/" +:+ file) "/" = rooted) as ->.
  { unfold rooted. destruct dir as [|c dir]; [done|]. rewrite sapp_cons. unfold HasPrefix. cbn [CutPrefix].
    by destruct (decide _); [destruct dir|]. }
  change ("/" +:+ file) with (String "/" file). rewrite Split_app_any, (Split_without file) by done.
  rewrite foldl_app. cbn [foldl].
  assert (forall out, clean_step rooted out file = file :: out) as -> by
    (intros out; unfold clean_step; by rewrite !bool_decide_eq_false_2).
  cbn [rev]. rewrite Hp. destruct rooted; [by rewrite sapp_assoc|]. rewrite sapp_nil, bool_decide_eq_false_2; [done|].
  intros E%(f_equal String.length). rewrite slength_app in E. destruct file; [done|]. cbn in E. lia.
Qed.

Lemma self_signed_names_differ dir :
  dir <> EmptyString -> JoinPath dir "self-signed.crt" <> JoinPath dir "self-signed.key".
Proof. intros [p Hp]%JoinPath_prefix. rewrite !Hp by done. by intros E%sapp_inj. Qed.

Section CertsTheorems.
Context {U : Unicode} {Pr : Printable} {W Cert Key : Type} {C : Clock W} {F : FileFaults W} {X : X509 W Cert Key}
        {A : Autocert W Cert}.

Abbreviation Provider := (tlsConfig W Cert).

(** ** Lemmas *)

Lemma wp_outside {B} (f : W -> B * W) Q E d :
  Q (f (dk_world d)).1 (mkDisk (dk_files d) (f (dk_world d)).2) -> wp (outside f) Q E d.
Proof. done. Qed.

Lemma wp_check {B B'} msg (m : M (Disk W) (B + string)) (k : B -> M (Disk W) (B' + string)) Q E d :
  wp m (fun r d' => match r with inl b => wp (k b) Q E d' | inr err => Q (inr (msg err)) d' end) E d ->
  wp (check msg m k) Q E d.
Proof. intros H. apply wp_bind. eapply wp_mono; [exact H| |done]. by intros [b|err] d'. Qed.

(** An operation that leaves the files alone. *)
Definition reads {B} (m : M (Disk W) B) : Prop :=
  forall d, wp m (fun _ d' => dk_files d' = dk_files d) (fun d' => dk_files d' = dk_files d) d.

Lemma reads_bind {B B'} (m : M (Disk W) B) (k : B -> M (Disk W) B') : reads m -> (forall b, reads (k b)) -> reads (bind m k).
Proof.
  intros Hm Hk d. apply wp_bind. eapply wp_mono; [apply Hm| |done]. intros b d' Hd. cbn in Hd.
  eapply wp_mono; [apply Hk|cbn; congruence..].
Qed.

Lemma reads_ret {B} (b : B) : reads (ret b).
Proof. by intros d. Qed.

Lemma reads_outside {B} (f : W -> B * W) : reads (outside f).
Proof. by intros d. Qed.

Lemma reads_check {B B'} msg (m : M (Disk W) (B + string)) (k : B -> M (Disk W) (B' + string)) :
  reads m -> (forall b, reads (k b)) -> reads (check msg m k).
Proof. intros Hm Hk. apply reads_bind; [done|]. intros [b|err]; [apply Hk|apply reads_ret]. Qed.

Lemma selfSignedPEM_reads hosts : reads (selfSignedPEM hosts).
Proof.
  unfold selfSignedPEM. apply reads_check; [apply reads_outside|intros key]. apply reads_check; [apply reads_outside|intros serial].
  do 2 (apply reads_bind; [apply reads_outside|intros ?]). apply reads_check; [apply reads_outside|intros der].
  apply reads_check; [apply reads_ret|intros keyDER]. apply reads_ret.
Qed.

Lemma ReadFile_spec path d :
  wp (ReadFile path) (fun r d' => dk_files d' = dk_files d /\ forall c, r = inl c -> dk_files d !! path = Some c) (fun _ => True) d.
Proof.
  unfold ReadFile, get_state. apply wp_bind, wp_outside. apply wp_bind. cbn. split; [done|].
  intros c. destruct (fst (read_fault _ _)); [done|]. destruct (_ !! path) eqn:E; [|done]. by intros [= <-].
Qed.

Lemma WriteFile_spec path content d :
  wp (WriteFile path content) (fun r d' => r = inl tt -> dk_files d' = <[path := content]> (dk_files d)) (fun _ => True) d.
Proof.
  unfold WriteFile. apply wp_bind, wp_outside. cbv zeta. apply wp_bind, wp_modify, wp_ret.
  by destruct (fst (write_fault _ _ _)) as [[err [text|]]|].
Qed.

(** The names of the files of a self-signed certificate. *)
Definition file_names (cfg : TLSConfig) : string * string :=
  if bool_decide (tls_CertFile cfg = EmptyString) || bool_decide (tls_KeyFile cfg = EmptyString)
  then (JoinPath (cacheDir cfg) "self-signed.crt", JoinPath (cacheDir cfg) "self-signed.key")
  else (tls_CertFile cfg, tls_KeyFile cfg).

Lemma self_signed_files_spec cfg d :
  wp (self_signed_files cfg) (fun r d' => dk_files d' = dk_files d /\ forall f, r = inl f -> f = file_names cfg) (fun _ => True) d.
Proof.
  unfold self_signed_files, file_names. destruct (_ || _); [|apply wp_ret; split; [done|by intros f [= <-]]].
  cbv zeta. apply wp_check. unfold MkdirAll. apply wp_bind, wp_outside.
  destruct (fst (mkdir_fault _ _)); apply wp_ret; [by split|]. apply wp_ret. split; [done|by intros f [= <-]].
Qed.

(** A provider of mode self_signed has the certificate that the files hold. *)
Definition from_files (cfg : TLSConfig) (files : gmap string string) (p : Provider) : Prop :=
  exists certPEM keyPEM cert,
    files !! (file_names cfg).1 = Some certPEM /\ files !! (file_names cfg).2 = Some keyPEM
    /\ X509KeyPair certPEM keyPEM = inl cert /\ p = with_certificate cert.

Lemma newSelfSigned_spec cfg d :
  (file_names cfg).1 <> (file_names cfg).2 ->
  wp (newSelfSigned cfg) (fun r d' => forall p, r = inl p -> from_files cfg (dk_files d') p) (fun _ => True) d.
Proof.
  intros Hne. unfold newSelfSigned. apply wp_check. eapply wp_mono; [apply self_signed_files_spec| |done].
  intros [f|err] d1 [Hd1 Hf]; [|done]. specialize (Hf f eq_refl) as ->.
  apply wp_bind. eapply (wp_mono _ (fun r d' => match r with inl cert =>
    from_files cfg (dk_files d') (with_certificate cert) | inr _ => True end)).
  { unfold LoadX509KeyPair. apply wp_check. eapply wp_mono; [apply ReadFile_spec| |done]. intros [c|err] d2 [Hd2 Hc]; [|done].
    apply wp_check. eapply wp_mono; [apply ReadFile_spec| |done]. intros [k|err] d3 [Hd3 Hk]; [|done].
    apply wp_ret. destruct (X509KeyPair c k) as [cert|] eqn:Ek; [|done]. exists c, k, cert.
    rewrite Hd3, Hd2. split_and!; [by apply Hc| |done..]. rewrite <- Hd2. by apply Hk. }
  2: done. intros [cert|_] d2; [intros Hload; apply wp_ret; by intros p [= <-]|intros _].
  apply wp_check. eapply wp_mono; [apply selfSignedPEM_reads| |done]. intros [[c k]|err] d3 _; [|done].
  apply wp_check. eapply wp_mono; [apply WriteFile_spec| |done]. intros [[]|err] d4 Hd4; [|done].
  apply wp_check. eapply wp_mono; [apply WriteFile_spec| |done]. intros [[]|err] d5 Hd5; [|done].
  apply wp_check, wp_ret. cbn [fst snd]. destruct (X509KeyPair c k) as [cert|] eqn:Ek; [|done].
  apply wp_ret. intros p [= <-]. exists c, k, cert. rewrite Hd5, Hd4 by done. cbn [fst snd].
  split_and!; [by rewrite lookup_insert_ne, lookup_insert_eq|by rewrite lookup_insert_eq|done..].
Qed.

Lemma file_names_differ cfg :
  (tls_CertFile cfg = tls_KeyFile cfg -> tls_CertFile cfg = EmptyString) -> (file_names cfg).1 <> (file_names cfg).2.
Proof.
  intros Hne. assert (Hc : cacheDir cfg <> EmptyString) by (unfold cacheDir; by case_bool_decide).
  unfold file_names. destruct (_ || _) eqn:E.
  - by apply self_signed_names_differ.
  - apply orb_false_iff in E as [E _]. rewrite bool_decide_eq_false in E. cbn [fst snd]. auto.
Qed.

(** ** Theorems *)

(** C24.  A self-signed certificate survives restarts: when a start in mode self_signed
    succeeds, whatever the files held before and whatever failed on the way, the
    next start that can read the files presents the same certificate and leaves
    the files alone. *)
Theorem self_signed_restart cfg (d d1 d2 : Disk W) p (F2 : FileFaults W) :
  tls_Mode cfg = "self_signed" -> (tls_CertFile cfg = tls_KeyFile cfg -> tls_CertFile cfg = EmptyString) ->
  New (F := F) cfg d = Ok (inl p) d1 ->
  dk_files d2 = dk_files d1 ->
  (forall path w, (@mkdir_fault W F2 path w).1 = None) -> (forall path w, (@read_fault W F2 path w).1 = None) ->
  exists d3, New (F := F2) cfg d2 = Ok (inl p) d3 /\ dk_files d3 = dk_files d2.
Proof.
  intros Hm Hne H Hd2 Hmk Hrd.
  assert (Hnew : forall F : FileFaults W, New (F := F) cfg = check same (newSelfSigned (F := F) cfg) (fun p => ret (inl (Some p)))).
  { intros F'. unfold New, Enabled. by rewrite Hm. }
  rewrite Hnew in *. pose proof (newSelfSigned_spec cfg d (file_names_differ cfg Hne)) as Hs. unfold wp in Hs.
  unfold check, bind in H. destruct (newSelfSigned (F := F) cfg d) as [[q|err] d1'|]; [|done..]. injection H as <- <-.
  destruct (Hs q eq_refl) as (c & k & cert & Hc & Hk & Hx & ->). rewrite <- Hd2 in Hc, Hk.
  assert (Hfiles : exists w, self_signed_files (F := F2) cfg d2 = Ok (inl (file_names cfg)) (mkDisk (dk_files d2) w)).
  { unfold self_signed_files, file_names. destruct (_ || _); [|by exists (dk_world d2); destruct d2].
    unfold check, MkdirAll, bind, outside, ret. rewrite Hmk. by eexists. }
  destruct Hfiles as [w Hfiles].
  assert (Hread : forall path text w', dk_files d2 !! path = Some text -> exists w'',
    ReadFile (F := F2) path (mkDisk (dk_files d2) w') = Ok (inl text) (mkDisk (dk_files d2) w'')).
  { intros path text w' Ht. unfold ReadFile, bind, outside, get_state, ret. cbn [dk_files dk_world]. rewrite Hrd, Ht. by eexists. }
  destruct (Hread _ _ w Hc) as [w1 Hr1]. destruct (Hread _ _ w1 Hk) as [w2 Hr2].
  eexists. unfold check, newSelfSigned, LoadX509KeyPair, check, bind. rewrite Hfiles, Hr1, Hr2.
  cbn [ret]. rewrite Hx. cbn [ret]. by split.
Qed.

(** C26.  Under ACME, on both ports: a challenge is answered by the manager of the
    configured hosts and cache alone, also when it has no certificate; any other
    handshake that names a host gets the manager's certificate whenever the manager
    has one, and the fallback when it fails or when no host is named.  The fallback
    is the self-signed certificate that the start made for the configured hosts, and
    the proxy's port speaks only PostgreSQL's protocol. *)
Theorem acme_handshakes cfg (d d1 : Disk W) p :
  tls_Mode cfg = "acme" -> New cfg d = Ok (inl (Some p)) d1 ->
  exists d2 fallback get, let m := mkManager (cacheDir cfg) (tls_Hosts cfg) (tls_ACMEEmail cfg) in
    MkdirAll (cacheDir cfg) d = Ok (inl tt) d2 /\ generateSelfSigned (tls_Hosts cfg) d2 = Ok (inl fallback) d1
    /\ tc_GetCertificate <$> AdminTLSConfig (Some p) = Some (Some get)
    /\ tc_GetCertificate <$> ProxyTLSConfig (Some p) = Some (Some get)
    /\ tc_NextProtos <$> ProxyTLSConfig (Some p) = Some [pgALPN]
    /\ forall hello,
         (ALPNProto ∈ ch_SupportedProtos hello -> get hello = managed m hello)
         /\ (ALPNProto ∉ ch_SupportedProtos hello -> forall st,
              get hello st =
                if bool_decide (ch_ServerName hello = EmptyString) then Ok (inl fallback) st
                else match managed m hello st with
                     | Ok (inl cert) st' => Ok (inl cert) st'
                     | Ok (inr _) st' => Ok (inl fallback) st'
                     | Panic st' => Panic st'
                     end).
Proof.
  intros Hm H. unfold New, Enabled in H. rewrite Hm in H. cbn [negb andb] in H. rewrite !bool_decide_eq_false_2 in H by done.
  cbn [negb andb] in H. rewrite bool_decide_eq_true_2 in H by done. unfold check at 1, newACME, check, bind in H.
  destruct (MkdirAll _ d) as [[[]|err] d2|]; [|done..]. destruct (generateSelfSigned _ d2) as [[fallback|err] d3|] eqn:Ef; [|done..].
  injection H as <- <-. exists d2, fallback, (getCertificate (mkManager (cacheDir cfg) (tls_Hosts cfg) (tls_ACMEEmail cfg)) fallback).
  cbv zeta. split_and!; [done..|]. intros hello. unfold getCertificate, isACMEChallenge. destruct (existsb _ _) eqn:Ec; split; intros Hin.
  - done.
  - apply existsb_exists in Ec as (proto & Hp & E%bool_decide_eq_true). subst proto. by apply list_elem_of_In in Hp.
  - apply not_true_iff_false in Ec. destruct Ec. apply existsb_exists. exists ALPNProto.
    split; [by apply list_elem_of_In|by apply bool_decide_eq_true_2].
  - intros st. case_bool_decide as Hs; [done|]. unfold bind. by destruct (managed _ hello st) as [[cert|err] st'|st'].
Qed.

Lemma AddYears_10 t : (t + 3650 * 86400000000000 <= AddYears 10 t <= t + 3655 * 86400000000000)%Z.
Proof.
  destruct (fields_spec t) as [_ Ht]. unfold AddYears. set (f := fields t) in *. clearbody f. subst t. unfold Date.
  cbn [f_year f_month f_day f_hour f_min f_sec f_nsec]. generalize (isLeap (f_year f)), (isLeap (f_year f + 10)).
  intros l l'. set (y := f_year f). clearbody y.
  assert (Hy : (daysBeforeYear y + 3651 <= daysBeforeYear (y + 10) <= daysBeforeYear y + 3654)%Z).
  { unfold daysBeforeYear. cbv zeta. replace (y + 10 - 1)%Z with ((y - 1) + 10)%Z by lia. generalize (y - 1)%Z. intros x.
    assert (x / 4 + 2 <= (x + 10) / 4 <= x / 4 + 3)%Z by (Z.to_euclidean_division_equations; lia). assert (x / 100 <= (x + 10) / 100 <= x / 100 + 1)%Z by (Z.to_euclidean_division_equations; lia).
    assert (x / 400 <= (x + 10) / 400 <= x / 400 + 1)%Z by (Z.to_euclidean_division_equations; lia). lia. }
  assert (Hl : (daysBeforeMonth l (f_month f) - 1 <= daysBeforeMonth l' (f_month f) <= daysBeforeMonth l (f_month f) + 1)%Z).
  { unfold daysBeforeMonth. destruct l, l', (2 <? f_month f)%Z; cbn [andb]; lia. }
  lia.
Qed.

(** A generated certificate names localhost and the hosts of the configuration,
    and is valid from an hour before its making until ten years after, give or
    take three days. *)
Theorem self_signed_template hosts (d d1 : Disk W) certPEM keyPEM :
  selfSignedPEM hosts d = Ok (inl (certPEM, keyPEM)) d1 ->
  exists key serial w now1 now2 der w',
    let t := template serial now1 now2 hosts in
    CreateCertificate t key w = (inl der, w') /\ certPEM = pem_EncodeToMemory "CERTIFICATE" der
    /\ (forall host, host ∈ "localhost" :: hosts -> host ∈ tm_DNSNames t)
    /\ (tm_NotBefore t = now1 - 3600000000000)%Z
    /\ (now2 + 3650 * 86400000000000 <= tm_NotAfter t <= now2 + 3655 * 86400000000000)%Z.
Proof.
  unfold selfSignedPEM, check, bind, outside, ret. destruct (ecdsa_GenerateKey _) as [[key|err] w1]; [|done].
  cbn [fst snd dk_world dk_files]. destruct (rand_Int _ w1) as [[serial|err] w2]; [|done]. cbn [fst snd dk_world dk_files].
  set (now1 := fst (Now w2)). set (now2 := fst (Now (snd (Now w2)))). set (w := snd (Now (snd (Now w2)))).
  destruct (CreateCertificate _ key w) as [[der|err] w'] eqn:Ec; [|done]. cbn [fst snd].
  destruct (MarshalECPrivateKey key); [|done]. intros [= <- _ _].
  exists key, serial, w, now1, now2, der, w'. cbv zeta.
  pose proof (AddYears_10 now2) as Hy. by split_and!; try apply Hy.
Qed.

Lemma New_tls cfg (d d1 : Disk W) p :
  New cfg d = Ok (inl p) d1 ->
  (is_Some (ProxyTLSConfig p) <-> Enabled cfg = true) /\ (is_Some (AdminTLSConfig p) <-> Enabled cfg = true).
Proof.
  intros H. enough (is_Some p <-> Enabled cfg = true) as Hp.
  { split; [|done]. rewrite <- Hp. unfold ProxyTLSConfig, base. destruct p; split; intros [? ?]; by eexists || done. }
  unfold New in H. destruct (Enabled cfg); cbn [negb] in H; [|by injection H as <- _; split; [intros []|]].
  split; [done|intros _]. revert H. cbv zeta. unfold check, bind.
  repeat case_bool_decide; [destruct (newACME cfg d)|destruct (newSelfSigned cfg d)|destruct (LoadX509KeyPair _ _ d)|];
    repeat (match goal with |- context [match ?r with inl _ => _ | inr _ => _ end] => destruct r end);
    intros [= <- _]; by eexists.
Qed.

(** There is no TLS on either port exactly when the mode is empty or off. *)
Theorem tls_exactly_when_enabled cfg (d d1 : Disk W) p :
  New cfg d = Ok (inl p) d1 ->
  (is_Some (ProxyTLSConfig p) <-> Enabled cfg = true) /\ (is_Some (AdminTLSConfig p) <-> Enabled cfg = true).
Proof. apply New_tls. Qed.
End CertsTheorems.

(** ** The theorems at concrete inputs *)

Module CertsWitnesses.
#[local] Existing Instance ascii_only.
#[local] Instance printable : Printable := fun _ => false.

(** A world in which nothing fails: a certificate is its PEM text. *)
#[local] Instance clock : Clock unit := fun w => (Date (mkFields 2026 7 1 12 0 0 0), w).
#[local] Instance no_faults : FileFaults unit :=
  {| mkdir_fault _ w := (None, w); read_fault _ w := (None, w); write_fault _ _ w := (None, w) |}.
#[local] Instance x509 : X509 unit string unit := {|
  X509KeyPair cert key := if bool_decide (key = "EC PRIVATE KEY key") then inl cert else inr "tls: private key does not match";
  ecdsa_GenerateKey w := (inl tt, w);
  rand_Int n w := (inl 7%Z, w);
  CreateCertificate t key w := (inl (formatTimestamp (tm_NotAfter t)), w);
  MarshalECPrivateKey key := inl "key";
  pem_EncodeToMemory kind der := kind +:+ " " +:+ der |}.
#[local] Instance no_acme : Autocert unit string :=
  {| ALPNProto := "acme-tls/1"; manager_protos := ["h2"; "acme-tls/1"]; managed m hello := ret (inr "no certificate yet") |}.

Definition cfg (mode : string) : TLSConfig := mkTLS mode false ["db.example"] "" "/var/lib/pgproxy" "" "".
Definition blank : Disk unit := mkDisk ∅ tt.
Definition paths : list string := ["/var/lib/pgproxy/self-signed.crt"; "/var/lib/pgproxy/self-signed.key"].

Lemma self_signed_restart_witness :
  exists p d1 d3, New (cfg "self_signed") blank = Ok (inl p) d1
    /\ ((fun path => dk_files d1 !! path) <$> paths)
        = [Some "CERTIFICATE 2036-07-01T12:00:00.000000000Z"; Some "EC PRIVATE KEY key"]
    /\ New (cfg "self_signed") (mkDisk (dk_files d1) tt) = Ok (inl p) d3.
Proof.
  assert (H : exists p d1, New (cfg "self_signed") blank = Ok (inl p) d1
    /\ ((fun path => dk_files d1 !! path) <$> paths)
        = [Some "CERTIFICATE 2036-07-01T12:00:00.000000000Z"; Some "EC PRIVATE KEY key"])
    by (eexists _, _; split; vm_compute; reflexivity).
  destruct H as (p & d1 & H & Hf).
  destruct (self_signed_restart (cfg "self_signed") blank d1 (mkDisk (dk_files d1) tt) p no_faults) as (d3 & H3 & _); [done..|].
  exists p, d1, d3. by split_and!.
Defined.

Lemma acme_handshakes_witness :
  exists p d1 fallback get, New (cfg "acme") blank = Ok (inl (Some p)) d1
    /\ generateSelfSigned ["db.example"] blank = Ok (inl fallback) d1
    /\ tc_GetCertificate <$> ProxyTLSConfig (Some p) = Some (Some get)
    /\ get (mkHello "db.example" ["postgresql"]) d1 = Ok (inl fallback) d1.
Proof.
  assert (H : exists p d1, New (cfg "acme") blank = Ok (inl (Some p)) d1) by (eexists _, _; vm_compute; reflexivity).
  destruct H as (p & d1 & H).
  destruct (acme_handshakes (cfg "acme") blank d1 p eq_refl H) as (d2 & fallback & get & Hd & Hf & _ & Hg & _ & Hh).
  injection Hd as <-. exists p, d1, fallback, get. split_and!; [done..|].
  rewrite (proj2 (Hh (mkHello "db.example" ["postgresql"])) ltac:(set_solver) d1). reflexivity.
Defined.

Lemma self_signed_template_witness :
  exists certPEM keyPEM d1, selfSignedPEM ["db.example"] blank = Ok (inl (certPEM, keyPEM)) d1
    /\ exists der, certPEM = pem_EncodeToMemory "CERTIFICATE" der.
Proof.
  assert (H : exists certPEM keyPEM d1, selfSignedPEM ["db.example"] blank = Ok (inl (certPEM, keyPEM)) d1)
    by (eexists _, _, _; vm_compute; reflexivity).
  destruct H as (certPEM & keyPEM & d1 & H). exists certPEM, keyPEM, d1. split; [exact H|].
  destruct (self_signed_template ["db.example"] blank d1 certPEM keyPEM H) as (key & serial & w & n1 & n2 & der & w' & _ & Hp & _).
  by exists der.
Defined.

Lemma tls_exactly_when_enabled_witness :
  exists p d1, New (cfg "self_signed") blank = Ok (inl p) d1 /\ is_Some (ProxyTLSConfig p).
Proof.
  assert (H : exists p d1, New (cfg "self_signed") blank = Ok (inl p) d1) by (eexists _, _; vm_compute; reflexivity).
  destruct H as (p & d1 & H). exists p, d1. split; [exact H|].
  apply (tls_exactly_when_enabled (cfg "self_signed") blank d1 p H). reflexivity.
Defined.
End CertsWitnesses.
