(* ===== verification/Detect.v ===== *)
(** * PII detection (internal/detect/detect.go and its two clients)

    Detection flags columns of the catalog by their names.  Its results are
    printed by the command [detect-pii] as a rule list for [connections add]
    (cmd/pg-agent-proxy/detect.go, connections.go) and returned by the admin API
    (internal/admin/admin.go) grouped by column.  The theorems say what Scan
    finds, what the grouping holds, and that the printed list, given back to the
    command line, protects every detected column. *)

From S2P Require Import Prelude GoStrings GoText Policy Approval Proto Session.

(** ** Name hints *)

Definition nameHints : list (string * string) :=
  [("password", "redact"); ("passwd", "redact"); ("secret", "redact"); ("token", "redact");
   ("api_key", "redact"); ("apikey", "redact"); ("private_key", "redact"); ("card", "redact");
   ("cvv", "redact"); ("iban", "hash"); ("account_number", "hash"); ("ssn", "hash");
   ("social_security", "hash"); ("national_id", "hash"); ("passport", "hash"); ("email", "hash");
   ("phone", "hash"); ("mobile", "hash"); ("msisdn", "hash"); ("address", "hash"); ("street", "hash");
   ("postal", "hash"); ("zip", "hash"); ("first_name", "hash"); ("last_name", "hash");
   ("full_name", "hash"); ("birth", "hash"); ("dob", "hash"); ("date_of_birth", "hash");
   ("rekkari", "hash"); ("license_plate", "hash"); ("reg_number", "hash")].

Fixpoint first_hint (lower : string) (hints : list (string * string)) : option string :=
  match hints with
  | [] => None
  | (substr, action) :: hints' =>
      if Contains lower substr then Some action else first_hint lower hints'
  end.

Record Match : Type := mkMatch { m_Table : string; m_Column : string; m_Action : string }.

#[export] Instance Match_eq_dec : EqDecision Match.
Proof. solve_decision. Defined.

Definition introspectQuery : string :=
  let nl := ascii_of_N 10 in
  String nl ("SELECT table_name, column_name"
  +:+ String nl ("FROM information_schema.columns"
  +:+ String nl ("WHERE table_schema NOT IN ('pg_catalog', 'information_schema')"
  +:+ String nl "ORDER BY table_name, ordinal_position"))).

Section Detect.
Context {U : Unicode}.

(** The suggested action, [None] when no hint matches. *)
Definition SuggestAction (columnName : string) : option string :=
  first_hint (ToLower columnName) nameHints.

(** One row of the catalog: [None] is the panic of [row[0]] or [row[1]] out of range. *)
Definition scanRow (row : list value) : option (option Match) :=
  match row !! 0, row !! 1 with
  | Some t, Some c =>
      let table := default EmptyString t in
      let column := default EmptyString c in
      Some ((fun action => mkMatch table column action) <$> SuggestAction column)
  | _, _ => None
  end.

(** ** Scan *)

(** pgconn.Connect: the error, if any. *)
Class Dialer (W : Type) : Type := dial : string -> W -> option QueryErr * W.

Section Scan.
Context {W : Type} {D : Dialer W} {Up : Upstream W}.

Definition on_world {B : Type} (f : W -> B * W) : M W B := fun w => let '(b, w') := f w in Ok b w'.

Definition Scan (upstreamURL : string) : M W (list Match + QueryErr) :=
  e <- on_world (dial upstreamURL) ;;
  match e with
  | Some err => ret (inr err)
  | None =>
      mrr <- on_world (up_Exec introspectQuery) ;;
      match ReadAll mrr with
      | inr err => ret (inr err)
      | inl results =>
          match last results with
          | None => ret (inl [])
          | Some result =>
              match map_opt scanRow (rr_rows result) with
              | None => panic
              | Some ms => ret (inl (omap id ms))
              end
          end
      end
  end.
End Scan.
End Detect.

(** ** The command detect-pii *)

Definition key (m : Match) : string := m_Column m +:+ ":" +:+ m_Action m.

(** The loop of runDetectPII: the keys already seen and the list so far. *)
Definition spec_step (st : gset string * list string) (m : Match) : gset string * list string :=
  let '(seen, spec) := st in
  if bool_decide (key m ∈ seen) then (seen, spec) else ({[key m]} ∪ seen, spec ++ [key m]).

Definition pii_spec (ms : list Match) : list string := snd (foldl spec_step (∅, []) ms).

(** What runDetectPII prints, line by line. *)
Definition detect_output (ms : list Match) : list string :=
  match ms with
  | [] => ["# No likely PII columns detected by name heuristics."]
  | _ =>
      ["# Likely PII columns (review carefully — name heuristics only):"]
      ++ ((fun m => "#   " +:+ m_Table m +:+ "." +:+ m_Column m +:+ " -> " +:+ m_Action m) <$> ms)
      ++ [EmptyString; "# Pass to `connections add` with:"; "#   -pii " +:+ Join (pii_spec ms) ","]
  end.

(** ** The flag -pii of connections add *)

Definition parse_part (part : string) : option PIIRule :=
  let part := TrimSpace part in
  if bool_decide (part = EmptyString) then None
  else
    let '(name, action, ok) := Cut part ":" in
    let action := if (ok : bool) then action else "redact" in
    Some (mkRule (TrimSpace name) EmptyString (TrimSpace action)).

Definition parsePII (spec : string) : list PIIRule := omap parse_part (Split spec ",").

(** ** The admin API: grouping by column *)

Record piiSuggestion : Type := mkSuggestion { sg_Name : string; sg_Action : string; sg_Tables : list string }.

Definition containsString (ss : list string) (s : string) : bool := existsb (String.eqb s) ss.

(** The loop of detectAndRespond: the suggestions by column, and their order. *)
Definition group_step (st : gmap string piiSuggestion * list string) (m : Match) :
    gmap string piiSuggestion * list string :=
  let '(byCol, order) := st in
  let '(sug, order) :=
    match byCol !! m_Column m with
    | Some sug => (sug, order)
    | None => (mkSuggestion (m_Column m) (m_Action m) [], order ++ [m_Column m])
    end in
  let sug :=
    if containsString (sg_Tables sug) (m_Table m) then sug
    else mkSuggestion (sg_Name sug) (sg_Action sug) (sg_Tables sug ++ [m_Table m]) in
  (<[m_Column m := sug]> byCol, order).

Definition group (ms : list Match) : gmap string piiSuggestion * list string := foldl group_step (∅, []) ms.

Definition suggestions (ms : list Match) : list piiSuggestion :=
  let '(byCol, order) := group ms in omap (fun col => byCol !! col) order.

(** ** Lists without repetitions, in order of first occurrence *)

Definition nub_step {A} `{EqDecision A} (acc : list A) (x : A) : list A :=
  if decide (x ∈ acc) then acc else acc ++ [x].
Definition nub {A} `{EqDecision A} (l : list A) : list A := foldl nub_step [] l.

Section Nub.
Context {A : Type} `{EqDecision A}.

Lemma nub_snoc (l : list A) x : nub (l ++ [x]) = nub_step (nub l) x.
Proof. unfold nub. by rewrite foldl_app. Qed.

Lemma elem_of_nub (l : list A) x : x ∈ nub l <-> x ∈ l.
Proof.
  induction l as [|y l IH] using rev_ind; [done|]. rewrite nub_snoc. unfold nub_step.
  rewrite elem_of_app, list_elem_of_singleton, <- IH.
  case_decide; [|by rewrite elem_of_app, list_elem_of_singleton]. set_solver.
Qed.

Lemma NoDup_nub (l : list A) : NoDup (nub l).
Proof.
  induction l as [|y l IH] using rev_ind; [constructor|]. rewrite nub_snoc. unfold nub_step.
  case_decide; [done|]. apply NoDup_app. split; [done|]. split; [set_solver|apply NoDup_singleton].
Qed.
End Nub.

(** ** What the printed list protects *)

Section DetectTheorems.
Context {U : Unicode}.

(** The match carries the action suggested for its column. *)
Definition flagged (m : Match) : Prop := SuggestAction (m_Column m) = Some (m_Action m).

(** A column name the rule list can carry: ASCII, no white space, no [,] or [:]. *)
Definition plain (column : string) : bool :=
  inked column && without ","%char column && without ":"%char column && negb (bool_decide (column = EmptyString)).

Lemma first_hint_action lower hints a :
  first_hint lower hints = Some a -> a ∈ snd <$> hints.
Proof.
  induction hints as [|[h b] hints IH]; [done|]. cbn. rewrite elem_of_cons.
  destruct (Contains lower h); [intros [= <-]; by left|intros H; right; auto].
Qed.

(** Every suggested action is a word the policy knows. *)
Lemma suggested_action column a : SuggestAction column = Some a -> a = "hash" \/ a = "redact".
Proof.
  intros H%first_hint_action. assert (C : forallb (fun b => bool_decide (b = "hash" \/ b = "redact"))
    (snd <$> nameHints) = true) by (vm_compute; reflexivity).
  rewrite forallb_forall in C. apply list_elem_of_In in H. by apply C, bool_decide_eq_true in H.
Qed.

Lemma pii_spec_nub ms : pii_spec ms = nub (key <$> ms).
Proof.
  unfold pii_spec.
  assert (H : forall ms, let '(seen, spec) := foldl spec_step (∅, []) ms in
    spec = nub (key <$> ms) /\ forall k, k ∈ seen <-> k ∈ spec).
  { clear ms. intros ms. induction ms as [|m ms IH] using rev_ind; [split; set_solver|].
    rewrite foldl_app, fmap_app. cbn [foldl fmap list_fmap].
    destruct (foldl spec_step _ ms) as [seen spec]. destruct IH as [-> IH]. cbn [spec_step].
    rewrite nub_snoc. unfold nub_step. rewrite (bool_decide_ext _ _ (IH (key m))).
    case_bool_decide as E; [by rewrite decide_True|]. rewrite decide_False by done.
    split; [done|]. intros k. rewrite elem_of_union, elem_of_singleton, elem_of_app,
      list_elem_of_singleton, IH. tauto. }
  specialize (H ms). destruct (foldl spec_step _ ms). by destruct H.
Qed.

Lemma inked_app s t : inked (s +:+ t) = inked s && inked t.
Proof. apply sforall_app. Qed.

Lemma plain_inv column :
  plain column = true ->
  inked column = true /\ without ","%char column = true /\ without ":"%char column = true /\ column <> EmptyString.
Proof.
  unfold plain. rewrite !andb_true_iff, negb_true_iff, bool_decide_eq_false. tauto.
Qed.

Lemma key_inked m : flagged m -> plain (m_Column m) = true ->
  inked (key m) = true /\ without ","%char (key m) = true.
Proof.
  intros Hf (H1 & H2 & _)%plain_inv. unfold key. rewrite !inked_app, !without_app, H1, H2.
  by destruct (suggested_action _ _ Hf) as [-> | ->].
Qed.

Lemma parse_key m : flagged m -> plain (m_Column m) = true ->
  parse_part (key m) = Some (mkRule (m_Column m) EmptyString (m_Action m)).
Proof.
  intros Hf Hp. destruct (key_inked m Hf Hp) as [Hk _]. apply plain_inv in Hp as (H1 & _ & H3 & Hne).
  unfold parse_part. rewrite (TrimSpace_inked _ Hk). rewrite bool_decide_eq_false_2.
  - unfold key. rewrite sapp_cons, sapp_nil, Cut_app by done.
    rewrite (TrimSpace_inked _ H1), TrimSpace_inked; [done|].
    by destruct (suggested_action _ _ Hf) as [-> | ->].
  - unfold key. by destruct (m_Column m).
Qed.

Lemma parse_keys ms : Forall flagged ms -> Forall (fun m => plain (m_Column m) = true) ms -> ms <> [] ->
  forall r, r ∈ parsePII (Join (pii_spec ms) ",")
            <-> exists m, m ∈ ms /\ r = mkRule (m_Column m) EmptyString (m_Action m).
Proof.
  intros Hf Hp Hne r. rewrite Forall_forall in Hf, Hp. unfold parsePII.
  rewrite Split_Join.
  - rewrite pii_spec_nub, list_elem_of_omap. split.
    + intros (k & Hk & E). apply elem_of_nub, list_elem_of_fmap in Hk as (m & -> & Hm).
      rewrite parse_key in E by auto. exists m. split; [done|congruence].
    + intros (m & Hm & ->). exists (key m). rewrite parse_key by auto. split; [|done].
      apply elem_of_nub, list_elem_of_fmap. eauto.
  - rewrite pii_spec_nub. destruct ms as [|m ms]; [done|]. intros E.
    assert (Hk : key m ∈ nub (key <$> m :: ms)) by (apply elem_of_nub, list_elem_of_fmap; exists m; set_solver).
    rewrite E in Hk. set_solver.
  - apply Forall_forall. intros k Hk. rewrite pii_spec_nub, elem_of_nub, list_elem_of_fmap in Hk.
    destruct Hk as (m & -> & Hm). by apply key_inked; auto.
Qed.

(** C35.  Pasting the list printed by detect-pii into [connections add -pii]
    protects every detected column, if the names of all of them are plain (ASCII,
    without comma, colon and white space; otherwise see [colon_unprotected]): the
    policy compiled from the parsed list has, for each of them, exactly the action
    suggested, and never none, also when names repeat, differ in case only, or
    stand in several tables. *)
Theorem detect_protects ms hashSalt redactString max gate m :
  Forall flagged ms -> Forall (fun m => plain (m_Column m) = true) ms -> m ∈ ms ->
  let p := New (parsePII (Join (pii_spec ms) ",")) hashSalt redactString max gate in
  ActionFor p (m_Column m) = ParseAction (m_Action m) /\ ActionFor p (m_Column m) <> ActionNone.
Proof.
  intros Hf Hp Hm. cbv zeta. set (rs := parsePII _).
  assert (Hne : ms <> []) by (destruct ms; set_solver).
  assert (Hrs := parse_keys ms Hf Hp Hne). fold rs in Hrs.
  assert (E : ActionFor (New rs hashSalt redactString max gate) (m_Column m) = ParseAction (m_Action m)).
  { unfold ActionFor, New. cbn [byColumn]. rewrite compile_lookup.
    set (hits := filter _ rs). destruct (last hits) as [r|] eqn:El.
    - assert (Hr : r ∈ hits) by by apply last_Some_elem_of.
      apply list_elem_of_filter in Hr as [Hn Hr]. apply Hrs in Hr as (m' & Hm' & ->). cbn in *.
      rewrite Forall_forall in Hf. pose proof (Hf m Hm) as F1. pose proof (Hf m' Hm') as F2.
      unfold flagged, SuggestAction in F1, F2. rewrite Hn in F2. congruence.
    - apply last_None in El. assert (Hin : mkRule (m_Column m) EmptyString (m_Action m) ∈ hits).
      { apply list_elem_of_filter. split; [done|]. apply Hrs. eauto. }
      rewrite El in Hin. set_solver. }
  rewrite E. split; [done|]. rewrite Forall_forall in Hf.
  destruct (suggested_action _ _ (Hf m Hm)) as [-> | ->]; vm_compute; discriminate.
Qed.

(** ** Scan *)

Lemma scanRow_ok (row : list value) (t c : value) rest :
  row = t :: c :: rest ->
  scanRow row = Some ((fun a => mkMatch (default EmptyString t) (default EmptyString c) a)
                        <$> SuggestAction (default EmptyString c)).
Proof. by intros ->. Qed.

(** Scan reports exactly the flagged columns: on a connection that is
    accepted and a catalog query without error whose rows have at least two
    values, it returns without a panic, runs nothing but the catalog query, and
    its matches are the rows whose column name has a hint, with the suggested
    action; no result at all means no match. *)
Theorem Scan_flags {W} {D : Dialer W} {Up : Upstream W} url w w1 mrr w2 :
  dial url w = (None, w1) -> up_Exec introspectQuery w1 = (mrr, w2) -> mrr_close mrr = None ->
  let rows := match last (mrr_results mrr) with Some rr => rr_rows rr | None => [] end in
  Forall (fun row => 2 <= length row) rows ->
  exists ms, Scan url w = Ok (inl ms) w2 /\ Forall flagged ms /\
    forall m, m ∈ ms <-> flagged m /\
      exists (t c : value) (rest : list value), t :: c :: rest ∈ rows /\ m_Table m = default EmptyString t /\ m_Column m = default EmptyString c.
Proof.
  intros Hd He Hc rows Hr. unfold Scan, on_world, bind, ReadAll. rewrite Hd, He, Hc. subst rows.
  destruct (last (mrr_results mrr)) as [rr|]; [|exists []; split; [done|]; split; [constructor|]; set_solver].
  destruct (map_opt_total scanRow (fun row => 2 <= length row) (rr_rows rr)) as [ms Hms]; [|done|].
  { intros [|t [|c rest]] Hl; cbn in Hl; try lia. eauto. }
  rewrite Hms. exists (omap id ms). split; [done|]. rewrite map_opt_Some_lookup in Hms.
  assert (H : forall m, m ∈ omap id ms <-> flagged m /\ exists (t c : value) (rest : list value), t :: c :: rest ∈ rr_rows rr /\
    m_Table m = default EmptyString t /\ m_Column m = default EmptyString c).
  { intros m. rewrite list_elem_of_omap. split.
    - intros (o & Ho & E). cbn in E. subst o. apply list_elem_of_lookup in Ho as [i Hi].
      destruct (Forall2_lookup_r _ _ _ _ _ Hms Hi) as (row & Hrow & Hs).
      destruct row as [|t [|c rest]]; [done..|]. rewrite (scanRow_ok _ t c rest eq_refl) in Hs.
      destruct (SuggestAction _) as [a|] eqn:Ea; [|done]. injection Hs as <-. split; [done|]. exists t, c, rest. split; [|done].
      by eapply list_elem_of_lookup_2.
    - intros (Hf & t & c & rest & Hrow & Ht & Hcol). apply list_elem_of_lookup in Hrow as [i Hi].
      destruct (Forall2_lookup_l _ _ _ _ _ Hms Hi) as (o & Ho & Hs). exists o.
      split; [by eapply list_elem_of_lookup_2|]. cbn beta in Hs. rewrite (scanRow_ok _ t c rest eq_refl) in Hs.
      unfold flagged in Hf. rewrite Hcol in Hf. rewrite Hf in Hs. injection Hs as <-.
      cbn. rewrite <- Ht, <- Hcol. by destruct m. }
  split; [|done]. apply Forall_forall. intros m Hm. by apply H.
Qed.

(** ** Grouping *)

Lemma containsString_iff ss s : containsString ss s = true <-> s ∈ ss.
Proof.
  unfold containsString. rewrite existsb_exists. split.
  - intros (x & Hx%list_elem_of_In & ->%String.eqb_eq). done.
  - intros H. exists s. split; [by apply list_elem_of_In|apply String.eqb_refl].
Qed.

(** The matches of a column. *)
Definition of_column (col : string) (ms : list Match) : list Match := filter (fun m => m_Column m = col) ms.

(** The suggestion for a column, from all its matches. *)
Definition suggestion (col : string) (ms : list Match) : option piiSuggestion :=
  match of_column col ms with
  | [] => None
  | m :: _ => Some (mkSuggestion col (m_Action m) (nub (m_Table <$> of_column col ms)))
  end.

Lemma of_column_snoc col ms m :
  of_column col (ms ++ [m]) = of_column col ms ++ (if decide (m_Column m = col) then [m] else []).
Proof. unfold of_column. rewrite filter_app, filter_cons. by case_decide. Qed.

Lemma suggestion_other col ms m : m_Column m <> col -> suggestion col (ms ++ [m]) = suggestion col ms.
Proof. intros H. unfold suggestion. by rewrite of_column_snoc, decide_False, app_nil_r. Qed.

Lemma suggestion_new ms m :
  suggestion (m_Column m) (ms ++ [m]) =
    Some (let sug := default (mkSuggestion (m_Column m) (m_Action m) []) (suggestion (m_Column m) ms) in
          if containsString (sg_Tables sug) (m_Table m) then sug
          else mkSuggestion (sg_Name sug) (sg_Action sug) (sg_Tables sug ++ [m_Table m])).
Proof.
  unfold suggestion. rewrite of_column_snoc, decide_True by done. rewrite fmap_app. cbn [fmap list_fmap].
  rewrite nub_snoc. unfold nub_step.
  destruct (of_column (m_Column m) ms) as [|m0 l]; cbn [app default from_option id sg_Tables sg_Name sg_Action].
  - cbn. by rewrite decide_False by set_solver.
  - set (ts := nub _). destruct (containsString ts (m_Table m)) eqn:E.
    + rewrite decide_True; [done|by apply containsString_iff].
    + rewrite decide_False; [done|]. rewrite <- containsString_iff. congruence.
Qed.

Lemma suggestion_column col ms : is_Some (suggestion col ms) <-> col ∈ m_Column <$> ms.
Proof.
  unfold suggestion. rewrite list_elem_of_fmap. split.
  - destruct (of_column col ms) as [|m l] eqn:E; [by intros []|intros _].
    assert (Hm : m ∈ of_column col ms) by (rewrite E; set_solver).
    apply list_elem_of_filter in Hm as [<- Hm]. eauto.
  - intros (m & -> & Hm). assert (H : m ∈ of_column (m_Column m) ms) by by apply list_elem_of_filter.
    destruct (of_column _ ms); [set_solver|eauto].
Qed.

Lemma group_spec ms :
  (forall col, (group ms).1 !! col = suggestion col ms) /\ (group ms).2 = nub (m_Column <$> ms).
Proof.
  induction ms as [|m ms [IH1 IH2]] using rev_ind; [split; [intros col; apply lookup_empty|done]|].
  unfold group in *. rewrite foldl_app, fmap_app. cbn [foldl fmap list_fmap]. rewrite nub_snoc, <- IH2.
  destruct (foldl group_step (∅, []) ms) as [byCol order]. cbn [fst snd] in *. cbn [group_step].
  pose proof (suggestion_column (m_Column m) ms) as Hc.
  destruct (byCol !! m_Column m) as [sug|] eqn:E; rewrite IH1 in E; cbn [fst snd].
  - split.
    + intros col. destruct (decide (m_Column m = col)) as [<-|Hne].
      * rewrite lookup_insert_eq, suggestion_new, E. done.
      * by rewrite lookup_insert_ne, suggestion_other.
    + unfold nub_step. rewrite decide_True; [done|]. rewrite IH2, elem_of_nub. apply Hc. by rewrite E.
  - split.
    + intros col. destruct (decide (m_Column m = col)) as [<-|Hne].
      * rewrite lookup_insert_eq, suggestion_new, E. done.
      * by rewrite lookup_insert_ne, suggestion_other.
    + unfold nub_step. rewrite decide_False; [done|]. rewrite IH2, elem_of_nub. intros Hin.
      apply Hc in Hin as [? Hin]. congruence.
Qed.

(** The admin API groups the matches by column: one suggestion for each
    column, in the order of first occurrence, with the action of its first
    match and the tables of all its matches, each once, in order. *)
Theorem suggestions_spec ms :
  suggestions ms = omap (fun col => suggestion col ms) (nub (m_Column <$> ms)) /\
  sg_Name <$> suggestions ms = nub (m_Column <$> ms) /\ NoDup (sg_Name <$> suggestions ms).
Proof.
  destruct (group_spec ms) as [H1 H2].
  assert (E : suggestions ms = omap (fun col => suggestion col ms) (nub (m_Column <$> ms))).
  { unfold suggestions. destruct (group ms) as [byCol order]. cbn in *. subst order.
    apply list_omap_ext, Forall_Forall2_diag, Forall_true. intros col. apply H1. }
  assert (En : sg_Name <$> suggestions ms = nub (m_Column <$> ms)).
  { rewrite E. assert (H : forall l : list string, (forall col, col ∈ l -> col ∈ m_Column <$> ms) ->
      sg_Name <$> omap (fun col => suggestion col ms) l = l).
    { induction l as [|col l IH]; [done|]. intros Hl. cbn.
      destruct (proj2 (suggestion_column col ms)) as [sug Hs]; [set_solver|]. rewrite Hs. cbn.
      rewrite IH by set_solver. f_equal. unfold suggestion in Hs. destruct (of_column col ms); [done|].
      by injection Hs as <-. }
    apply H. intros col. by rewrite elem_of_nub. }
  split; [done|]. split; [done|]. rewrite En. apply NoDup_nub.
Qed.
End DetectTheorems.

(** ** The theorems at concrete inputs *)

Module DetectWitnesses.
#[local] Existing Instance ascii_only.

Definition found : list Match :=
  [mkMatch "users" "email" "hash"; mkMatch "users" "password_hash" "redact"; mkMatch "staff" "email" "hash";
   mkMatch "staff" "Email" "hash"].

Example printed :
  Join (pii_spec found) "," = "email:hash,password_hash:redact,Email:hash".
Proof. vm_compute. reflexivity. Qed.

(** The repository's own table of suggestions. *)
Example SuggestAction_tests :
  SuggestAction <$> ["email"; "user_email"; "EmailAddress"; "phone"; "full_name"; "password_hash"; "api_key";
                     "card_number"; "ssn"; "id"; "amount"; "created_at"]
  = [Some "hash"; Some "hash"; Some "hash"; Some "hash"; Some "hash"; Some "redact"; Some "redact";
     Some "redact"; Some "hash"; None; None; None].
Proof. vm_compute. reflexivity. Qed.

Lemma detect_protects_witness :
  Forall flagged found /\
  (let p := New (parsePII (Join (pii_spec found) ",")) "salt" "" 1000 true in
   ActionFor p "Email" = ParseAction "hash" /\ ActionFor p "Email" <> ActionNone).
Proof.
  assert (Hf : Forall flagged found) by (repeat constructor; vm_compute; reflexivity).
  split; [exact Hf|].
  refine (detect_protects found "salt" "" 1000 true (mkMatch "staff" "Email" "hash") Hf _ _).
  - repeat constructor; vm_compute; reflexivity.
  - apply (bool_decide_unpack _). vm_compute. exact I.
Defined.

(** A detected column with a colon in its name is not protected by the printed list,
    which is taken apart at the first colon; nor is one with a comma. *)
Lemma colon_unprotected :
  let protected (column action : string) :=
    ActionFor (New (parsePII (Join (pii_spec [mkMatch "users" column action]) ",")) "salt" "" 1000 true) column in
  flagged (mkMatch "users" "email:work" "hash") /\ protected "email:work" "hash" = ActionNone
  /\ flagged (mkMatch "users" "email,work" "hash") /\ protected "email,work" "hash" = ActionNone.
Proof. split_and!; vm_compute; reflexivity. Qed.

#[local] Instance open_door : Dialer unit := fun url w => (None, w).
#[local] Instance catalog : Upstream unit := {|
  up_Exec sql w := (mkMulti [mkResult [] [[Some "users"; Some "email"]; [Some "users"; Some "id"]] (inl "SELECT 2")] None, w);
  up_ExecParams sql ps oids pf rf w := (mkResult [] [] (inl ""), w);
  up_Prepare name sql oids w := (inl (mkStmtDesc [] []), w)
|}.

Lemma Scan_flags_witness :
  dial "postgres://db" tt = (None, tt) /\
  exists ms, Scan "postgres://db" tt = Ok (inl ms) tt /\ Forall flagged ms /\
    forall m, m ∈ ms <-> flagged m /\
      exists (t c : value) (rest : list value),
        t :: c :: rest ∈ [[Some "users"; Some "email"]; [Some "users"; Some "id"]] /\
        m_Table m = default EmptyString t /\ m_Column m = default EmptyString c.
Proof.
  split; [reflexivity|].
  destruct (Scan_flags (D := open_door) (Up := catalog) "postgres://db" tt tt
    (mkMulti [mkResult [] [[Some "users"; Some "email"]; [Some "users"; Some "id"]] (inl "SELECT 2")] None) tt
    eq_refl eq_refl eq_refl) as (ms & H1 & H2 & H3).
  - apply (bool_decide_unpack _). vm_compute. exact I.
  - exists ms. split; [exact H1|]. split; [exact H2|]. intros m. exact (H3 m).
Defined.
End DetectWitnesses.
