(* ===== verification/Scenario.v ===== *)
(** * A concrete environment

    A small deterministic environment in which the theorems about sessions are
    applied to concrete inputs: a random generator that returns zeros, an
    upstream with one table of users, a read buffer in which nothing is
    overwritten, and the two static approvers. *)

From S2P Require Import Prelude GoStrings Policy Approval Proto Session.

#[export] Existing Instance ascii_only.

Fixpoint nul_bytes (n : nat) : string :=
  match n with O => EmptyString | S n' => String (ascii_of_N 0) (nul_bytes n') end.
Definition zeros : Rand unit := fun n w => (Some (nul_bytes n), w).
#[export] Existing Instance zeros.

Definition users_fields : list FieldDescription :=
  [mkField "id" 0 0 23 4 (-1) 0; mkField "email" 0 0 25 (-1) (-1) 0].
Definition users_rows : list (list value) :=
  [[Some "1"; Some "ann@x.org"]; [Some "2"; Some "bob@x.org"]; [Some "3"; None]].

Definition schema_result : ResultReader :=
  mkResult ((fun n => mkField n 0 0 25 (-1) (-1) 0)
              <$> ["table_schema"; "table_name"; "column_name"; "data_type"; "ordinal_position"])
    [[Some "public"; Some "users"; Some "id"; Some "integer"; Some "1"];
     [Some "public"; Some "users"; Some "email"; Some "text"; Some "2"]] (inl "SELECT 2").

Definition users_result : ResultReader := mkResult users_fields users_rows (inl "SELECT 3").

#[export] Instance users_upstream : Upstream unit := {|
  up_Exec sql w :=
    (if bool_decide (sql = introspectSQL) then mkMulti [schema_result] None
     else if bool_decide (sql = "SELECT bad") then
       mkMulti [mkResult [] [] (inr (PgError "42703" "column bad does not exist" "" ""))]
         (Some (PgError "42703" "column bad does not exist" "" ""))
     else mkMulti [users_result] None, w);
  up_ExecParams sql ps oids pf rf w := (users_result, w);
  up_Prepare name sql oids w := (inl (mkStmtDesc [25%Z] users_fields), w)
|}.

(** A read buffer in which nothing is overwritten. *)
#[export] Instance undisturbed : ReadBuffer unit := intact.

Definition approving : Approver unit := staticApprover auto_approve.
Definition denying : Approver unit := staticApprover auto_deny.

(** At most two rows, mutations gated, e-mail addresses hashed. *)
Definition users_policy : Policy := New [mkRule "Email" "users" "hash"] "salt" "" 2 true.

Definition fresh : session :=
  established users_policy "main" "db @ host:5432" "10.0.0.5:54321" "pgproxy_schema".
Definition start : St unit := mkSt fresh tt [].
