(* ===== verification/RegistrySpec.v ===== *)
(** * The abstract registry

    What the registry promises to the rest of the program, without texts, SQL
    and failures: a finite map from identifiers to connections, changed by the
    events that the operations report.  The table of Registry.v refines it. *)

From Stdlib Require Import Sorting.Sorted.
From S2P Require Import Prelude GoStrings GoText Timestamp Base64 GoNet Sha256 Json JsonProps Policy Approval Store Registry Scenario RegistryProps.

(** ** The abstract state and its events *)

Abbreviation Connections := (gmap Z Connection).

Inductive Event : Type :=
| Created (inp : CreateInput) (c : Connection) (password : string)
| Rotated (id : Z) (password : string)
| RotatedAutomatically (id : Z) (next : Time)
| Updated (id : Z) (inp : UpdateInput)
| Deleted (id : Z)
| Swept (now : Time) (count : nat)
| Found (username : string) (c : Connection).

(** New credentials at [now]. *)
Definition with_credentials (hash : string) (now : Time) (c : Connection) : Connection :=
  mkConnection (cn_ID c) (cn_Name c) (cn_AgentUsername c) (cn_UpstreamURL c) (cn_MaxRows c) (cn_GateMutations c)
    (cn_PIIRules c) (cn_CreatedAt c) (cn_ExpiresAt c) (cn_RotateEvery c) now (cn_AgentPassword c) hash.

(** An edit of the policy, as the table keeps it: bytes of the rules that are not
    UTF-8 replaced, and no interval in place of a negative one. *)
Definition edited (inp : UpdateInput) (c : Connection) : Connection :=
  mkConnection (cn_ID c) (ui_Name inp) (cn_AgentUsername c) (cn_UpstreamURL c) (ui_MaxRows inp) (ui_GateMutations inp)
    (sanitize_rule <$> ui_PIIRules inp) (cn_CreatedAt c) (if ui_SetExpiry inp then ui_ExpiresAt inp else cn_ExpiresAt c)
    (if ui_SetRotateEvery inp then Z.max 0 (ui_RotateEvery inp) else cn_RotateEvery c) (cn_RotatedAt c)
    (cn_AgentPassword c) (cn_passwordHash c).

(** The new connection of an input: what the input says, with an identifier, a
    user name, a time of creation and the hash of a password. *)
Definition new_connection (inp : CreateInput) (id : Z) (username : string) (now : Time) (hash : string) : Connection :=
  mkConnection id (ci_Name inp) username (ci_UpstreamURL inp) (ci_MaxRows inp) (ci_GateMutations inp) (ci_PIIRules inp)
    now (ci_ExpiresAt inp) (ci_RotateEvery inp) now EmptyString hash.

Section Spec.
Context {B : Bcrypt}.

(** An event and what it does to the connections.  A creation reports the connection
    as the input says it; the table keeps [as_stored] of it. *)
Definition spec_step (e : Event) (m m' : Connections) : Prop :=
  match e with
  | Created inp c password =>
      c = new_connection inp (cn_ID c) (cn_AgentUsername c) (cn_CreatedAt c) (cn_passwordHash c)
      /\ (forall i c', m !! i = Some c' -> (i < cn_ID c)%Z /\ cn_AgentUsername c' <> cn_AgentUsername c)
      /\ bcrypt_matches (cn_passwordHash c) password = true /\ m' = <[cn_ID c := as_stored c]> m
  | Rotated id password =>
      is_Some (m !! id) /\ exists hash now, bcrypt_matches hash password = true /\ m' = alter (with_credentials hash now) id m
  | RotatedAutomatically id next =>
      is_Some (m !! id) /\ exists hash now, m' = alter (with_credentials hash now) id m
        /\ forall c, m !! id = Some c -> (cn_RotatedAt c + cn_RotateEvery c <= now)%Z /\ next = (now + cn_RotateEvery c)%Z
  | Updated id inp => is_Some (m !! id) /\ m' = alter (edited inp) id m
  | Deleted id => is_Some (m !! id) /\ m' = delete id m
  | Swept now count => m' = filter (fun ic => Expired ic.2 now = false) m /\ count + size m' = size m
  | Found username c => m' = m /\ cn_AgentUsername c = username /\ exists i, m !! i = Some c
  end.

(** A sequence of events. *)
Inductive spec_steps : list Event -> Connections -> Connections -> Prop :=
| spec_nil m : spec_steps [] m m
| spec_cons e es m m1 m2 : spec_step e m m1 -> spec_steps es m1 m2 -> spec_steps (e :: es) m m2.

Lemma spec_one e m m' : spec_step e m m' -> spec_steps [e] m m'.
Proof. intros H. by eapply spec_cons; [|constructor]. Qed.

Lemma spec_app es es' m m1 m2 : spec_steps es m m1 -> spec_steps es' m1 m2 -> spec_steps (es ++ es') m m2.
Proof. induction 1; [done|]. intros H'. econstructor; eauto. Qed.
End Spec.

(** ** The abstraction of a table *)

Section Abstraction.
Context {T : TimeParser}.

Definition entry (r : Row) : option (Z * Connection) :=
  match scanConnectionWithHash r with inl c => Some (r_id r, c) | inr _ => None end.
Definition abs (tb : Table) : Connections := list_to_map (omap entry (tb_rows tb)).

(** Every row can be read. *)
Definition readable (tb : Table) : Prop := Forall (fun r => exists c, scanConnectionWithHash r = inl c) (tb_rows tb).

Lemma entry_Some r i c : entry r = Some (i, c) <-> r_id r = i /\ scanConnectionWithHash r = inl c.
Proof. unfold entry. destruct (scanConnectionWithHash r); split; intros H; [by injection H as <- <-|by destruct H as [-> [= ->]]|done|by destruct H]. Qed.

Lemma entry_fst rows i : i ∈ (omap entry rows).*1 -> i ∈ (r_id <$> rows).
Proof.
  intros ([i' c] & -> & (r & Hr & [E _]%entry_Some)%list_elem_of_omap)%list_elem_of_fmap.
  cbn. rewrite <- E. by apply (list_elem_of_fmap_2 r_id).
Qed.

Lemma entries_NoDup rows : NoDup (r_id <$> rows) -> NoDup (omap entry rows).*1.
Proof.
  induction rows as [|r rows IH]; [constructor|]. rewrite fmap_cons. intros [Hr Hrows]%NoDup_cons. cbn [omap list_omap].
  destruct (entry r) as [[i c]|] eqn:E; [|by apply IH]. rewrite fmap_cons. cbn [fst]. apply NoDup_cons.
  apply entry_Some in E as [<- _]. split; [|by apply IH]. intros H. by apply Hr, entry_fst.
Qed.

Lemma registered_NoDup tb : registered tb -> NoDup (r_id <$> tb_rows tb).
Proof.
  intros H. pose proof (ids_ordered _ H) as Hs. induction Hs as [|i l _ IH Hi]; [constructor|]. apply NoDup_cons. split; [|done].
  intros Hin. rewrite Forall_forall in Hi. specialize (Hi i Hin). lia.
Qed.

Lemma abs_lookup tb i c :
  registered tb -> abs tb !! i = Some c <-> exists r, r ∈ tb_rows tb /\ r_id r = i /\ scanConnectionWithHash r = inl c.
Proof.
  intros H. unfold abs. rewrite <- elem_of_list_to_map by by apply entries_NoDup, registered_NoDup.
  rewrite list_elem_of_omap. by setoid_rewrite entry_Some.
Qed.

(** Two tables with the same rows, read, are the same connections. *)
Lemma abs_ext tb m :
  registered tb ->
  (forall i c, m !! i = Some c <-> exists r, r ∈ tb_rows tb /\ r_id r = i /\ scanConnectionWithHash r = inl c) -> abs tb = m.
Proof.
  intros H Hm. apply map_eq. intros i. apply option_eq. intros c. by rewrite Hm, abs_lookup.
Qed.

Lemma abs_is_Some tb i : readable tb -> registered tb -> i ∈ (r_id <$> tb_rows tb) -> is_Some (abs tb !! i).
Proof.
  intros Hr Hreg (r & -> & Hin)%list_elem_of_fmap. destruct (proj1 (Forall_forall _ _) Hr r Hin) as [c Hc].
  exists c. apply abs_lookup; [done|]. by exists r.
Qed.

(** A row of the table, found by its identifier. *)
Lemma abs_row tb r c : registered tb -> r ∈ tb_rows tb -> scanConnectionWithHash r = inl c -> abs tb !! r_id r = Some c.
Proof. intros H Hr Hc. apply abs_lookup; [done|]. by exists r. Qed.

Lemma abs_empty : abs empty_table = ∅.
Proof. done. Qed.

Lemma abs_size tb : registered tb -> readable tb -> size (abs tb) = length (tb_rows tb).
Proof.
  intros Hreg Hread. unfold abs. rewrite map_size_list_to_map by by apply entries_NoDup, registered_NoDup.
  clear Hreg. induction Hread as [|r rows [c Hc] _ IH]; [done|]. cbn [omap list_omap]. unfold entry. rewrite Hc. cbn. by f_equal.
Qed.

(** An UPDATE that changes a readable row as [f] changes its connection. *)
Lemma abs_update id set f tb :
  registered tb -> registered (sql_update id set tb).2 -> readable tb ->
  (forall r, r_id (set r) = r_id r) ->
  (forall r c, written r -> scanConnectionWithHash r = inl c -> scanConnectionWithHash (set r) = inl (f c)) ->
  abs (sql_update id set tb).2 = alter f id (abs tb) /\ readable (sql_update id set tb).2.
Proof.
  intros Hreg Hreg' Hread Hid Hf.
  assert (Hrow : forall r, r ∈ tb_rows tb -> exists c, scanConnectionWithHash r = inl c /\ scanConnectionWithHash (set r) = inl (f c)).
  { intros r Hr. destruct (proj1 (Forall_forall _ _) Hread r Hr) as [c Hc]. exists c. split; [done|].
    apply Hf; [|done]. by apply (proj1 (Forall_forall _ _) (rows_written _ Hreg)). }
  split.
  - apply abs_ext; [done|]. intros i c. cbn [sql_update snd tb_rows]. setoid_rewrite list_elem_of_fmap. split.
    + intros H. destruct (decide (i = id)) as [->|Hne].
      * rewrite lookup_alter_eq in H. apply fmap_Some in H as (c0 & (r & Hr & Ei & Hc)%abs_lookup & ->); [|done].
        exists (set r). split; [exists r; by rewrite bool_decide_eq_true_2|]. rewrite Hid. split; [done|].
        destruct (Hrow r Hr) as (c1 & Hc1 & Hs). rewrite Hc in Hc1. by injection Hc1 as <-.
      * rewrite lookup_alter_ne in H by done. apply abs_lookup in H as (r & Hr & Ei & Hc); [|done].
        exists r. split; [exists r; by rewrite bool_decide_eq_false_2 by congruence|done].
    + intros (r' & (r & -> & Hr) & Ei & Hc). destruct (Hrow r Hr) as (c0 & Hc0 & Hs). case_bool_decide as Eid.
      * rewrite Hid in Ei. subst i id. rewrite lookup_alter_eq, (abs_row tb r c0) by done. cbn. congruence.
      * subst i. rewrite lookup_alter_ne by done. by apply abs_row.
  - unfold readable. cbn [sql_update snd tb_rows]. apply Forall_fmap, Forall_forall. intros r Hr. cbn.
    destruct (Hrow r Hr) as (c & Hc & Hs). case_bool_decide; eauto.
Qed.

(** A DELETE of the rows whose connections satisfy [P]. *)
Lemma abs_delete cond (P : Z * Connection -> Prop) `{forall ic, Decision (P ic)} tb :
  registered tb -> registered (sql_delete cond tb).2 -> readable tb ->
  (forall r c, r ∈ tb_rows tb -> scanConnectionWithHash r = inl c -> cond r = false <-> P (r_id r, c)) ->
  abs (sql_delete cond tb).2 = filter P (abs tb) /\ readable (sql_delete cond tb).2.
Proof.
  intros Hreg Hreg' Hread HP. split.
  - apply abs_ext; [done|]. intros i c. rewrite map_lookup_filter_Some, abs_lookup by done. cbn [sql_delete snd tb_rows].
    setoid_rewrite list_elem_of_filter. split.
    + intros [(r & Hr & <- & Hc) Hp]. exists r. split_and!; try done. by apply (HP r c).
    + intros (r & [Hd Hr] & <- & Hc). split; [by exists r|]. by apply (HP r c).
  - apply Forall_forall. intros r Hr. cbn [sql_delete snd tb_rows] in Hr. apply list_elem_of_filter in Hr as [_ Hr].
    by apply (proj1 (Forall_forall _ _) Hread).
Qed.
End Abstraction.

(** ** Rows as connections *)

Section Rows.
Context {T : TimeParser}.

Lemma scan_set_password r c hash enc now :
  four_digits now -> scanConnectionWithHash r = inl c ->
  scanConnectionWithHash (set_password hash enc now r) = inl (with_credentials hash now c).
Proof.
  intros Hn. unfold scanConnectionWithHash, finishScan, set_password.
  cbn [r_id r_name r_agent_username r_agent_password_hash r_upstream_url r_max_rows r_gate_mutations r_pii_rules r_created_at
       r_expires_at r_rotate_every r_rotated_at].
  destruct (unmarshal_rules (r_pii_rules r)); [|done]. cbv zeta. intros [= <-].
  rewrite (bool_decide_eq_false_2 (formatTimestamp now = EmptyString)) by apply formatTimestamp_nonempty.
  by rewrite ParseTime_written.
Qed.

Lemma scan_set_policy r c inp :
  four_digits (ui_ExpiresAt inp) ->
  scanConnectionWithHash r = inl c -> scanConnectionWithHash (set_policy inp r) = inl (edited inp c).
Proof.
  intros He. unfold scanConnectionWithHash, finishScan, set_policy.
  cbn [r_id r_name r_agent_username r_agent_password_hash r_upstream_url r_max_rows r_gate_mutations r_pii_rules r_created_at
       r_expires_at r_rotate_every r_rotated_at].
  destruct (unmarshal_rules (r_pii_rules r)); [|done]. rewrite rules_back. cbv zeta. intros [= <-]. unfold edited. cbn. f_equal. f_equal.
  - by destruct (ui_GateMutations inp).
  - destruct (ui_SetExpiry inp); [|done]. by apply expiry_read.
  - destruct (ui_SetRotateEvery inp); [|done].
    destruct (Z.ltb_spec (ui_RotateEvery inp) 0); [cbn; lia|]. destruct (Z.ltb_spec 0 (ui_RotateEvery inp)); lia.
Qed.

Lemma due_rotation_id now r d : due_rotation now r = Some d -> rot_ID d = r_id r.
Proof. unfold due_rotation. destruct (ParseTime _); [|done]. destruct (Before _ _); [done|]. by intros [= <-]. Qed.

Lemma due_NoDup now rows :
  NoDup (r_id <$> rows) -> NoDup (rot_ID <$> omap (due_rotation now) (filter (fun r => 0 < r_rotate_every r)%Z rows)).
Proof.
  induction rows as [|r l IH]; [constructor|]. rewrite fmap_cons. intros [Hr Hnd]%NoDup_cons. specialize (IH Hnd).
  destruct (decide (0 < r_rotate_every r)%Z); [rewrite filter_cons_True by done|by rewrite filter_cons_False].
  cbn [omap list_omap]. destruct (due_rotation now r) as [d|] eqn:Ed; [|done]. rewrite fmap_cons. apply NoDup_cons.
  split; [|done]. intros (d' & E' & (r' & [_ Hr']%list_elem_of_filter & Hd'%due_rotation_id)%list_elem_of_omap)%list_elem_of_fmap.
  apply due_rotation_id in Ed. apply Hr. replace (r_id r) with (r_id r') by congruence. by apply (list_elem_of_fmap_2 r_id).
Qed.

(** A row that is due is a connection that is due. *)
Lemma due_rotation_scan now r d c :
  written r -> (0 < r_rotate_every r)%Z -> due_rotation now r = Some d -> scanConnectionWithHash r = inl c ->
  rot_ID d = r_id r /\ (cn_RotatedAt c + cn_RotateEvery c <= now)%Z /\ rot_NextRotationAt d = (now + cn_RotateEvery c)%Z.
Proof.
  intros [_ (t & Ht & Et)] He. unfold due_rotation, scanConnectionWithHash, finishScan. rewrite Et, ParseTime_written by done.
  unfold Before. case_bool_decide as Hb; [done|]. intros [= <-]. destruct (unmarshal_rules _); [|done]. cbv zeta. intros [= <-].
  cbn [cn_RotatedAt cn_RotateEvery rot_ID rot_NextRotationAt].
  rewrite (bool_decide_eq_false_2 (formatTimestamp t = EmptyString)) by apply formatTimestamp_nonempty.
  rewrite (proj2 (Z.ltb_lt _ _) He). cbn [default]. split_and!; [done|lia|done].
Qed.
End Rows.

(** ** The operations, with the events they report *)

Section Refinement.
Context {U : Unicode} {W : Type} {T : TimeParser} {G : GCM} {R : Rand W} {C : Clock W}
        {BG : BcryptGenerate W} {B : Bcrypt} {E : Engine W}.

Definition perform (op : Op) : M (DB W) (list Event) :=
  match op with
  | OpCreate inp =>
      r <- Create inp ;; ret (match r with inl (c, pw) => [Created inp (without_password c) pw] | inr _ => [] end)
  | OpRotate id => r <- Rotate id ;; ret (match r with inl pw => [Rotated id pw] | inr _ => [] end)
  | OpRotateDue now =>
      r <- RotateDue now ;; ret ((fun d => RotatedAutomatically (rot_ID d) (rot_NextRotationAt d)) <$> r.1)
  | OpUpdate id inp => r <- Update id inp ;; ret (match r with inl _ => [Updated id inp] | inr _ => [] end)
  | OpDelete id => r <- Delete id ;; ret (match r with inl _ => [Deleted id] | inr _ => [] end)
  | OpDeleteExpired now => r <- DeleteExpired now ;; ret (match r with inl n => [Swept now n] | inr _ => [] end)
  | OpList => r <- List ;; ret []
  | OpGetByUsername username =>
      r <- connection_by_username username ;; ret (match r with inl c => [Found username c] | inr _ => [] end)
  | OpUseSecret secret => modify (UseSecret secret) ;; ret []
  end.

Fixpoint perform_all (ops : list Op) : M (DB W) (list Event) :=
  match ops with
  | [] => ret []
  | op :: ops' => es <- perform op ;; es' <- perform_all ops' ;; ret (es ++ es')
  end.

Hypothesis Hclock : forall w : W, four_digits (Now w).1.
Hypothesis Hbcrypt : forall pw (w : W) hash w', bcrypt_generate pw w = (Some hash, w') -> bcrypt_matches hash pw = true.

(** The table is in its invariant, and every row can be read. *)
Definition sound (s : DB W) : Prop := registered (db_table s) /\ readable (db_table s).

(** What an operation does to the connections of a sound table. *)
Definition refines (m : M (DB W) (list Event)) : Prop :=
  forall s, sound s ->
    wp m (fun es s' => sound s' /\ spec_steps es (abs (db_table s)) (abs (db_table s')))
      (fun s' => sound s' /\ abs (db_table s') = abs (db_table s)) s.

Lemma same_table (s s' : DB W) : db_table s' = db_table s -> sound s -> sound s' /\ spec_steps [] (abs (db_table s)) (abs (db_table s')).
Proof. unfold sound. intros ->. by split; [|constructor]. Qed.

Lemma wp_both {A} (m : M (DB W) A) Q Q' Ex Ex' s :
  wp m Q Ex s -> wp m Q' Ex' s -> wp m (fun a s' => Q a s' /\ Q' a s') (fun s' => Ex s' /\ Ex' s') s.
Proof. unfold wp. by destruct (m s). Qed.

(** An operation known to keep the invariant. *)
Lemma with_invariant {A} (m : M (DB W) A) Q Ex s :
  preserves (on_table registered) m -> registered (db_table s) -> wp m Q Ex s ->
  wp m (fun a s' => Q a s' /\ registered (db_table s')) (fun s' => Ex s' /\ registered (db_table s')) s.
Proof. intros Hi Hs H. apply wp_both; [exact H|]. by apply Hi. Qed.

Lemma wp_affecting {A} (f : Table -> nat * Table) (a : A) Q Ex (s : DB W) :
  (forall w, (f (db_table s)).1 <> 0 -> Q (inl a) (mkDB (db_key s) (f (db_table s)).2 w)) ->
  (forall e w, Q (inr e) (mkDB (db_key s) (db_table s) w)) ->
  ((f (db_table s)).1 = 0 -> (f (db_table s)).2 = db_table s) ->
  wp (try (sql f) (fun n => if (n =? 0)%nat then ret (inr ErrNotFound) else ret (inl a))) Q Ex s.
Proof.
  intros Hok Herr Hf. apply wp_try, wp_sql; [intros msg w; apply Herr|]. intros w.
  destruct (Nat.eqb_spec (f (db_table s)).1 0) as [E0|E0]; apply wp_ret; [|by apply Hok]. rewrite Hf by done. apply Herr.
Qed.

(** Encrypting leaves the table alone. *)
Lemma encrypt_table pw (s : DB W) : wp (encrypt pw) (fun _ s' => db_table s' = db_table s /\ db_key s' = db_key s) (fun _ => False) s.
Proof.
  unfold encrypt. apply wp_bind, wp_get. destruct (db_key s) as [k|] eqn:Ek; [|by apply wp_ret]. case_bool_decide; [by apply wp_ret|].
  apply wp_bind, wp_world_db. destruct (fst (rand_read _ _)); apply wp_ret; by rewrite <- Ek.
Qed.

Lemma rotate_spec id now (s : DB W) :
  wp (rotate id now) (fun r s' =>
    match r with
    | inl pw => exists hash enc, bcrypt_matches hash pw = true /\ id ∈ (r_id <$> tb_rows (db_table s))
                  /\ db_table s' = (sql_update id (set_password hash enc now) (db_table s)).2
    | inr _ => db_table s' = db_table s
    end) (fun _ => False) s.
Proof.
  unfold rotate. apply wp_try, wp_token; [intros b w _|done]. apply wp_try. unfold GenerateFromPassword.
  apply wp_bind, wp_world_db. cbn [db_world db_key db_table].
  destruct (bcrypt_generate _ w) as [[hash|] w2] eqn:Eb; cbn [fst snd]; apply wp_ret; [|done].
  apply wp_try. eapply wp_mono; [apply encrypt_table| |done]. cbn [db_table db_key]. intros [enc|e] s3 [Et Ek]; [|done].
  apply wp_affecting; rewrite Et.
  - intros w3 Hn. exists hash, enc. split; [by eapply Hbcrypt|]. split; [|done]. by eapply affected_id; [|exact Hn].
  - done.
  - apply update_absent.
Qed.

Lemma rotate_refines id now (s : DB W) :
  four_digits now -> sound s ->
  wp (rotate id now) (fun r s' =>
    match r with
    | inl pw => sound s' /\ is_Some (abs (db_table s) !! id) /\ exists hash, bcrypt_matches hash pw = true
                  /\ abs (db_table s') = alter (with_credentials hash now) id (abs (db_table s))
    | inr _ => db_table s' = db_table s
    end) (fun _ => False) s.
Proof.
  intros Hn [Hreg Hread].
  eapply wp_mono; [apply with_invariant; [by apply rotate_inv|done|apply rotate_spec]| |by intros s' [[] _]].
  intros [pw|e] s' [H Hreg']; [|done]. destruct H as (hash & enc & Hm & Hin & Ht). rewrite Ht in Hreg'.
  destruct (abs_update id (set_password hash enc now) (with_credentials hash now) (db_table s) Hreg Hreg' Hread) as [Ha Hr];
    [done|intros; by apply scan_set_password|].
  unfold sound. rewrite Ht. split_and!; [done..|by apply abs_is_Some|by exists hash].
Qed.

Lemma rotate_all_refines due now (s : DB W) :
  four_digits now -> NoDup (rot_ID <$> due) -> sound s ->
  (forall d c, d ∈ due -> abs (db_table s) !! rot_ID d = Some c ->
     (cn_RotatedAt c + cn_RotateEvery c <= now)%Z /\ rot_NextRotationAt d = (now + cn_RotateEvery c)%Z) ->
  wp (rotate_all due now) (fun r s' => sound s' /\
    spec_steps ((fun d => RotatedAutomatically (rot_ID d) (rot_NextRotationAt d)) <$> r.1) (abs (db_table s)) (abs (db_table s')))
    (fun _ => False) s.
Proof.
  intros Hn. revert s. induction due as [|d due IH]; intros s Hnd Hs Hdue; cbn [rotate_all].
  { apply wp_ret. by apply same_table. }
  rewrite fmap_cons in Hnd. apply NoDup_cons in Hnd as [Hd Hnd].
  apply wp_bind. eapply wp_mono; [by apply rotate_refines| |done]. intros r s1 Hr. apply wp_bind.
  destruct r as [pw|e].
  - destruct Hr as (Hs1 & Hin & hash & _ & Ha).
    eapply wp_mono; [apply IH; [done..|]| |done].
    + intros d' c Hd' Hc. rewrite Ha, lookup_alter_ne in Hc; [by apply Hdue; [right|]|].
      intros E'. apply Hd. rewrite E'. by apply (list_elem_of_fmap_2 rot_ID).
    + intros rest s2 [Hs2 Hst]. apply wp_ret. split; [done|]. cbn [fst fmap list_fmap]. eapply spec_cons; [|exact Hst].
      split; [exact Hin|]. exists hash, now. split; [done|]. intros c Hc. apply Hdue; [left|done].
  - eapply wp_mono; [apply IH; [done|..]| |done].
    + by apply (same_table s).
    + rewrite Hr. intros d' c Hd'. apply Hdue. by right.
    + rewrite Hr. intros rest s2 H2. apply wp_ret. destruct e; exact H2.
Qed.

(** A creation that fails leaves the table alone. *)
Lemma insert_attempts_table n inp hash enc t key tb w :
  wp (insert_attempts n inp hash enc t) (fun r s' => db_table s' = tb \/ exists id username, r = inl (Some (id, username)))
    (fun s' => db_table s' = tb) (mkDB key tb w).
Proof.
  revert w. induction n as [|n IH]; intros w; cbn [insert_attempts]; [by apply wp_ret; left|].
  apply wp_try, wp_token; [intros b w1 _|by left]. destruct (_ <? 6)%nat; [by apply wp_panic|]. cbv zeta.
  apply wp_bind, wp_sql; cbn [db_key db_table].
  - intros msg w'. destruct (isUniqueViolation _); [apply IH|by apply wp_ret; left].
  - intros w'. unfold sql_insert. case_bool_decide; cbn [fst snd].
    + destruct (isUniqueViolation _); [apply IH|by apply wp_ret; left].
    + apply wp_ret. right. eauto.
Qed.

Lemma Create_table inp (s : DB W) :
  wp (Create inp) (fun r s' => match r with inl _ => True | inr _ => db_table s' = db_table s end)
    (fun s' => db_table s' = db_table s) s.
Proof.
  unfold Create. do 2 (case_bool_decide; [by apply wp_ret|]).
  apply wp_try, wp_token; [intros b w _|done]. apply wp_try. unfold GenerateFromPassword. apply wp_bind, wp_world_db.
  cbn [db_world db_key db_table]. destruct (fst (bcrypt_generate _ w)); apply wp_ret; [|done]. apply wp_try.
  eapply wp_mono; [apply encrypt_table| |done]. cbn [db_table db_key]. intros [enc|e] s3 [Et Ek]; [|done].
  apply wp_bind, wp_world_db, wp_try. rewrite Et, Ek. eapply wp_mono; [apply insert_attempts_table| |done].
  intros r s4 Hi. assert (Hr : db_table s4 = db_table s \/ exists id username, r = inl (Some (id, username))) by exact Hi.
  destruct r as [[[id username]|]|e]; [by apply wp_ret|apply wp_ret|]; by destruct Hr as [Hr|(i & u & Hr)].
Qed.

Lemma sorted_last l x : StronglySorted Z.lt (l ++ [x]) -> Forall (fun y => y < x)%Z l.
Proof.
  induction l as [|y l IH]; [done|]. cbn. intros [Hs Hy]%StronglySorted_inv. constructor; [|by apply IH].
  rewrite Forall_forall in Hy. apply Hy. set_solver.
Qed.

(** Inserting the row of a new connection. *)
Lemma abs_insert tb tb' r c :
  registered tb -> registered tb' -> readable tb -> tb_rows tb' = tb_rows tb ++ [r] -> scanConnectionWithHash r = inl c ->
  abs tb' = <[r_id r := c]> (abs tb) /\ readable tb'.
Proof.
  intros Hreg Hreg' Hread Hrows Hc. split.
  - apply abs_ext; [done|]. intros i c'. rewrite Hrows. setoid_rewrite elem_of_app. setoid_rewrite list_elem_of_singleton.
    rewrite lookup_insert_Some. split.
    + intros [[<- <-]|[Hne (r' & Hr' & Ei & Hc')%abs_lookup]]; [by exists r; split_and!; [right|..]|exists r'; by split_and!; [left|..]|done].
    + intros (r' & [Hr'| ->] & Ei & Hc'); [|left; split; [done|congruence]]. right. split.
      * pose proof (ids_ordered _ Hreg') as Hs. rewrite Hrows, fmap_app in Hs. apply sorted_last in Hs.
        rewrite Forall_fmap, Forall_forall in Hs. specialize (Hs r' Hr'). cbn in Hs. lia.
      * apply abs_lookup; [done|]. by exists r'.
  - unfold readable. rewrite Hrows. apply Forall_app. split; [exact Hread|]. constructor; [by exists c|constructor].
Qed.

Lemma Create_refines inp :
  four_digits (ci_ExpiresAt inp) -> refines (perform (OpCreate inp)).
Proof.
  intros He s [Hreg Hread]. cbn [perform]. apply wp_bind.
  eapply wp_mono; [apply with_invariant; [by apply Create_inv|done|apply wp_both; [apply Create_spec|apply Create_table]]| |].
  - intros [[c pw]|e] s' [[Hok Hbad] Hreg']; apply wp_ret.
    2:{ by apply (same_table s). }
    destruct (Hok c pw eq_refl) as (w1 & hash & w2 & enc & s2 & s3 & t & Hb & _ & _ & Et & _ & Hfree & Hrows & _ & _ & Ec).
    assert (Hscan : scanConnectionWithHash (new_row inp (cn_AgentUsername c) hash enc t (cn_ID c)) = inl (as_stored (without_password c))).
    { unfold scanConnectionWithHash. rewrite finishScan_stored; [by rewrite Ec|by rewrite Et|done]. }
    destruct (abs_insert (db_table s) (db_table s') _ _ Hreg Hreg' Hread Hrows Hscan) as [Ha Hr].
    split; [by split|]. apply spec_one. split_and!; [by rewrite Ec| | |exact Ha].
    + intros i c' (r & Hr' & <- & Hc')%abs_lookup; [|done]. split.
      * pose proof (ids_ordered _ Hreg') as Hs. rewrite Hrows, fmap_app in Hs. apply sorted_last in Hs.
        rewrite Forall_fmap, Forall_forall in Hs. exact (Hs r Hr').
      * intros E'. apply Hfree. change (cn_AgentUsername c) with (cn_AgentUsername (without_password c)). rewrite <- E'.
        replace (cn_AgentUsername c') with (r_agent_username r); [by apply (list_elem_of_fmap_2 r_agent_username)|].
        revert Hc'. unfold scanConnectionWithHash, finishScan. destruct (unmarshal_rules _); [|done]. by intros [= <-].
    + rewrite Ec. by eapply Hbcrypt.
  - intros s' [[_ Ht] _]. unfold sound. by rewrite Ht.
Qed.

Lemma RotateDue_refines now : four_digits now -> refines (perform (OpRotateDue now)).
Proof.
  intros Hn s [Hreg Hread]. cbn [perform]. apply wp_bind. unfold RotateDue. apply wp_bind, wp_sql.
  { intros msg w. apply wp_ret, wp_ret. by apply (same_table s). }
  intros w. cbn [fst snd]. set (due := omap _ _).
  assert (Hd : forall d, d ∈ due -> exists r c, r ∈ tb_rows (db_table s) /\ rot_ID d = r_id r /\ scanConnectionWithHash r = inl c
    /\ (cn_RotatedAt c + cn_RotateEvery c <= now)%Z /\ rot_NextRotationAt d = (now + cn_RotateEvery c)%Z).
  { intros d (r & [Hev Hr]%list_elem_of_filter & Hd)%list_elem_of_omap. destruct (proj1 (Forall_forall _ _) Hread r Hr) as [c Hc].
    exists r, c. destruct (due_rotation_scan now r d c) as (H1 & H2 & H3); [|done..|by split_and!].
    by apply (proj1 (Forall_forall _ _) (rows_written _ Hreg)). }
  eapply wp_mono; [apply rotate_all_refines; [done| |by split|]| |done].
  - by apply due_NoDup, registered_NoDup.
  - intros d c Hin Hc. destruct (Hd d Hin) as (r & c0 & Hr & Eid & Hc0 & H1). rewrite Eid in Hc. cbn [db_table] in Hc.
    rewrite (abs_row _ r c0) in Hc by done. by injection Hc as <-.
  - intros r s' H. by apply wp_ret.
Qed.

Lemma DeleteExpired_refines now : four_digits now -> refines (perform (OpDeleteExpired now)).
Proof.
  intros Hn s [Hreg Hread]. cbn [perform]. apply wp_bind. unfold DeleteExpired. apply wp_try, wp_sql.
  { intros msg w. apply wp_ret. by apply (same_table s). }
  intros w. apply wp_ret, wp_ret. pose proof (delete_registered (expiry_passed now) _ Hreg) as Hreg'.
  destruct (abs_delete (expiry_passed now) (fun ic => Expired ic.2 now = false) (db_table s) Hreg Hreg' Hread) as [Ha Hr].
  { intros r c Hr Hc. destruct (proj1 (Forall_forall _ _) (rows_written _ Hreg) r Hr) as [(t & Ht & Et) _]. cbn [snd].
    rewrite <- !not_true_iff_false, (expiry_passed_spec r t now Ht Et Hn), Expired_iff, (scan_expiry r c t Ht Et Hc). tauto. }
  split; [by split|]. apply spec_one. split; [exact Ha|]. cbn [db_table].
  rewrite !abs_size by done. apply delete_count.
Qed.

Lemma Delete_refines id : refines (perform (OpDelete id)).
Proof.
  intros s [Hreg Hread]. cbn [perform]. apply wp_bind. unfold Delete. apply wp_affecting.
  - intros w Hn. apply wp_ret. pose proof (delete_registered (fun r => bool_decide (r_id r = id)) _ Hreg) as Hreg'.
    destruct (abs_delete (fun r => bool_decide (r_id r = id)) (fun ic => ic.1 <> id) (db_table s) Hreg Hreg' Hread) as [Ha Hr].
    { intros r c _ _. by rewrite bool_decide_eq_false. }
    split; [by split|]. apply spec_one. split.
    + apply abs_is_Some; [done..|]. eapply affected_id; [|exact Hn]. by intros r Hr'%bool_decide_eq_true.
    + cbn [db_table]. rewrite Ha. apply map_eq. intros i. apply option_eq. intros c.
      rewrite map_lookup_filter_Some, lookup_delete_Some. cbn. naive_solver.
  - intros e w. apply wp_ret. by apply (same_table s).
  - apply delete_absent.
Qed.

Lemma Update_refines id inp :
  four_digits (ui_ExpiresAt inp) -> refines (perform (OpUpdate id inp)).
Proof.
  intros He s [Hreg Hread]. cbn [perform]. apply wp_bind.
  assert (Hi := Update_inv id inp He s Hreg). unfold wp in *. destruct (Update id inp s) as [res s'|s'] eqn:Eu.
  - apply Update_spec in Eu as [(-> & Hin & Ht)|[[e ->] Ht]]; [|by apply (same_table s)].
    unfold on_table in Hi. rewrite Ht in Hi.
    destruct (abs_update id (set_policy inp) (edited inp) (db_table s) Hreg Hi Hread) as [Ha Hr];
      [done|intros; by apply scan_set_policy|].
    cbn [ret]. unfold sound. rewrite Ht. split; [by split|]. apply spec_one. split; [by apply abs_is_Some|exact Ha].
  - exfalso. revert Eu. unfold Update. case_bool_decide; [done|]. unfold try, sql, bind, world_db, ret.
    destruct (fst (db_error _)); [done|]. by destruct (_ =? 0)%nat.
Qed.

Lemma scan_username r c : scanConnectionWithHash r = inl c -> cn_AgentUsername c = r_agent_username r.
Proof. unfold scanConnectionWithHash, finishScan. destruct (unmarshal_rules _); [|done]. by intros [= <-]. Qed.

Lemma perform_refines op : in_range op -> refines (perform op).
Proof.
  intros Hr. destruct op; cbn [in_range] in Hr.
  - by apply Create_refines.
  - intros s Hs. cbn [perform]. apply wp_bind. unfold Rotate. apply wp_bind, wp_world_db.
    eapply wp_mono; [apply rotate_refines; [apply Hclock|by destruct Hs]| |done].
    intros [pw|e] s' H; apply wp_ret; [|by apply (same_table s)]. destruct H as (Hs' & Hin & hash & Hm & Ha).
    split; [done|]. apply spec_one. split; [exact Hin|]. by eexists _, _.
  - by apply RotateDue_refines.
  - by apply Update_refines.
  - apply Delete_refines.
  - by apply DeleteExpired_refines.
  - intros s Hs. cbn [perform]. apply wp_bind. unfold List. apply wp_bind, wp_sql.
    + intros msg w. apply wp_bind, wp_get, wp_ret, wp_ret. by apply (same_table s).
    + intros w. apply wp_bind, wp_get, wp_ret, wp_ret. by apply (same_table s).
  - intros s [Hreg Hread]. cbn [perform]. apply wp_bind. unfold connection_by_username. apply wp_bind, wp_sql.
    { intros msg w. apply wp_ret, wp_ret. by apply (same_table s). }
    intros w. cbn [fst snd]. destruct (filter _ _) as [|r rows] eqn:Ef; [apply wp_ret, wp_ret; by apply (same_table s)|].
    assert (r ∈ filter (fun r => r_agent_username r = username) (tb_rows (db_table s))) as [Hu Hin]%list_elem_of_filter
      by (rewrite Ef; left).
    apply wp_ret, wp_ret. destruct (scanConnectionWithHash r) as [c|e] eqn:Ec; [|by apply (same_table s)].
    split; [by split|]. apply spec_one. split; [done|]. split; [by rewrite (scan_username _ _ Ec)|].
    exists (r_id r). by apply abs_row.
  - intros s Hs. cbn [perform]. apply wp_bind, wp_modify, wp_ret. by apply (same_table s).
Qed.

Lemma perform_all_refines ops s :
  Forall in_range ops -> sound s ->
  wp (perform_all ops) (fun es s' => spec_steps es (abs (db_table s)) (abs (db_table s')))
    (fun s' => exists es, spec_steps es (abs (db_table s)) (abs (db_table s'))) s.
Proof.
  intros Hops. revert s. induction Hops as [|op ops Hop _ IH]; intros s Hs; cbn [perform_all]; [apply wp_ret; constructor|].
  apply wp_bind. eapply wp_mono; [by apply perform_refines| |].
  - intros es s1 [Hs1 Hst]. apply wp_bind. eapply wp_mono; [by apply IH| |].
    + intros es' s2 Hst'. apply wp_ret. by eapply spec_app.
    + intros s2 [es' Hst']. exists (es ++ es'). by eapply spec_app.
  - intros s1 [_ ->]. exists []. constructor.
Qed.

(** C5.  The registry refines its abstract specification: whatever sequence of
    operations runs on an empty registry, and whatever fails on the way, the
    events that the operations report to their callers (a created connection with
    its password, a rotation, an edit, a deletion, a sweep with its count, a
    connection found) are a run of the specification from the empty map to the
    connections that the table holds.  The times in the inputs are in years of four
    digits; rules may have any bytes, and intervals any sign. *)
Theorem registry_refines ops key w :
  Forall in_range ops ->
  match perform_all ops (mkDB key empty_table w) with
  | Ok es s' => spec_steps es ∅ (abs (db_table s'))
  | Panic s' => exists es, spec_steps es ∅ (abs (db_table s'))
  end.
Proof.
  intros Hops. apply (perform_all_refines ops (mkDB key empty_table w) Hops).
  split; [apply empty_registered|constructor].
Qed.
End Refinement.

(** ** The theorem at a concrete input *)

Module SpecWitnesses.
Import RegistryWitnesses.
#[local] Existing Instances ascii_only clock random bcrypt bcrypt_check engine gcm no_other_layout.

Lemma bcrypt_ok pw (w : unit) hash w' : bcrypt_generate pw w = (Some hash, w') -> bcrypt_matches hash pw = true.
Proof. intros [= <- <-]. by apply bool_decide_eq_true_2. Qed.

Definition edit : UpdateInput := mkUpdateInput "Orders" 50 false email_rules true (noon + hour)%Z false 0%Z.
Definition operations : list Op :=
  [OpCreate input; OpGetByUsername "orders_db_aaaaaa"; OpUpdate 1 edit; OpRotateDue (noon + 2 * hour)%Z; OpCreate input;
   OpDeleteExpired (noon + 2 * hour)%Z; OpDelete 1].

Lemma registry_refines_witness :
  match perform_all operations empty with
  | Ok es s' => length es = 5 /\ spec_steps es ∅ (abs (db_table s'))
  | Panic _ => False
  end.
Proof.
  assert (Hops : Forall in_range operations).
  { repeat constructor; apply in_range_year; vm_compute; reflexivity. }
  pose proof (registry_refines clock_ok bcrypt_ok operations (Some [1%N]) tt Hops) as H.
  assert (Hl : exists es s', perform_all operations empty = Ok es s' /\ length es = 5)
    by (eexists _, _; split; vm_compute; reflexivity).
  destruct Hl as (es & s' & E & Hl). unfold empty in *. rewrite E in *. by split.
Defined.
End SpecWitnesses.
