(* ===== verification/Migrate.v ===== *)
(** * Opening the registry (Open and migrate of internal/store/store.go)

    A database file is the columns of its table, if there is one, and the rows;
    columns that the file's table lacks hold nothing yet.  migrate creates the
    table, adds the columns of later versions and fills in the time of the last
    rotation. *)

From S2P Require Import Prelude GoStrings GoText Timestamp Store Registry.

(** ** Data *)

(** The columns that came after the first version. *)
Inductive Column : Type := agent_password_enc | expires_at | rotate_every | rotated_at.

#[export] Instance Column_eq_dec : EqDecision Column.
Proof. solve_decision. Defined.

Record File : Type := mkFile { fl_columns : option (list Column); fl_table : Table }.

Definition added_columns : list Column := [agent_password_enc; expires_at; rotate_every; rotated_at].

(** A row whose new column has its default. *)
Definition set_default (col : Column) (r : Row) : Row :=
  let enc := if col is agent_password_enc then EmptyString else r_agent_password_enc r in
  let expires := if col is expires_at then EmptyString else r_expires_at r in
  let every := if col is rotate_every then 0%Z else r_rotate_every r in
  let rotated := if col is rotated_at then EmptyString else r_rotated_at r in
  mkRow (r_id r) (r_name r) (r_agent_username r) (r_agent_password_hash r) enc (r_upstream_url r) (r_max_rows r)
    (r_gate_mutations r) (r_pii_rules r) (r_created_at r) expires every rotated.

(** [UPDATE connections SET rotated_at = created_at WHERE rotated_at = ''] *)
Definition fill_rotated (r : Row) : Row :=
  if bool_decide (r_rotated_at r = EmptyString) then
    mkRow (r_id r) (r_name r) (r_agent_username r) (r_agent_password_hash r) (r_agent_password_enc r) (r_upstream_url r)
      (r_max_rows r) (r_gate_mutations r) (r_pii_rules r) (r_created_at r) (r_expires_at r) (r_rotate_every r) (r_created_at r)
  else r.

Definition map_rows (f : Row -> Row) (tb : Table) : Table := mkTable (f <$> tb_rows tb) (tb_seq tb).

(** [CREATE TABLE IF NOT EXISTS connections ...] *)
Definition create_table (fl : File) : File :=
  match fl_columns fl with
  | Some _ => fl
  | None => mkFile (Some added_columns) (mkTable [] 0)
  end.

(** [ALTER TABLE connections ADD COLUMN ...]: the message of its error, or the
    new file. *)
Definition alter_table (col : Column) (fl : File) : File + string :=
  match fl_columns fl with
  | None => inr "no such table: connections"
  | Some cols =>
      if bool_decide (col ∈ cols) then inr "duplicate column name"
      else inl (mkFile (Some (cols ++ [col])) (map_rows (set_default col) (fl_table fl)))
  end.

(** ** Operations *)

Section Open.
Context {U : Unicode} {W : Type} {E : Engine W}.

Abbreviation Go := (M (File * W)).

(** A statement: it fails for reasons of the engine, or on its own, without
    effect, or it changes the file. *)
Definition exec (f : File -> File + string) : Go (option string) := fun s =>
  let '(failed, w) := db_error s.2 in
  match failed with
  | Some msg => Ok (Some msg) (s.1, w)
  | None => match f s.1 with inl fl => Ok None (fl, w) | inr msg => Ok (Some msg) (s.1, w) end
  end.

Fixpoint add_columns (cols : list Column) : Go (option string) :=
  match cols with
  | [] => ret None
  | col :: cols' =>
      err <- exec (alter_table col) ;;
      match err with
      | Some msg => if Contains (ToLower msg) "duplicate column" then add_columns cols' else ret (Some msg)
      | None => add_columns cols'
      end
  end.

Definition migrate : Go (option string) :=
  err <- exec (fun fl => inl (create_table fl)) ;;
  if err is Some msg then ret (Some msg)
  else
    err <- add_columns added_columns ;;
    if err is Some msg then ret (Some msg)
    else exec (fun fl => inl (mkFile (fl_columns fl) (map_rows fill_rotated (fl_table fl)))).

(** [Open(path)] of a file that sql.Open accepts: the registry over its table,
    without a secret. *)
Definition Open (s : File * W) : (DB W + string) * (File * W) :=
  match migrate s with
  | Ok None s' => (inl (mkDB None (fl_table s'.1) s'.2), s')
  | Ok (Some msg) s' => (inr msg, s')
  | Panic s' => (inr EmptyString, s')
  end.
End Open.

(** ** Theorems *)

Section Theorems.
Context {U : Unicode} {W : Type} {E : Engine W} {T : TimeParser}.

(** The rows of a file, none in one without the table. *)
Definition rows_of (fl : File) : list Row := if fl_columns fl is Some _ then tb_rows (fl_table fl) else [].
Definition columns_of (fl : File) : list Column := default [] (fl_columns fl).

(** What a connection means in a file with these columns: without a column no
    password is kept, nothing expires, nothing rotates, and the last rotation is
    the creation, whatever a reader of the full row would find there. *)
Definition as_of (cols : list Column) (c : Connection) : Connection :=
  mkConnection (cn_ID c) (cn_Name c) (cn_AgentUsername c) (cn_UpstreamURL c) (cn_MaxRows c) (cn_GateMutations c)
    (cn_PIIRules c) (cn_CreatedAt c)
    (if decide (expires_at ∈ cols) then cn_ExpiresAt c else 0%Z)
    (if decide (rotate_every ∈ cols) then cn_RotateEvery c else 0%Z)
    (if decide (rotated_at ∈ cols) then cn_RotatedAt c else cn_CreatedAt c)
    (if decide (agent_password_enc ∈ cols) then cn_AgentPassword c else EmptyString) (cn_passwordHash c).

Definition read_as_of (cols : list Column) (c c' : Connection + StoreError) : Prop :=
  match c with inl c => c' = inl (as_of cols c) | inr _ => exists e, c' = inr e end.

(** A file of the current version. *)
Definition current (fl : File) : Prop :=
  (exists cols, fl_columns fl = Some cols /\ forall col, col ∈ added_columns -> col ∈ cols)
  /\ map_rows fill_rotated (fl_table fl) = fl_table fl.

(** The time of the last rotation that migrate fills in is the one that reading a
    row without it assumes. *)
Lemma finishScan_filled r password hash : finishScan (fill_rotated r) password hash = finishScan r password hash.
Proof.
  unfold fill_rotated. case_bool_decide as H; [|done]. unfold finishScan.
  cbn [r_id r_name r_agent_username r_upstream_url r_max_rows r_gate_mutations r_pii_rules r_created_at r_expires_at
       r_rotate_every r_rotated_at]. destruct (unmarshal_rules (r_pii_rules r)); [|done]. cbv zeta.
  rewrite (bool_decide_eq_true_2 (r_rotated_at r = EmptyString)) by done.
  destruct (bool_decide (r_created_at r = EmptyString)); [done|]. by destruct (ParseTime (r_created_at r)).
Qed.

Lemma map_rows_id f tb : (forall r, f r = r) -> map_rows f tb = tb.
Proof. intros H. destruct tb as [rows seq]. unfold map_rows. cbn. f_equal. rewrite <- (list_fmap_id rows) at 2. by apply list_fmap_ext. Qed.

Lemma fill_rotated_again r : fill_rotated (fill_rotated r) = fill_rotated r.
Proof.
  unfold fill_rotated. destruct (bool_decide (r_rotated_at r = EmptyString)) eqn:E1; cbn; [|by rewrite E1].
  by destruct (bool_decide (r_created_at r = EmptyString)).
Qed.

Lemma map_rows_map f g tb : map_rows f (map_rows g tb) = map_rows (fun r => f (g r)) tb.
Proof. destruct tb as [rows seq]. unfold map_rows. cbn. f_equal. by rewrite <- list_fmap_compose. Qed.

(** The message of a duplicate column is one that migrate ignores; any other
    failure of the engine ends it, unless it says so itself. *)
Lemma exec_None f s s' :
  exec f s = Ok None s' -> f s.1 = inl s'.1.
Proof.
  unfold exec. destruct (db_error s.2) as [[msg|] w]; [done|]. destruct (f s.1) eqn:Ef; [|done]. by intros [= <-].
Qed.

Lemma exec_Some f s msg s' : exec f s = Ok (Some msg) s' -> s'.1 = s.1.
Proof.
  unfold exec. destruct (db_error s.2) as [[msg'|] w]; [by intros [= _ <-]|]. destruct (f s.1); [done|]. by intros [= _ <-].
Qed.

(** No spurious message of the engine mentions a duplicate column. *)
Hypothesis Hengine : forall (w : W) msg, (db_error w).1 = Some msg -> Contains (ToLower msg) "duplicate column" = false.

(** A row with the defaults of several new columns. *)
Definition set_defaults (missing : list Column) (r : Row) : Row := foldl (fun r col => set_default col r) r missing.

Lemma set_defaults_eq missing r :
  set_defaults missing r =
    mkRow (r_id r) (r_name r) (r_agent_username r) (r_agent_password_hash r)
      (if decide (agent_password_enc ∈ missing) then EmptyString else r_agent_password_enc r) (r_upstream_url r) (r_max_rows r)
      (r_gate_mutations r) (r_pii_rules r) (r_created_at r)
      (if decide (expires_at ∈ missing) then EmptyString else r_expires_at r)
      (if decide (rotate_every ∈ missing) then 0%Z else r_rotate_every r)
      (if decide (rotated_at ∈ missing) then EmptyString else r_rotated_at r).
Proof.
  revert r. induction missing as [|col missing IH]; intros r; [by destruct r|]. change (set_defaults (col :: missing) r) with (set_defaults missing (set_default col r)).
  rewrite IH. unfold set_default. cbn [r_id r_name r_agent_username r_agent_password_hash r_agent_password_enc r_upstream_url r_max_rows
    r_gate_mutations r_pii_rules r_created_at r_expires_at r_rotate_every r_rotated_at].
  f_equal; destruct col; repeat destruct (decide _); try done; set_solver.
Qed.

(** Adding the columns gives every row the defaults of those that were missing. *)
Lemma add_columns_spec cols present s s' :
  fl_columns s.1 = Some present -> add_columns cols s = Ok None s' ->
  exists missing, (forall col, col ∈ missing <-> col ∈ cols /\ col ∉ present)
    /\ fl_columns s'.1 = Some (present ++ missing) /\ fl_table s'.1 = map_rows (set_defaults missing) (fl_table s.1).
Proof.
  revert present s. induction cols as [|col cols IH]; intros present s Hp.
  { intros [= <-]. exists []. split_and!; [set_solver|by rewrite app_nil_r|]. symmetry. by apply map_rows_id. }
  cbn [add_columns]. unfold bind, exec. destruct (db_error s.2) as [[msg|] w] eqn:Ew.
  { rewrite (Hengine s.2 msg) by by rewrite Ew. done. }
  unfold alter_table. rewrite Hp. case_bool_decide as Hin.
  - replace (Contains _ _) with true by (vm_compute; reflexivity). intros Ha.
    destruct (IH present (s.1, w) Hp Ha) as (missing & Hm & H). exists missing. split; [|exact H]. set_solver.
  - intros Ha. destruct (IH (present ++ [col]) (mkFile (Some (present ++ [col])) (map_rows (set_default col) (fl_table s.1)), w) eq_refl Ha)
      as (missing & Hm & Hc & Ht). exists (col :: missing). split_and!.
    + intros c. rewrite elem_of_cons, Hm, elem_of_app, list_elem_of_singleton, elem_of_cons.
      destruct (decide (c = col)) as [->|]; naive_solver.
    + rewrite Hc. by rewrite <- app_assoc.
    + rewrite Ht. cbn [fst fl_table]. by rewrite map_rows_map.
Qed.

(** A row with its defaults, read. *)
Lemma finishScan_defaults missing cols r password hash :
  (forall col, col ∈ missing <-> col ∉ cols) ->
  read_as_of cols (finishScan r (r_agent_password_enc r) hash)
    (finishScan (fill_rotated (set_defaults missing r)) (r_agent_password_enc (set_defaults missing r)) hash)
  /\ (agent_password_enc ∈ cols \/ password = EmptyString ->
      read_as_of cols (finishScan r password hash) (finishScan (fill_rotated (set_defaults missing r)) password hash)).
Proof.
  intros Hm. rewrite !finishScan_filled. rewrite set_defaults_eq. unfold finishScan.
  cbn [r_id r_name r_agent_username r_agent_password_hash r_agent_password_enc r_upstream_url r_max_rows
    r_gate_mutations r_pii_rules r_created_at r_expires_at r_rotate_every r_rotated_at].
  destruct (unmarshal_rules (r_pii_rules r)) as [rules|]; [|by split; [eexists|intros _; eexists]]. cbv zeta. cbn [read_as_of].
  unfold as_of. cbn [cn_ID cn_Name cn_AgentUsername cn_UpstreamURL cn_MaxRows cn_GateMutations cn_PIIRules cn_CreatedAt cn_ExpiresAt
    cn_RotateEvery cn_RotatedAt cn_AgentPassword cn_passwordHash].
  assert (Hd : forall (A : Type) col (a b : A), (if decide (col ∈ missing) then a else b) = if decide (col ∈ cols) then b else a).
  { intros A col a b. specialize (Hm col). destruct (decide (col ∈ missing)), (decide (col ∈ cols)); naive_solver. }
  rewrite !Hd. split; [|intros Hpw]; do 2 f_equal; repeat destruct (decide _); try done. by destruct Hpw.
Qed.

Lemma add_columns_present cols s s' :
  (exists present, fl_columns s.1 = Some present /\ forall col, col ∈ cols -> col ∈ present) ->
  add_columns cols s = Ok None s' -> s'.1 = s.1.
Proof.
  revert s. induction cols as [|col cols IH]; intros s (present & Hp & Hin); [by intros [= <-]|].
  cbn [add_columns]. unfold bind. destruct (exec _ s) as [err s1|s1] eqn:Ee; [|done].
  destruct err as [msg|].
  - apply exec_Some in Ee. destruct (Contains _ _); [|done]. intros Ha. rewrite <- Ee. apply IH; [|done].
    exists present. rewrite Ee. split; [done|]. intros c Hc. apply Hin. set_solver.
  - apply exec_None in Ee. unfold alter_table in Ee. rewrite Hp, bool_decide_eq_true_2 in Ee by (apply Hin; set_solver). done.
Qed.

(** What a migration that succeeds has done. *)
Lemma migrate_success s s' :
  migrate s = Ok None s' ->
  exists s1 s2, s1.1 = create_table s.1 /\ add_columns added_columns s1 = Ok None s2
    /\ s'.1 = mkFile (fl_columns s2.1) (map_rows fill_rotated (fl_table s2.1)).
Proof.
  unfold migrate, bind. destruct (exec _ s) as [[msg|] s1|s1] eqn:E1; [done| |done]. apply exec_None in E1. injection E1 as E1.
  destruct (add_columns _ s1) as [[msg|] s2|s2] eqn:E2; [done| |done]. intros E3%exec_None. injection E3 as E3. by exists s1, s2.
Qed.

Lemma all_added col : col ∈ added_columns.
Proof. destruct col; unfold added_columns; set_solver. Qed.

(** The columns and the rows after a migration that succeeds. *)
Lemma migrate_rows fl w s' :
  migrate (fl, w) = Ok None s' ->
  current s'.1 /\ exists missing, (rows_of fl = [] \/ forall col, col ∈ missing <-> col ∉ columns_of fl)
    /\ tb_rows (fl_table s'.1) = (fun r => fill_rotated (set_defaults missing r)) <$> rows_of fl.
Proof.
  intros (sa & sb & Ea & Eb & Es)%migrate_success. cbn [fst] in Ea.
  assert (Hp : fl_columns sa.1 = Some (default added_columns (fl_columns fl)) /\ tb_rows (fl_table sa.1) = rows_of fl).
  { rewrite Ea. unfold create_table, rows_of. by destruct (fl_columns fl) as [cols|] eqn:Ec; rewrite ?Ec. }
  destruct Hp as [Hp Hr]. destruct (add_columns_spec _ _ _ _ Hp Eb) as (missing & Hm & Hc & Ht). rewrite Es. split; [split|].
  - exists (default added_columns (fl_columns fl) ++ missing). split; [done|]. intros col Hcol. rewrite elem_of_app, Hm.
    destruct (decide (col ∈ default added_columns (fl_columns fl))); tauto.
  - cbn [fl_table]. rewrite map_rows_map. unfold map_rows. f_equal. apply list_fmap_ext. intros i r _. apply fill_rotated_again.
  - exists missing. split.
    + unfold rows_of, columns_of in *. destruct (fl_columns fl) as [cols|]; [right|by left]. intros col. rewrite Hm. cbn [default].
      pose proof (all_added col). tauto.
    + cbn [fl_table]. rewrite Ht, map_rows_map. cbn [map_rows tb_rows]. by rewrite Hr.
Qed.

(** Opening a current file changes nothing. *)
Lemma migrate_again fl w s' : current fl -> migrate (fl, w) = Ok None s' -> s'.1 = fl.
Proof.
  intros [(present & Hp & Hin) Hfill] (sa & sb & Ea & Eb & Es)%migrate_success. cbn [fst] in Ea.
  assert (sa.1 = fl) as Hs by (rewrite Ea; unfold create_table; by rewrite Hp).
  apply add_columns_present in Eb; [|exists present; by rewrite Hs]. rewrite Es, Eb, Hs, Hfill. by destruct fl.
Qed.

(** C25.  Opening a registry of any earlier version, or none: afterwards the file has
    every column and every row a time of rotation, each row is read as the connection
    that the old columns said, without a password to show, an expiry or a rotation
    where there was no column for it and with its creation as the last rotation, and
    opening the file again changes nothing. *)
Theorem open_migrates fl w db s' :
  Open (fl, w) = (inl db, s') ->
  current s'.1 /\ db_table db = fl_table s'.1 /\ db_key db = None
  /\ Forall2 (fun r r' => r_id r' = r_id r /\ r_agent_username r' = r_agent_username r
                /\ read_as_of (columns_of fl) (scanConnection r) (scanConnection r')
                /\ read_as_of (columns_of fl) (scanConnectionWithHash r) (scanConnectionWithHash r')
                /\ (rotated_at ∉ columns_of fl -> r_rotated_at r' = r_created_at r))
       (rows_of fl) (tb_rows (db_table db))
  /\ forall w2 db2 s2, Open (s'.1, w2) = (inl db2, s2) -> s2.1 = s'.1.
Proof.
  unfold Open. destruct (migrate (fl, w)) as [[msg|] s1|s1] eqn:Em; [done| |done]. intros [= <- <-].
  apply migrate_rows in Em as (Hcur & missing & Hm & Hrows). cbn [db_table db_key]. split_and!; [done..| |].
  - rewrite Hrows. apply Forall2_fmap_r, Forall_Forall2_diag, Forall_forall. intros r Hr.
    destruct Hm as [Hm|Hm]; [rewrite Hm in Hr; by apply not_elem_of_nil in Hr|].
    destruct (finishScan_defaults missing (columns_of fl) r EmptyString EmptyString Hm) as [H1 _].
    destruct (finishScan_defaults missing (columns_of fl) r EmptyString (r_agent_password_hash r) Hm) as [_ H2].
    assert (Hkeep : forall r, r_id (fill_rotated r) = r_id r /\ r_agent_username (fill_rotated r) = r_agent_username r
      /\ r_agent_password_enc (fill_rotated r) = r_agent_password_enc r /\ r_agent_password_hash (fill_rotated r) = r_agent_password_hash r)
      by (intros r0; unfold fill_rotated; by case_bool_decide).
    destruct (Hkeep (set_defaults missing r)) as (Hi & Hn & He & Hh). unfold compose. split_and!.
    + rewrite Hi. by rewrite set_defaults_eq.
    + rewrite Hn. by rewrite set_defaults_eq.
    + unfold scanConnection. by rewrite He.
    + unfold scanConnectionWithHash. rewrite Hh. replace (r_agent_password_hash (set_defaults missing r)) with (r_agent_password_hash r) by by rewrite set_defaults_eq.
      apply H2. by right.
    + intros Hno. apply Hm in Hno. rewrite set_defaults_eq. unfold fill_rotated. cbn [r_rotated_at].
      destruct (decide (rotated_at ∈ missing)); [|done]. by rewrite bool_decide_eq_true_2.
  - intros w2 db2 s2. destruct (migrate (s1.1, w2)) as [[msg|] t|t] eqn:Em2; [done| |done]. intros [= _ <-]. by eapply migrate_again.
Qed.
End Theorems.

(** ** The theorem at a concrete input: a registry of the first version *)

Module MigrateWitnesses.
#[local] Existing Instance ascii_only.
#[local] Instance engine : Engine unit := {| db_error w := (None, w); unique_message := "UNIQUE constraint failed" |}.
#[local] Instance no_other_layout : TimeParser := fun _ => None.

Definition old_row : Row :=
  mkRow 1 "Orders" "orders_abc123" "hash" "?" "postgres://app@host/db" 1000 1 "[]" "2026-07-01T12:00:00Z" "?" 7 "?".
Definition first_version : File := mkFile (Some []) (mkTable [old_row] 1).

(** What the columns that the file lacks would hold plays no part. *)
Lemma open_migrates_witness :
  exists db s' r', Open (first_version, tt) = (inl db, s') /\ current s'.1 /\ tb_rows (db_table db) = [r']
    /\ r_rotated_at r' = "2026-07-01T12:00:00Z" /\ read_as_of [] (scanConnection old_row) (scanConnection r').
Proof.
  assert (H : exists db s', Open (first_version, tt) = (inl db, s')) by (eexists _, _; vm_compute; reflexivity).
  destruct H as (db & s' & H). assert (He : forall (w : unit) msg, (db_error w).1 = Some msg -> Contains (ToLower msg) "duplicate column" = false) by done.
  destruct (open_migrates He first_version tt db s' H) as (Hc & _ & _ & F & _).
  inversion F as [|? r' ? l Hr F' E1 E2]; subst. inversion F'; subst. destruct Hr as (_ & _ & H1 & _ & H2).
  exists db, s', r'. split_and!; [done|done|done| |done]. apply H2. apply not_elem_of_nil.
Defined.
End MigrateWitnesses.
