(* ===== verification/Admin.v ===== *)
(** * The admin server (internal/admin/admin.go)

    The JSON API and the login of the web UI, handler by handler.  Requests are
    what the handlers read of a request after net/http has matched its path;
    responses are the status, the cookie, the redirect and the value that
    encoding/json writes, with the JSON of both.  The texts of decoding errors and
    the dashboard's broker are parameters (the broker's model is Broker.v). *)

From stdpp Require Import pretty.
From S2P Require Import Prelude GoStrings GoText Timestamp Base64 GoNet GoURL Json JsonProps Policy Approval Proto Store Registry Broker Detect.

(** ** Durations *)

(** [fmt.Errorf("...")] keeps the message only. *)
Section Durations.
Context {U : Unicode} {Pr : Printable}.

Definition day : Z := 86400000000000.

Definition parseHumanDuration (v field : string) : Duration + string :=
  let s := TrimSpace (ToLower v) in
  let days := match CutSuffix s "d" with Some n => Atoi n | None => None end in
  match days with
  | Some days =>
      if (days <? 0)%Z then inr (field +:+ " must not be negative")
      else inl (int64 (int64 (days * 24) * 3600000000000))
  | None =>
      match ParseDuration s with
      | None => inr ("invalid " +:+ field +:+ " " +:+ Quote s +:+ " (use e.g. 3h, 90m, 7d)")
      | Some d => if (d <=? 0)%Z then inr (field +:+ " must be positive") else inl d
      end
  end.

Definition parseTTL (v : string) : Duration + string := parseHumanDuration v "ttl".
End Durations.

(** The digits of a fraction of [k] places, without trailing zeros. *)
Definition frac_text (k : nat) (n : Z) : string :=
  match trim_zeros (digits k n) with EmptyString => EmptyString | s => "." +:+ s end.

(** [d.String()] of a duration. *)
Definition Duration_String (d : Duration) : string :=
  let u := Z.abs d in
  let text :=
    if (u =? 0)%Z then "0s"
    else if (u <? 1000)%Z then pretty u +:+ "ns"
    else if (u <? 1000000)%Z then pretty (u / 1000)%Z +:+ frac_text 3 (u mod 1000) +:+ micro 194 181
    else if (u <? 1000000000)%Z then pretty (u / 1000000)%Z +:+ frac_text 6 (u mod 1000000) +:+ "ms"
    else
      let secs := (u / 1000000000)%Z in
      let tail := pretty (secs mod 60)%Z +:+ frac_text 9 (u mod 1000000000) +:+ "s" in
      if (secs / 60 =? 0)%Z then tail
      else
        let tail := pretty (secs / 60 mod 60)%Z +:+ "m" +:+ tail in
        if (secs / 3600 =? 0)%Z then tail else pretty (secs / 3600)%Z +:+ "h" +:+ tail in
  if (d <? 0)%Z then "-" +:+ text else text.

Example duration_texts :
  Duration_String <$> [0; 1; 1500; 2250000; 1500000000; 90000000000; 7200000000000; 129600000000000; -3600000000001]%Z
  = ["0s"; "1ns"; "1.5" +:+ micro 194 181; "2.25ms"; "1.5s"; "1m30s"; "2h0m0s"; "36h0m0s"; "-1h0m0.000000001s"].
Proof. vm_compute. reflexivity. Qed.

(** ** Requests and responses *)

Record Req : Type := mkReq {
  rq_Method : string;
  rq_Path : list string;                       (* the segments of the cleaned, decoded path *)
  rq_Header : string -> string;                (* r.Header.Get *)
  rq_Cookie : option string;                   (* the value of the cookie pgproxy_admin *)
  rq_FormToken : string;                       (* r.FormValue("token") *)
  rq_TLS : bool;                               (* r.TLS != nil *)
  rq_Body : string
}.

Record Cookie : Type := mkCookie {
  ck_Value : string; ck_Secure : bool; ck_HttpOnly : bool; ck_SameSiteStrict : bool; ck_MaxAge : Z
}.

Record connectionDTO : Type := mkDTO {
  dto_ID : Z;
  dto_Name : string;
  dto_AgentUsername : string;
  dto_AgentPassword : string;
  dto_UpstreamURL : string;
  dto_MaxRows : Z;
  dto_GateMutations : bool;
  dto_PIIRules : list PIIRule;
  dto_CreatedAt : Time;
  dto_ExpiresAt : option Time;
  dto_RotateEvery : string;
  dto_RotatedAt : Time;
  dto_NextRotationAt : option Time;
  dto_ConnectionString : string
}.

Inductive Body : Type :=
| NoBody
| LoginPage
| IndexPage
| ErrorBody (message : string)
| ConnectionsBody (conns : list connectionDTO)
| ConnectionBody (conn : connectionDTO)
| PasswordBody (agent_password connection_string : string)
| SuggestionsBody (sugs : list piiSuggestion)
| PendingBody (views : list PendingView).

Record Response : Type := mkResponse {
  rs_Status : Z; rs_Body : Body; rs_Cookie : option Cookie; rs_Location : option string
}.

Definition respond (status : Z) (body : Body) : Response := mkResponse status body None None.
Definition writeError (status : Z) (message : string) : Response := respond status (ErrorBody message).
Definition redirect (cookie : option Cookie) : Response := mkResponse 303 NoBody cookie (Some "/").

Record createRequest : Type := mkCreateRequest {
  cr_Name : string;
  cr_UpstreamURL : string;
  cr_MaxRows : option Z;
  cr_GateMutations : option bool;
  cr_PIIRules : list PIIRule;
  cr_TTL : option string;
  cr_RotateEvery : option string
}.

(** ** Parameters *)

(** The text of the decoder's error for a body, by the type decoded. *)
Class DecoderErrors : Type := decoder_error : string -> string -> string.
(** The shared broker ([Pending] and [Decide] of internal/approval). *)
Class DashboardBroker (W : Type) : Type := {
  broker_Pending : W -> list PendingView * W;
  broker_Decide : string -> bool -> string -> W -> bool * W
}.
(** The text of an error of pgconn. *)
Class ErrorText : Type := error_message : QueryErr -> string.

(** ** JSON *)

(** The fields of [createRequest]; the slice of rules is kept with its array. *)
Definition createRequest_fields :
    list (string * (createRequest * (list PIIRule * nat) -> json -> option (createRequest * (list PIIRule * nat)))) :=
  let on f set := fun p v => (fun x => (set p.1 x, p.2)) <$> f p.1 v in
  [("name", on (fun r => fill_string (cr_Name r))
      (fun r x => mkCreateRequest x (cr_UpstreamURL r) (cr_MaxRows r) (cr_GateMutations r) (cr_PIIRules r) (cr_TTL r) (cr_RotateEvery r)));
   ("upstream_url", on (fun r => fill_string (cr_UpstreamURL r))
      (fun r x => mkCreateRequest (cr_Name r) x (cr_MaxRows r) (cr_GateMutations r) (cr_PIIRules r) (cr_TTL r) (cr_RotateEvery r)));
   ("max_rows", fun p v => let r := p.1 in
      (fun x => (mkCreateRequest (cr_Name r) (cr_UpstreamURL r) x (cr_GateMutations r) (cr_PIIRules r) (cr_TTL r) (cr_RotateEvery r), p.2))
        <$> fill_pointer 0%Z fill_int (cr_MaxRows r) v);
   ("gate_mutations", fun p v => let r := p.1 in
      (fun x => (mkCreateRequest (cr_Name r) (cr_UpstreamURL r) (cr_MaxRows r) x (cr_PIIRules r) (cr_TTL r) (cr_RotateEvery r), p.2))
        <$> fill_pointer false fill_bool (cr_GateMutations r) v);
   ("pii_rules", fun p v => let r := p.1 in
      (fun x => (mkCreateRequest (cr_Name r) (cr_UpstreamURL r) (cr_MaxRows r) (cr_GateMutations r) (slice_items x) (cr_TTL r) (cr_RotateEvery r), x))
        <$> fill_rules p.2 v);
   ("ttl", fun p v => let r := p.1 in
      (fun x => (mkCreateRequest (cr_Name r) (cr_UpstreamURL r) (cr_MaxRows r) (cr_GateMutations r) (cr_PIIRules r) x (cr_RotateEvery r), p.2))
        <$> fill_pointer EmptyString fill_string (cr_TTL r) v);
   ("rotate_every", fun p v => let r := p.1 in
      (fun x => (mkCreateRequest (cr_Name r) (cr_UpstreamURL r) (cr_MaxRows r) (cr_GateMutations r) (cr_PIIRules r) (cr_TTL r) x, p.2))
        <$> fill_pointer EmptyString fill_string (cr_RotateEvery r) v)].
Definition zeroCreate : createRequest := mkCreateRequest EmptyString EmptyString None None [] None None.

(** [json.NewDecoder(r.Body).Decode(&req)] for the three types of bodies. *)
Section Decoding.
Context {De : DecoderErrors}.

Definition decoded {A : Type} (type : string) (fill : json -> option A) (body : string) : A + string :=
  match v ← Decode_value body; fill v with
  | Some a => inl a
  | None => inr (decoder_error type body)
  end.
Definition decode_create : string -> createRequest + string :=
  decoded "createRequest" (fun v => fst <$> fill_struct createRequest_fields (zeroCreate, ([], 0)) v).
Definition decode_upstream : string -> string + string :=
  decoded "upstream" (fill_struct [("upstream_url", fill_string)] EmptyString).
Definition decode_decision : string -> ApprovalDecision + string :=
  decoded "decision" (fill_decision (mkDecision false EmptyString)).
End Decoding.

(** A time in JSON, which has years of four digits only. *)
Definition time_json (t : Time) : option json :=
  let year := f_year (fields t) in
  if (0 <=? year)%Z && (year <=? 9999)%Z then Some (JString (FormatRFC3339Nano t)) else None.
Definition rules_json (rs : list PIIRule) : json := JArray (PIIRule_json <$> rs).

Definition connection_json (d : connectionDTO) : option json :=
  created ← time_json (dto_CreatedAt d);
  rotated ← time_json (dto_RotatedAt d);
  expires ← match dto_ExpiresAt d with Some t => time_json t | None => Some JNull end;
  next ← match dto_NextRotationAt d with Some t => (fun v => [("next_rotation_at", v)]) <$> time_json t | None => Some [] end;
  Some (JObject ([("id", JInt (dto_ID d)); ("name", JString (dto_Name d));
    ("agent_username", JString (dto_AgentUsername d)); ("agent_password", JString (dto_AgentPassword d));
    ("upstream_url", JString (dto_UpstreamURL d)); ("max_rows", JInt (dto_MaxRows d));
    ("gate_mutations", JBool (dto_GateMutations d)); ("pii_rules", rules_json (dto_PIIRules d));
    ("created_at", created); ("expires_at", expires); ("rotate_every", JString (dto_RotateEvery d));
    ("rotated_at", rotated)] ++ next ++ [("connection_string", JString (dto_ConnectionString d))])).

Definition suggestion_json (g : piiSuggestion) : json :=
  JObject [("name", JString (sg_Name g)); ("action", JString (sg_Action g)); ("tables", JArray (JString <$> sg_Tables g))].

Definition view_json (v : PendingView) : option json :=
  match Request_json (pv_req v) with
  | JObject ms => (fun t => JObject (ms ++ [("created_at", t)])) <$> time_json (pv_CreatedAt v)
  | _ => None
  end.

(** The value of a body of JSON; [None] when encoding it fails. *)
Definition body_json (b : Body) : option json :=
  match b with
  | NoBody | LoginPage | IndexPage => None
  | ErrorBody msg => Some (JObject [("error", JString msg)])
  | ConnectionsBody cs => JArray <$> map_opt connection_json cs
  | ConnectionBody c => connection_json c
  | PasswordBody pw cs => Some (JObject [("agent_password", JString pw); ("connection_string", JString cs)])
  | SuggestionsBody gs => Some (JArray (suggestion_json <$> gs))
  | PendingBody vs => JArray <$> map_opt view_json vs
  end.

(** What [writeJSON] writes: the text and a newline, or nothing. *)
Definition writeJSON (b : Body) : string :=
  match body_json b with Some v => encode_json v +:+ String "010" EmptyString | None => EmptyString end.

(** ** The server *)

Record Server : Type := mkAdmin {
  as_advertise : string;
  as_token : string;
  as_broker : bool;                            (* broker != nil *)
  as_sslMode : string
}.

Definition advertiseAddr (listen : string) : string :=
  match SplitHostPort listen with
  | None => "127.0.0.1:6432"
  | Some (host, port) =>
      let wildcard := bool_decide (host = EmptyString) || bool_decide (host = "0.0.0.0") || bool_decide (host = "::") in
      JoinHostPort (if wildcard then "127.0.0.1" else host) port
  end.

Definition NewServer (proxyListen token : string) (broker tls : bool) : Server :=
  mkAdmin (advertiseAddr proxyListen) token broker (if tls then "verify-full" else "disable").

(** The bytes that http.SetCookie writes of a value; it drops the others, and
    [r.Cookie] undoes the quoting of a value with spaces or commas. *)
Definition cookie_byte (c : ascii) : bool :=
  between 32 126 (byteN c) && negb ((byteN c =? 34)%N || (byteN c =? 59)%N || (byteN c =? 92)%N).
Fixpoint sfilter (p : ascii -> bool) (s : string) : string :=
  match s with
  | EmptyString => EmptyString
  | String c s' => if p c then String c (sfilter p s') else sfilter p s'
  end.

(** The value that later requests bring of a cookie set to [v]. *)
Definition returned_value (v : string) : string := sfilter cookie_byte v.

Definition tokenEqual (a b : string) : bool := bool_decide (a = b).

Definition isHTTPS (r : Req) : bool := rq_TLS r || EqualFoldASCII (rq_Header r "X-Forwarded-Proto") "https".

Definition connString (s : Server) (username password : string) : string :=
  "postgres://" +:+ QueryEscape username +:+ ":" +:+ QueryEscape password +:+ "@" +:+ as_advertise s
  +:+ "/postgres?sslmode=" +:+ as_sslMode s.

Definition authed (s : Server) (r : Req) : bool :=
  if bool_decide (as_token s = EmptyString) then true
  else
    let h := rq_Header r "Authorization" in
    let bearer :=
      match CutPrefix h "Bearer " with
      | Some t => negb (bool_decide (h = EmptyString)) && tokenEqual t (as_token s)
      | None => false
      end in
    bearer || match rq_Cookie r with Some v => tokenEqual v (as_token s) | None => false end.

Section DTO.
Context {P : IPLiteral}.

Definition maskURLPassword (raw : string) : string :=
  match url_Parse raw with
  | Some (mkURL scheme (Some (user, Some _)) host path query) =>
      let masked := scheme +:+ "://" +:+ user +:+ ":***@" +:+ host +:+ path in
      if bool_decide (query = EmptyString) then masked else masked +:+ "?" +:+ query
  | _ => raw
  end.

Definition toDTO (s : Server) (c : Connection) : connectionDTO :=
  let cs := if bool_decide (cn_AgentPassword c = EmptyString) then EmptyString
            else connString s (cn_AgentUsername c) (cn_AgentPassword c) in
  let expires := if IsZero (cn_ExpiresAt c) then None else Some (cn_ExpiresAt c) in
  let rotates := (0 <? cn_RotateEvery c)%Z in
  mkDTO (cn_ID c) (cn_Name c) (cn_AgentUsername c) (cn_AgentPassword c) (maskURLPassword (cn_UpstreamURL c))
    (cn_MaxRows c) (cn_GateMutations c) (cn_PIIRules c) (cn_CreatedAt c) expires
    (if rotates then Duration_String (cn_RotateEvery c) else EmptyString) (cn_RotatedAt c)
    (if rotates && negb (IsZero (NextRotation c)) then Some (NextRotation c) else None) cs.
End DTO.

(** ** Handlers *)

Section Handlers.
Context {U : Unicode} {Pr : Printable} {W : Type} {T : TimeParser} {G : GCM} {R : Rand W} {C : Clock W}
        {B : BcryptGenerate W} {E : Engine W} {P : IPLiteral} {De : DecoderErrors} {Br : DashboardBroker W}
        {Di : Dialer W} {Up : Upstream W} {Et : ErrorText}.
Variable s : Server.

Abbreviation Go := (M (DB W)).

(** A value that is absent or blank. *)
Definition blank (o : option string) : bool :=
  match o with Some v => bool_decide (TrimSpace v = EmptyString) | None => true end.

(** [time.Now().UTC().Add(d)] for the duration of a ttl. *)
Definition deadline (ttl : string) : Go (Time + string) :=
  match parseTTL ttl with
  | inr msg => ret (inr msg)
  | inl d => now <- world_db Now ;; ret (inl (now + d)%Z)
  end.

Definition writeStoreError (e : StoreError) : Response :=
  match e with ErrNotFound => writeError 404 (error_text e) | ErrOther msg => writeError 500 msg end.

(** [if err != nil { writeError(w, status, err); return }] *)
Definition or_error {A : Type} (status : Z) (m : Go (A + string)) (k : A -> Go Response) : Go Response :=
  r <- m ;; match r with inl a => k a | inr msg => ret (writeError status msg) end.

Definition handleIndex (r : Req) : Go Response :=
  ret (respond 200 (if authed s r then IndexPage else LoginPage)).

Definition handleLogin (r : Req) : Go Response :=
  if bool_decide (as_token s = EmptyString) then ret (redirect None)
  else if negb (tokenEqual (rq_FormToken r) (as_token s)) then ret (respond 401 LoginPage)
  else ret (redirect (Some (mkCookie (as_token s) (isHTTPS r) true true 604800))).

Definition handleLogout (r : Req) : Go Response :=
  ret (redirect (Some (mkCookie EmptyString false true false (-1)))).

Definition handleList (r : Req) : Go Response :=
  conns <- List ;;
  match conns with
  | inr e => ret (writeError 500 (error_text e))
  | inl conns => ret (respond 200 (ConnectionsBody (toDTO s <$> conns)))
  end.

(** The policy fields of a request, with the defaults of the API. *)
Definition max_rows_of (req : createRequest) : Z := default 1000%Z (cr_MaxRows req).
Definition gate_of (req : createRequest) : bool := default true (cr_GateMutations req).

(** The two duration fields: nothing for a blank value. *)
Definition expiry_of (req : createRequest) : Go (Time + string) :=
  match cr_TTL req with
  | Some v => if blank (Some v) then ret (inl 0%Z) else deadline v
  | None => ret (inl 0%Z)
  end.
Definition rotation_of (req : createRequest) : Go (Duration + string) :=
  match cr_RotateEvery req with
  | Some v => if blank (Some v) then ret (inl 0%Z) else ret (parseHumanDuration v "rotate_every")
  | None => ret (inl 0%Z)
  end.

Definition handleCreate (r : Req) : Go Response :=
  or_error 400 (ret (decode_create (rq_Body r))) (fun req =>
  or_error 400 (expiry_of req) (fun expires =>
  or_error 400 (rotation_of req) (fun every =>
    conn <- Create (mkCreateInput (cr_Name req) (cr_UpstreamURL req) (max_rows_of req) (gate_of req)
                      (cr_PIIRules req) expires every) ;;
    match conn with
    | inr e => ret (writeError 400 (error_text e))
    | inl (c, _) => ret (respond 201 (ConnectionBody (toDTO s c)))
    end))).

Definition handleUpdate (id : string) (r : Req) : Go Response :=
  match ParseInt id with
  | None => ret (writeError 400 "invalid id")
  | Some id =>
      or_error 400 (ret (decode_create (rq_Body r))) (fun req =>
      if bool_decide (TrimSpace (cr_Name req) = EmptyString) then ret (writeError 400 "name is required")
      else
        or_error 400 (expiry_of req) (fun expires =>
        or_error 400 (rotation_of req) (fun every =>
          updated <- Update id (mkUpdateInput (cr_Name req) (max_rows_of req) (gate_of req) (cr_PIIRules req)
                                  (if cr_TTL req is Some _ then true else false) expires
                                  (if cr_RotateEvery req is Some _ then true else false) every) ;;
          match updated with
          | inr e => ret (writeStoreError e)
          | inl _ => ret (respond 204 NoBody)
          end)))
  end.

(** [for _, c := range conns { if c.ID == id { x = f(c) } }] *)
Definition last_with_id (id : Z) (f : Connection -> string) (conns : list Connection) : string :=
  foldl (fun x c => if bool_decide (cn_ID c = id) then f c else x) EmptyString conns.

Definition handleRotate (id : string) (r : Req) : Go Response :=
  match ParseInt id with
  | None => ret (writeError 400 "invalid id")
  | Some id =>
      password <- Rotate id ;;
      match password with
      | inr e => ret (writeStoreError e)
      | inl password =>
          conns <- List ;;
          let username := last_with_id id cn_AgentUsername (match conns with inl cs => cs | inr _ => [] end) in
          ret (respond 200 (PasswordBody password (connString s username password)))
      end
  end.

Definition handleDelete (id : string) (r : Req) : Go Response :=
  match ParseInt id with
  | None => ret (writeError 400 "invalid id")
  | Some id =>
      deleted <- Delete id ;;
      match deleted with inr e => ret (writeStoreError e) | inl _ => ret (respond 204 NoBody) end
  end.

(** A computation of Detect.v, which runs on the world. *)
Definition on_db {A : Type} (m : M W A) : Go A :=
  fun st =>
    match m (db_world st) with
    | Ok a w => Ok a (mkDB (db_key st) (db_table st) w)
    | Panic w => Panic (mkDB (db_key st) (db_table st) w)
    end.

Definition detectAndRespond (upstream : string) : Go Response :=
  matches <- on_db (Scan upstream) ;;
  match matches with
  | inr err => ret (writeError 502 ("schema scan failed: " +:+ error_message err))
  | inl ms => ret (respond 200 (SuggestionsBody (suggestions ms)))
  end.

Definition handleDetectPII (r : Req) : Go Response :=
  or_error 400 (ret (decode_upstream (rq_Body r))) (fun upstream =>
    if bool_decide (TrimSpace upstream = EmptyString) then ret (writeError 400 "upstream_url is required")
    else detectAndRespond upstream).

Definition handleDetectPIIForConn (id : string) (r : Req) : Go Response :=
  match ParseInt id with
  | None => ret (writeError 400 "invalid id")
  | Some id =>
      conns <- List ;;
      match conns with
      | inr e => ret (writeError 500 (error_text e))
      | inl conns =>
          let upstream := last_with_id id cn_UpstreamURL conns in
          if bool_decide (upstream = EmptyString) then ret (writeError 404 (error_text ErrNotFound))
          else detectAndRespond upstream
      end
  end.

Definition handleApprovals (r : Req) : Go Response :=
  if negb (as_broker s) then ret (respond 200 (PendingBody []))
  else views <- world_db broker_Pending ;; ret (respond 200 (PendingBody views)).

Definition handleDecide (id : string) (r : Req) : Go Response :=
  if negb (as_broker s) then ret (writeError 404 "dashboard approvals are not enabled")
  else
    or_error 400 (ret (decode_decision (rq_Body r))) (fun body =>
      delivered <- world_db (broker_Decide id (Approved body) (dec_Reason body)) ;;
      if (delivered : bool) then ret (respond 204 NoBody)
      else ret (writeError 404 "no such pending approval (it may have timed out)")).

(** ** The routes of Handler *)

Definition requireAuth (next : Req -> Go Response) (r : Req) : Go Response :=
  if negb (authed s r) then ret (writeError 401 "unauthorized") else next r.

(** A segment of a pattern is a text or the wildcard of an id, which does not take
    the empty segment of a path that ends in a slash. *)
Fixpoint match_path (pattern : list (option string)) (path : list string) : option (list string) :=
  match pattern, path with
  | [], [] => Some []
  | Some text :: pattern', seg :: path' => if bool_decide (text = seg) then match_path pattern' path' else None
  | None :: pattern', seg :: path' =>
      if bool_decide (seg = EmptyString) then None else cons seg <$> match_path pattern' path'
  | _, _ => None
  end.

(** A pattern for GET also takes HEAD. *)
Definition takes (pattern_method method : string) : bool :=
  bool_decide (pattern_method = method) || (bool_decide (pattern_method = "GET") && bool_decide (method = "HEAD")).

(** The patterns registered with the mux, besides "GET /": method, path, and the
    handler given the wildcard's value.  At most one of them takes a request. *)
Definition patterns : list (string * list (option string) * (string -> Req -> Go Response)) :=
  let conns := [Some "api"; Some "connections"] in
  [("POST", [Some "login"], fun _ => handleLogin);
   ("POST", [Some "logout"], fun _ => handleLogout);
   ("GET", conns, fun _ => requireAuth handleList);
   ("POST", conns, fun _ => requireAuth handleCreate);
   ("POST", [Some "api"; Some "detect-pii"], fun _ => requireAuth handleDetectPII);
   ("PUT", conns ++ [None], fun id => requireAuth (handleUpdate id));
   ("POST", conns ++ [None; Some "rotate"], fun id => requireAuth (handleRotate id));
   ("POST", conns ++ [None; Some "detect-pii"], fun id => requireAuth (handleDetectPIIForConn id));
   ("DELETE", conns ++ [None], fun id => requireAuth (handleDelete id));
   ("GET", [Some "api"; Some "approvals"], fun _ => requireAuth handleApprovals);
   ("POST", [Some "api"; Some "approvals"; None], fun id => requireAuth (handleDecide id))].

Fixpoint find_pattern (pats : list (string * list (option string) * (string -> Req -> Go Response)))
    (method : string) (path : list string) : option (Req -> Go Response) :=
  match pats with
  | [] => None
  | (m, pattern, h) :: pats' =>
      match (if takes m method then match_path pattern path else None) with
      | Some ids => Some (h (default EmptyString (head ids)))
      | None => find_pattern pats' method path
      end
  end.

(** "GET /" takes every path the other patterns leave; a request that no pattern
    takes with its method is answered by net/http. *)
Definition Handler (r : Req) : Go Response :=
  match find_pattern patterns (rq_Method r) (rq_Path r) with
  | Some h => h r
  | None => if takes "GET" (rq_Method r) then handleIndex r else ret (respond 405 NoBody)
  end.
End Handlers.
