(* ===== verification/Lifecycle.v ===== *)
(** * What administration does to logins

    The composition of the admin server (Admin.v), the registry with its abstract
    specification (Registry.v, RegistrySpec.v) and the lookup that authentication
    uses (Store.v): every request to the admin server is a step of the abstract
    registry that its response tells, logins are lookups in the abstract registry,
    and so what an administrator is answered is what agents get from then on. *)

From S2P Require Import Prelude GoStrings GoText Timestamp Base64 GoNet GoURL Json JsonProps Policy Approval Store Registry Broker Proto Detect Scenario RegistryProps RegistrySpec Admin AdminProps.

(** ** Logins are lookups in the abstract registry *)

Section Lookup.
Context {W : Type} {T : TimeParser} {C : Clock W} {E : Engine W}.

(** The lookup of authentication in the registry. *)
Definition login (username : string) (s : DB W) : option Connection :=
  (@GetByUsername (DB W) registry_clock registry_database username s).1.

(** The connections of an abstract registry that a user name logs in as. *)
Definition admits (m : Connections) (now : Time) (username : string) (c : Connection) : Prop :=
  (exists i, m !! i = Some c) /\ cn_AgentUsername c = username /\ Expired c now = false.

Lemma login_eq username (s : DB W) w :
  db_error (db_world s) = (None, w) ->
  login username s =
    match filter (fun r => r_agent_username r = username) (tb_rows (db_table s)) with
    | [] => None
    | r :: _ => match scanConnectionWithHash r with
                | inl c => if Expired c (Now w).1 then None else Some c
                | inr _ => None
                end
    end.
Proof.
  intros Hdb. unfold login, GetByUsername, row_by_username, registry_database, connection_by_username, sql, bind, world_db.
  rewrite Hdb. cbn [fst snd db_key db_table db_world]. destruct (filter _ _) as [|r rows]; [done|]. cbn [ret].
  destruct (scanConnectionWithHash r) as [c|e]; [|done]. unfold Now at 1, registry_clock. cbn [db_world]. by destruct (Expired _ _).
Qed.

(** Two rows of a registered table with the same name are the same row. *)
Lemma same_name tb r1 r2 :
  registered tb -> r1 ∈ tb_rows tb -> r2 ∈ tb_rows tb -> r_agent_username r1 = r_agent_username r2 -> r1 = r2.
Proof.
  intros Hn%names_unique [i Hi]%list_elem_of_lookup [j Hj]%list_elem_of_lookup E'.
  assert (i = j) as ->; [|congruence]. apply (NoDup_lookup _ _ _ (r_agent_username r1) Hn); rewrite list_lookup_fmap.
  - by rewrite Hi.
  - by rewrite Hj, E'.
Qed.

(** A name logs in exactly as the connection that the abstract registry has for it,
    unless it has expired. *)
Lemma login_abs username (s : DB W) w c :
  sound s -> db_error (db_world s) = (None, w) ->
  login username s = Some c <-> admits (abs (db_table s)) (Now w).1 username c.
Proof.
  intros [Hreg Hread] Hdb. rewrite (login_eq _ _ w Hdb). unfold admits. setoid_rewrite abs_lookup; [|done]. split.
  - destruct (filter _ _) as [|r rows] eqn:Ef; [done|]. destruct (scanConnectionWithHash r) as [c'|] eqn:Es; [|done].
    destruct (Expired c' _) eqn:Ee; [done|]. intros [= <-].
    assert (Hin : r ∈ filter (fun r => r_agent_username r = username) (tb_rows (db_table s))) by (rewrite Ef; by left).
    apply list_elem_of_filter in Hin as [Hn Hin]. split_and!; [by exists (r_id r), r| |done]. by rewrite (scan_username _ _ Es).
  - intros ((i & r & Hr & _ & Es) & Hn & Ee). rewrite (scan_username _ _ Es) in Hn.
    destruct (filter _ _) as [|r' rows] eqn:Ef.
    + assert (Hin : r ∈ filter (fun r => r_agent_username r = username) (tb_rows (db_table s))) by by apply list_elem_of_filter.
      rewrite Ef in Hin. by apply not_elem_of_nil in Hin.
    + assert (Hin : r' ∈ filter (fun r => r_agent_username r = username) (tb_rows (db_table s))) by (rewrite Ef; by left).
      apply list_elem_of_filter in Hin as [Hn' Hin]. assert (r' = r) as -> by (apply (same_name (db_table s)); congruence).
      by rewrite Es, Ee.
Qed.
End Lookup.

(** ** The admin server refines the abstract registry *)

(** A clock in the years from 293 to 9706: 64 bits of nanoseconds, 292 years, lie
    before and after it in years of four digits. *)
Definition current (now : Time) : Prop := four_digits (now - 2 ^ 63)%Z /\ four_digits (now + 2 ^ 63)%Z.

Section Api.
Context {U : Unicode} {Pr : Printable} {W : Type} {T : TimeParser} {G : GCM} {R : Rand W} {C : Clock W}
        {BG : BcryptGenerate W} {BC : Bcrypt} {E : Engine W} {P : IPLiteral} {De : DecoderErrors} {Br : DashboardBroker W}
        {Di : Dialer W} {Up : Upstream W} {Et : ErrorText}.
Variable s : Server.
Hypothesis Hclock : forall w : W, current (Now w).1.
Hypothesis Hbcrypt : forall pw (w : W) hash w', bcrypt_generate pw w = (Some hash, w') -> bcrypt_matches hash pw = true.

(** Any deadline that a request can set is in a year of four digits. *)
Lemma expiry_at_current now req t : current now -> expiry_at now req = inl t -> four_digits t.
Proof.
  intros [Hlo Hhi]. unfold expiry_at, parseTTL.
  assert (H0 : four_digits 0%Z) by (split; vm_compute; done).
  destruct (cr_TTL req) as [v|]; [|by intros [= <-]]. destruct (blank _); [by intros [= <-]|].
  destruct (parseHumanDuration v "ttl") as [d|] eqn:Ed; [|done]. intros [= <-]. apply parseHumanDuration_range in Ed.
  apply (four_digits_between _ _ _ Hlo Hhi). lia.
Qed.

Lemma current_clock (w : W) : four_digits (Now w).1.
Proof. destruct (Hclock w) as [Hlo Hhi]. apply (four_digits_between _ _ _ Hlo Hhi). lia. Qed.

(** The creation and the edit that a request asks for. *)
Definition create_of (req : createRequest) (expires : Time) (every : Duration) : CreateInput :=
  mkCreateInput (cr_Name req) (cr_UpstreamURL req) (max_rows_of req) (gate_of req) (cr_PIIRules req) expires every.
Definition edit_of (req : createRequest) (expires : Time) (every : Duration) : UpdateInput :=
  mkUpdateInput (cr_Name req) (max_rows_of req) (gate_of req) (cr_PIIRules req)
    (if cr_TTL req is Some _ then true else false) expires (if cr_RotateEvery req is Some _ then true else false) every.

(** The request names this connection. *)
Definition names (r : Req) (id : Z) : Prop :=
  exists seg rest, rq_Path r = "api" :: "connections" :: seg :: rest /\ ParseInt seg = Some id.

(** A request's body, with its durations read at [now]. *)
Definition asks (now : Time) (r : Req) (req : createRequest) (expires : Time) (every : Duration) : Prop :=
  decode_create (rq_Body r) = inl req /\ expiry_at now req = inl expires /\ interval req = inl every.

(** The response to a request and the events it tells: a creation is answered with
    the connection and its password, a rotation with the new password, an edit and
    a deletion with 204; any other response hands out no credentials, and is a 204
    only to a decision on an approval. *)
Definition told (now : Time) (r : Req) (resp : Response) (es : list Event) : Prop :=
  match es with
  | [] => rs_Status resp <> 201%Z /\ (forall pw str, rs_Body resp <> PasswordBody pw str)
          /\ (rs_Status resp = 204%Z -> exists id, rq_Path r = ["api"; "approvals"; id])
  | [Created inp c pw] =>
      (exists req expires every, asks now r req expires every /\ inp = create_of req expires every)
      /\ exists c0, resp = respond 201 (ConnectionBody (toDTO s c0)) /\ c = without_password c0 /\ cn_AgentPassword c0 = pw
  | [Rotated id pw] => names r id /\ exists str, resp = respond 200 (PasswordBody pw str)
  | [Updated id inp] =>
      names r id /\ (exists req expires every, asks now r req expires every /\ inp = edit_of req expires every)
      /\ resp = respond 204 NoBody
  | [Deleted id] => names r id /\ resp = respond 204 NoBody
  | _ => False
  end.

Section Request.
Variable now : Time.
Variable r : Req.

(** A handler that does to the abstract registry what its response tells. *)
Definition tells (h : M (DB W) Response) (st : DB W) : Prop :=
  wp h (fun resp st' => sound st' /\ exists es, told now r resp es /\ spec_steps es (abs (db_table st)) (abs (db_table st')))
    (fun st' => sound st' /\ abs (db_table st') = abs (db_table st)) st.

(** A handler that only reads. *)
Definition reads (h : M (DB W) Response) (st : DB W) : Prop :=
  wp h (fun resp st' => db_table st' = db_table st /\ told now r resp []) (fun st' => db_table st' = db_table st) st.

Lemma reads_tells h st : sound st -> reads h st -> tells h st.
Proof.
  intros Hs H. eapply wp_mono; [exact H| |].
  - intros resp st' [Ht Hr]. destruct (same_table st st' Ht Hs) as [Hs' Hst]. split; [done|]. by exists [].
  - intros st' Ht. split; [by apply (same_table st)|by rewrite Ht].
Qed.

Lemma reading_ret resp (st : DB W) : told now r resp [] -> reads (ret resp) st.
Proof. intros H. by apply wp_ret. Qed.

Lemma tells_ret resp (st : DB W) : sound st -> told now r resp [] -> tells (ret resp) st.
Proof. intros Hs H. by apply reads_tells, reading_ret. Qed.

(** The same handler in a state with the same table. *)
Lemma same_reads h (st0 st : DB W) : db_table st = db_table st0 -> reads h st ->
  wp h (fun resp st' => db_table st' = db_table st0 /\ told now r resp []) (fun st' => db_table st' = db_table st0) st.
Proof. by intros <-. Qed.

Lemma same_tells h (st0 st : DB W) :
  db_table st = db_table st0 -> tells h st ->
  wp h (fun resp st' => sound st' /\ exists es, told now r resp es /\ spec_steps es (abs (db_table st0)) (abs (db_table st')))
    (fun st' => sound st' /\ abs (db_table st') = abs (db_table st0)) st.
Proof. by intros <-. Qed.

Lemma told_store_error e : told now r (writeStoreError e) [].
Proof. by destruct e. Qed.

(** *** The mux *)

Lemma match_path_id a b rest path ids :
  match_path (Some a :: Some b :: None :: rest) path = Some ids ->
  exists id path' ids', path = a :: b :: id :: path' /\ ids = id :: ids'.
Proof.
  destruct path as [|x [|y [|id path']]]; cbn; repeat (case_bool_decide; [|done]); try done. subst.
  case_bool_decide; [done|]. destruct (match_path rest path') as [ids'|]; [|done]. intros [= <-]. by exists id, path', ids'.
Qed.

Lemma match_path_end a b path ids :
  match_path [Some a; Some b; None] path = Some ids -> path = [a; b; default EmptyString (head ids)].
Proof.
  intros H. pose proof H as (id & path' & ids' & -> & ->)%match_path_id. revert H. cbn.
  do 2 rewrite bool_decide_eq_true_2 by done. case_bool_decide; [done|]. by destruct path'.
Qed.

Lemma find_pattern_match (pats : list (string * list (option string) * (string -> Req -> M (DB W) Response))) method path h :
  find_pattern pats method path = Some h ->
  exists p ids, p ∈ pats /\ match_path p.1.2 path = Some ids /\ h = p.2 (default EmptyString (head ids)).
Proof.
  induction pats as [|[[m pattern] h'] pats IH]; [done|]. cbn [find_pattern].
  destruct (takes m method); [destruct (match_path pattern path) as [ids|] eqn:Em|].
  - intros [= <-]. exists (m, pattern, h'), ids. by split_and!; [left|..].
  - intros (p & ids & Hp & H)%IH. exists p, ids. by split; [right|].
  - intros (p & ids & Hp & H)%IH. exists p, ids. by split; [right|].
Qed.

(** *** The handlers that only read *)

Lemma on_db_table {A} (m : M W A) (st : DB W) :
  wp (on_db m) (fun _ st' => db_table st' = db_table st) (fun st' => db_table st' = db_table st) st.
Proof. unfold wp, on_db. by destruct (m (db_world st)). Qed.

Lemma detectAndRespond_reads upstream st : reads (detectAndRespond upstream) st.
Proof.
  unfold reads, detectAndRespond. apply wp_bind. eapply wp_mono; [apply on_db_table| |done].
  intros [ms|e] st' Ht; by apply wp_ret.
Qed.

Lemma List_table (st : DB W) (Q : list Connection + StoreError -> DB W -> Prop) Ex :
  (forall res st', db_table st' = db_table st -> Q res st') -> wp List Q Ex st.
Proof. intros H. unfold wp. rewrite List_eq. cbv zeta. destruct (fst (db_error _)); by apply H. Qed.

Lemma handleList_reads st : reads (handleList s r) st.
Proof. unfold reads, handleList. apply wp_bind, List_table. intros [cs|e] st' Ht; by apply wp_ret. Qed.

Lemma handleDetectPII_reads st : reads (handleDetectPII r) st.
Proof.
  unfold handleDetectPII, or_error. apply wp_bind, wp_ret. destruct (decode_upstream _) as [u|]; [|by apply reading_ret].
  case_bool_decide; [by apply reading_ret|apply detectAndRespond_reads].
Qed.

Lemma handleDetectPIIForConn_reads id st : reads (handleDetectPIIForConn id r) st.
Proof.
  unfold handleDetectPIIForConn. destruct (ParseInt id) as [n|]; [|by apply reading_ret].
  apply wp_bind, List_table. intros [cs|e] st' Ht; [|by apply wp_ret].
  case_bool_decide; [by apply wp_ret|]. apply same_reads; [done|]. apply detectAndRespond_reads.
Qed.

Lemma handleApprovals_reads st : reads (handleApprovals s r) st.
Proof. unfold handleApprovals. destruct (negb _); [by apply reading_ret|]. by apply wp_bind, wp_world_db, wp_ret. Qed.

Lemma handleDecide_reads id st : rq_Path r = ["api"; "approvals"; id] -> reads (handleDecide s id r) st.
Proof.
  intros Hp. unfold handleDecide. destruct (negb _); [by apply reading_ret|]. unfold or_error. apply wp_bind, wp_ret.
  destruct (decode_decision _) as [d|]; [|by apply reading_ret]. apply wp_bind, wp_world_db. cbn [fst snd].
  destruct (fst _); apply wp_ret; (split; [done|]); [|done]. split_and!; [done..|]. intros _. by exists id.
Qed.

Lemma handleLogin_reads (st : DB W) : reads (handleLogin s r) st.
Proof. unfold handleLogin. case_bool_decide; [by apply reading_ret|]. by destruct (negb _); apply reading_ret. Qed.

Lemma handleIndex_reads (st : DB W) : reads (handleIndex s r) st.
Proof. unfold handleIndex. apply reading_ret. by destruct (authed s r). Qed.

(** *** The handlers that write *)

(** An operation of the registry, with the events it reports. *)
Lemma performed {A} (m : M (DB W) A) (events : A -> list Event) (st : DB W) :
  refines (r <- m ;; ret (events r)) -> sound st ->
  wp m (fun a st' => sound st' /\ spec_steps (events a) (abs (db_table st)) (abs (db_table st')))
    (fun st' => sound st' /\ abs (db_table st') = abs (db_table st)) st.
Proof. intros H Hs. specialize (H st Hs). revert H. unfold wp, bind. by destruct (m st). Qed.

(** The connection that a path names. *)
Lemma named id rest n : rq_Path r = "api" :: "connections" :: id :: rest -> ParseInt id = Some n -> names r n.
Proof. intros Hp Hn. by exists id, rest. Qed.

Lemma handleDelete_tells id rest st :
  rq_Path r = "api" :: "connections" :: id :: rest -> sound st -> tells (handleDelete id r) st.
Proof.
  intros Hp Hs. unfold handleDelete. destruct (ParseInt id) as [n|] eqn:En; [|by apply tells_ret].
  apply wp_bind. eapply wp_mono; [exact (performed _ _ st (Delete_refines n) Hs)| |done].
  intros [[]|e] st' [Hs' H]; apply wp_ret; (split; [done|]); eexists; (split; [|exact H]); [|apply told_store_error].
  split; [by eapply named|done].
Qed.

Lemma handleRotate_tells id rest st :
  rq_Path r = "api" :: "connections" :: id :: rest -> sound st -> tells (handleRotate s id r) st.
Proof.
  intros Hp Hs. unfold handleRotate. destruct (ParseInt id) as [n|] eqn:En; [|by apply tells_ret].
  apply wp_bind. eapply wp_mono; [exact (performed _ _ st (perform_refines current_clock Hbcrypt (OpRotate n) I) Hs)| |done].
  intros [pw|e] st1 [Hs1 H]; [|apply wp_ret; split; [done|]; eexists; split; [apply told_store_error|exact H]].
  apply wp_bind, List_table. intros res st' Ht. apply wp_ret. destruct (same_table st1 st' Ht Hs1) as [Hs' _].
  split; [done|]. rewrite Ht. eexists. split; [|exact H]. split; [by eapply named|by eexists].
Qed.

Section At.
Variable st : DB W.
Hypothesis Hnow : now = (Now (db_world st)).1.
Hypothesis Hs : sound st.

Lemma handleUpdate_tells id rest :
  rq_Path r = "api" :: "connections" :: id :: rest -> tells (handleUpdate id r) st.
Proof.
  intros Hp. unfold handleUpdate, or_error. destruct (ParseInt id) as [n|] eqn:En; [|by apply tells_ret].
  apply wp_bind, wp_ret. destruct (decode_create (rq_Body r)) as [req|msg] eqn:Ed; [|by apply tells_ret].
  case_bool_decide; [by apply tells_ret|].
  apply wp_bind. destruct (expiry_of_spec req st) as [w Ee]. unfold wp at 1. rewrite Ee, <- Hnow.
  apply same_tells; [done|]. destruct (expiry_at now req) as [expires|msg] eqn:Ex; [|by apply tells_ret].
  apply wp_bind. unfold wp at 1. rewrite rotation_of_eq. destruct (interval req) as [every|msg] eqn:Ei; [|by apply tells_ret].
  apply wp_bind. eapply wp_mono; [refine (performed _ _ _ (Update_refines n (edit_of req expires every) _) _)| |done].
  - apply (expiry_at_current now req); [rewrite Hnow; apply Hclock|done].
  - done.
  - intros [[]|e] st' [Hs' H0]; apply wp_ret; (split; [done|]); eexists; (split; [|exact H0]); [|apply told_store_error].
    split_and!; [by eapply named|by exists req, expires, every|done].
Qed.

Lemma handleCreate_tells : tells (handleCreate s r) st.
Proof.
  unfold handleCreate, or_error.
  apply wp_bind, wp_ret. destruct (decode_create (rq_Body r)) as [req|msg] eqn:Ed; [|by apply tells_ret].
  apply wp_bind. destruct (expiry_of_spec req st) as [w Ee]. unfold wp at 1. rewrite Ee, <- Hnow.
  apply same_tells; [done|]. destruct (expiry_at now req) as [expires|msg] eqn:Ex; [|by apply tells_ret].
  apply wp_bind. unfold wp at 1. rewrite rotation_of_eq. destruct (interval req) as [every|msg] eqn:Ei; [|by apply tells_ret].
  apply wp_bind. eapply wp_mono;
    [apply wp_both; [refine (performed _ _ _ (Create_refines current_clock Hbcrypt (create_of req expires every) _) _)|apply Create_spec]| |by intros st' [H0 _]].
  - apply (expiry_at_current now req); [rewrite Hnow; apply Hclock|done].
  - done.
  - intros [[c pw]|e] st' [[Hs' H0] Hc]; apply wp_ret; (split; [done|]); eexists; (split; [|exact H0]); [|done].
    split; [by exists req, expires, every|]. exists c. split_and!; [done..|].
    by destruct (Hc c pw eq_refl) as (w1 & hash & w2 & enc & s2 & s3 & t & _ & _ & _ & _ & _ & _ & _ & _ & _ & ->).
Qed.

(** *** Every request *)

Lemma requireAuth_tells next : tells (next r) st -> tells (requireAuth s next r) st.
Proof. intros H. unfold requireAuth. destruct (negb _); [by apply tells_ret|done]. Qed.

Lemma patterns_tell :
  Forall (fun p => forall ids, match_path p.1.2 (rq_Path r) = Some ids -> tells (p.2 (default EmptyString (head ids)) r) st) (patterns s).
Proof.
  unfold patterns. repeat apply Forall_cons_2; [..|apply Forall_nil_2]; intros ids; cbn [snd fst app]; intros Hm; try apply requireAuth_tells.
  - apply reads_tells, handleLogin_reads; done.
  - by apply tells_ret.
  - apply reads_tells, handleList_reads; done.
  - apply handleCreate_tells.
  - apply reads_tells, handleDetectPII_reads; done.
  - apply match_path_id in Hm as (id & path & ids' & Hp & ->). by eapply handleUpdate_tells.
  - apply match_path_id in Hm as (id & path & ids' & Hp & ->). by eapply handleRotate_tells.
  - apply reads_tells, handleDetectPIIForConn_reads; done.
  - apply match_path_id in Hm as (id & path & ids' & Hp & ->). by eapply handleDelete_tells.
  - apply reads_tells, handleApprovals_reads; done.
  - apply reads_tells, handleDecide_reads; [done|]. by apply match_path_end.
Qed.

Lemma Handler_tells : tells (Handler s r) st.
Proof.
  unfold Handler. destruct (find_pattern _ _ _) as [h|] eqn:Eh.
  - apply find_pattern_match in Eh as (p & ids & Hp & Hm & ->). by apply (proj1 (Forall_forall _ _) patterns_tell p).
  - destruct (takes "GET" (rq_Method r)); [apply reads_tells; [done|apply handleIndex_reads]|by apply tells_ret].
Qed.
End At.
End Request.

(** C6.  Every request to the admin server, whatever its method, path and body and
    whatever fails, leaves the registry sound and takes the abstract registry
    through the event that the response tells and no other: a 201 with the
    connection and its password is the creation that the body asks for, a new
    password the rotation of the connection that the path names, a 204 the edit or
    the deletion of that connection (or a decision on an approval); every other
    response, the unauthorized ones among them, goes with no change.  A registry is
    sound when its invariant holds and every row can be read, as in the empty one
    and, by this theorem, after any requests; the clock is [current]. *)
Theorem api_refines_registry r st :
  sound st ->
  match Handler s r st with
  | Ok resp st' => sound st' /\ exists es, told (Now (db_world st)).1 r resp es
                     /\ spec_steps es (abs (db_table st)) (abs (db_table st'))
  | Panic st' => sound st' /\ abs (db_table st') = abs (db_table st)
  end.
Proof. intros Hs. by apply Handler_tells. Qed.

(** *** What agents get from then on *)

Lemma abs_names tb i j c c' :
  registered tb -> abs tb !! i = Some c -> abs tb !! j = Some c' -> cn_AgentUsername c = cn_AgentUsername c' -> i = j.
Proof.
  intros Hreg (r & Hr & <- & Es)%(abs_lookup _ _ _ Hreg) (r' & Hr' & <- & Es')%(abs_lookup _ _ _ Hreg) Hn.
  rewrite (scan_username _ _ Es), (scan_username _ _ Es') in Hn. f_equal. by apply (same_name tb).
Qed.

(** The registry [st'] after an event in [m], as a login at the world [w] sees it:
    an edited policy governs the session, a deleted connection is gone, and a
    rotated one has its new password and is otherwise the same. *)
Definition governs (m : Connections) (e : Event) (found : string -> option Connection) (now : Time) : Prop :=
  match e with
  | Updated n inp => forall c0, m !! n = Some c0 ->
      found (cn_AgentUsername c0) = (if Expired (edited inp c0) now then None else Some (edited inp c0))
      /\ forall salt red, ConnectionPolicy (edited inp c0) salt red = New (ui_PIIRules inp) salt red (ui_MaxRows inp) (ui_GateMutations inp)
  | Deleted n => forall c0, m !! n = Some c0 -> found (cn_AgentUsername c0) = None
  | Rotated n pw => forall c0, m !! n = Some c0 -> Expired c0 now = false ->
      exists c, found (cn_AgentUsername c0) = Some c /\ VerifyPassword c pw = true /\ cn_UpstreamURL c = cn_UpstreamURL c0
        /\ forall salt red, ConnectionPolicy c salt red = ConnectionPolicy c0 salt red
  | Created inp c pw =>
      found (cn_AgentUsername c) = (if Expired c now then None else Some (as_stored c))
      /\ VerifyPassword (as_stored c) pw = true
  | _ => True
  end.

(** A login is determined by the connection of its name. *)
Lemma login_lookup (s2 : DB W) w i c :
  sound s2 -> db_error (db_world s2) = (None, w) -> abs (db_table s2) !! i = Some c ->
  login (cn_AgentUsername c) s2 = if Expired c (Now w).1 then None else Some c.
Proof.
  intros Hs Hdb Hc. destruct (login (cn_AgentUsername c) s2) as [c'|] eqn:El.
  - apply (login_abs _ _ w) in El as ([j Hj] & Hn & Ee); [|done..].
    assert (i = j) as -> by by eapply abs_names; [apply Hs| | |symmetry]. rewrite Hc in Hj. injection Hj as ->. by rewrite Ee.
  - destruct (Expired c _) eqn:Ee; [done|]. assert (login (cn_AgentUsername c) s2 = Some c) as H; [|by rewrite H in El].
    apply (login_abs _ _ w); [done..|]. split_and!; [by exists i|done..].
Qed.

Lemma spec_step_governs e (st s2 : DB W) w :
  sound st -> sound s2 -> db_error (db_world s2) = (None, w) ->
  (forall n inp, e = Updated n inp -> Forall utf8_rule (ui_PIIRules inp)) ->
  spec_step e (abs (db_table st)) (abs (db_table s2)) ->
  governs (abs (db_table st)) e (fun u => login u s2) (Now w).1.
Proof.
  intros Hs Hs2 Hdb Hu. destruct e as [inp c pw|n pw|n next|n inp|n|t k|u c]; cbn [spec_step governs]; try done.
  - intros (_ & _ & Hm & Ha). split; [|done]. apply (login_lookup s2 w (cn_ID c) (as_stored c)); [done..|]. by rewrite Ha, lookup_insert_eq.
  - intros (_ & hash & now & Hm & Ha) c0 Hc0 He. exists (with_credentials hash now c0). split_and!; [|done..].
    assert (Hc : abs (db_table s2) !! n = Some (with_credentials hash now c0)) by by rewrite Ha, lookup_alter_eq, Hc0.
    rewrite (login_lookup s2 w n _ Hs2 Hdb Hc : login (cn_AgentUsername c0) s2 = _).
    assert (Expired (with_credentials hash now c0) (Now w).1 = false) as -> by exact He. done.
  - intros (_ & Ha) c0 Hc0. split.
    2:{ intros salt red. unfold ConnectionPolicy, edited. cbn. by rewrite utf8_rules_sanitize by eauto. }
    apply (login_lookup s2 w n (edited inp c0)); [done..|]. by rewrite Ha, lookup_alter_eq, Hc0.
  - intros (_ & Ha) c0 Hc0. destruct (login (cn_AgentUsername c0) s2) as [c|] eqn:El; [|done].
    apply (login_abs _ _ w) in El as ([j Hj] & Hn & _); [|done..]. rewrite Ha in Hj. apply lookup_delete_Some in Hj as [Hne Hj].
    destruct Hne. by eapply abs_names; [apply Hs| | |symmetry].
Qed.

(** C18.  What the admin server answers is what agents get: from a response on, for as
    long as the registry stays as it left it, a name logs in exactly as the
    connection of the abstract registry after the events the response told, unless
    it has expired.  So an edited policy is the policy of every later session, a
    deleted connection no longer logs in, a rotated one verifies its new password
    and keeps its policy and upstream, and all others log in as before. *)
Theorem responses_govern_logins r st resp st' s2 w :
  sound st -> Handler s r st = Ok resp st' ->
  db_table s2 = db_table st' -> db_error (db_world s2) = (None, w) ->
  exists es m', told (Now (db_world st)).1 r resp es /\ spec_steps es (abs (db_table st)) m'
    /\ (forall u c, login u s2 = Some c <-> admits m' (Now w).1 u c)
    /\ Forall (fun e => governs (abs (db_table st)) e (fun u => login u s2) (Now w).1) es.
Proof.
  intros Hs Hh Ht Hdb. pose proof (Handler_tells _ r st eq_refl Hs) as H. unfold tells, wp in H. rewrite Hh in H.
  destruct H as [Hs' (es & Htold & Hst)]. rewrite <- Ht in Hst. assert (Hs2 : sound s2) by by apply (same_table st').
  exists es, (abs (db_table s2)). split_and!; [done..|intros u c; by apply login_abs|].
  destruct es as [|e [|e' es]]; [constructor| |by destruct e]. constructor; [|constructor].
  apply spec_step_governs; [done..| |].
  { intros n inp ->. destruct Htold as (_ & (req & expires & every & (Hd & _) & ->) & _). by eapply decode_create_utf8. }
  inversion Hst as [|? ? ? ? ? H1 H2]; subst. by inversion H2; subst.
Qed.
End Api.

(** ** The theorems at concrete inputs *)

Module LifecycleWitnesses.
Import RegistryWitnesses AdminWitnesses.
#[local] Existing Instances ascii_only clock random bcrypt bcrypt_check engine gcm no_other_layout
  printable no_literals decoder no_broker no_dialer error_texts.

(** A request with the token. *)
Definition authorized (method : string) (path : list string) (b : string) : Req :=
  mkReq method path (fun h => if bool_decide (h = "Authorization") then "Bearer token" else EmptyString) None "" true b.

(** The registry with one connection, and the edit of it. *)
Definition stored : DB unit := final (created (body [])).
Definition edit_request : Req := authorized "PUT" ["api"; "connections"; "1"] (with_ttl "3h").

Lemma clock_current (w : unit) : current (Now w).1.
Proof. split; apply in_range_year; vm_compute; reflexivity. Qed.

Lemma stored_sound : sound stored.
Proof.
  assert (He : sound empty) by (split; [apply empty_registered|constructor]).
  pose proof (handleCreate_tells server clock_current bcrypt_law _ (post (body [])) empty eq_refl He) as H.
  unfold tells, wp in H. unfold stored, created. destruct (handleCreate server (post (body [])) empty); by apply H.
Qed.

Lemma api_refines_registry_witness :
  exists st' es, Handler server edit_request stored = Ok (respond 204 NoBody) st' /\ sound st' /\ length es = 1
    /\ spec_steps es (abs (db_table stored)) (abs (db_table st')).
Proof.
  assert (Hh : exists st', Handler server edit_request stored = Ok (respond 204 NoBody) st') by (eexists; vm_compute; reflexivity).
  destruct Hh as [st' Hh].
  pose proof (api_refines_registry server clock_current bcrypt_law edit_request stored stored_sound) as H.
  rewrite Hh in H. destruct H as (Hs & es & Ht & Hst). exists st', es. split_and!; [done..| |done].
  destruct es as [|e [|e' es]]; [|done|by destruct e].
  destruct Ht as (_ & _ & Hp). destruct (Hp eq_refl) as [id Hid]. discriminate Hid.
Defined.

(** An edit, seen by the next login. *)
Lemma responses_govern_logins_witness :
  exists st' c, Handler server edit_request stored = Ok (respond 204 NoBody) st'
    /\ login "orders_db_aaaaaa" st' = Some c /\ cn_ExpiresAt c = (noon + 10800000000000)%Z.
Proof.
  assert (Hh : exists st', Handler server edit_request stored = Ok (respond 204 NoBody) st'
    /\ exists c, login "orders_db_aaaaaa" st' = Some c /\ cn_ExpiresAt c = (noon + 10800000000000)%Z)
    by (eexists; split; [vm_compute; reflexivity|eexists; split; vm_compute; reflexivity]).
  destruct Hh as (st' & Hh & c & Hc & He). 
  destruct (responses_govern_logins server clock_current bcrypt_law edit_request stored _ st' st' tt stored_sound Hh)
    as (es & m' & _ & _ & H & _); [reflexivity|by destruct (db_world st')|].
  exists st', c. split_and!; [done| |done]. exact (proj2 (H "orders_db_aaaaaa" c) (proj1 (H _ c) Hc)).
Defined.
End LifecycleWitnesses.
