(* ===== verification/Edit.v ===== *)
(** * Saving what is shown

    The admin API shows a connection as JSON and takes the same members for an edit.
    A client that puts back what it got, as the form of the web UI does for fields
    that are left alone, changes nothing: numbers, texts, rules and durations are
    read back as they were shown. *)

From stdpp Require Import pretty.
From S2P Require Import Prelude GoStrings GoText Timestamp Base64 GoNet GoURL Json JsonProps Policy Approval Store Registry Broker Proto Detect Scenario RegistryProps RegistrySpec Admin AdminProps Lifecycle.

(** ** Durations are read back *)

(** The text of a number that is not negative. *)
Lemma pretty_digits k : (0 <= k)%Z -> exists c ds,
  pretty k = String c ds /\ is_digit c = true /\ sforall is_digit ds = true /\ atoi 0 (String c ds) = Some k.
Proof.
  destruct k as [|p|p]; [|intros _|lia].
  - intros _. by exists "0"%char, EmptyString.
  - destruct (pretty_pos_digits p) as (c & ds & E & Hc & H). exists c, ds. split_and!; [done| |by destruct H..].
    destruct H as [_ H]. cbn [atoi] in H. by destruct (is_digit c).
Qed.

Definition no_digit (rest : string) : Prop := match rest with EmptyString => True | String c _ => is_digit c = false end.

Lemma atoi_grows acc s n : atoi acc s = Some n -> (0 <= acc)%Z -> (acc <= n)%Z.
Proof.
  revert acc. induction s as [|c s IH]; intros acc; cbn; [intros [= ->]; lia|].
  destruct (is_digit c) eqn:Ec; [|done]. intros H Ha. unfold is_digit in Ec. apply between_spec in Ec.
  specialize (IH _ H ltac:(lia)). lia.
Qed.

Lemma leadingInt_digits ds rest acc n :
  atoi acc ds = Some n -> (0 <= acc)%Z -> (n <= 2 ^ 63)%Z -> no_digit rest ->
  leadingInt (ds +:+ rest) (Z.to_N acc) = Some (Z.to_N n, rest).
Proof.
  revert acc. induction ds as [|c ds IH]; intros acc.
  - intros [= ->] _ _ Hr. rewrite sapp_nil. destruct rest as [|c rest]; [done|]. cbn in Hr |- *. change (digit c) with (is_digit c). by rewrite Hr.
  - cbn [atoi]. destruct (is_digit c) eqn:Ec; [|done]. intros H Ha Hn Hr. rewrite sapp_cons. cbn [leadingInt].
    change (digit c) with (is_digit c). rewrite Ec. unfold is_digit in Ec. apply between_spec in Ec.
    pose proof (atoi_grows _ _ _ H ltac:(lia)) as Hg.
    assert (E : (Z.to_N acc * 10 + byteN c - 48)%N = Z.to_N (acc * 10 + (Z.of_N (byteN c) - 48))) by lia.
    rewrite E, (proj2 (N.ltb_ge _ _)), (proj2 (N.ltb_ge _ _)) by lia. by apply IH; [|lia|..].
Qed.

(** The units of whole seconds. *)
Definition clock_units : list (ascii * N) := [("h"%char, 3600000000000%N); ("m"%char, 60000000000%N); ("s"%char, 1000000000%N)].

Lemma clock_unit u unit : (u, unit) ∈ clock_units ->
  is_digit u = false /\ bool_decide (u = "."%char) = false /\ unitMap (String u EmptyString) = Some unit /\ (0 < unit)%N.
Proof. unfold clock_units. rewrite !elem_of_cons, elem_of_nil. intros [[= -> ->]|[[= -> ->]|[[= -> ->]|[]]]]; done. Qed.

(** The text after a component: another one, or the end. *)
Definition next_number (rest : string) : Prop := rest = EmptyString \/ exists c s, rest = String c s /\ is_digit c = true.

Lemma duration_component_spec k u unit rest :
  (u, unit) ∈ clock_units -> (0 <= k)%Z -> (k * Z.of_N unit < 2 ^ 63)%Z -> next_number rest ->
  duration_component (pretty k +:+ String u rest) = Some (Z.to_N (k * Z.of_N unit), rest).
Proof.
  intros (Hd & Hdot & Hunit & Hpos)%clock_unit Hk Hmax Hrest. destruct (pretty_digits k Hk) as (c & ds & Ek & Hc & Hds & Ha).
  assert (Hlead : leadingInt (pretty k +:+ String u rest) 0 = Some (Z.to_N k, String u rest)).
  { rewrite Ek. apply (leadingInt_digits _ _ 0 k); [done..|nia|done]. }
  rewrite Ek, sapp_cons in *. unfold duration_component. change (digit c) with (is_digit c). rewrite Hc, orb_true_r. cbn [negb].
  rewrite Hlead. cbn [mbind option_bind]. rewrite Hdot, bool_decide_eq_false_2.
  2:{ cbn [String.length]. rewrite slength_app. cbn [String.length]. lia. }
  assert (Hl : unit_length (String u rest) = 1).
  { cbn [unit_length]. rewrite Hdot. change (digit u) with (is_digit u). rewrite Hd. cbn [orb]. f_equal.
    destruct Hrest as [->|(c' & s' & -> & Hc')]; [done|]. cbn [unit_length]. change (digit c') with (is_digit c').
    by rewrite Hc', orb_true_r. }
  rewrite Hl. cbn [negb andb]. rewrite bool_decide_eq_false_2 by done. cbn [stake]. rewrite Hunit. cbn [mbind option_bind].
  assert (Hk' : (Z.to_N k * unit)%N = Z.to_N (k * Z.of_N unit)) by lia.
  assert (Hdiv : (2 ^ 63 / unit <? Z.to_N k)%N = false).
  { apply N.ltb_ge. apply N.div_le_lower_bound; lia. }
  rewrite Hdiv, Hk'. cbn [N.ltb N.compare andb sdrop]. do 2 f_equal. unfold wrap64. apply N.mod_small. lia.
Qed.

Lemma duration_loop_step fuel k u unit rest d :
  (u, unit) ∈ clock_units -> (0 <= k)%Z -> (0 <= d)%Z -> (d + k * Z.of_N unit < 2 ^ 63)%Z -> next_number rest ->
  duration_loop (S fuel) (pretty k +:+ String u rest) (Z.to_N d) = duration_loop fuel rest (Z.to_N (d + k * Z.of_N unit)).
Proof.
  intros Hu Hk Hd Hmax Hrest. destruct (clock_unit _ _ Hu) as (_ & _ & _ & Hpos).
  pose proof (duration_component_spec k u unit rest Hu Hk ltac:(nia) Hrest) as Hc.
  destruct (pretty_digits k Hk) as (c & ds & Ek & _). rewrite Ek, sapp_cons in *. cbn [duration_loop]. rewrite Hc.
  cbn [mbind option_bind]. assert (E : wrap64 (Z.to_N d + Z.to_N (k * Z.of_N unit)) = Z.to_N (d + k * Z.of_N unit)).
  { unfold wrap64. rewrite N.mod_small by nia. nia. }
  rewrite E, (proj2 (N.ltb_ge _ _)) by nia. done.
Qed.

Lemma pretty_next k rest : (0 <= k)%Z -> next_number (pretty k +:+ rest).
Proof. intros Hk. destruct (pretty_digits k Hk) as (c & ds & -> & Hc & _). right. rewrite sapp_cons. eauto. Qed.

(** The text of a whole number of seconds. *)
Definition clock_text (secs : Z) : string :=
  let tail := pretty (secs mod 60)%Z +:+ String "s" EmptyString in
  if (secs / 60 =? 0)%Z then tail
  else
    let tail := pretty (secs / 60 mod 60)%Z +:+ String "m" tail in
    if (secs / 3600 =? 0)%Z then tail else pretty (secs / 3600)%Z +:+ String "h" tail.

Lemma Duration_String_clock secs : (0 < secs)%Z -> Duration_String (secs * 1000000000)%Z = clock_text secs.
Proof.
  intros Hs. unfold Duration_String, clock_text. rewrite Z.abs_eq by lia. rewrite Z.mod_mul, Z.div_mul by lia.
  rewrite (proj2 (Z.eqb_neq (secs * 1000000000)%Z 0)) by lia.
  rewrite !(proj2 (Z.ltb_ge (secs * 1000000000)%Z _)) by lia.
  change (frac_text 9 0) with EmptyString. rewrite sapp_nil. by repeat destruct (_ =? 0)%Z.
Qed.

Lemma clock_step fuel k u unit rest d :
  (u, unit) ∈ clock_units -> (0 <= k)%Z -> (0 <= d)%Z -> (d + k * Z.of_N unit < 2 ^ 63)%Z -> next_number rest ->
  String.length (pretty k +:+ String u rest) <= fuel ->
  exists fuel', String.length rest <= fuel'
    /\ duration_loop fuel (pretty k +:+ String u rest) (Z.to_N d) = duration_loop fuel' rest (Z.to_N (d + k * Z.of_N unit)).
Proof.
  rewrite slength_app. cbn [String.length]. intros Hu Hk Hd Hmax Hr Hf. destruct fuel as [|fuel]; [lia|].
  exists fuel. split; [lia|]. by apply duration_loop_step.
Qed.

Lemma clock_loop fuel secs :
  (0 < secs)%Z -> (secs * 1000000000 < 2 ^ 63)%Z -> String.length (clock_text secs) <= fuel ->
  duration_loop fuel (clock_text secs) 0 = Some (Z.to_N (secs * 1000000000)%Z).
Proof.
  intros Hs Hmax. unfold clock_text. cbv zeta.
  assert (E1 : (secs = 60 * (secs / 60) + secs mod 60)%Z) by (apply Z.div_mod; lia).
  assert (E2 : (secs / 60 = 60 * (secs / 3600) + secs / 60 mod 60)%Z).
  { replace (secs / 3600)%Z with (secs / 60 / 60)%Z by (by rewrite Z.div_div by lia). apply Z.div_mod. lia. }
  pose proof (Z.mod_pos_bound secs 60 ltac:(lia)) as Ha. pose proof (Z.mod_pos_bound (secs / 60)%Z 60%Z ltac:(lia)) as Hm.
  pose proof (Z.div_pos secs 3600 ltac:(lia) ltac:(lia)) as Hh.
  revert E1 E2 Ha Hm Hh. generalize (secs mod 60)%Z (secs / 60 mod 60)%Z (secs / 3600)%Z. intros a m h. generalize (secs / 60)%Z. intros q E1 E2 Ha Hm Hh.
  assert (Hu : (("h"%char, 3600000000000%N) ∈ clock_units) /\ ("m"%char, 60000000000%N) ∈ clock_units /\ ("s"%char, 1000000000%N) ∈ clock_units)
    by (unfold clock_units; split_and!; repeat constructor).
  destruct Hu as (Uh & Um & Us). change 0%N with (Z.to_N 0).
  assert (Hlast : forall f d, (0 <= d)%Z -> (d + a * Z.of_N 1000000000 < 2 ^ 63)%Z -> String.length (pretty a +:+ "s") <= f ->
    duration_loop f (pretty a +:+ "s") (Z.to_N d) = Some (Z.to_N (d + a * 1000000000)%Z)).
  { intros f d Hd Hmax' Hf. destruct (clock_step f a _ _ EmptyString d Us ltac:(lia) Hd Hmax' ltac:(by left) Hf) as (f' & _ & ->).
    by destruct f'. }
  destruct (Z.eqb_spec q 0) as [Z60|N60]; [|destruct (Z.eqb_spec h 0) as [Z3600|N3600]]; intros Hf.
  - rewrite Hlast by (done || lia). do 2 f_equal. lia.
  - destruct (clock_step fuel m _ _ _ 0 Um ltac:(lia) ltac:(lia) ltac:(lia) (pretty_next a "s" ltac:(lia)) Hf) as (f1 & Hf1 & ->).
    rewrite Hlast by (done || lia). do 2 f_equal. lia.
  - destruct (clock_step fuel h _ _ _ 0 Uh ltac:(lia) ltac:(lia) ltac:(lia) (pretty_next m _ ltac:(lia)) Hf) as (f1 & Hf1 & ->).
    destruct (clock_step f1 m _ _ _ (0 + h * Z.of_N 3600000000000)%Z Um ltac:(lia) ltac:(lia) ltac:(lia) (pretty_next a "s" ltac:(lia)) Hf1) as (f2 & Hf2 & ->).
    rewrite Hlast by (done || lia). do 2 f_equal. lia.
Qed.

(** The shape of the text: digits and units, the last of them seconds. *)
Definition clock_byte (c : ascii) : bool := is_digit c || byte_in c "hms".

Lemma pretty_bytes k : (0 <= k)%Z -> sforall clock_byte (pretty k) = true.
Proof.
  intros Hk. destruct (pretty_digits k Hk) as (c & ds & -> & Hc & Hds & _). cbn [sforall]. unfold clock_byte at 1. rewrite Hc. cbn [orb andb].
  by apply (sforall_implied is_digit).
Qed.

Lemma clock_text_shape secs : (0 < secs)%Z ->
  sforall clock_byte (clock_text secs) = true /\ (exists t, clock_text secs = t +:+ "s")
  /\ exists c s, clock_text secs = String c s /\ is_digit c = true /\ s <> EmptyString.
Proof.
  intros Hs. unfold clock_text. cbv zeta.
  pose proof (Z.mod_pos_bound secs 60 ltac:(lia)). pose proof (Z.mod_pos_bound (secs / 60)%Z 60%Z ltac:(lia)).
  pose proof (Z.div_pos secs 3600 ltac:(lia) ltac:(lia)).
  assert (Hhead : forall k u r, (0 <= k)%Z -> exists c s, pretty k +:+ String u r = String c s /\ is_digit c = true /\ s <> EmptyString).
  { intros k u r Hk. destruct (pretty_digits k Hk) as (c & ds & -> & Hc & _). rewrite sapp_cons. exists c, (ds +:+ String u r).
    split_and!; [done..|]. intros E%(f_equal String.length). rewrite slength_app in E. cbn in E. lia. }
  split_and!; [| |repeat destruct (_ =? 0)%Z; apply Hhead; lia].
  - repeat destruct (_ =? 0)%Z; rewrite !sforall_app; cbn [sforall]; rewrite ?sforall_app; cbn [sforall]; rewrite ?sforall_app;
      by rewrite !pretty_bytes by lia.
  - assert (He : forall (k : Z) u r, (exists t, r = t +:+ "s") -> exists t, pretty k +:+ String u r = t +:+ "s").
    { intros k u r [t ->]. exists (pretty k +:+ String u t). by rewrite sapp_assoc, sapp_cons. }
    assert (Hs0 : exists t, pretty (secs mod 60)%Z +:+ "s" = t +:+ "s") by by eexists.
    destruct (_ =? 0)%Z; [done|]. destruct (_ =? 0)%Z; auto.
Qed.

(** Whole seconds are read back as they are shown. *)
Lemma ParseDuration_String secs :
  (0 < secs)%Z -> (secs * 1000000000 < 2 ^ 63)%Z ->
  ParseDuration (Duration_String (secs * 1000000000)%Z) = Some (secs * 1000000000)%Z.
Proof.
  intros Hs Hmax. rewrite Duration_String_clock by done. destruct (clock_text_shape secs Hs) as (_ & _ & c & t & Et & Hc & Ht).
  pose proof (clock_loop (String.length (clock_text secs)) secs Hs Hmax ltac:(done)) as Hl. unfold ParseDuration. rewrite Et in *.
  rewrite (bool_decide_eq_false_2 (c = "-"%char)), (bool_decide_eq_false_2 (c = "+"%char)) by (intros ->; done).
  rewrite (bool_decide_eq_false_2 (String c t = "0")) by (intros [= -> ->]; done).
  rewrite (bool_decide_eq_false_2 (String c t = EmptyString)) by done. rewrite Hl. cbn [mbind option_bind].
  rewrite (proj2 (N.ltb_ge _ _)) by lia. f_equal. lia.
Qed.

Section HumanDurations.
Context {U : Unicode} {Pr : Printable}.

Lemma clock_text_plain t : sforall clock_byte t = true -> TrimSpace (ToLower t) = t.
Proof.
  intros H. unfold ToLower. replace (isASCII t) with true by (symmetry; by apply (sforall_implied clock_byte)).
  replace (smap lower_byte t) with t; [by apply TrimSpace_inked, (sforall_implied clock_byte)|].
  induction t as [|c t IH]; [done|]. cbn [sforall] in H. apply andb_true_iff in H as [Hc Ht]. cbn [smap]. f_equal; [|by apply IH].
  pose proof (all_bytes_spec (fun c => implb (clock_byte c) (bool_decide (c = lower_byte c))) ltac:(by vm_compute) c) as Hl.
  cbv beta in Hl. rewrite Hc in Hl. by apply bool_decide_eq_true in Hl.
Qed.

Lemma parseHumanDuration_String secs field :
  (0 < secs)%Z -> (secs * 1000000000 < 2 ^ 63)%Z ->
  let text := Duration_String (secs * 1000000000)%Z in
  parseHumanDuration text field = inl (secs * 1000000000)%Z /\ blank (Some text) = false.
Proof.
  intros Hs Hmax. cbv zeta. unfold parseHumanDuration, blank. pose proof (ParseDuration_String secs Hs Hmax) as Hp.
  rewrite Duration_String_clock in * by done. destruct (clock_text_shape secs Hs) as (Hb & [t Et] & c & s & Ec & _ & _).
  rewrite clock_text_plain by done. split.
  - assert (Hd : CutSuffix (clock_text secs) "d" = None).
    { unfold CutSuffix. rewrite bool_decide_eq_false_2; [done|]. rewrite Et, slength_app. cbn [String.length].
      replace (String.length t + 1 - 1) with (String.length t + 0) by lia. by rewrite byte_at_app_r. }
    rewrite Hd, Hp. by rewrite (proj2 (Z.leb_gt _ _)) by lia.
  - apply bool_decide_eq_false_2. pose proof (clock_text_plain (clock_text secs) Hb) as Hl. intros E. 
    assert (TrimSpace (clock_text secs) = clock_text secs) as E' by (by apply TrimSpace_inked, (sforall_implied clock_byte)).
    congruence.
Qed.
End HumanDurations.

(** ** A connection is read back as an edit of itself *)

Lemma fill_skip {A} (fields : list (string * (A -> json -> option A))) prev key v ms :
  field_of fields key = None -> fill_members fields prev ((key, v) :: ms) = fill_members fields prev ms.
Proof. intros H. cbn [fill_members]. by rewrite H. Qed.

Lemma fill_take {A} (fields : list (string * (A -> json -> option A))) prev key v ms f a :
  field_of fields key = Some f -> f prev v = Some a -> fill_members fields prev ((key, v) :: ms) = fill_members fields a ms.
Proof. intros H Hf. cbn [fill_members]. by rewrite H, Hf. Qed.

(** The edit that the JSON of a connection asks for. *)
Definition shown_edit (d : connectionDTO) : createRequest :=
  mkCreateRequest (dto_Name d) (sanitize (dto_UpstreamURL d)) (Some (dto_MaxRows d)) (Some (dto_GateMutations d)) (dto_PIIRules d)
    None (Some (dto_RotateEvery d)).

Lemma rules_filled rs : Forall utf8_rule rs -> exists x,
  fill_rules ([], 0) (norm (rules_json rs)) = Some x /\ slice_items x = rs.
Proof.
  intros H. pose proof (fill_rules_json rs) as Hf. rewrite utf8_rules_sanitize in Hf by done.
  unfold rules_json. destruct (fill_rules ([], 0) _) as [x|]; [|done]. injection Hf as Hx. by exists x.
Qed.

Lemma time_text t v : time_json t = Some v -> exists s, v = JString s.
Proof. unfold time_json. destruct (_ && _); [|done]. intros [= <-]. by eexists. Qed.

Lemma decode_shown (d : connectionDTO) v :
  connection_json d = Some v -> utf8 (dto_Name d) -> Forall utf8_rule (dto_PIIRules d) -> utf8 (dto_RotateEvery d) ->
  (- 2 ^ 63 <= dto_MaxRows d < 2 ^ 63)%Z ->
  fst <$> fill_struct createRequest_fields (zeroCreate, ([], 0)) (norm v) = Some (shown_edit d).
Proof.
  unfold connection_json. destruct (time_json (dto_CreatedAt d)) as [created|]; [|done].
  destruct (time_json (dto_RotatedAt d)) as [rotated|]; [|done]. cbn [mbind option_bind].
  destruct (match dto_ExpiresAt d with Some t => time_json t | None => Some JNull end) as [expires|]; [|done].
  cbn [mbind option_bind]. intros H Hn Hr He Hm. destruct (rules_filled _ Hr) as (x & Hx & Ex).
  assert (Hnext : exists next, v = JObject ([("id", JInt (dto_ID d)); ("name", JString (dto_Name d));
    ("agent_username", JString (dto_AgentUsername d)); ("agent_password", JString (dto_AgentPassword d));
    ("upstream_url", JString (dto_UpstreamURL d)); ("max_rows", JInt (dto_MaxRows d));
    ("gate_mutations", JBool (dto_GateMutations d)); ("pii_rules", rules_json (dto_PIIRules d));
    ("created_at", created); ("expires_at", expires); ("rotate_every", JString (dto_RotateEvery d));
    ("rotated_at", rotated)] ++ next ++ [("connection_string", JString (dto_ConnectionString d))])
    /\ (next = [] \/ exists t, next = [("next_rotation_at", t)])).
  { destruct (dto_NextRotationAt d) as [t|]; [destruct (time_json t) as [w|]; [|done]|]; injection H as <-.
    - exists [("next_rotation_at", w)]. split; [done|]. right. by exists w.
    - exists []. by split; [|left]. }
  destruct Hnext as (next & -> & Hnext). cbn [norm fill_struct]. rewrite !map_app. cbn [map fst snd app].
  cbn [norm]. change (norm (JInt ?n)) with (JInt n).
  rewrite Hn, He.
  assert (Hint : fill_pointer 0%Z fill_int None (JInt (dto_MaxRows d)) = Some (Some (dto_MaxRows d)))
    by (unfold fill_pointer, JInt, fill_int; by rewrite ParseInt_pretty).
  do 1 (rewrite fill_skip by (vm_compute; reflexivity)).
  erewrite fill_take; [|reflexivity|reflexivity].
  do 2 (rewrite fill_skip by (vm_compute; reflexivity)).
  erewrite fill_take; [|reflexivity|reflexivity].
  erewrite fill_take; [|reflexivity|cbn [fst snd zeroCreate cr_MaxRows]; rewrite Hint; reflexivity].
  erewrite fill_take; [|reflexivity|reflexivity].
  erewrite fill_take; [|reflexivity|cbn [fst snd]; rewrite Hx; reflexivity].
  do 2 (rewrite fill_skip by (vm_compute; reflexivity)).
  erewrite fill_take; [|reflexivity|reflexivity].
  do 1 (rewrite fill_skip by (vm_compute; reflexivity)).
  assert (Hlast : forall p, fill_members createRequest_fields p (map (fun m => (sanitize m.1, norm m.2)) next
    ++ [(sanitize "connection_string", JString (sanitize (dto_ConnectionString d)))]) = Some p).
  { intros p. destruct Hnext as [->|[t ->]]; cbn [map app fst snd]; by repeat (rewrite fill_skip by (vm_compute; reflexivity)). }
  rewrite Hlast. cbn. by rewrite Ex.
Qed.

Lemma time_encodable t v : time_json t = Some v -> encodable v /\ depth v = 0.
Proof. unfold time_json. destruct (_ && _); [|done]. intros [= <-]. by split; [constructor|]. Qed.

Lemma rules_encodable rs : encodable (rules_json rs) /\ depth (rules_json rs) <= 2.
Proof.
  unfold rules_json. split.
  - constructor. apply Forall_fmap, Forall_forall. intros x _. apply PIIRule_encodable.
  - cbn [depth]. enough (max_list (map depth (PIIRule_json <$> rs)) <= 1) by lia. apply max_list_bound, Forall_fmap.
    apply Forall_forall. intros x _. by apply Nat.eq_le_incl, PIIRule_depth.
Qed.

(** The JSON of a connection is written and decoded, as the value of a list or alone. *)
Lemma shown_encodable (d : connectionDTO) v : connection_json d = Some v -> encodable v /\ (N.of_nat (depth v) <= maxNestingDepth)%N.
Proof.
  unfold connection_json. destruct (time_json (dto_CreatedAt d)) as [created|] eqn:E1; [|done].
  destruct (time_json (dto_RotatedAt d)) as [rotated|] eqn:E2; [|done]. cbn [mbind option_bind].
  assert (He : forall expires, (match dto_ExpiresAt d with Some t => time_json t | None => Some JNull end) = Some expires ->
    encodable expires /\ depth expires = 0).
  { intros expires. destruct (dto_ExpiresAt d); [apply time_encodable|]. intros [= <-]. by split; [constructor|]. }
  destruct (match dto_ExpiresAt d with Some t => time_json t | None => Some JNull end) as [expires|]; [|done].
  specialize (He expires eq_refl) as [He1 He2]. apply time_encodable in E1 as [E1 D1], E2 as [E2 D2].
  assert (Hn : forall next, (match dto_NextRotationAt d with Some t => (fun v => [("next_rotation_at", v)]) <$> time_json t | None => Some [] end) = Some next ->
    Forall (fun m => encodable m.2 /\ depth m.2 <= 2) next).
  { intros next. destruct (dto_NextRotationAt d) as [t|]; [|by intros [= <-]]. destruct (time_json t) as [w|] eqn:Et; [|done].
    intros [= <-]. apply time_encodable in Et as [? Dw]. constructor; [cbn [snd]; split; [done|lia]|done]. }
  cbn [mbind option_bind]. destruct (match dto_NextRotationAt d with Some t => _ | None => _ end) as [next|]; [|done].
  specialize (Hn next eq_refl). intros [= <-].
  match goal with |- encodable (JObject ?ms) /\ _ => assert (H : Forall (fun m => encodable m.2 /\ depth m.2 <= 2) ms) end.
  { pose proof (rules_encodable (dto_PIIRules d)) as [Hr1 Hr2].
    repeat first [apply Forall_cons_2; [cbn [snd]; split; [first [done|apply JInt_encodable|constructor]|first [lia|cbn; lia]]|] | apply Forall_app_2; [done|] | apply Forall_nil_2]. }
  split; [constructor; eapply Forall_impl; [exact H|]; by intros m []|].
  match goal with |- context [depth (JObject ?ms)] => change (depth (JObject ms)) with (S (max_list (map (fun m => depth m.2) ms))) end.
  match goal with |- context [max_list ?l] => enough (max_list l <= 2) by (unfold maxNestingDepth; lia) end.
  apply max_list_bound. eapply Forall_impl; [exact H|]. by intros m [].
Qed.

Section Saving.
Context {De : DecoderErrors}.

Lemma decode_create_shown (d : connectionDTO) v rest :
  connection_json d = Some v -> utf8 (dto_Name d) -> Forall utf8_rule (dto_PIIRules d) -> utf8 (dto_RotateEvery d) ->
  (- 2 ^ 63 <= dto_MaxRows d < 2 ^ 63)%Z -> delimits rest ->
  decode_create (encode_json v +:+ rest) = inl (shown_edit d).
Proof.
  intros Hv Hn Hr He Hm Hrest. destruct (shown_encodable d v Hv) as [H1 H2]. unfold decode_create, decoded.
  rewrite Decode_encode by done. cbn [mbind option_bind]. by rewrite (decode_shown d v).
Qed.
End Saving.

(** ** Saving an edit form as it is *)

Lemma unmarshal_utf8 t rs : unmarshal_rules t = Some rs -> Forall utf8_rule rs.
Proof.
  unfold unmarshal_rules, Unmarshal_value. destruct (scan_json BeginValue [] t) as [[v rest]|] eqn:Es; [|done].
  destruct (sforall isSpace rest); [|done]. cbn [mbind option_bind]. apply scan_utf8 in Es; [|constructor|done].
  destruct (fill_rules ([], 0) v) as [x|] eqn:Ex; [|done]. intros [= <-].
  assert (Forall utf8_rule x.1) by (apply (fill_rules_utf8 ([], 0) v x); [apply Forall_nil_2|done..]). by apply Forall_take.
Qed.

Section Save.
Context {U : Unicode} {Pr : Printable} {W : Type} {T : TimeParser} {G : GCM} {R : Rand W} {C : Clock W}
        {BG : BcryptGenerate W} {BC : Bcrypt} {E : Engine W} {P : IPLiteral} {De : DecoderErrors} {Br : DashboardBroker W}
        {Di : Dialer W} {Up : Upstream W} {Et : ErrorText}.
Variable s : Server.

(** Two connections with the same policy. *)
Definition same_policy (c c0 : Connection) : Prop :=
  cn_ID c0 = cn_ID c /\ cn_Name c0 = cn_Name c /\ cn_MaxRows c0 = cn_MaxRows c /\ cn_GateMutations c0 = cn_GateMutations c
  /\ cn_PIIRules c0 = cn_PIIRules c /\ cn_RotateEvery c0 = cn_RotateEvery c.

(** A connection that the list shows is one of the abstract registry. *)
Lemma shown_row key rows c :
  (exists cs, scan_all key rows = inl cs /\ c ∈ cs) ->
  exists r c0, r ∈ rows /\ scanConnectionWithHash r = inl c0 /\ same_policy c c0 /\ r_id r = cn_ID c
    /\ Forall utf8_rule (cn_PIIRules c) /\ cn_RotateEvery c = Z.max 0 (r_rotate_every r).
Proof.
  induction rows as [|r rows IH]; intros (cs & Hs & Hc); cbn [scan_all] in Hs.
  { injection Hs as <-. by apply not_elem_of_nil in Hc. }
  destruct (scanConnection r) as [c1|] eqn:Er; [|done]. destruct (scan_all key rows) as [cs1|] eqn:Ea; [|done].
  injection Hs as <-. apply elem_of_cons in Hc as [->|Hc].
  - revert Er. unfold scanConnection, finishScan. destruct (unmarshal_rules (r_pii_rules r)) as [rs|] eqn:Eu; [|done]. cbv zeta.
    intros [= <-]. exists r. unfold scanConnectionWithHash, finishScan. rewrite Eu. cbv zeta. eexists.
    split_and!; [by left|reflexivity|by split_and!|done|by eapply unmarshal_utf8|]. cbn [show cn_RotateEvery].
    destruct (Z.ltb_spec 0 (r_rotate_every r)); lia.
  - destruct IH as (r' & c0 & Hin & H); [by exists cs1|]. exists r', c0. split; [by right|done].
Qed.

(** The intervals of a table, in whole seconds. *)
Definition whole_seconds (r : Row) : Prop :=
  exists secs, r_rotate_every r = (secs * 1000000000)%Z /\ (secs * 1000000000 < 2 ^ 63)%Z.

Lemma shown_interval c secs :
  cn_RotateEvery c = Z.max 0 (secs * 1000000000) -> (secs * 1000000000 < 2 ^ 63)%Z ->
  interval (shown_edit (toDTO s c)) = inl (cn_RotateEvery c) /\ utf8 (dto_RotateEvery (toDTO s c)).
Proof.
  intros Hr Hmax. unfold interval, shown_edit, toDTO. cbn [cr_RotateEvery dto_RotateEvery].
  destruct (Z.ltb_spec 0 (cn_RotateEvery c)) as [Hlt|Hge].
  - rewrite Z.max_r in Hr by lia. assert (Hs : (0 < secs)%Z) by lia.
    destruct (parseHumanDuration_String secs "rotate_every" Hs Hmax) as [Hp Hb]. rewrite Hr, Hb, Hp. split; [done|].
    rewrite Duration_String_clock by done. apply ascii_utf8, (sforall_implied clock_byte); [done|].
    by destruct (clock_text_shape secs Hs).
  - split; [|done]. change (blank (Some EmptyString)) with true. cbv iota. f_equal. lia.
Qed.

(** An edit by what is shown of a connection changes nothing of it. *)
Lemma edited_shown c c0 :
  same_policy c c0 -> Forall utf8_rule (cn_PIIRules c) -> (0 <= cn_RotateEvery c)%Z ->
  edited (edit_of (shown_edit (toDTO s c)) 0%Z (cn_RotateEvery c)) c0 = c0.
Proof.
  destruct c0. intros (H1 & H2 & H3 & H4 & H5 & H6) Hu Hr. cbn in *. unfold edited. cbn. subst.
  by rewrite utf8_rules_sanitize, Z.max_r.
Qed.

Lemma handleUpdate_save id n c c0 (r : Req) (st : DB W) resp st' rest v :
  sound st -> abs (db_table st) !! n = Some c0 -> same_policy c c0 -> ParseInt id = Some n ->
  connection_json (toDTO s c) = Some v -> rq_Body r = encode_json v +:+ rest -> delimits rest ->
  utf8 (cn_Name c) -> Forall utf8_rule (cn_PIIRules c) -> utf8 (dto_RotateEvery (toDTO s c)) ->
  (- 2 ^ 63 <= cn_MaxRows c < 2 ^ 63)%Z -> (0 <= cn_RotateEvery c)%Z -> interval (shown_edit (toDTO s c)) = inl (cn_RotateEvery c) ->
  handleUpdate id r st = Ok resp st' ->
  sound st' /\ abs (db_table st') = abs (db_table st).
Proof.
  intros Hs Hc0 Hp Hid Hv Hb Hrest Hn Hrules He Hm H0 Hi. unfold handleUpdate, or_error, bind. rewrite Hid, Hb. cbn [ret].
  rewrite (decode_create_shown (toDTO s c) v rest) by done. case_bool_decide; [intros [= <- <-]; by split|].
  unfold expiry_of at 1. cbn [shown_edit cr_TTL ret]. rewrite rotation_of_eq, Hi.
  change (mkUpdateInput _ _ _ _ _ _ _ _) with (edit_of (shown_edit (toDTO s c)) 0%Z (cn_RotateEvery c)).
  assert (Hz : four_digits 0%Z) by (split; vm_compute; done).
  pose proof (performed _ _ st (Update_refines n (edit_of (shown_edit (toDTO s c)) 0%Z (cn_RotateEvery c)) Hz) Hs) as H1.
  unfold wp in H1. destruct (Update n _ st) as [res st1|st1]; [|done]. destruct H1 as [Hs1 Hst].
  assert (Ha : abs (db_table st1) = abs (db_table st)).
  { destruct res as [[]|e]; [|by inversion Hst]. inversion Hst as [|? ? ? ? ? H1 H2]; subst. inversion H2; subst. destruct H1 as [_ ->].
    apply alter_id. intros x. rewrite Hc0. intros [= <-]. by apply edited_shown. }
  destruct res as [[]|[]]; intros [= <- <-]; by split.
Qed.

(** C20.  Saving what is shown changes nothing: when a client puts back the JSON that the
    list gave it of a connection, with the registry as it was, then whatever the
    update answers the connections are the same as before, each with its limits,
    rules, expiry, rotation and credentials.  Names are valid UTF-8, and intervals
    of rotation are whole seconds. *)
Theorem save_what_is_shown r (st : DB W) ds st1 d v id r' rest (st2 : DB W) resp st3 :
  sound st -> Forall whole_seconds (tb_rows (db_table st)) ->
  handleList s r st = Ok (respond 200 (ConnectionsBody ds)) st1 -> d ∈ ds ->
  connection_json d = Some v -> utf8 (dto_Name d) -> (- 2 ^ 63 <= dto_MaxRows d < 2 ^ 63)%Z ->
  ParseInt id = Some (dto_ID d) -> rq_Body r' = encode_json v +:+ rest -> delimits rest ->
  db_table st2 = db_table st -> handleUpdate id r' st2 = Ok resp st3 ->
  sound st3 /\ abs (db_table st3) = abs (db_table st).
Proof.
  intros Hs Hw Hl Hd Hv Hn Hm Hid Hb Hrest Ht Hu. revert Hl. unfold handleList, bind. rewrite List_eq. cbv zeta.
  destruct (fst (db_error (db_world st))); [done|]. destruct (scan_all _ _) as [cs|e] eqn:Es; [|done]. intros [= <- _].
  apply list_elem_of_fmap in Hd as (c & -> & Hc).
  destruct (shown_row (db_key st) (tb_rows (db_table st)) c) as (row & c0 & Hrow & Hc0 & Hp & Hri & Hrules & Hrot); [by exists cs|].
  destruct (proj1 (Forall_forall _ _) Hw row Hrow) as (secs & Hsecs & Hmax). rewrite Hsecs in Hrot.
  destruct (shown_interval c secs Hrot Hmax) as [Hi He]. rewrite <- Ht.
  apply (handleUpdate_save id (dto_ID (toDTO s c)) c c0 r' st2 resp st3 rest v); try done; [by apply (same_table st)| |lia].
  rewrite Ht. cbn [toDTO dto_ID]. rewrite <- Hri. apply abs_row; [by destruct Hs|done..].
Qed.
End Save.

(** ** The theorem at a concrete input *)

Module EditWitnesses.
Import RegistryWitnesses AdminWitnesses LifecycleWitnesses.
#[local] Existing Instances ascii_only clock random bcrypt bcrypt_check engine gcm no_other_layout
  printable no_literals decoder no_broker no_dialer error_texts.

(** A connection whose password changes every day and a half, as the list shows it. *)
Definition rotating_body : string := body [("rotate_every", JString "36h")].
Definition rotating : DB unit := final (created rotating_body).
Definition listed : list connectionDTO :=
  match handleList server (post "") rotating with Ok resp _ => match rs_Body resp with ConnectionsBody ds => ds | _ => [] end | Panic _ => [] end.
Definition listed_json : string := match listed with d :: _ => from_option encode_json EmptyString (connection_json d) | [] => EmptyString end.
Definition save_request : Req := authorized "PUT" ["api"; "connections"; "1"] listed_json.

Lemma rotating_sound : sound rotating.
Proof.
  assert (He : sound empty) by (split; [apply empty_registered|constructor]).
  pose proof (handleCreate_tells server clock_current bcrypt_law _ (post rotating_body) empty eq_refl He) as H.
  unfold tells, wp in H. unfold rotating, created. destruct (handleCreate server (post rotating_body) empty); by apply H.
Qed.

Definition listed_ok (d : connectionDTO) : bool :=
  bool_decide (dto_RotateEvery d = "36h0m0s") && (dto_ID d =? 1)%Z && (dto_MaxRows d =? 1000)%Z && isASCII (dto_Name d).
Lemma listed_one : match listed with [d] => if connection_json d is Some _ then listed_ok d else false | _ => false end = true.
Proof. vm_compute. reflexivity. Qed.

Lemma save_what_is_shown_witness :
  exists st1 st3, handleList server (post "") rotating = Ok (respond 200 (ConnectionsBody listed)) st1
    /\ (dto_RotateEvery <$> listed) = ["36h0m0s"]
    /\ handleUpdate "1" save_request rotating = Ok (respond 204 NoBody) st3
    /\ abs (db_table st3) = abs (db_table rotating).
Proof.
  assert (Hl : exists st1, handleList server (post "") rotating = Ok (respond 200 (ConnectionsBody listed)) st1)
    by (eexists; vm_compute; reflexivity).
  assert (Hu : exists st3, handleUpdate "1" save_request rotating = Ok (respond 204 NoBody) st3) by (eexists; vm_compute; reflexivity).
  assert (Hd : exists d v, listed = [d] /\ connection_json d = Some v /\ listed_ok d = true).
  { pose proof listed_one as H. destruct listed as [|d [|]]; [done| |done]. destruct (connection_json d) as [v|] eqn:Ev; [|done]. by exists d, v. }
  assert (Hw : Forall whole_seconds (tb_rows (db_table rotating))).
  { assert (Hr : (fun r => r_rotate_every r) <$> tb_rows (db_table rotating) = [(129600 * 1000000000)%Z]) by (vm_compute; reflexivity).
    destruct (tb_rows (db_table rotating)) as [|row [|]]; [done| |done]. injection Hr as Hr. constructor; [|constructor].
    exists 129600%Z. split; [exact Hr|lia]. }
  destruct Hl as [st1 Hl]. destruct Hu as [st3 Hu]. destruct Hd as (d & v & El & Hv & [[[Hr%bool_decide_eq_true Hid%Z.eqb_eq]%andb_true_iff Hm%Z.eqb_eq]%andb_true_iff Ha]%andb_true_iff).
  assert (Ej : listed_json = encode_json v) by (unfold listed_json; rewrite El; cbn [from_option]; by rewrite Hv).
  exists st1, st3. split_and!; [done|by rewrite El; cbn; rewrite Hr|done|].
  assert (Hb : rq_Body save_request = encode_json v +:+ EmptyString) by (unfold save_request, authorized; cbn [rq_Body]; rewrite sapp_nil_r; exact Ej).
  assert (Hin : d ∈ listed) by (rewrite El; by left).
  assert (Hmax : (- 2 ^ 63 <= dto_MaxRows d < 2 ^ 63)%Z) by (rewrite Hm; lia).
  assert (Hn : ParseInt "1" = Some (dto_ID d)) by (rewrite Hid; vm_compute; reflexivity).
  exact (proj2 (save_what_is_shown server (post "") rotating listed st1 d v "1" save_request EmptyString rotating (respond 204 NoBody) st3
    rotating_sound Hw Hl Hin Hv (ascii_utf8 _ Ha) Hmax Hn Hb I eq_refl Hu)).
Defined.
End EditWitnesses.
