(* ===== verification/Gate.v ===== *)
(** * The mutation gate

    Safety of the gate over whole sessions: with [gate_mutations] on, no
    statement the proxy classifies as a mutation reaches the upstream without
    an approval of exactly this statement right before it, for every sequence of
    client messages, every approver and every upstream.  Then what the gate does
    not see: statements whose text hides a mutation from the classification. *)

From S2P Require Import Prelude GoStrings Classify Policy Approval Proto Session Scenario.

(** ** Definitions *)

(** The event is an approval of the mutation [sql]. *)
Definition approved_for (sql : string) (e : event) : Prop :=
  match e with
  | EvApprove req dec =>
      Approved dec = true /\ req_Reason req = ReasonMutation /\ req_Query req = sql
  | _ => False
  end.

Definition is_approval (e : event) : bool :=
  match e with EvApprove _ _ => true | _ => false end.

Section Gate.
Context {U : Unicode}.

(** Every mutation a trace executes comes right after its approval. *)
Definition gated (t : list event) : Prop :=
  forall i e sql, t !! i = Some e -> executes e = Some sql -> Classify sql = KindMutation ->
  exists j a, i = S j /\ t !! j = Some a /\ approved_for sql a.

(** No event of the trace executes a mutation. *)
Definition no_mutation (t : list event) : Prop :=
  Forall (fun e => forall sql, executes e = Some sql -> Classify sql <> KindMutation) t.

(** The kind stored with a prepared statement is that of its text. *)
Definition kinds_ok (s : session) : Prop :=
  map_Forall (fun _ st => ps_kind st = Classify (ps_query st)) (statements s).

Context {W : Type} {R : Rand W} {A : Approver W} {RB : ReadBuffer W} {Up : Upstream W}.

Definition gate_inv (p : Policy) (s : St W) : Prop :=
  s_policy (sess s) = p /\ kinds_ok (sess s) /\ gated (trace s).

(** The last event approves [sql]. *)
Definition just_approved (sql : string) (s : St W) : Prop :=
  exists e, last (trace s) = Some e /\ approved_for sql e.

(** ** Lemmas *)

Lemma gated_nil : gated [].
Proof. intros i e sql H. by rewrite lookup_nil in H. Qed.

Lemma gated_snoc t e :
  gated t ->
  (forall sql, executes e = Some sql -> Classify sql = KindMutation ->
     exists a, last t = Some a /\ approved_for sql a) ->
  gated (t ++ [e]).
Proof.
  intros Ht He i e' sql Hi Hx Hk.
  assert (Hl : i < length t \/ i = length t).
  { apply lookup_lt_Some in Hi. rewrite length_app in Hi. simpl in Hi. lia. }
  destruct Hl as [Hl| ->].
  - rewrite lookup_app_l in Hi by done. destruct (Ht i e' sql Hi Hx Hk) as (j & a & -> & Hj & Ha).
    exists j, a. rewrite lookup_app_l by lia. done.
  - rewrite list_lookup_middle in Hi by done. injection Hi as <-.
    destruct (He sql Hx Hk) as (a & Hl & Ha). rewrite last_lookup in Hl.
    exists (pred (length t)), a.
    assert (pred (length t) < length t) by by apply lookup_lt_Some in Hl.
    rewrite lookup_app_l by lia. split_and!; [lia|done..].
Qed.

Lemma emit_gate p e : executes e = None -> preserves (gate_inv p) (emit (W := W) e).
Proof.
  intros He s (Hp & Hk & Hg). apply wp_modify. split_and!; [done..|].
  apply gated_snoc; [done|]. congruence.
Qed.

Lemma send_gate p m : preserves (gate_inv p) (send (W := W) m).
Proof. by apply emit_gate. Qed.

Lemma flush_gate p : preserves (gate_inv p) (flush (W := W)).
Proof. by apply emit_gate. Qed.

Lemma env_gate {B} p (f : W -> B * W) : preserves (gate_inv p) (env f).
Proof. intros s H. unfold wp, env. destruct (f (world s)). apply H. Qed.

Lemma set_session_gate p f :
  (forall s, s_policy (f s) = s_policy s) -> (forall s, kinds_ok s -> kinds_ok (f s)) ->
  preserves (gate_inv p) (set_session (W := W) f).
Proof.
  intros H1 H2 s (Hp & Hk & Hg). apply wp_modify. split_and!; cbn; [by rewrite H1|auto|done].
Qed.

Lemma set_batchFailed_gate p b : preserves (gate_inv p) (set_session (W := W) (set_batchFailed b)).
Proof. by apply set_session_gate. Qed.

Lemma set_portals_gate p f : preserves (gate_inv p) (set_session (W := W) (set_portals f)).
Proof. by apply set_session_gate. Qed.

Lemma get_session_gate p : preserves (gate_inv p) (get_session (W := W)).
Proof. by intros s H. Qed.

Lemma wp_get_session (Q : session -> St W -> Prop) E s : Q (sess s) s -> wp get_session Q E s.
Proof. done. Qed.

Lemma exec_gate p e : (forall sql, executes e = Some sql -> Classify sql <> KindMutation) ->
  preserves (gate_inv p) (emit (W := W) e).
Proof.
  intros He s (Hp & Hk & Hg). apply wp_modify. split_and!; [done..|].
  apply gated_snoc; [done|]. intros sql Hs Hm. by destruct (He sql Hs).
Qed.
End Gate.

#[export] Hint Resolve send_gate flush_gate env_gate set_batchFailed_gate set_portals_gate
  get_session_gate : go.

Section GateHandlers.
Context {U : Unicode} {W : Type} {R : Rand W} {A : Approver W} {RB : ReadBuffer W} {Up : Upstream W}.
Variable p : Policy.

Lemma approve_gate req : preserves (gate_inv p) (approve req).
Proof. unfold approve. go_preserves. by apply emit_gate. Qed.

Lemma introspect_read : Classify introspectSQL = KindRead.
Proof. vm_compute. reflexivity. Qed.

Lemma schemaRows_gate : preserves (gate_inv p) schemaRows.
Proof.
  unfold schemaRows, upstream_Exec. go_preserves.
  apply exec_gate. intros sql [= <-]. by rewrite introspect_read.
Qed.

Lemma sendError_gate code msg : preserves (gate_inv p) (sendError (W := W) code msg).
Proof. unfold sendError. go_preserves. Qed.

Lemma sendQueryError_gate err : preserves (gate_inv p) (sendQueryError (W := W) err).
Proof. unfold sendQueryError. go_preserves. Qed.
End GateHandlers.

#[export] Hint Resolve approve_gate schemaRows_gate sendError_gate sendQueryError_gate : go.

Section GateLoop.
Context {U : Unicode} {W : Type} {R : Rand W} {A : Approver W} {RB : ReadBuffer W} {Up : Upstream W}.
Variable p : Policy.
Hypothesis gate_on : gateMutations p = true.

Lemma limitDenied_gate rows k q : preserves (gate_inv p) (limitDenied rows k q).
Proof. unfold limitDenied, newRequestID. go_preserves. Qed.
#[local] Hint Resolve limitDenied_gate : go.

Lemma streamResult_gate rr b k q : preserves (gate_inv p) (streamResult rr b k q).
Proof. unfold streamResult. go_preserves. Qed.
#[local] Hint Resolve streamResult_gate : go.

Lemma streamResults_gate rrs k q : preserves (gate_inv p) (streamResults rrs k q).
Proof. induction rrs as [|rr rrs IH]; simpl; go_preserves. Qed.
#[local] Hint Resolve streamResults_gate : go.

Lemma approveMutation_gate k sql s :
  gate_inv p s ->
  wp (approveMutation k sql) (fun ok s' => gate_inv p s' /\ (ok = true -> just_approved sql s'))
    (gate_inv p) s.
Proof.
  intros (Hp & Hk & Hg). unfold wp, approveMutation, get_session, newRequestID, approve, env, emit,
    modify, bind, ret, get_state. cbn.
  destruct (NewID (world s)) as [id w1]. cbn. destruct (Approve _ w1) as [dec w2]. cbn.
  assert (Hg' : forall req, gated (trace s ++ [EvApprove req dec])) by by (intros; apply gated_snoc).
  destruct (Approved dec) eqn:Ed; cbn.
  - split; [split_and!; try done; apply Hg'|intros _].
    eexists. cbn. rewrite last_snoc. split; [done|]. done.
  - split; [split_and!; try done; cbn; apply gated_snoc; [apply Hg'|done]|done].
Qed.

(** Executing a statement that is no mutation, or has just been approved. *)
Lemma exec_event_gate e sql s :
  executes e = Some sql -> gate_inv p s ->
  (Classify sql = KindMutation -> just_approved sql s) ->
  wp (emit (W := W) e) (fun _ => gate_inv p) (gate_inv p) s.
Proof.
  intros He (Hp & Hk & Hg) Ha. apply wp_modify. split_and!; [done..|].
  apply gated_snoc; [done|]. intros sql' Hs Hm. assert (sql' = sql) as -> by congruence. by apply Ha.
Qed.

Lemma runSimple_gate sql s :
  gate_inv p s -> (Classify sql = KindMutation -> just_approved sql s) ->
  wp (runSimple (Classify sql) sql) (fun _ => gate_inv p) (gate_inv p) s.
Proof.
  intros Hs Ha. unfold runSimple, upstream_Exec. do 2 apply wp_bind.
  eapply wp_mono; [by eapply exec_event_gate| |done]. intros [] s' Hs'.
  eapply wp_mono; [by apply env_gate| |done]. intros mrr s'' Hs''.
  revert s'' Hs''. unfold ready. fold (preserves (gate_inv p)
    (streamResults (mrr_results mrr) (Classify sql) sql ;;
     match mrr_close mrr with Some err => sendQueryError err | None => ret tt end ;; 
     (send (ReadyForQuery "I") ;; flush))).
  go_preserves.
Qed.

Lemma handleSchemaSimple_gate : preserves (gate_inv p) handleSchemaSimple.
Proof. unfold handleSchemaSimple. go_preserves. Qed.
#[local] Hint Resolve handleSchemaSimple_gate : go.

Lemma ready_gate : preserves (gate_inv p) (ready (W := W)).
Proof. unfold ready. go_preserves. Qed.
#[local] Hint Resolve ready_gate : go.

Lemma handleSimpleQuery_gate sql : preserves (gate_inv p) (handleSimpleQuery sql).
Proof.
  intros s Hs. unfold handleSimpleQuery. apply wp_bind.
  assert (Hp : s_policy (sess s) = p) by apply Hs. apply wp_get_session.
  destruct (isSchemaCommand (sess s) sql).
  { by apply preserves_bind; [auto with go|intros; auto with go|]. }
  rewrite Hp, gate_on, andb_true_r. case_bool_decide as Ek.
  - apply wp_bind. eapply wp_mono; [by apply approveMutation_gate| |done].
    intros ok s' [Hs' Ha]. destruct ok; cbn; [|by apply ready_gate].
    apply runSimple_gate; auto.
  - by apply runSimple_gate.
Qed.

Lemma insert_stmt_gate name st :
  ps_kind st = Classify (ps_query st) ->
  preserves (gate_inv p) (set_session (W := W) (set_statements (insert name st))).
Proof.
  intros Hst. apply set_session_gate; [done|]. intros s Hk. unfold kinds_ok in *. cbn.
  by apply map_Forall_insert_2.
Qed.

Lemma unlessFailed_gate m : preserves (gate_inv p) m -> preserves (gate_inv p) (unlessFailed (W := W) m).
Proof. intros Hm. unfold unlessFailed. go_preserves. Qed.

Lemma handleParse_gate name q oids : preserves (gate_inv p) (handleParse (W := W) name q oids).
Proof. apply unlessFailed_gate. go_preserves. by apply insert_stmt_gate. Qed.

Lemma handleBind_gate d st pf ps rf : preserves (gate_inv p) (handleBind (W := W) d st pf ps rf).
Proof. apply unlessFailed_gate. go_preserves. Qed.

Lemma failBatch_gate c m : preserves (gate_inv p) (failBatch (W := W) c m).
Proof. unfold failBatch. go_preserves. Qed.
#[local] Hint Resolve failBatch_gate : go.

Lemma ensureFields_gate name st :
  ps_kind st = Classify (ps_query st) -> preserves (gate_inv p) (ensureFields name st).
Proof.
  intros Hst. unfold ensureFields, upstream_Prepare. go_preserves; [by apply emit_gate|].
  by apply insert_stmt_gate.
Qed.

Lemma stmt_kind (s : St W) name st :
  gate_inv p s -> statements (sess s) !! name = Some st -> ps_kind st = Classify (ps_query st).
Proof. intros (_ & Hk & _) Hst. apply (Hk name st Hst). Qed.

Lemma describeStatement_gate name : preserves (gate_inv p) (describeStatement name).
Proof.
  intros s Hs. unfold describeStatement. apply wp_bind, wp_get_session.
  destruct (statements (sess s) !! name) as [st|] eqn:E; [|by apply failBatch_gate].
  pose proof (stmt_kind _ _ _ Hs E) as Hk. revert s Hs E. intros s Hs _. revert s Hs.
  match goal with |- forall s, _ -> wp ?m _ _ s => change (preserves (gate_inv p) m) end.
  go_preserves. by apply ensureFields_gate.
Qed.

Lemma describePortal_gate name : preserves (gate_inv p) (describePortal name).
Proof.
  intros s Hs. unfold describePortal. apply wp_bind, wp_get_session.
  destruct (portals (sess s) !! name) as [por|]; [|by apply failBatch_gate].
  destruct (statements (sess s) !! po_stmt por) as [st|] eqn:E; [|by apply failBatch_gate].
  pose proof (stmt_kind _ _ _ Hs E) as Hk. clear E. revert s Hs.
  match goal with |- forall s, _ -> wp ?m _ _ s => change (preserves (gate_inv p) m) end.
  go_preserves. by apply ensureFields_gate.
Qed.

Lemma handleDescribe_gate t name : preserves (gate_inv p) (handleDescribe t name).
Proof.
  apply unlessFailed_gate. repeat case_bool_decide;
    auto using describeStatement_gate, describePortal_gate, preserves_ret.
Qed.

Lemma runPortal_gate st por s :
  gate_inv p s -> (Classify (ps_query st) = KindMutation -> just_approved (ps_query st) s) ->
  wp (runPortal st por) (fun _ => gate_inv p) (gate_inv p) s.
Proof.
  intros Hs Ha. unfold runPortal, upstream_ExecParams. apply wp_bind, wp_read_params. intros ps w. do 2 apply wp_bind.
  eapply wp_mono; [by eapply exec_event_gate| |done]. intros [] s' Hs'.
  eapply wp_mono; [by apply env_gate| |done]. intros rr s'' Hs''. revert s'' Hs''.
  match goal with |- forall s, _ -> wp ?m _ _ s => change (preserves (gate_inv p) m) end.
  go_preserves.
Qed.

Lemma executeSchema_gate : preserves (gate_inv p) executeSchema.
Proof. unfold executeSchema. go_preserves. Qed.

Lemma handleExecute_gate name : preserves (gate_inv p) (handleExecute name).
Proof.
  apply unlessFailed_gate. intros s Hs. apply wp_bind, wp_get_session.
  assert (Hp : s_policy (sess s) = p) by apply Hs.
  destruct (portals (sess s) !! name) as [por|]; [|by apply failBatch_gate].
  destruct (statements (sess s) !! po_stmt por) as [st|] eqn:E; [|by apply failBatch_gate].
  rewrite (stmt_kind _ _ _ Hs E), Hp, gate_on, andb_true_r.
  destruct (ps_isSchema st); [by apply executeSchema_gate|]. case_bool_decide as Ek.
  - apply wp_bind. eapply wp_mono; [by apply approveMutation_gate| |done].
    intros ok s' [Hs' Ha]. destruct ok; cbn; [|by apply set_batchFailed_gate].
    apply runPortal_gate; auto.
  - by apply runPortal_gate.
Qed.

Lemma delete_stmt_gate name : preserves (gate_inv p) (set_session (W := W) (set_statements (delete name))).
Proof.
  apply set_session_gate; [done|]. intros s Hk. unfold kinds_ok in *. cbn. by apply map_Forall_delete.
Qed.
#[local] Hint Resolve delete_stmt_gate : go.

Lemma handleClose_gate t name : preserves (gate_inv p) (handleClose (W := W) t name).
Proof. apply unlessFailed_gate. go_preserves. Qed.

Lemma dispatch_gate m : preserves (gate_inv p) (dispatch m).
Proof.
  destruct m; cbn [dispatch]; auto using handleSimpleQuery_gate, handleParse_gate, handleBind_gate,
    handleDescribe_gate, handleExecute_gate, handleClose_gate, preserves_ret, flush_gate.
  go_preserves.
Qed.

Lemma loop_gate msgs : preserves (gate_inv p) (loop msgs).
Proof.
  induction msgs as [|m msgs IH]; [apply preserves_ret|].
  destruct m; cbn [loop]; try (apply preserves_bind; [apply dispatch_gate|done]). apply preserves_ret.
Qed.
End GateLoop.

(** ** What every event of a session satisfies

    [P] holds of everything a session does as soon as it holds of what it sends,
    of what it asks the upstream and of the approver's answers. *)
Definition is_ready (m : BackendMessage) : bool :=
  match m with ReadyForQuery _ => true | _ => false end.

Section Events.
Context {U : Unicode} {W : Type} {R : Rand W} {A : Approver W} {RB : ReadBuffer W} {Up : Upstream W}.
Variable P : event -> Prop.
Hypothesis P_send : forall m, is_ready m = false -> P (EvSend m).
Hypothesis P_flush : P EvFlush.
Hypothesis P_approve : forall req w, P (EvApprove req (Approve req w).1).
Hypothesis P_exec : forall sql, P (EvExec sql).
Hypothesis P_execParams : forall sql ps oids pf rf, P (EvExecParams sql ps oids pf rf).
Hypothesis P_prepare : forall name sql oids, P (EvPrepare name sql oids).

(** The events since the trace was [t0] satisfy [P] (and none was removed). *)
Variable t0 : list event.
Definition events_ok (s : St W) : Prop := exists rest, trace s = t0 ++ rest /\ Forall P rest.

Lemma emit_events e : P e -> preserves events_ok (emit (W := W) e).
Proof.
  intros He s (rest & E & Hs). apply wp_modify. exists (rest ++ [e]). cbn.
  rewrite E, <- app_assoc. split; [done|]. apply Forall_app. split; [done|by constructor].
Qed.

Lemma env_events {B} (f : W -> B * W) : preserves events_ok (env f).
Proof. intros s H. unfold wp, env. destruct (f (world s)). apply H. Qed.

Lemma set_session_events f : preserves events_ok (set_session (W := W) f).
Proof. by intros s H. Qed.

Lemma get_session_events : preserves events_ok (get_session (W := W)).
Proof. by intros s H. Qed.

Lemma approve_events req : preserves events_ok (approve req).
Proof.
  intros s H. unfold approve. apply wp_bind. unfold env, wp at 1.
  pose proof (P_approve req (world s)) as Ha. destruct (Approve req (world s)) as [dec w].
  apply wp_bind. eapply wp_mono; [by apply emit_events|done..].
Qed.

#[local] Hint Resolve emit_events env_events set_session_events get_session_events approve_events
  P_flush P_exec P_execParams P_prepare : go.
#[local] Hint Extern 1 (P (EvSend _)) => apply P_send; reflexivity : go.

Lemma streamResult_events rr b k q : preserves events_ok (streamResult rr b k q).
Proof.
  unfold streamResult, limitDenied, newRequestID, sendError, sendQueryError, send. go_preserves.
Qed.
#[local] Hint Resolve streamResult_events : go.

Lemma streamResults_events rrs k q : preserves events_ok (streamResults rrs k q).
Proof. induction rrs as [|rr rrs IH]; simpl; go_preserves. Qed.
#[local] Hint Resolve streamResults_events : go.

(** handleSimpleQuery up to its [ready]. *)
Definition simpleBody (sql : string) : M (St W) unit :=
  s <- get_session ;;
  if isSchemaCommand s sql then handleSchemaSimple
  else
    ok <- (if bool_decide (Classify sql = KindMutation) && gateMutations (s_policy s)
           then approveMutation (Classify sql) sql else ret true) ;;
    if negb ok then ret tt
    else
      mrr <- upstream_Exec sql ;;
      streamResults (mrr_results mrr) (Classify sql) sql ;;
      match mrr_close mrr with Some err => sendQueryError err | None => ret tt end.

Lemma handleSimpleQuery_body sql s : handleSimpleQuery sql s = bind (simpleBody sql) (fun _ => ready) s.
Proof.
  unfold handleSimpleQuery, simpleBody, runSimple. rewrite run_bind_bind, !run_get_session.
  destruct (isSchemaCommand _ _); [done|]. cbv zeta. rewrite run_bind_bind.
  assert (H : forall s', bind (upstream_Exec sql) (fun mrr => streamResults (mrr_results mrr) (Classify sql) sql ;;
      (match mrr_close mrr with Some err => sendQueryError err | None => ret tt end ;; ready)) s'
    = bind (bind (upstream_Exec sql) (fun mrr => streamResults (mrr_results mrr) (Classify sql) sql ;;
      match mrr_close mrr with Some err => sendQueryError err | None => ret tt end)) (fun _ => ready) s').
  { intros s'. rewrite run_bind_bind. apply bind_ext. intros mrr s2. by rewrite run_bind_bind. }
  destruct (bool_decide _ && _); [|rewrite run_ret; apply H].
  apply bind_ext. intros [] s2; [apply H|done].
Qed.

Lemma simpleBody_events sql : preserves events_ok (simpleBody sql).
Proof.
  unfold simpleBody, handleSchemaSimple, schemaRows, approveMutation, upstream_Exec,
    newRequestID, sendError, sendQueryError, send. go_preserves.
Qed.

Lemma ensureFields_events name st : preserves events_ok (ensureFields name st).
Proof. unfold ensureFields, upstream_Prepare. go_preserves. Qed.
#[local] Hint Resolve ensureFields_events : go.

Lemma handleDescribe_events t name : preserves events_ok (handleDescribe t name).
Proof.
  unfold handleDescribe, unlessFailed, describeStatement, describePortal, failBatch, sendError,
    sendQueryError, send. go_preserves.
Qed.

Lemma handleExecute_events name : preserves events_ok (handleExecute name).
Proof.
  unfold handleExecute, unlessFailed, executeSchema, schemaRows, approveMutation, runPortal,
    upstream_Exec, upstream_ExecParams, newRequestID, failBatch, sendError, sendQueryError, send.
  go_preserves.
Qed.

Lemma other_events m :
  match m with Query _ | Sync => False | _ => True end -> preserves events_ok (dispatch m).
Proof.
  destruct m; intros Hm; try done; cbn [dispatch];
    auto using handleDescribe_events, handleExecute_events, preserves_ret;
    unfold handleParse, handleBind, handleClose, unlessFailed, flush, send; go_preserves.
Qed.

Hypothesis P_ready : forall c, P (EvSend (ReadyForQuery c)).

Lemma ready_events : preserves events_ok (ready (W := W)).
Proof. unfold ready, send, flush. go_preserves; auto with go. Qed.

Lemma handleSimpleQuery_events sql : preserves events_ok (handleSimpleQuery sql).
Proof.
  intros s Hs. unfold wp. rewrite handleSimpleQuery_body.
  by apply (preserves_bind _ (simpleBody sql) (fun _ => ready) (simpleBody_events sql) (fun _ => ready_events)).
Qed.

Lemma dispatch_events m : preserves events_ok (dispatch m).
Proof.
  destruct m; try (by apply other_events); cbn [dispatch]; [apply handleSimpleQuery_events|].
  apply preserves_bind; [go_preserves|intros _; apply ready_events].
Qed.

Lemma loop_events msgs : preserves events_ok (loop msgs).
Proof.
  induction msgs as [|m msgs IH]; [apply preserves_ret|].
  destruct m; cbn [loop]; try (apply preserves_bind; [apply dispatch_events|done]). apply preserves_ret.
Qed.
End Events.

(** ** The gate *)

Section GateTheorems.
Context {U : Unicode} {W : Type} {R : Rand W} {A : Approver W} {RB : ReadBuffer W} {Up : Upstream W}.

Lemma established_gate p conn db client sf (w : W) :
  gate_inv p (mkSt (established p conn db client sf) w []).
Proof. split_and!; [done|apply map_Forall_empty|apply gated_nil]. Qed.

(** C1.  Whatever messages a client sends over the two protocols, and however
    the approver, the upstream and the random generator answer: when the
    connection gates mutations, each statement classified as a mutation that
    reaches the upstream comes immediately after an approval of this very text
    as a mutation.  The trace is that of the whole session, also when it ends
    in a panic. *)
Theorem mutation_gate p conn db client sf msgs (w : W) :
  gateMutations p = true ->
  gated (trace (final (loop msgs (mkSt (established p conn db client sf) w [])))).
Proof.
  intros Hg. apply (preserves_final (gate_inv p)); [by apply loop_gate|apply established_gate].
Qed.

(** With an approver that never approves (the mode [auto_deny] is one), no
    mutation is executed at all in a session whose connection gates mutations. *)
Theorem auto_deny_executes_no_mutation {NA : NeverApproves W} p conn db client sf msgs (w : W) :
  gateMutations p = true ->
  no_mutation (trace (final (loop msgs (mkSt (established p conn db client sf) w [])))).
Proof.
  intros Hg. set (s0 := mkSt _ w []).
  assert (Hgate : gated (trace (final (loop msgs s0)))).
  { apply (preserves_final (gate_inv p)); [by apply loop_gate|apply established_gate]. }
  assert (Hev : events_ok (fun e => forall sql, ~ approved_for sql e) [] (final (loop msgs s0))).
  { apply preserves_final; [|by exists []]. apply loop_events; try (by repeat intros ?).
    intros req w' sql [H _]. by rewrite never_approves in H. }
  destruct Hev as (rest & E & Hev). simpl in E. apply Forall_lookup. intros i e Hi sql Hx Hk.
  destruct (Hgate i e sql Hi Hx Hk) as (j & a & _ & Hj & Ha).
  rewrite E in Hj. by apply (proj1 (Forall_lookup _ _) Hev j a Hj sql).
Qed.

(** The request approveMutation makes for a statement. *)
Definition mutation_request (s : session) (id sql : string) : Request :=
  mkRequest id ReasonMutation "mutation" sql 0 (s_client s) (s_connName s) (s_upstreamDB s).

Definition mutation_denied (dec : ApprovalDecision) : BackendMessage :=
  ErrorResponse (mkError "ERROR" "28000" ("pg-agent-proxy: statement denied (" +:+ dec_Reason dec +:+ ")") "" "").

(** C32.  A gated mutation of the simple protocol that is denied: the approver is
    asked about this text, client, connection and database, the client gets one
    error with the reason and is ready for the next query, the session keeps
    its statements and portals, and the upstream is not called. *)
Theorem handleSimpleQuery_denied sql (s : St W) id w1 dec w2 :
  isSchemaCommand (sess s) sql = false -> Classify sql = KindMutation ->
  gateMutations (s_policy (sess s)) = true ->
  NewID (world s) = (id, w1) ->
  Approve (mutation_request (sess s) id sql) w1 = (dec, w2) -> Approved dec = false ->
  handleSimpleQuery sql s =
    Ok tt (mkSt (sess s) w2
      (trace s ++ [EvApprove (mutation_request (sess s) id sql) dec; EvSend (mutation_denied dec);
                   EvSend (ReadyForQuery "I"); EvFlush])).
Proof.
  intros Hs Hk Hg Hid Hdec Hno. unfold handleSimpleQuery, approveMutation, approve, newRequestID,
    sendError, ready. run. rewrite Hs. cbv zeta. rewrite Hk, Hg, bool_decide_eq_true_2 by done.
  cbn [andb]. run. rewrite Hid. cbn [fst snd Kind_String]. unfold mutation_request in Hdec. rewrite Hdec. cbn [fst snd].
  rewrite Hno. cbn [negb]. run.
  by rewrite <- !app_assoc.
Qed.
(** The same for the extended protocol: the denial sends one error, marks
    the batch as failed, and the upstream is not called. *)
Theorem handleExecute_denied name (s : St W) por st id w1 dec w2 :
  batchFailed (sess s) = false ->
  portals (sess s) !! name = Some por -> statements (sess s) !! po_stmt por = Some st ->
  ps_isSchema st = false -> ps_kind st = KindMutation -> gateMutations (s_policy (sess s)) = true ->
  NewID (world s) = (id, w1) ->
  Approve (mutation_request (sess s) id (ps_query st)) w1 = (dec, w2) -> Approved dec = false ->
  handleExecute name s =
    Ok tt (mkSt (set_batchFailed true (sess s)) w2
      (trace s ++ [EvApprove (mutation_request (sess s) id (ps_query st)) dec;
                   EvSend (mutation_denied dec)])).
Proof.
  intros Hb Hpo Hst Hs Hk Hg Hid Hdec Hno.
  unfold handleExecute, unlessFailed, approveMutation, approve, newRequestID, sendError. run.
  rewrite Hb. run. rewrite Hpo, Hst, Hs, Hk, Hg, bool_decide_eq_true_2 by done. run.
  rewrite Hid. cbn [fst snd Kind_String]. unfold mutation_request in Hdec. rewrite Hdec. cbn [fst snd].
  rewrite Hno. run. by rewrite <- !app_assoc.
Qed.

(** The next thing that happens after [s], in [s'], is that [sql] goes upstream. *)
Definition executed_next (sql : string) (s s' : St W) : Prop :=
  exists rest, trace s' = trace s ++ EvExec sql :: rest.

Lemma runSimple_first k sql (s : St W) : executed_next sql s (final (runSimple k sql s)).
Proof.
  set (s1 := mkSt (sess s) (world s) (trace s ++ [EvExec sql])).
  assert (H : events_ok (fun _ => True) (trace s1) (final (runSimple k sql s))).
  { unfold runSimple, upstream_Exec. rewrite run_bind_bind, run_emit. fold s1.
    apply preserves_final; [|by exists []; rewrite app_nil_r]. unfold sendQueryError, ready, send, flush.
    go_preserves; auto using env_events, streamResults_events, emit_events. }
  destruct H as (rest & E & _). exists rest. rewrite E. cbn. by rewrite <- app_assoc.
Qed.

(** What the gate does not see: a simple query whose first token is a read,
    session or [PREPARE] keyword is sent to the upstream as the next step,
    without an approval, whatever the rest of its text and whatever the policy;
    the upstream runs every statement of the text ("SELECT 1; DELETE FROM users"). *)
Theorem first_token_skips_gate p kw d q (s : St W) :
  leading p -> kw ∈ ungated -> separator d = true ->
  isSchemaCommand (sess s) (p +:+ (kw +:+ String d q)) = false ->
  executed_next (p +:+ (kw +:+ String d q)) s (final (handleSimpleQuery (p +:+ (kw +:+ String d q)) s)).
Proof.
  intros Hp Hk Hd Hs. destruct (ungated_word kw Hk) as (Hi & Hne & Hu).
  assert (Hc : Classify (p +:+ (kw +:+ String d q)) <> KindMutation)
    by (apply ungated_not_mutation; by rewrite keyword_word, Hu).
  unfold handleSimpleQuery. rewrite run_get_session, Hs. cbv zeta.
  rewrite bool_decide_eq_false_2 by done. cbn [andb]. apply runSimple_first.
Qed.
End GateTheorems.

(** ** The theorems at concrete inputs *)

Definition mixed_session : list FrontendMessage :=
  [Query "SELECT * FROM users"; Query "DELETE FROM users";
   Parse "s" "UPDATE users SET email = $1" []; Bind "p" "s" [] [Some "x"] []; Execute "p" 0; Sync].

Lemma mutation_gate_witness :
  gateMutations users_policy = true /\
  gated (trace (final (loop (A := approving) mixed_session start))).
Proof.
  split; [reflexivity|].
  exact (mutation_gate (A := approving) users_policy "main" "db @ host:5432" "10.0.0.5:54321"
           "pgproxy_schema" mixed_session tt eq_refl).
Defined.

(** The session executes all three statements, the mutations after approvals. *)
Example mixed_session_executes :
  omap executes (trace (final (loop (A := approving) mixed_session start)))
    = ["SELECT * FROM users"; "DELETE FROM users"; "UPDATE users SET email = $1"].
Proof. vm_compute. reflexivity. Qed.

Lemma auto_deny_executes_no_mutation_witness :
  gateMutations users_policy = true /\
  no_mutation (trace (final (loop (A := denying) mixed_session start))).
Proof.
  split; [reflexivity|].
  exact (auto_deny_executes_no_mutation (A := denying) (NA := auto_deny_never unit) users_policy
    "main" "db @ host:5432" "10.0.0.5:54321" "pgproxy_schema" mixed_session tt eq_refl).
Defined.

Example denied_session_executes :
  omap executes (trace (final (loop (A := denying) mixed_session start))) = ["SELECT * FROM users"].
Proof. vm_compute. reflexivity. Qed.

Lemma handleSimpleQuery_denied_witness :
  isSchemaCommand fresh "DROP TABLE users" = false /\
  handleSimpleQuery (A := denying) "DROP TABLE users" start =
    Ok tt (mkSt fresh tt
      [EvApprove (mutation_request fresh "req-0000000000000000" "DROP TABLE users") auto_deny;
       EvSend (mutation_denied auto_deny); EvSend (ReadyForQuery "I"); EvFlush]).
Proof.
  split; [vm_compute; reflexivity|].
  apply (handleSimpleQuery_denied (A := denying) "DROP TABLE users" start "req-0000000000000000" tt
           auto_deny tt); vm_compute; reflexivity.
Defined.

Definition after_bind : St unit :=
  final (loop (A := denying) (take 2 (drop 2 mixed_session)) start).

Lemma handleExecute_denied_witness :
  batchFailed (sess after_bind) = false /\
  handleExecute (A := denying) "p" after_bind =
    Ok tt (mkSt (set_batchFailed true (sess after_bind)) tt
      (trace after_bind ++
        [EvApprove (mutation_request (sess after_bind) "req-0000000000000000" "UPDATE users SET email = $1")
           auto_deny;
         EvSend (mutation_denied auto_deny)])).
Proof.
  split; [vm_compute; reflexivity|].
  apply (handleExecute_denied (A := denying) "p" after_bind (mkPortal "s" [] [Some "x"] [])
           (mkStmt "UPDATE users SET email = $1" KindMutation [] [] false false)
           "req-0000000000000000" tt auto_deny tt); vm_compute; reflexivity.
Defined.

(** A [DELETE] behind a [SELECT], with a policy that gates and an approver that denies. *)
Lemma first_token_skips_gate_witness :
  isSchemaCommand fresh "SELECT 1; DELETE FROM users" = false /\
  executed_next "SELECT 1; DELETE FROM users" start
    (final (handleSimpleQuery (A := denying) "SELECT 1; DELETE FROM users" start)).
Proof.
  split; [vm_compute; reflexivity|].
  exact (first_token_skips_gate (A := denying) EmptyString "SELECT" " "%char "1; DELETE FROM users" start
    leading_nil ltac:(apply (bool_decide_unpack _); vm_compute; exact I) eq_refl
    ltac:(vm_compute; reflexivity)).
Defined.
