(* ===== verification/Cli.v ===== *)
(** * The commands (cmd/pg-agent-proxy: connections.go, detect.go, main.go)

    The subcommands on connections, detect-pii, the sweep, and what serve sets
    up.  A command is a function of its arguments and the world to its exit code,
    the lines of its standard output and the registry it leaves; the texts on
    standard error are left out.  The environment, the configuration file and the
    database files are parameters. *)

From stdpp Require Import pretty.
From S2P Require Import Prelude GoStrings GoText Timestamp Base64 GoNet GoFlag Policy Approval Broker Proto Store Registry Config Certs Detect Scenario RegistryProps Migrate Admin Startup.

(** ** Addresses and connection strings *)

Definition isLoopback (addr : string) : bool :=
  match SplitHostPort addr with
  | None => false
  | Some (host, _) =>
      if bool_decide (host = "localhost") then true
      else match ParseIP host with Some ip => IsLoopback ip | None => false end
  end.

Definition advertiseFor (cfg : Config) : string :=
  if bool_decide (c_PublicAddr cfg = EmptyString) then c_Listen cfg else c_PublicAddr cfg.

Definition connString (cfg : Config) (username password : string) : string :=
  let '(host, port) := default ("127.0.0.1", "6432") (SplitHostPort (advertiseFor cfg)) in
  let wildcard := bool_decide (host = EmptyString) || bool_decide (host = "0.0.0.0") || bool_decide (host = "::") in
  let host := if wildcard then "127.0.0.1" else host in
  let sslMode := if Enabled (c_TLS cfg) then "verify-full" else "disable" in
  "postgres://" +:+ QueryEscape username +:+ ":" +:+ QueryEscape password +:+ "@" +:+ JoinHostPort host port
  +:+ "/postgres?sslmode=" +:+ sslMode.

(** [t.Format(time.RFC3339)] of an instant in UTC. *)
Definition FormatRFC3339 (t : Time) : string := dateTime (fields t) +:+ "Z".

(** ** Outcomes *)

Record Ran (W : Type) : Type := mkRan { rn_code : Z; rn_stdout : list string; rn_db : option (DB W) }.
Arguments mkRan {W} _ _ _.
Arguments rn_code {W} _.
Arguments rn_stdout {W} _.
Arguments rn_db {W} _.

(** What the sweep logs. *)
Inductive SweepLog : Type :=
| LogExpiryFailed (err : StoreError)
| LogSwept (count : nat)
| LogRotated (r : Rotation)
| LogRotationFailed (err : StoreError).

Section Commands.
Context {U : Unicode} {Pr : Printable} {W : Type} {T : TimeParser} {G : GCM} {R : Rand W} {C : Clock W}
        {B : BcryptGenerate W} {E : Engine W} {Di : Dialer W} {Up : Upstream W}.
(** [os.Getenv], the YAML decoder, the configuration file at a path and the
    database file at a path ([None]: sql.Open fails). *)
Variable Getenv : string -> string.
Variable yaml : string -> option Config.
Variable config_file : string -> ReadResult.
Variable database_file : string -> option File.

Definition exit (code : Z) : Ran W := mkRan code [] None.

(** A computation on the registry, to the end of the command; a panic is exit
    code 2. *)
Definition ran {A : Type} (o : outcome (DB W) A) (k : A -> Z * list string) : Ran W :=
  match o with
  | Ok a db => mkRan (k a).1 (k a).2 (Some db)
  | Panic db => mkRan 2 [] (Some db)
  end.

(** ** connections *)

Definition openStore (cfgPath : string) (w : W) : (DB W * Config) + Z :=
  match Load Getenv yaml (config_file cfgPath) with
  | inr _ => inr 1%Z
  | inl cfg =>
      match database_file (c_Database cfg) with
      | None => inr 1%Z
      | Some fl =>
          match Open (fl, w) with
          | (inr _, _) => inr 1%Z
          | (inl db, _) => inl (UseSecret (Getenv "PGPROXY_ADMIN_TOKEN") db, cfg)
          end
      end
  end.

(** [fs := flag.NewFlagSet(...); fs.Parse(args)], then the rest of a command. *)
Definition with_flags (flags : FlagSet) (args : list string) (k : FlagSet -> Ran W) : Ran W :=
  match ParseFlags (("config", VString "config.yaml") :: flags) args with
  | inr code => exit code
  | inl (fs, _) => k fs
  end.

Definition with_store (fs : FlagSet) (w : W) (k : DB W -> Config -> Ran W) : Ran W :=
  match openStore (get_string fs "config") w with
  | inr code => exit code
  | inl (db, cfg) => k db cfg
  end.

Definition add_flags : FlagSet :=
  [("name", VString ""); ("upstream", VString ""); ("max-rows", VInt 1000); ("gate", VBool true); ("pii", VString "");
   ("rotate-every", VDuration 0%Z)].

Definition add_input (fs : FlagSet) : CreateInput :=
  mkCreateInput (get_string fs "name") (get_string fs "upstream") (get_int fs "max-rows") (get_bool fs "gate")
    (parsePII (get_string fs "pii")) 0%Z (get_duration fs "rotate-every").

Definition add_output (cfg : Config) (c : Connection) (password : string) : list string :=
  [ "Created connection " +:+ Quote (cn_Name c) +:+ " (agent user: " +:+ cn_AgentUsername c +:+ ")" ]
  ++ (if (0 <? cn_RotateEvery c)%Z
      then [ "Password rotates every " +:+ Duration_String (cn_RotateEvery c)
             +:+ " (next: " +:+ FormatRFC3339 (NextRotation c) +:+ ")" ]
      else [])
  ++ [EmptyString; "Connection string (password shown only once):"; "  " +:+ connString cfg (cn_AgentUsername c) password].

Definition connAdd (args : list string) (w : W) : Ran W :=
  with_flags add_flags args (fun fs =>
    if bool_decide (get_string fs "name" = EmptyString) || bool_decide (get_string fs "upstream" = EmptyString) then exit 2
    else if (get_duration fs "rotate-every" <? 0)%Z then exit 2
    else
      with_store fs w (fun db cfg =>
        ran (Create (add_input fs) db) (fun created =>
          match created with
          | inr _ => (1%Z, [])
          | inl (c, password) => (0%Z, add_output cfg c password)
          end))).

(** The cells of a line of the list, before the tab writer aligns them. *)
Definition tab : string := String (ascii_of_N 9) EmptyString.
Definition list_header : string :=
  Join ["ID"; "NAME"; "AGENT USER"; "MAX ROWS"; "GATE"; "PII"; "ROTATE EVERY"; "NEXT ROTATION"] tab.
Definition list_line (c : Connection) : string :=
  let rules := Join ((fun r => rule_Name r +:+ ":" +:+ rule_Action r) <$> cn_PIIRules c) "," in
  let rotates := (0 <? cn_RotateEvery c)%Z in
  Join [pretty (cn_ID c); cn_Name c; cn_AgentUsername c; pretty (cn_MaxRows c);
        if cn_GateMutations c then "true" else "false"; rules;
        if rotates then Duration_String (cn_RotateEvery c) else "-";
        if rotates then FormatRFC3339 (NextRotation c) else "-"] tab.

Definition connList (args : list string) (w : W) : Ran W :=
  with_flags [] args (fun fs =>
    with_store fs w (fun db _ =>
      ran (List db) (fun conns =>
        match conns with
        | inr _ => (1%Z, [])
        | inl [] => (0%Z, ["No connections."])
        | inl conns => (0%Z, list_header :: (list_line <$> conns))
        end))).

Definition connRotate (args : list string) (w : W) : Ran W :=
  with_flags [("id", VInt 0)] args (fun fs =>
    with_store fs w (fun db cfg =>
      let id := get_int fs "id" in
      ran ((password <- Rotate id ;;
            match password with
            | inr e => ret (inr e)
            | inl password => conns <- List ;; ret (inl (password, match conns with inl cs => cs | inr _ => [] end))
            end) db)
        (fun r =>
          match r with
          | inr _ => (1%Z, [])
          | inl (password, conns) =>
              (0%Z, ["New connection string (password shown only once):";
                     "  " +:+ connString cfg (last_with_id id cn_AgentUsername conns) password])
          end))).

Definition connRemove (args : list string) (w : W) : Ran W :=
  with_flags [("id", VInt 0)] args (fun fs =>
    with_store fs w (fun db _ =>
      ran (Delete (get_int fs "id") db) (fun deleted =>
        match deleted with
        | inr _ => (1%Z, [])
        | inl _ => (0%Z, ["Deleted connection " +:+ pretty (get_int fs "id")])
        end))).

Definition runConnections (args : list string) (w : W) : Ran W :=
  match args with
  | [] => exit 2
  | sub :: rest =>
      if bool_decide (sub = "add") then connAdd rest w
      else if bool_decide (sub ∈ ["list"; "ls"]) then connList rest w
      else if bool_decide (sub = "rotate") then connRotate rest w
      else if bool_decide (sub ∈ ["rm"; "delete"]) then connRemove rest w
      else exit 2
  end.

(** ** detect-pii *)

Definition runDetectPII (args : list string) (w : W) : Ran W :=
  match ParseFlags [("upstream", VString "")] args with
  | inr code => exit code
  | inl (fs, _) =>
      if bool_decide (get_string fs "upstream" = EmptyString) then exit 2
      else
        match Scan (get_string fs "upstream") w with
        | Ok (inl matches) _ => mkRan 0 (detect_output matches) None
        | Ok (inr _) _ => exit 1
        | Panic _ => exit 2
        end
  end.

(** ** The sweep *)

Definition sweep : M (DB W) (list SweepLog) :=
  now <- world_db Now ;;
  swept <- DeleteExpired now ;;
  rotated <- RotateDue now ;;
  ret ((match swept with
        | inr err => [LogExpiryFailed err]
        | inl n => if (0 <? n)%nat then [LogSwept n] else []
        end)
       ++ (LogRotated <$> rotated.1)
       ++ (match rotated.2 with Some err => [LogRotationFailed err] | None => [] end)).
End Commands.
