(* ===== verification/Privacy.v ===== *)
(** * What a client learns about masked columns

    A relational proof over whole sessions: two databases that differ only in
    values of columns the policy masks (and in nothing the masking keeps) give
    the client the same messages, byte for byte, and the approver the same
    requests.  The section Relational is the proof principle: a computation
    whose runs from related states stay related. *)

From S2P Require Import Prelude GoStrings Sha256 Classify Policy Approval Proto Session Scenario.

(** ** Results that agree up to masked values *)

Section Equivalence.
Context {U : Unicode}.
Variable p : Policy.

(** Two values of one column that the policy makes indistinguishable: equal when
    the column has no action; both NULL or both not when its text is redacted;
    with equal digests when it is hashed; any when its type is not textual. *)
Definition cell_equiv (fd : FieldDescription) (v1 v2 : value) : Prop :=
  match ActionFor p (fd_Name fd) with
  | ActionNone => v1 = v2
  | a =>
      if IsTextFamilyOID (fd_DataTypeOID fd) then
        match v1, v2 with
        | None, None => True
        | Some raw1, Some raw2 =>
            a = ActionRedact \/ sha256 (salt p +:+ raw1) = sha256 (salt p +:+ raw2)
        | _, _ => False
        end
      else True
  end.

(** Rows of the same width; a value beyond the described columns agrees in
    being NULL or not. *)
Definition row_equiv (fds : list FieldDescription) (r1 r2 : list value) : Prop :=
  length r1 = length r2 /\
  forall i v1 v2, r1 !! i = Some v1 -> r2 !! i = Some v2 ->
    match fds !! i with
    | Some fd => cell_equiv fd v1 v2
    | None => v1 = None <-> v2 = None
    end.

Definition result_equiv (rr1 rr2 : ResultReader) : Prop :=
  rr_fields rr1 = rr_fields rr2 /\ rr_close rr1 = rr_close rr2 /\
  Forall2 (row_equiv (rr_fields rr1)) (rr_rows rr1) (rr_rows rr2).

Definition multi_equiv (m1 m2 : MultiResult) : Prop :=
  Forall2 result_equiv (mrr_results m1) (mrr_results m2) /\ mrr_close m1 = mrr_close m2.

Lemma cell_equiv_refl fd v : cell_equiv fd v v.
Proof.
  unfold cell_equiv. destruct (ActionFor p (fd_Name fd)); [done|..];
    destruct (IsTextFamilyOID _), v; auto.
Qed.

Lemma cell_equiv_redact fd raw1 raw2 :
  ActionFor p (fd_Name fd) = ActionRedact -> cell_equiv fd (Some raw1) (Some raw2).
Proof. intros E. unfold cell_equiv. rewrite E. destruct (IsTextFamilyOID _); auto. Qed.

Lemma cell_equiv_nontext fd v1 v2 :
  ActionFor p (fd_Name fd) <> ActionNone -> IsTextFamilyOID (fd_DataTypeOID fd) = false ->
  cell_equiv fd v1 v2.
Proof. intros Ha Ht. unfold cell_equiv. rewrite Ht. by destruct (ActionFor _ _). Qed.

Lemma result_equiv_refl rr : result_equiv rr rr.
Proof.
  split; [done|]. split; [done|]. apply Forall_Forall2_diag, Forall_true. intros row.
  split; [done|]. intros i v1 v2 H1 H2. assert (v1 = v2) as -> by congruence.
  destruct (rr_fields rr !! i); [apply cell_equiv_refl|done].
Qed.

(** A cell under a described column is its value anonymized. *)
Lemma anonymizeCell_fd fds i fd v :
  fds !! i = Some fd ->
  anonymizeCell p fds i v = Some (AnonymizeValue p (ActionFor p (fd_Name fd)) (fd_DataTypeOID fd) v).
Proof.
  intros H. unfold anonymizeCell. destruct v as [raw|]; [|done]. rewrite H.
  case_bool_decide as Ha; [by rewrite Ha|done].
Qed.

Lemma AnonymizeValue_equiv fd v1 v2 :
  cell_equiv fd v1 v2 ->
  AnonymizeValue p (ActionFor p (fd_Name fd)) (fd_DataTypeOID fd) v1
    = AnonymizeValue p (ActionFor p (fd_Name fd)) (fd_DataTypeOID fd) v2.
Proof.
  unfold cell_equiv. destruct (IsTextFamilyOID (fd_DataTypeOID fd)) eqn:Et;
    destruct (ActionFor p (fd_Name fd)) eqn:Ea; try (by intros ->);
    destruct v1 as [r1|], v2 as [r2|]; intros H; try (by destruct H);
    rewrite ?AnonymizeValue_nontext, ?AnonymizeValue_redact by done; try done.
  destruct H as [?|H]; [done|]. rewrite !AnonymizeValue_hash by done. by rewrite H.
Qed.

Lemma anonymizeCell_equiv fds i v1 v2 :
  match fds !! i with Some fd => cell_equiv fd v1 v2 | None => v1 = None <-> v2 = None end ->
  anonymizeCell p fds i v1 = anonymizeCell p fds i v2.
Proof.
  destruct (fds !! i) as [fd|] eqn:E; intros H.
  - rewrite !(anonymizeCell_fd _ _ _ _ E). f_equal. by apply AnonymizeValue_equiv.
  - unfold anonymizeCell. rewrite E. destruct v1, v2; naive_solver.
Qed.

Lemma anonymizeRow_equiv fds r1 r2 :
  row_equiv fds r1 r2 -> anonymizeRow p fds r1 = anonymizeRow p fds r2.
Proof.
  intros [Hl H]. unfold anonymizeRow. apply map_opt_ext. apply Forall2_same_length_lookup_2.
  - by rewrite !length_imap.
  - intros i [j1 v1] [j2 v2] H1 H2. rewrite list_lookup_imap in H1, H2.
    apply fmap_Some in H1 as (a & Ha & [= -> ->]). apply fmap_Some in H2 as (b & Hb & [= -> ->]).
    cbn. apply anonymizeCell_equiv. by apply H.
Qed.

Lemma anonymizeRows_equiv fds rows1 rows2 :
  Forall2 (row_equiv fds) rows1 rows2 ->
  map_opt (anonymizeRow p fds) rows1 = map_opt (anonymizeRow p fds) rows2.
Proof. intros H. apply map_opt_ext. eapply Forall2_impl; [done|]. apply anonymizeRow_equiv. Qed.
End Equivalence.

(** ** Relational proofs *)

Section Relational.
Context {W : Type}.
(** An invariant of the session, and the relation of the worlds. *)
Variables (I : session -> Prop) (wR : W -> W -> Prop).

(** States in the invariant that a client and an approver cannot tell apart. *)
Definition st_rel (s1 s2 : St W) : Prop :=
  I (sess s1) /\ sess s1 = sess s2 /\ trace s1 = trace s2 /\ wR (world s1) (world s2).

Definition out_rel {X Y} (Q : X -> Y -> Prop) (o1 : outcome (St W) X) (o2 : outcome (St W) Y) : Prop :=
  match o1, o2 with
  | Ok a1 s1, Ok a2 s2 => Q a1 a2 /\ st_rel s1 s2
  | Panic s1, Panic s2 => st_rel s1 s2
  | _, _ => False
  end.

Definition rel {X Y} (Q : X -> Y -> Prop) (m1 : M (St W) X) (m2 : M (St W) Y) : Prop :=
  forall s1 s2, st_rel s1 s2 -> out_rel Q (m1 s1) (m2 s2).

Lemma rel_ret {X Y} (Q : X -> Y -> Prop) a1 a2 : Q a1 a2 -> rel Q (ret a1) (ret a2).
Proof. by intros H s1 s2 Hs. Qed.

Lemma rel_panic {X Y} (Q : X -> Y -> Prop) : rel Q panic panic.
Proof. by intros s1 s2 Hs. Qed.

Lemma rel_bind {X Y X' Y'} (Q : X -> Y -> Prop) (Q' : X' -> Y' -> Prop) m1 m2 k1 k2 :
  rel Q m1 m2 -> (forall a1 a2, Q a1 a2 -> rel Q' (k1 a1) (k2 a2)) -> rel Q' (bind m1 k1) (bind m2 k2).
Proof.
  intros Hm Hk s1 s2 Hs. specialize (Hm s1 s2 Hs). unfold bind.
  destruct (m1 s1), (m2 s2); cbn in Hm; try done. destruct Hm as [Hq Hs']. by apply (Hk _ _ Hq).
Qed.

(** The same computation on both sides. *)
Definition indist {X} (m : M (St W) X) : Prop := rel eq m m.

Lemma indist_ret {X} (a : X) : indist (ret a).
Proof. by apply rel_ret. Qed.

Lemma indist_panic {X} : indist (panic (A := X)).
Proof. apply rel_panic. Qed.

Lemma indist_bind {X Y} (m : M (St W) X) (k : X -> M (St W) Y) :
  indist m -> (forall a, indist (k a)) -> indist (bind m k).
Proof. intros Hm Hk. eapply rel_bind; [done|]. intros a ? <-. apply Hk. Qed.

Lemma indist_for_each {X} (xs : list X) body :
  (forall x, indist (body x)) -> indist (for_each xs body).
Proof. intros Hb. induction xs; [apply indist_ret|]. by apply indist_bind. Qed.

Lemma indist_emit e : indist (emit e).
Proof. intros s1 s2 (H0 & H1 & H2 & H3). split; [done|]. split_and!; cbn; congruence || done. Qed.

Lemma indist_send m : indist (send m).
Proof. apply indist_emit. Qed.

Lemma indist_flush : indist flush.
Proof. apply indist_emit. Qed.

Lemma indist_set_session f : (forall s, I s -> I (f s)) -> indist (set_session f).
Proof.
  intros Hf s1 s2 (H0 & H1 & H2 & H3). split; [done|].
  split_and!; cbn; auto; congruence || done.
Qed.

Lemma indist_get_session : indist get_session.
Proof. intros s1 s2 (H0 & H1 & H2 & H3). split; [done|]. by split_and!. Qed.

(** The session is known when a continuation runs, and is in the invariant. *)
Lemma rel_get_session {X Y} (Q : X -> Y -> Prop) k1 k2 :
  (forall s, I s -> rel Q (k1 s) (k2 s)) -> rel Q (bind get_session k1) (bind get_session k2).
Proof.
  intros H s1 s2 Hs. rewrite !run_get_session. destruct Hs as (H0 & H1 & H2 & H3).
  rewrite <- H1. apply H; [done|]. by split_and!.
Qed.

Lemma indist_get {X} (k : session -> M (St W) X) : (forall s, I s -> indist (k s)) -> indist (bind get_session k).
Proof. intros H. by apply rel_get_session. Qed.

(** An operation of the environment that returns related answers in related worlds. *)
Definition env_rel {X} (Q : X -> X -> Prop) (f : W -> X * W) : Prop :=
  forall w1 w2, wR w1 w2 -> Q (f w1).1 (f w2).1 /\ wR (f w1).2 (f w2).2.

Lemma rel_env {X} (Q : X -> X -> Prop) f : env_rel Q f -> rel Q (env f) (env f).
Proof.
  intros Hf s1 s2 (H0 & H1 & H2 & H3). specialize (Hf _ _ H3). unfold env.
  destruct (f (world s1)), (f (world s2)); cbn in *. destruct Hf. split; [done|]. by split_and!.
Qed.
End Relational.

#[export] Hint Resolve indist_ret indist_panic indist_send indist_flush indist_get_session : go.

Ltac go_indist :=
  repeat match goal with
  | |- indist _ _ (bind get_session _) => apply indist_get; intros ? ?
  | |- indist _ _ (bind _ _) => apply indist_bind; [|intros ?]
  | |- indist _ _ (for_each _ _) => apply indist_for_each; intros ?
  | |- indist _ _ (match ?x with _ => _ end) => destruct x eqn:?
  | |- indist _ _ _ => solve [eauto with go]
  end.

(** ** Whole sessions *)

Section Session.
Context {U : Unicode} {W : Type} {R : Rand W} {A : Approver W} {RB : ReadBuffer W} {Up : Upstream W}.
Variables (p : Policy) (asked : string -> Prop) (wR : W -> W -> Prop).

(** Related worlds hold databases that answer the statements [asked] alike up to
    masked values, with equal errors and equal descriptions, and have the same
    catalog; the generator, the approver and the read buffer do not see the
    difference.  Nothing is said of statements that are not asked. *)
Record world_simulation : Prop := {
  sim_rand n : env_rel wR eq (rand_read n);
  sim_approve req : env_rel wR eq (Approve req);
  sim_buffer bytes : env_rel wR eq (read_buffer bytes);
  sim_catalog : env_rel wR eq (up_Exec introspectSQL);
  sim_exec sql : asked sql -> env_rel wR (multi_equiv p) (up_Exec sql);
  sim_execParams sql ps oids pf rf : asked sql -> env_rel wR (result_equiv p) (up_ExecParams sql ps oids pf rf);
  sim_prepare name sql oids : asked sql -> env_rel wR eq (up_Prepare name sql oids)
}.
Hypothesis Sim : world_simulation.

(** The session has the policy [p], and its statements are asked. *)
Definition asking (s : session) : Prop :=
  s_policy s = p /\ forall name st, statements s !! name = Some st -> asked (ps_query st).

Abbreviation indist := (indist asking wR).
Abbreviation rel := (rel asking wR).

Lemma insert_statement_indist name st : asked (ps_query st) -> indist (set_session (set_statements (insert name st))).
Proof.
  intros H. apply indist_set_session. intros s [Hp Hs]. split; [done|]. intros n st'. cbn. intros [[_ <-]|[_ Hn]]%lookup_insert_Some; eauto.
Qed.
Lemma delete_statement_indist name : indist (set_session (set_statements (delete name))).
Proof. apply indist_set_session. intros s [Hp Hs]. split; [done|]. intros n st'. cbn. intros [_ Hn]%lookup_delete_Some. eauto. Qed.
Lemma set_portals_indist f : indist (set_session (set_portals f)).
Proof. by apply indist_set_session. Qed.
Lemma set_batchFailed_indist b : indist (set_session (set_batchFailed b)).
Proof. by apply indist_set_session. Qed.
#[local] Hint Resolve insert_statement_indist delete_statement_indist set_portals_indist set_batchFailed_indist : go.

(** A statement of the session is asked. *)
Lemma asking_statement s name st : asking s -> statements s !! name = Some st -> asked (ps_query st).
Proof. intros [_ H]. apply H. Qed.
#[local] Hint Extern 1 (asked (ps_query _)) => eapply asking_statement; eassumption : go.

Lemma newRequestID_indist : indist newRequestID.
Proof.
  apply rel_env. intros w1 w2 Hw. destruct (sim_rand Sim 8 w1 w2 Hw) as [E H]. unfold NewID.
  destruct (rand_read 8 w1) as [b1 w1'], (rand_read 8 w2) as [b2 w2']. cbn in *. subst. by destruct b2.
Qed.

Lemma approve_indist req : indist (approve req).
Proof.
  unfold approve. apply indist_bind; [apply rel_env, Sim|intros dec].
  apply indist_bind; [apply indist_emit|intros []; apply indist_ret].
Qed.

#[local] Hint Resolve newRequestID_indist approve_indist : go.

Lemma catalog_indist : indist (upstream_Exec introspectSQL).
Proof. unfold upstream_Exec. apply indist_bind; [apply indist_emit|intros _]. apply rel_env, Sim. Qed.

Lemma schemaRows_indist : indist schemaRows.
Proof. unfold schemaRows. apply indist_bind; [apply catalog_indist|intros mrr]. go_indist. Qed.
#[local] Hint Resolve schemaRows_indist : go.

Lemma streamResult_rel rr1 rr2 b k q :
  result_equiv p rr1 rr2 -> rel eq (streamResult rr1 b k q) (streamResult rr2 b k q).
Proof.
  intros (Ef & Ec & Er). unfold streamResult. apply rel_get_session. intros s [Hs _].
  rewrite Hs, <- Ef, <- Ec, (anonymizeRows_equiv _ _ _ _ Er).
  match goal with |- Privacy.rel _ _ _ ?m ?m => change (indist m) end.
  unfold limitDenied, sendQueryError, sendError. go_indist.
Qed.

Lemma streamResults_rel rrs1 rrs2 k q :
  Forall2 (result_equiv p) rrs1 rrs2 -> rel eq (streamResults rrs1 k q) (streamResults rrs2 k q).
Proof.
  induction 1 as [|rr1 rr2 rrs1 rrs2 H _ IH]; [by apply rel_ret|]. cbn [streamResults].
  eapply rel_bind; [by apply streamResult_rel|]. intros b ? <-. destruct b; [by apply rel_ret|done].
Qed.

Lemma runSimple_indist k sql : asked sql -> indist (runSimple k sql).
Proof.
  intros Hsql. unfold runSimple, upstream_Exec. eapply (rel_bind _ _ (multi_equiv p)).
  { eapply rel_bind; [apply indist_emit|intros _ _ _]. by apply rel_env, Sim. }
  intros m1 m2 [Hr Hc]. eapply rel_bind; [by apply streamResults_rel|intros [] [] _].
  rewrite Hc. match goal with |- Privacy.rel _ _ _ ?m ?m => change (indist m) end.
  unfold sendQueryError, ready. go_indist.
Qed.

Lemma read_params_indist ps : indist (read_params ps).
Proof.
  induction ps as [|[bytes|] ps IH]; cbn [read_params]; [apply indist_ret| |].
  - apply indist_bind; [apply rel_env, Sim|intros held]. apply indist_bind; [done|]. intros rest. apply indist_ret.
  - apply indist_bind; [done|]. intros rest. apply indist_ret.
Qed.

Lemma runPortal_indist st por : asked (ps_query st) -> indist (runPortal st por).
Proof.
  intros Hq. unfold runPortal, upstream_ExecParams. apply indist_bind; [apply read_params_indist|intros ps].
  eapply (rel_bind _ _ (result_equiv p)).
  { eapply rel_bind; [apply indist_emit|intros _ _ _]. by apply rel_env, Sim. }
  intros r1 r2 Hr. eapply rel_bind; [by apply streamResult_rel|]. intros b ? <-.
  match goal with |- Privacy.rel _ _ _ ?m ?m => change (indist m) end. go_indist.
Qed.

Lemma ensureFields_indist name st : asked (ps_query st) -> indist (ensureFields name st).
Proof.
  intros Hq. unfold ensureFields. destruct (ps_described st); [apply indist_ret|].
  apply indist_bind; [|intros [sd|err]; go_indist].
  apply indist_bind; [apply indist_emit|intros _; by apply rel_env, Sim].
Qed.

#[local] Hint Resolve runSimple_indist runPortal_indist ensureFields_indist : go.

(** The statements that a message of the client contains. *)
Definition texts (m : FrontendMessage) : list string :=
  match m with Query sql => [sql] | Parse _ query _ => [query] | _ => [] end.

Lemma dispatch_indist m : Forall asked (texts m) -> indist (dispatch m).
Proof.
  destruct m; cbn [dispatch texts]; rewrite ?Forall_singleton; intros Hm;
    unfold handleSimpleQuery, handleSchemaSimple, handleParse, handleBind, handleDescribe,
      describeStatement, describePortal, handleExecute, executeSchema, handleClose, unlessFailed,
      approveMutation, failBatch, sendError, sendQueryError, ready; go_indist.
Qed.

Lemma loop_indist msgs : Forall (fun m => Forall asked (texts m)) msgs -> indist (loop msgs).
Proof.
  induction 1 as [|m msgs Hm _ IH]; [apply indist_ret|].
  destruct m; cbn [loop]; try (by apply indist_bind; [by apply dispatch_indist|]). apply indist_ret.
Qed.

End Session.

(** ** Noninterference *)

Section PrivacyTheorem.
Context {U : Unicode} {W : Type} {R : Rand W} {A : Approver W} {RB : ReadBuffer W} {Up : Upstream W}.

Definition panics {S X} (o : outcome S X) : bool := match o with Ok _ _ => false | Panic _ => true end.

Lemma out_rel_observe {X} I wR (o1 o2 : outcome (St W) X) :
  out_rel I wR eq o1 o2 -> trace (final o1) = trace (final o2) /\ panics o1 = panics o2.
Proof.
  destruct o1 as [a1 s1|s1], o2 as [a2 s2|s2]; intros H; try by destruct H.
  - destruct H as (_ & _ & _ & H & _). by split.
  - destruct H as (_ & _ & H & _). by split.
Qed.

(** The statements of a session's messages. *)
Definition asked_in (msgs : list FrontendMessage) (sql : string) : Prop := sql ∈ concat (texts <$> msgs).

(** C2.  Masked values do not reach the client: if two databases answer the statements
    that the client's messages contain alike up to masked values (the same columns,
    tags and errors, and values that differ only under columns whose action hides the
    difference), and the catalog query identically, then sessions under the same policy
    send the same messages, make the same upstream calls and the same approval requests,
    and both return or both panic.  A statement that gets a masked value past the names
    of the columns, by an alias or in an error, does not meet the premise. *)
Theorem masked_noninterference p (wR : W -> W -> Prop) conn db client sf msgs w1 w2 :
  world_simulation p (asked_in msgs) wR -> wR w1 w2 ->
  let run w := loop msgs (mkSt (established p conn db client sf) w []) in
  trace (final (run w1)) = trace (final (run w2)) /\ panics (run w1) = panics (run w2).
Proof.
  intros Sim Hw. apply (out_rel_observe (asking p (asked_in msgs)) wR), loop_indist; [done| |].
  - apply Forall_forall. intros m Hm. apply Forall_forall. intros sql Hsql. apply list_elem_of_In, in_concat.
    exists (texts m). split; apply list_elem_of_In; [by apply list_elem_of_fmap_2|done].
  - split_and!; [|done..]. split; [done|]. intros name st. cbn. by rewrite lookup_empty.
Qed.
End PrivacyTheorem.

(** ** A pair of databases that differ in masked values *)

Module TwoDatabases.

(** The world says which of two databases is behind the proxy: they differ in
    an e-mail address (redacted text) and in a salary (an integer, so NULL). *)
Definition people_fields : list FieldDescription :=
  [mkField "id" 0 0 23 4 (-1) 0; mkField "email" 0 0 25 (-1) (-1) 0; mkField "salary" 0 0 23 4 (-1) 0].

Definition people (b : bool) : ResultReader :=
  mkResult people_fields
    [[Some "1"; Some (if b then "ann@x.org" else "zoe@y.org"); (if b then Some "4200" else None)]]
    (inl "SELECT 1").

#[local] Instance two_rand : Rand bool := fun n w => (Some (nul_bytes n), w).
#[local] Instance two_approver : Approver bool := staticApprover auto_approve.
#[local] Instance two_buffer : ReadBuffer bool := intact.

(** The e-mail under another name, which no rule masks. *)
Definition contacts (b : bool) : ResultReader :=
  mkResult [mkField "contact" 0 0 25 (-1) (-1) 0] [[Some (if b then "ann@x.org" else "zoe@y.org")]] (inl "SELECT 1").

#[local] Instance two_upstream : Upstream bool := {|
  up_Exec sql w :=
    (mkMulti [if bool_decide (sql = introspectSQL) then schema_result
              else if bool_decide (sql = "SELECT email AS contact FROM people") then contacts w else people w] None, w);
  up_ExecParams sql ps oids pf rf w := (people w, w);
  up_Prepare name sql oids w := (inl (mkStmtDesc [] people_fields), w)
|}.

Definition people_policy : Policy :=
  New [mkRule "email" "" "redact"; mkRule "salary" "" "hash"] "salt" "" 0 true.

Definition any (w1 w2 : bool) : Prop := True.

Lemma people_equiv b1 b2 : result_equiv people_policy (people b1) (people b2).
Proof.
  split; [reflexivity|]. split; [reflexivity|]. cbn [people rr_rows rr_fields]. constructor; [|constructor].
  split; [reflexivity|]. intros [|[|[|i]]] v1 v2 H1 H2; try discriminate;
    injection H1 as <-; injection H2 as <-.
  - apply cell_equiv_refl.
  - by apply cell_equiv_redact.
  - by apply cell_equiv_nontext.
Qed.

Definition people_session : list FrontendMessage :=
  [Query "SELECT * FROM people"; Query "pgproxy_schema()"; Query "DELETE FROM people"].

Lemma two_simulation : world_simulation people_policy (asked_in people_session) any.
Proof.
  split; try (intros; by split).
  - intros sql Hsql w1 w2 _. split; [|done]. cbn [up_Exec two_upstream fst]. case_bool_decide as E; [|case_bool_decide as E'].
    + split; [|done]. constructor; [apply result_equiv_refl|constructor].
    + exfalso. subst.
      assert (Hn : "SELECT email AS contact FROM people" ∉ concat (texts <$> people_session))
        by (apply (bool_decide_unpack _); vm_compute; exact I).
      exact (Hn Hsql).
    + split; [|done]. constructor; [apply people_equiv|constructor].
  - intros sql ps oids pf rf _ w1 w2 _. split; [apply people_equiv|done].
Qed.

Lemma masked_noninterference_witness :
  any true false /\
  (let run w := loop people_session (mkSt (established people_policy "main" "db" "c" "pgproxy_schema") w []) in
   trace (final (run true)) = trace (final (run false)) /\ panics (run true) = panics (run false)).
Proof.
  split; [exact I|].
  exact (masked_noninterference people_policy any "main" "db" "c" "pgproxy_schema" people_session
           true false two_simulation I).
Defined.

(** Under another name the e-mail reaches the client. *)
Example contacts_differ :
  trace (final (loop [Query "SELECT email AS contact FROM people"] (mkSt (established people_policy "main" "db" "c" "pgproxy_schema") true [])))
  <> trace (final (loop [Query "SELECT email AS contact FROM people"] (mkSt (established people_policy "main" "db" "c" "pgproxy_schema") false []))).
Proof. vm_compute. discriminate. Qed.

(** The session does send rows, with the e-mail redacted and the salary NULL. *)
Example people_rows :
  omap (fun e => match e with EvSend (DataRow row) => Some row | _ => None end)
    (trace (final (loop (take 1 people_session)
      (mkSt (established people_policy "main" "db" "c" "pgproxy_schema") true []))))
  = [[Some "1"; Some "[REDACTED]"; None]].
Proof. vm_compute. reflexivity. Qed.
End TwoDatabases.
