(* ===== verification/Results.v ===== *)
(** * Results: masking and the row limit (internal/proxy/exec.go)

    What streamResult sends: each row masked column by column, and never more
    rows of one result than the connection's [max_rows] without an approval
    that names their number. *)

From S2P Require Import Prelude GoStrings Sha256 Classify Policy Approval Proto Session Scenario Privacy.

(** ** Rows *)

Section Rows.
Context {U : Unicode}.

(** No value of the row lies beyond the described columns. *)
Definition fits (fds : list FieldDescription) (row : list value) : Prop := length row <= length fds.
#[export] Instance fits_dec fds row : Decision (fits fds row).
Proof. unfold fits. apply _. Defined.

Lemma anonymizeRow_lookup p fds vals out i :
  anonymizeRow p fds vals = Some out ->
  out !! i = v ← vals !! i; anonymizeCell p fds i v.
Proof.
  unfold anonymizeRow. rewrite map_opt_Some_lookup. intros H.
  pose proof (Forall2_length _ _ _ H) as L. rewrite length_imap in L.
  destruct (vals !! i) as [v|] eqn:Ev; cbn [mbind option_bind].
  - destruct (lookup_lt_is_Some_2 out i) as [o Ho]; [rewrite <- L; by apply lookup_lt_Some in Ev|].
    rewrite Ho. symmetry. pose proof (Forall2_lookup_lr _ _ _ i (i, v) o H) as Hc.
    apply Hc; [|done]. rewrite list_lookup_imap, Ev. done.
  - apply lookup_ge_None in Ev. apply lookup_ge_None. lia.
Qed.

(** A row that fits is masked: as wide as the original, each value anonymized
    with the action of its column's name. *)
Lemma anonymizeRow_masks p fds vals :
  fits fds vals ->
  exists out, anonymizeRow p fds vals = Some out /\ length out = length vals /\
    forall i v fd, vals !! i = Some v -> fds !! i = Some fd ->
      out !! i = Some (AnonymizeValue p (ActionFor p (fd_Name fd)) (fd_DataTypeOID fd) v).
Proof.
  intros Hf. destruct (map_opt_total (fun iv => anonymizeCell p fds iv.1 iv.2)
    (fun iv => iv.1 < length fds) (imap pair vals)) as [out Hout].
  - intros [i v] Hi. destruct (lookup_lt_is_Some_2 fds i Hi) as [fd Hfd].
    cbn. rewrite (anonymizeCell_fd _ _ _ _ _ Hfd). eauto.
  - apply Forall_lookup. intros i iv Hi. rewrite list_lookup_imap in Hi.
    apply fmap_Some in Hi as (v & Hv & ->). apply lookup_lt_Some in Hv. unfold fits in Hf. cbn. lia.
  - exists out. split; [done|]. split; [by apply map_opt_length in Hout; rewrite length_imap in Hout|].
    intros i v fd Hv Hfd. rewrite (anonymizeRow_lookup p fds vals out i Hout), Hv. cbn.
    by apply anonymizeCell_fd.
Qed.

(** The rows of a result, masked: the loop over [rr.NextRow()]. *)
Definition masked (p : Policy) (rr : ResultReader) : option (list (list value)) :=
  map_opt (anonymizeRow p (rr_fields rr)) (rr_rows rr).

Lemma masked_fits p rr : Forall (fits (rr_fields rr)) (rr_rows rr) -> is_Some (masked p rr).
Proof.
  apply map_opt_total. intros row Hr. destruct (anonymizeRow_masks p _ _ Hr) as (out & -> & _). eauto.
Qed.

(** C12.  Every value of a result is masked by the action of its own column: the
    masked result has the rows of the original, each as wide, and the value at
    a position is the original value anonymized with the action the policy has
    for the name of that column and with the column's type. *)
Theorem masked_cells p rr :
  Forall (fits (rr_fields rr)) (rr_rows rr) ->
  exists rows, masked p rr = Some rows /\ length rows = length (rr_rows rr) /\
    forall i row out, rr_rows rr !! i = Some row -> rows !! i = Some out ->
      length out = length row /\
      forall j v fd, row !! j = Some v -> rr_fields rr !! j = Some fd ->
        out !! j = Some (AnonymizeValue p (ActionFor p (fd_Name fd)) (fd_DataTypeOID fd) v).
Proof.
  intros Hf. destruct (masked_fits p rr Hf) as [rows Hrows]. exists rows. split; [done|].
  split; [by apply map_opt_length in Hrows|]. intros i row out Hrow Hout.
  apply map_opt_Some_lookup in Hrows. pose proof (Forall2_lookup_lr _ _ _ _ _ _ Hrows Hrow Hout) as E.
  destruct (anonymizeRow_masks p _ _ (proj1 (Forall_lookup _ _) Hf i row Hrow)) as (out' & E' & Hl & Hc).
  assert (out' = out) as -> by congruence. done.
Qed.
End Rows.

(** ** The row limit, as a meter on the events *)

(** Rows sent of the current result, and how many may be sent ([None]: any
    number, for the catalog rows of the schema command). *)
Record meter : Type := mkMeter { sent : nat; allowed : option nat }.

Definition meter_step (limit : nat) (m : meter) (e : event) : meter :=
  match e with
  | EvExec sql => mkMeter 0 (if bool_decide (sql = introspectSQL) then None else Some limit)
  | EvExecParams _ _ _ _ _ => mkMeter 0 (Some limit)
  | EvApprove req dec =>
      if Approved dec && bool_decide (req_Reason req = ReasonLargeRead)
      then mkMeter (sent m) (Some (req_RowCount req)) else m
  | EvSend (DataRow _) => mkMeter (S (sent m)) (allowed m)
  | EvSend (CommandComplete _) => mkMeter 0 (Some limit)
  | _ => m
  end.

Definition within (m : meter) : bool :=
  match allowed m with None => true | Some a => bool_decide (sent m <= a) end.

Definition meter_after (limit : nat) (t : list event) : meter :=
  foldl (meter_step limit) (mkMeter 0 (Some limit)) t.

(** At every point of the trace the rows sent are within what is allowed. *)
Definition metered (limit : nat) (t : list event) : Prop :=
  forall t1 t2, t = t1 ++ t2 -> within (meter_after limit t1) = true.

Lemma metered_snoc limit t e :
  metered limit t -> within (meter_after limit (t ++ [e])) = true -> metered limit (t ++ [e]).
Proof.
  intros Ht He t1 t2 E. destruct t2 as [|e2 t2 _] using rev_ind.
  - rewrite app_nil_r in E. by rewrite <- E.
  - rewrite app_assoc in E. apply app_inj_tail in E as [E _]. by apply (Ht t1 t2).
Qed.

Lemma meter_after_snoc limit t e : meter_after limit (t ++ [e]) = meter_step limit (meter_after limit t) e.
Proof. unfold meter_after. by rewrite foldl_app. Qed.

Section Limit.
Context {U : Unicode} {W : Type} {R : Rand W} {A : Approver W} {RB : ReadBuffer W} {Up : Upstream W}.
Variable p : Policy.
Hypothesis limited : (0 < maxRows p)%Z.

Definition limit : nat := Z.to_nat (maxRows p).

(** [room n s]: the trace is metered, and [n] more rows may be sent. *)
Definition room (n : nat) (s : St W) : Prop :=
  s_policy (sess s) = p /\ metered limit (trace s) /\
  match allowed (meter_after limit (trace s)) with
  | None => True
  | Some a => sent (meter_after limit (trace s)) + n <= a
  end.

(** Between results: nothing sent of the current one. *)
Definition limit_inv (s : St W) : Prop :=
  s_policy (sess s) = p /\ metered limit (trace s) /\
  sent (meter_after limit (trace s)) = 0 /\
  (allowed (meter_after limit (trace s)) = Some limit
   \/ allowed (meter_after limit (trace s)) = None).

Lemma limit_room n s : limit_inv s -> n <= limit -> room n s.
Proof.
  intros (Hp & Ht & Hs & Ha) Hn. split_and!; [done..|]. rewrite Hs. destruct Ha as [-> | ->]; [cbn; lia|done].
Qed.

Lemma room_within n s : room n s -> within (meter_after limit (trace s)) = true.
Proof.
  intros (_ & _ & H). unfold within. destruct (allowed _); [|done]. apply bool_decide_eq_true. lia.
Qed.

(** An event that leaves the meter as it is. *)
Definition neutral (e : event) : Prop := forall m, meter_step limit m e = m.

Lemma emit_room n e E s : neutral e -> room n s -> wp (emit (W := W) e) (fun _ => room n) E s.
Proof.
  intros He H. pose proof (room_within _ _ H) as Hw. destruct H as (Hp & Ht & Ha). apply wp_modify.
  assert (Em : meter_after limit (trace s ++ [e]) = meter_after limit (trace s))
    by by rewrite meter_after_snoc, He.
  split_and!; cbn [sess trace]; [done| |by rewrite Em]. apply metered_snoc; [done|]. by rewrite Em.
Qed.

Lemma send_row_room n row E s :
  room (S n) s -> wp (send (W := W) (DataRow row)) (fun _ => room n) E s.
Proof.
  intros H. destruct H as (Hp & Ht & Ha). apply wp_modify.
  assert (Ha' : match allowed (meter_after limit (trace s ++ [EvSend (DataRow row)])) with
                | None => True
                | Some a => sent (meter_after limit (trace s ++ [EvSend (DataRow row)])) + n <= a end).
  { rewrite meter_after_snoc. cbn. destruct (allowed _); [lia|done]. }
  split_and!; cbn [sess trace]; [done| |done]. apply metered_snoc; [done|].
  unfold within. destruct (allowed (meter_after _ (_ ++ _))); [|done]. apply bool_decide_eq_true. lia.
Qed.

Lemma send_rows_room rows E s :
  room (length rows) s ->
  wp (for_each rows (fun row => send (DataRow row))) (fun _ => room 0) E s.
Proof.
  revert s. induction rows as [|row rows IH]; intros s H; [done|].
  cbn [for_each]. apply wp_bind. eapply wp_mono; [by apply send_row_room| |].
  - intros a s' Hs'. by apply IH.
  - done.
Qed.

Lemma complete_limit tag s : room 0 s -> wp (send (W := W) (CommandComplete tag)) (fun _ => limit_inv) limit_inv s.
Proof.
  intros (Hp & Ht & _). apply wp_modify. unfold limit_inv. cbn [sess trace]. rewrite meter_after_snoc.
  split_and!; [done| |done|by left]. apply metered_snoc; [done|]. by rewrite meter_after_snoc.
Qed.

Lemma neutral_limit e s w :
  neutral e -> limit_inv s -> limit_inv (mkSt (sess s) w (trace s ++ [e])).
Proof.
  intros He (Hp & Ht & Hs & Ha). unfold limit_inv. cbn [sess trace].
  rewrite meter_after_snoc, He. split_and!; [done| |done..].
  apply metered_snoc; [done|]. rewrite meter_after_snoc, He. apply (Ht _ []). by rewrite app_nil_r.
Qed.

Lemma emit_limit e : neutral e -> preserves limit_inv (emit (W := W) e).
Proof. intros He s Hs. apply wp_modify. by apply neutral_limit. Qed.

(** Approvals and the meter: a denial is neutral, the approval of a large read
    allows the number of rows it names. *)
Lemma denied_neutral req dec : Approved dec = false -> neutral (EvApprove req dec).
Proof. intros Hd m. cbn [meter_step]. by rewrite Hd. Qed.

Lemma mutation_neutral req dec : req_Reason req = ReasonMutation -> neutral (EvApprove req dec).
Proof. intros Hr m. cbn [meter_step]. by rewrite Hr, bool_decide_eq_false_2, andb_false_r. Qed.

Lemma approved_room req dec s w :
  Approved dec = true -> req_Reason req = ReasonLargeRead -> limit_inv s ->
  room (req_RowCount req) (mkSt (sess s) w (trace s ++ [EvApprove req dec])).
Proof.
  intros Hd Hr (Hp & Ht & Hs & _).
  assert (E : meter_after limit (trace s ++ [EvApprove req dec]) = mkMeter 0 (Some (req_RowCount req))).
  { rewrite meter_after_snoc. cbn [meter_step]. rewrite Hd, Hr, Hs. done. }
  split_and!; cbn [sess trace]; [done| |by rewrite E; cbn; lia]. apply metered_snoc; [done|]. rewrite E.
  apply bool_decide_eq_true. cbn. lia.
Qed.

Lemma exec_limit e :
  (forall m, sent (meter_step limit m e) = 0 /\
     (allowed (meter_step limit m e) = Some limit \/ allowed (meter_step limit m e) = None)) ->
  preserves limit_inv (emit (W := W) e).
Proof.
  intros He s (Hp & Ht & Hs & Ha). apply wp_modify. unfold limit_inv. cbn [sess trace].
  rewrite meter_after_snoc. destruct (He (meter_after limit (trace s))) as [E1 E2].
  split_and!; [done| |done..]. apply metered_snoc; [done|]. rewrite meter_after_snoc.
  unfold within. rewrite E1. by destruct E2 as [-> | ->].
Qed.

Lemma env_limit {B} (f : W -> B * W) : preserves limit_inv (env f).
Proof. intros s H. unfold wp, env. destruct (f (world s)). apply H. Qed.

Lemma set_session_limit f : (forall s, s_policy (f s) = s_policy s) -> preserves limit_inv (set_session (W := W) f).
Proof. intros Hf s (Hp & H). apply wp_modify. split; [cbn; by rewrite Hf|done]. Qed.

Lemma set_statements_limit f : preserves limit_inv (set_session (W := W) (set_statements f)).
Proof. by apply set_session_limit. Qed.
Lemma set_portals_limit f : preserves limit_inv (set_session (W := W) (set_portals f)).
Proof. by apply set_session_limit. Qed.
Lemma set_batchFailed_limit b : preserves limit_inv (set_session (W := W) (set_batchFailed b)).
Proof. by apply set_session_limit. Qed.
Lemma get_session_limit : preserves limit_inv (get_session (W := W)).
Proof. by intros s H. Qed.

#[local] Hint Resolve env_limit set_statements_limit set_portals_limit set_batchFailed_limit
  get_session_limit : go.
#[local] Hint Extern 1 (preserves limit_inv (emit _)) => apply emit_limit; intros ?; done : go.
#[local] Hint Extern 1 (preserves limit_inv (send _)) => apply emit_limit; intros ?; done : go.
#[local] Hint Extern 1 (preserves limit_inv flush) => apply emit_limit; intros ?; done : go.

Lemma approve_mutation_limit req :
  req_Reason req = ReasonMutation -> preserves limit_inv (approve req).
Proof.
  intros Hr. unfold approve. go_preserves. by apply emit_limit, mutation_neutral.
Qed.

Lemma sendQueryError_limit err : preserves limit_inv (sendQueryError (W := W) err).
Proof. unfold sendQueryError. go_preserves. Qed.
#[local] Hint Resolve sendQueryError_limit : go.

Lemma limitDenied_limit rows k q s :
  limit_inv s ->
  wp (limitDenied rows k q) (fun b s' => if b : bool then limit_inv s' else room (length rows) s') limit_inv s.
Proof.
  intros Hs. assert (Hp : s_policy (sess s) = p) by apply Hs. unfold limitDenied.
  unfold wp. rewrite run_get_session. cbv zeta. rewrite Hp.
  rewrite (bool_decide_eq_true_2 _ limited). cbn [andb]. case_bool_decide as Hl.
  - unfold newRequestID, approve, sendError. run.
    destruct (Approve _ _) as [dec w]. cbn [fst snd].
    destruct (Approved dec) eqn:Ed; cbn [negb]; run.
    + by apply (approved_room (mkRequest _ _ _ _ (length rows) _ _ _)).
    + apply (neutral_limit _ (mkSt (sess s) w _)); [done|].
      apply neutral_limit; [by apply denied_neutral|done].
  - rewrite end_ret. apply limit_room; [done|]. unfold limit. lia.
Qed.

(** Sending a result of [n] rows for which there is room. *)
Lemma send_result_limit (desc b : bool) fds rows tag (s : St W) :
  room (length rows) s ->
  wp ((if desc then send (RowDescription fds) else ret tt) ;;
      for_each rows (fun row => send (DataRow row)) ;; send (CommandComplete tag) ;; ret b)
    (fun _ => limit_inv) limit_inv s.
Proof.
  intros H. apply wp_bind. eapply (wp_mono (A := unit) _ (fun _ => room (length rows)) _ limit_inv); [| |done].
  { destruct desc; [|done]. by apply emit_room. }
  intros u s' Hs'. apply wp_bind. eapply wp_mono; [by apply send_rows_room| |done].
  intros u' s'' Hs''. apply wp_bind. eapply wp_mono; [by apply complete_limit|done|done].
Qed.

Lemma streamResult_limit rr b k q : preserves limit_inv (streamResult rr b k q).
Proof.
  intros s Hs. unfold streamResult, wp. rewrite run_get_session.
  destruct (map_opt _ _) as [rows|]; [|done]. destruct (rr_close rr) as [tag|err].
  - fold (wp (failed <- limitDenied rows k q ;;
      if failed then ret true else
        (if b && bool_decide (0 < length (rr_fields rr))
         then send (RowDescription (rowDescription (rr_fields rr))) else ret tt) ;;
        for_each rows (fun row => send (DataRow row)) ;; send (CommandComplete tag) ;; ret false)
      (fun _ => limit_inv) limit_inv s).
    apply wp_bind. eapply wp_mono; [by apply limitDenied_limit| |done].
    intros [] s' Hs'; [done|by apply send_result_limit].
  - revert s Hs. change (preserves limit_inv (sendQueryError (W := W) err ;; ret true)). go_preserves.
Qed.
#[local] Hint Resolve streamResult_limit : go.

Lemma streamResults_limit rrs k q : preserves limit_inv (streamResults rrs k q).
Proof. induction rrs as [|rr rrs IH]; simpl; go_preserves. Qed.
#[local] Hint Resolve streamResults_limit : go.

(** The schema command: the catalog query lifts the limit, [CommandComplete]
    restores it. *)
Definition unlimited (s : St W) : Prop :=
  limit_inv s /\ allowed (meter_after limit (trace s)) = None.

Lemma unlimited_room n s : unlimited s -> room n s.
Proof. intros [(Hp & Ht & _) Ha]. split_and!; [done..|by rewrite Ha]. Qed.

Lemma schemaRows_limit s :
  limit_inv s -> wp schemaRows (fun _ => unlimited) limit_inv s.
Proof.
  intros Hs. unfold schemaRows, upstream_Exec, wp. run.
  assert (H : forall w, unlimited (mkSt (sess s) w (trace s ++ [EvExec introspectSQL]))).
  { intros w. split.
    - change (limit_inv (mkSt (sess s) (world s) (trace s ++ [EvExec introspectSQL]))).
      apply (exec_limit (EvExec introspectSQL)); [|done]. intros m. cbn [meter_step sent allowed].
      split; [done|]. case_bool_decide; auto.
    - cbn [trace]. rewrite meter_after_snoc. cbn [meter_step allowed]. by rewrite bool_decide_eq_true_2. }
  destruct (ReadAll _) as [results|err]; [|apply H]. destruct (last results); [|apply H].
  rewrite run_get_session. apply H.
Qed.

Lemma handleSchemaSimple_limit : preserves limit_inv handleSchemaSimple.
Proof.
  intros s Hs. unfold handleSchemaSimple. apply wp_bind.
  eapply wp_mono; [by apply schemaRows_limit| |done]. intros [rows|err] s' Hs'.
    apply (unlimited_room (length rows)) in Hs'.
    apply wp_bind. eapply (wp_mono (A := unit) _ (fun _ => room (length rows)) _ limit_inv); [by apply emit_room| |done].
    intros u s2 H2. apply wp_bind. eapply wp_mono; [by apply send_rows_room| |done].
    intros u3 s3 H3. by apply complete_limit.
  - by apply sendQueryError_limit, Hs'.
Qed.

Lemma executeSchema_limit : preserves limit_inv executeSchema.
Proof.
  intros s Hs. unfold executeSchema. apply wp_bind.
  eapply wp_mono; [by apply schemaRows_limit| |done]. intros [rows|err] s' Hs'.
  - apply (unlimited_room (length rows)) in Hs'.
    apply wp_bind. eapply wp_mono; [by apply send_rows_room| |done].
    intros u3 s3 H3. by apply complete_limit.
  - apply preserves_bind; [apply sendQueryError_limit|intros; go_preserves|apply Hs'].
Qed.

Lemma exec_event_limit sql : preserves limit_inv (emit (W := W) (EvExec sql)).
Proof. apply exec_limit. intros m. cbn. split; [done|]. case_bool_decide; auto. Qed.

Lemma execParams_event_limit sql ps oids pf rf :
  preserves limit_inv (emit (W := W) (EvExecParams sql ps oids pf rf)).
Proof. apply exec_limit. intros m. cbn. auto. Qed.

#[local] Hint Resolve handleSchemaSimple_limit executeSchema_limit exec_event_limit
  execParams_event_limit : go.

Lemma approveMutation_limit k sql : preserves limit_inv (approveMutation k sql).
Proof.
  unfold approveMutation, newRequestID, sendError. go_preserves. by apply approve_mutation_limit.
Qed.
#[local] Hint Resolve approveMutation_limit : go.

Lemma dispatch_limit m : preserves limit_inv (dispatch m).
Proof.
  destruct m; cbn [dispatch];
    unfold handleSimpleQuery, runSimple, upstream_Exec, handleParse, handleBind, handleDescribe,
      describeStatement, describePortal, ensureFields, upstream_Prepare, handleExecute, runPortal,
      upstream_ExecParams, handleClose, unlessFailed, failBatch, sendError, ready; go_preserves.
Qed.

Lemma loop_limit msgs : preserves limit_inv (loop msgs).
Proof.
  induction msgs as [|m msgs IH]; [apply preserves_ret|].
  destruct m; cbn [loop]; try (apply preserves_bind; [apply dispatch_limit|done]). apply preserves_ret.
Qed.
End Limit.

Section LimitTheorem.
Context {U : Unicode} {W : Type} {R : Rand W} {A : Approver W} {RB : ReadBuffer W} {Up : Upstream W}.

(** C3.  The row limit of a session: whatever the client sends and the upstream
    returns, at every point of the session the rows sent of the current result
    are at most [max_rows], or at most the number of rows a large read was
    approved for; the rows of the schema command alone are not limited. *)
Theorem row_limit p conn db client sf msgs (w : W) :
  (0 < maxRows p)%Z ->
  metered (Z.to_nat (maxRows p)) (trace (final (loop msgs (mkSt (established p conn db client sf) w [])))).
Proof.
  intros Hm. set (s0 := mkSt _ w []).
  assert (H : limit_inv p (final (loop msgs s0))); [|apply H].
  apply preserves_final; [by apply loop_limit|]. split_and!; [done| |done|by left].
  intros t1 t2 E. destruct t1; [|done]. apply bool_decide_eq_true. cbn. lia.
Qed.
End LimitTheorem.

(** ** One result *)

Section StreamResult.
Context {U : Unicode} {W : Type} {R : Rand W} {A : Approver W} {RB : ReadBuffer W} {Up : Upstream W}.

Lemma run_for_each_send {X B} (f : X -> BackendMessage) xs (k : unit -> M (St W) B) s :
  bind (for_each xs (fun x => send (f x))) k s
    = k tt (mkSt (sess s) (world s) (trace s ++ (EvSend ∘ f <$> xs))).
Proof.
  revert s. induction xs as [|x xs IH]; intros [ss w t]; cbn [for_each].
  - rewrite run_ret. cbn. by rewrite app_nil_r.
  - rewrite run_bind_bind, run_send, IH. cbn. by rewrite <- app_assoc.
Qed.

(** The messages that deliver a result. *)
Definition deliver (desc : bool) (rr : ResultReader) (rows : list (list value)) (tag : string) : list event :=
  (if desc && bool_decide (0 < length (rr_fields rr))
   then [EvSend (RowDescription (rowDescription (rr_fields rr)))] else [])
  ++ (EvSend ∘ DataRow <$> rows) ++ [EvSend (CommandComplete tag)].

Definition over_limit (p : Policy) (rows : list (list value)) : bool :=
  bool_decide (0 < maxRows p)%Z && bool_decide (maxRows p < Z.of_nat (length rows))%Z.

Definition large_read_request (s : session) (id : string) (kind : Kind) (sql : string) (n : nat) : Request :=
  mkRequest id ReasonLargeRead (Kind_String kind) sql n (s_client s) (s_connName s) (s_upstreamDB s).

(** streamResult once its rows are masked. *)
Lemma streamResult_masked rr desc kind sql (s : St W) rows :
  masked (s_policy (sess s)) rr = Some rows ->
  streamResult rr desc kind sql s =
    match rr_close rr with
    | inr err => bind (sendQueryError err) (fun _ => ret true) s
    | inl tag =>
        bind (limitDenied rows kind sql) (fun failed => if failed then ret true else
          (if desc && bool_decide (0 < length (rr_fields rr))
           then send (RowDescription (rowDescription (rr_fields rr))) else ret tt) ;;
          for_each rows (fun row => send (DataRow row)) ;; send (CommandComplete tag) ;; ret false) s
    end.
Proof.
  intros H. unfold streamResult. rewrite run_get_session. unfold masked in H. rewrite H.
  by destruct (rr_close rr).
Qed.

Lemma run_deliver rr (desc : bool) rows tag (s : St W) :
  ((if desc && bool_decide (0 < length (rr_fields rr))
    then send (RowDescription (rowDescription (rr_fields rr))) else ret tt) ;;
   for_each rows (fun row => send (DataRow row)) ;; send (CommandComplete tag) ;; ret false) s
  = Ok false (mkSt (sess s) (world s) (trace s ++ deliver desc rr rows tag)).
Proof.
  unfold deliver. destruct (desc && _); run; rewrite run_for_each_send; run; by rewrite <- ?app_assoc.
Qed.

(** A result within the limit is delivered. *)
Lemma streamResult_delivers rr desc kind sql (s : St W) rows tag :
  masked (s_policy (sess s)) rr = Some rows -> rr_close rr = inl tag ->
  over_limit (s_policy (sess s)) rows = false ->
  streamResult rr desc kind sql s
    = Ok false (mkSt (sess s) (world s) (trace s ++ deliver desc rr rows tag)).
Proof.
  intros Hm Hc Ho. rewrite (streamResult_masked _ _ _ _ _ _ Hm), Hc. unfold limitDenied.
  rewrite run_bind_bind, run_get_session. cbv zeta. unfold over_limit in Ho. rewrite Ho, run_ret.
  apply run_deliver.
Qed.

(** C11.  streamResult on a result whose rows fit its columns never panics.  An
    upstream error sends that error and no row; a result within the limit is
    delivered with its masked rows; one over the limit is delivered when the
    approver, asked with the number of its rows, approves, and else no row of it
    leaves the proxy, only error 53400.  The session itself is unchanged. *)
Theorem streamResult_cases rr desc kind sql (s : St W) :
  Forall (fits (rr_fields rr)) (rr_rows rr) ->
  exists rows, masked (s_policy (sess s)) rr = Some rows /\
    streamResult rr desc kind sql s =
      match rr_close rr with
      | inr err =>
          Ok true (mkSt (sess s) (world s) (trace s ++ [EvSend (ErrorResponse (queryError err))]))
      | inl tag =>
          if over_limit (s_policy (sess s)) rows then
            let '(id, w1) := NewID (world s) in
            let req := large_read_request (sess s) id kind sql (length (rr_rows rr)) in
            let '(dec, w2) := Approve req w1 in
            if Approved dec then
              Ok false (mkSt (sess s) w2 (trace s ++ EvApprove req dec :: deliver desc rr rows tag))
            else
              Ok true (mkSt (sess s) w2 (trace s ++ [EvApprove req dec;
                EvSend (ErrorResponse (mkError "ERROR" "53400"
                  (large_read_denied (length rows) (maxRows (s_policy (sess s))) (dec_Reason dec)) "" ""))]))
          else Ok false (mkSt (sess s) (world s) (trace s ++ deliver desc rr rows tag))
      end.
Proof.
  intros Hf. destruct (masked_fits (s_policy (sess s)) rr Hf) as [rows Hrows].
  exists rows. split; [done|]. rewrite (streamResult_masked _ _ _ _ _ _ Hrows).
  destruct (rr_close rr) as [tag|err]; [|done].
  unfold limitDenied. rewrite run_bind_bind, run_get_session. cbv zeta. fold (over_limit (s_policy (sess s)) rows).
  destruct (over_limit _ rows); [|rewrite run_ret; apply run_deliver].
  unfold newRequestID, approve, sendError, large_read_request. run.
  rewrite <- (map_opt_length _ _ _ Hrows).
  destruct (NewID (world s)) as [id w1]. run. destruct (Approve _ w1) as [dec w2]. run.
  destruct (Approved dec); run; [rewrite run_deliver; cbn [sess world trace]|]; by rewrite <- app_assoc.
Qed.
End StreamResult.

Section Raw.
Context {U : Unicode}.

(** Masking goes by the name of the result column: a result none of whose
    column names has a rule leaves the proxy as it came, also when its values
    come from a listed column under another name ("SELECT email AS contact"). *)
Theorem unlisted_columns_raw p rr :
  Forall (fits (rr_fields rr)) (rr_rows rr) ->
  Forall (fun fd => ActionFor p (fd_Name fd) = ActionNone) (rr_fields rr) ->
  masked p rr = Some (rr_rows rr).
Proof.
  intros Hf Hn. apply map_opt_Some_lookup. induction Hf as [|row rows Hrow _ IH]; [constructor|].
  constructor; [|done]. destruct (anonymizeRow_masks p _ _ Hrow) as (out & -> & Hl & Hout).
  f_equal. apply (list_eq_same_length _ _ (length row)); [done|done|].
  intros i x y Hi Hx Hy. destruct (lookup_lt_is_Some_2 (rr_fields rr) i) as [fd Hfd];
    [unfold fits in Hrow; lia|].
  rewrite (Hout i y fd Hy Hfd), (proj1 (Forall_lookup _ _) Hn i fd Hfd), AnonymizeValue_none in Hx.
  congruence.
Qed.
End Raw.

(** ** Errors of simple queries *)

Section SimpleErrors.
Context {U : Unicode} {W : Type} {R : Rand W} {A : Approver W} {RB : ReadBuffer W} {Up : Upstream W}.

(** A simple query that fails while its result is read is reported twice:
    the error ends the result, and closing the multi-result, which returns the
    same error, sends it again before ReadyForQuery. *)
Theorem simple_error_twice sql (s : St W) fds rows err w1 :
  isSchemaCommand (sess s) sql = false -> Classify sql <> KindMutation ->
  Forall (fits fds) rows ->
  up_Exec sql (world s) = (mkMulti [mkResult fds rows (inr err)] (Some err), w1) ->
  let error := EvSend (ErrorResponse (queryError err)) in
  handleSimpleQuery sql s =
    Ok tt (mkSt (sess s) w1 (trace s ++ [EvExec sql; error; error; EvSend (ReadyForQuery "I"); EvFlush])).
Proof.
  intros Hs Hk Hf He. cbv zeta. unfold handleSimpleQuery. rewrite run_get_session, Hs. cbv zeta.
  rewrite bool_decide_eq_false_2 by done. cbn [andb]. unfold runSimple, upstream_Exec. run.
  rewrite He. cbn [fst snd mrr_results mrr_close streamResults].
  destruct (masked_fits (s_policy (sess s)) (mkResult fds rows (inr err)) Hf) as [out Ho].
  unfold bind at 1. unfold bind at 1.
  rewrite (streamResult_masked _ _ _ _ (mkSt (sess s) w1 (trace s ++ [EvExec sql])) _ Ho).
  cbn [rr_close]. unfold sendQueryError, ready. run. by rewrite <- !app_assoc.
Qed.
End SimpleErrors.

(** ** The schema command *)

Section SchemaCommand.
Context {U : Unicode} {W : Type} {R : Rand W} {A : Approver W} {RB : ReadBuffer W} {Up : Upstream W}.

(** The row shown for a column: where the catalog has it, and the action of the
    connection's policy. *)
Definition annotated (p : Policy) (tbl_schema tbl column data_type : string) : list value :=
  [Some tbl_schema; Some tbl; Some column; Some data_type; Some (actionName (ActionFor p column))].

Definition catalog_columns : list string :=
  ["table_schema"; "table_name"; "column_name"; "data_type"; "ordinal_position"].

Lemma schemaRow_annotates p fds tbl_schema tbl column data_type pos :
  fd_Name <$> fds = catalog_columns ->
  schemaRow p (column_index fds) [Some tbl_schema; Some tbl; Some column; Some data_type; pos]
    = annotated p tbl_schema tbl column data_type.
Proof.
  intros H. destruct fds as [|f1 [|f2 [|f3 [|f4 [|f5 [|f6 fds]]]]]]; try discriminate H.
  destruct f1, f2, f3, f4, f5. cbn in H. injection H as -> -> -> -> ->. reflexivity.
Qed.

(** C40.  A simple query that calls the schema function is never sent upstream:
    the proxy runs its own catalog query instead and answers with five text
    columns, one row for each catalog row, annotated with the action the
    connection's policy has for that column, and one ReadyForQuery. *)
Theorem schema_command sql (s : St W) mrr w1 rr cols :
  isSchemaCommand (sess s) sql = true ->
  up_Exec introspectSQL (world s) = (mrr, w1) -> mrr_close mrr = None ->
  last (mrr_results mrr) = Some rr -> fd_Name <$> rr_fields rr = catalog_columns ->
  rr_rows rr = (fun '(sch, tbl, col, ty, pos) => [Some sch; Some tbl; Some col; Some ty; pos]) <$> cols ->
  handleSimpleQuery sql s =
    Ok tt (mkSt (sess s) w1 (trace s ++ EvExec introspectSQL :: EvSend schemaRowDescription ::
      ((fun '(sch, tbl, col, ty, _) => EvSend (DataRow (annotated (s_policy (sess s)) sch tbl col ty))) <$> cols)
      ++ [EvSend (CommandComplete (select_tag (rr_rows rr))); EvSend (ReadyForQuery "I"); EvFlush])).
Proof.
  intros Hs He Hc Hl Hf Hr. unfold handleSimpleQuery. rewrite run_get_session, Hs.
  unfold handleSchemaSimple, schemaRows, upstream_Exec, ready, ReadAll. run. rewrite He. cbn [fst snd].
  rewrite Hc, Hl. run. rewrite run_for_each_send. run.
  assert (E : schemaRow (s_policy (sess s)) (column_index (rr_fields rr)) <$> rr_rows rr
    = (fun '(sch, tbl, col, ty, _) => annotated (s_policy (sess s)) sch tbl col ty) <$> cols).
  { rewrite Hr, <- list_fmap_compose. apply list_fmap_ext. intros _ [[[[sch tbl] col] ty] pos] _.
    by apply schemaRow_annotates. }
  rewrite E. unfold select_tag. rewrite !length_fmap. rewrite Hr, length_fmap.
  rewrite <- list_fmap_compose. f_equal. f_equal. rewrite <- !app_assoc. cbn [app]. do 3 f_equal.
  f_equal. apply list_fmap_ext. by intros _ [[[[sch tbl] col] ty] pos] _.
Qed.
End SchemaCommand.

(** ** The theorems at concrete inputs *)

Lemma users_fit : Forall (fits (rr_fields users_result)) (rr_rows users_result).
Proof. apply (bool_decide_unpack _). vm_compute. exact I. Defined.

Lemma masked_cells_witness :
  Forall (fits (rr_fields users_result)) (rr_rows users_result) /\
  exists rows, masked users_policy users_result = Some rows /\ length rows = 3 /\
    forall i row out, users_rows !! i = Some row -> rows !! i = Some out ->
      length out = length row /\
      forall j v fd, row !! j = Some v -> users_fields !! j = Some fd ->
        out !! j = Some (AnonymizeValue users_policy (ActionFor users_policy (fd_Name fd)) (fd_DataTypeOID fd) v).
Proof. split; [exact users_fit|exact (masked_cells users_policy users_result users_fit)]. Defined.

Lemma row_limit_witness :
  (0 < maxRows users_policy)%Z /\
  metered 2 (trace (final (loop (A := denying) [Query "SELECT * FROM users"; Query "pgproxy_schema()"] start))).
Proof.
  split; [reflexivity|].
  exact (row_limit (A := denying) users_policy "main" "db @ host:5432" "10.0.0.5:54321" "pgproxy_schema"
           [Query "SELECT * FROM users"; Query "pgproxy_schema()"] tt eq_refl).
Defined.

(** The read of three rows is denied; the two rows of the catalog are sent. *)
Example limited_rows :
  omap (fun e => match e with EvSend (DataRow row) => row !! 2 | _ => None end)
    (trace (final (loop (A := denying) [Query "SELECT * FROM users"; Query "pgproxy_schema()"] start)))
  = [Some "id"; Some "email"].
Proof. vm_compute. reflexivity. Qed.

Lemma streamResult_cases_witness :
  Forall (fits (rr_fields users_result)) (rr_rows users_result) /\
  exists rows, masked users_policy users_result = Some rows /\
    streamResult (A := denying) users_result true KindRead "TABLE users" start =
      Ok true (mkSt fresh tt
        [EvApprove (large_read_request fresh "req-0000000000000000" KindRead "TABLE users" 3) auto_deny;
         EvSend (ErrorResponse (mkError "ERROR" "53400" (large_read_denied (length rows) 2 "auto_deny") "" ""))]).
Proof.
  split; [exact users_fit|].
  destruct (streamResult_cases (A := denying) users_result true KindRead "TABLE users" start users_fit)
    as (rows & Hrows & E).
  exists rows. split; [exact Hrows|]. rewrite E. revert Hrows. vm_compute. intros [= <-]. reflexivity.
Defined.

Definition aliased : ResultReader :=
  mkResult [mkField "contact" 0 0 25 (-1) (-1) 0] [[Some "ann@x.org"]] (inl "SELECT 1").

Lemma unlisted_columns_raw_witness :
  Forall (fits (rr_fields aliased)) (rr_rows aliased) /\
  masked users_policy aliased = Some [[Some "ann@x.org"]].
Proof.
  assert (H : Forall (fits (rr_fields aliased)) (rr_rows aliased))
    by (apply (bool_decide_unpack _); vm_compute; exact I).
  split; [exact H|]. apply (unlisted_columns_raw users_policy aliased H).
  apply (bool_decide_unpack _). vm_compute. exact I.
Defined.

Definition catalog_rows : list (string * string * string * string * value) :=
  [("public", "users", "id", "integer", Some "1"); ("public", "users", "email", "text", Some "2")].

Lemma schema_command_witness :
  isSchemaCommand fresh "select PGPROXY_schema()" = true /\
  handleSimpleQuery (A := denying) "select PGPROXY_schema()" start =
    Ok tt (mkSt fresh tt ([EvExec introspectSQL; EvSend schemaRowDescription;
      EvSend (DataRow [Some "public"; Some "users"; Some "id"; Some "integer"; Some ""]);
      EvSend (DataRow [Some "public"; Some "users"; Some "email"; Some "text"; Some "hash"]);
      EvSend (CommandComplete "SELECT 2"); EvSend (ReadyForQuery "I"); EvFlush])).
Proof.
  split; [vm_compute; reflexivity|].
  assert (Hs : isSchemaCommand (sess start) "select PGPROXY_schema()" = true) by (vm_compute; reflexivity).
  rewrite (schema_command (A := denying) "select PGPROXY_schema()" start (mkMulti [schema_result] None) tt
    schema_result catalog_rows Hs); vm_compute; reflexivity.
Defined.

#[local] Instance failing_upstream : Upstream unit := {|
  up_Exec sql w :=
    (mkMulti [mkResult users_fields [[Some "1"; Some "ann@x.org"]] (inr (PgError "22012" "division by zero" "" ""))]
       (Some (PgError "22012" "division by zero" "" "")), w);
  up_ExecParams sql ps oids pf rf w := (users_result, w);
  up_Prepare name sql oids w := (inl (mkStmtDesc [] []), w)
|}.

Lemma simple_error_twice_witness :
  isSchemaCommand fresh "SELECT id, email FROM users WHERE 1/n = 1" = false /\
  handleSimpleQuery (A := denying) (Up := failing_upstream) "SELECT id, email FROM users WHERE 1/n = 1" start =
    Ok tt (mkSt fresh tt [EvExec "SELECT id, email FROM users WHERE 1/n = 1";
      EvSend (ErrorResponse (mkError "ERROR" "22012" "division by zero" "" ""));
      EvSend (ErrorResponse (mkError "ERROR" "22012" "division by zero" "" ""));
      EvSend (ReadyForQuery "I"); EvFlush]).
Proof.
  split; [vm_compute; reflexivity|].
  apply (simple_error_twice (A := denying) (Up := failing_upstream) "SELECT id, email FROM users WHERE 1/n = 1"
    start users_fields [[Some "1"; Some "ann@x.org"]] (PgError "22012" "division by zero" "" "") tt).
  - vm_compute. reflexivity.
  - vm_compute. discriminate.
  - apply (bool_decide_unpack _). vm_compute. exact I.
  - reflexivity.
Defined.
