(* ===== verification/Batch.v ===== *)
(** * Batches of the extended protocol (internal/proxy/extended.go, session.go)

    The reply discipline of a session: what a failed batch skips, how many
    errors a batch gets, when ReadyForQuery is sent, that no handler panics when
    the upstream's results are well formed, and what a Parse/Bind/Execute
    pipeline asks of the upstream. *)

From S2P Require Import Prelude GoStrings Sha256 Classify Policy Approval Proto Session Scenario Gate Privacy Results.

(** The messages a failed batch skips. *)
Definition skippable (m : FrontendMessage) : bool :=
  match m with
  | Parse _ _ _ | Bind _ _ _ _ _ | Describe _ _ | Execute _ _ | Close _ _ => true
  | _ => false
  end.

(** ** One error per batch, as a monitor on the sent messages *)

(** [quiet]: an error was sent since the last ReadyForQuery. *)
Definition quiet_step (q : bool) (e : event) : bool :=
  match e with
  | EvSend (ErrorResponse _) => true
  | EvSend (ReadyForQuery _) => false
  | _ => q
  end.
Definition quiet (t : list event) : bool := foldl quiet_step false t.

(** While quiet, nothing is sent but ReadyForQuery, and nothing is executed. *)
Definition allowed_when_quiet (e : event) : bool :=
  match e with
  | EvSend (ReadyForQuery _) | EvFlush => true
  | _ => false
  end.
Definition disciplined (t : list event) : Prop :=
  forall t1 e t2, t = t1 ++ e :: t2 -> quiet t1 = true -> allowed_when_quiet e = true.

Lemma quiet_snoc t e : quiet (t ++ [e]) = quiet_step (quiet t) e.
Proof. unfold quiet. by rewrite foldl_app. Qed.

Lemma disciplined_snoc t e :
  disciplined t -> (quiet t = true -> allowed_when_quiet e = true) -> disciplined (t ++ [e]).
Proof.
  intros Ht He t1 e' t2 E Hq. destruct t2 as [|e2 t2 _] using rev_ind.
  - apply app_inj_tail in E as [-> ->]. auto.
  - rewrite app_comm_cons, app_assoc in E. apply app_inj_tail in E as [E _]. by apply (Ht t1 e' t2).
Qed.

Section Batch.
Context {U : Unicode} {W : Type} {R : Rand W} {A : Approver W} {RB : ReadBuffer W} {Up : Upstream W}.

(** ** What a failed batch skips *)

Lemma dispatch_skips m (s : St W) :
  skippable m = true -> batchFailed (sess s) = true -> dispatch m s = Ok tt s.
Proof.
  intros Hm Hb. destruct m; try done; cbn [dispatch];
    unfold handleParse, handleBind, handleDescribe, handleExecute, handleClose, unlessFailed;
    by rewrite run_get_session, Hb.
Qed.

(** After an error the messages of the batch are skipped up to the next
    Sync: no state changes, nothing is sent or executed; Sync clears the
    failure, reports ReadyForQuery and flushes, and the session goes on. *)
Theorem failed_batch_skipped msgs rest (s : St W) :
  Forall (fun m => skippable m = true) msgs -> batchFailed (sess s) = true ->
  loop (msgs ++ Sync :: rest) s =
    loop rest (mkSt (set_batchFailed false (sess s)) (world s)
                 (trace s ++ [EvSend (ReadyForQuery "I"); EvFlush])).
Proof.
  intros Hm Hb. induction Hm as [|m msgs Hm _ IH].
  - cbn [app loop dispatch]. run. by rewrite <- app_assoc.
  - assert (E : loop (m :: (msgs ++ Sync :: rest)) s = loop (msgs ++ Sync :: rest) s).
    { destruct m; try done; cbn [loop]; unfold bind at 1; by rewrite dispatch_skips. }
    cbn [app]. by rewrite E.
Qed.

(** ** At most one error per batch *)

(** The batch is marked as failed exactly when an error was sent in it. *)
Definition batch_inv (s : St W) : Prop :=
  disciplined (trace s) /\ quiet (trace s) = batchFailed (sess s).

(** In the middle of a handler of a batch that has not failed. *)
Definition healthy (s : St W) : Prop :=
  disciplined (trace s) /\ quiet (trace s) = false /\ batchFailed (sess s) = false.

(** An error has been sent and the batch is about to be marked. *)
Definition failing (s : St W) : Prop :=
  disciplined (trace s) /\ quiet (trace s) = true /\ batchFailed (sess s) = false.

Definition calm (e : event) : Prop := forall q, quiet_step q e = q.

Lemma emit_healthy e : calm e -> preserves healthy (emit (W := W) e).
Proof.
  intros He s (Hd & Hq & Hb). apply wp_modify. split_and!; cbn [sess trace]; [|by rewrite quiet_snoc, He|done].
  apply disciplined_snoc; [done|congruence].
Qed.

Lemma env_healthy {B} (f : W -> B * W) : preserves healthy (env f).
Proof. intros s H. unfold wp, env. destruct (f (world s)). apply H. Qed.

Lemma set_session_healthy f :
  (forall s, batchFailed (f s) = batchFailed s) -> preserves healthy (set_session (W := W) f).
Proof. intros Hf s (Hd & Hq & Hb). apply wp_modify. split_and!; cbn; [done..|by rewrite Hf]. Qed.

Lemma set_statements_healthy f : preserves healthy (set_session (W := W) (set_statements f)).
Proof. by apply set_session_healthy. Qed.
Lemma set_portals_healthy f : preserves healthy (set_session (W := W) (set_portals f)).
Proof. by apply set_session_healthy. Qed.
Lemma get_session_healthy : preserves healthy (get_session (W := W)).
Proof. by intros s H. Qed.

Lemma send_error_failing e s :
  healthy s -> wp (send (W := W) (ErrorResponse e)) (fun _ => failing) batch_inv s.
Proof.
  intros (Hd & Hq & Hb). apply wp_modify. split_and!; cbn [sess trace]; [|by rewrite quiet_snoc|done].
  apply disciplined_snoc; [done|congruence].
Qed.

Lemma mark_failed s : failing s -> wp (set_session (W := W) (set_batchFailed true)) (fun _ => batch_inv) batch_inv s.
Proof. intros (Hd & Hq & Hb). by apply wp_modify. Qed.

Lemma healthy_batch s : healthy s -> batch_inv s.
Proof. intros (Hd & Hq & Hb). split; [done|congruence]. Qed.

(** [keeps m]: started in a healthy batch, [m] ends with the mark in agreement. *)
Definition keeps {B} (m : M (St W) B) : Prop :=
  forall s, healthy s -> wp m (fun _ => batch_inv) batch_inv s.

Lemma keeps_bind {B C} (m : M (St W) B) (k : B -> M (St W) C) :
  preserves healthy m -> (forall b, keeps (k b)) -> keeps (bind m k).
Proof.
  intros Hm Hk s Hs. apply wp_bind. eapply wp_mono; [by apply Hm| |apply healthy_batch].
  intros b s' Hs'. by apply Hk.
Qed.

Lemma keeps_preserves {B} (m : M (St W) B) : preserves healthy m -> keeps m.
Proof.
  intros Hm s Hs. eapply wp_mono; [by apply Hm|intros b s'|]; apply healthy_batch.
Qed.

Lemma keeps_fail e : keeps (send (W := W) (ErrorResponse e) ;; set_session (set_batchFailed true)).
Proof.
  intros s Hs. apply wp_bind. eapply wp_mono; [by apply send_error_failing| |done].
  intros u s' Hs'. by apply mark_failed.
Qed.

#[local] Hint Resolve env_healthy set_statements_healthy set_portals_healthy get_session_healthy : go.
#[local] Hint Extern 1 (preserves healthy (emit _)) => apply emit_healthy; intros ?; done : go.
#[local] Hint Extern 1 (preserves healthy (send _)) => apply emit_healthy; intros ?; done : go.

Lemma approve_healthy req : preserves healthy (approve req).
Proof. unfold approve. go_preserves. Qed.
#[local] Hint Resolve approve_healthy : go.

(** A Go function that reports through its result whether it sent an error. *)
Definition reports (m : M (St W) bool) (on_error : bool) : Prop :=
  forall s, healthy s ->
  wp m (fun b s' => if Bool.eqb b on_error then failing s' else healthy s') batch_inv s.

Lemma reports_bind {B} (m : M (St W) B) k e :
  preserves healthy m -> (forall b, reports (k b) e) -> reports (bind m k) e.
Proof.
  intros Hm Hk s Hs. apply wp_bind. eapply wp_mono; [by apply Hm| |apply healthy_batch].
  intros b s' Hs'. by apply Hk.
Qed.

Lemma reports_error e b : reports (send (ErrorResponse e) ;; ret b) b.
Proof.
  intros s Hs. apply wp_bind. eapply wp_mono; [by apply send_error_failing| |done].
  intros u s' Hs'. apply wp_ret. by rewrite eqb_reflx.
Qed.

Lemma reports_ret b : reports (ret (negb b)) b.
Proof. intros s Hs. apply wp_ret. by destruct b. Qed.

Lemma reports_panic e : reports panic e.
Proof. intros s Hs. by apply wp_panic, healthy_batch. Qed.

Lemma limitDenied_reports rows k q : reports (limitDenied rows k q) true.
Proof.
  unfold limitDenied. apply reports_bind; [go_preserves|intros s]. cbv zeta.
  destruct (bool_decide _ && _); [|apply (reports_ret true)].
  do 2 (apply reports_bind; [unfold newRequestID; go_preserves|intros ?]).
  destruct (negb _); [apply reports_error|apply (reports_ret true)].
Qed.

Lemma streamResult_reports rr b k q : reports (streamResult rr b k q) true.
Proof.
  unfold streamResult. apply reports_bind; [go_preserves|intros s].
  destruct (map_opt _ _) as [rows|]; [|apply reports_panic].
  destruct (rr_close rr) as [tag|err]; [|apply reports_error]. intros s' Hs. apply wp_bind.
  eapply wp_mono; [by apply limitDenied_reports| |done]. intros [] s2 H2; [by apply wp_ret|].
  revert s2 H2. change (reports ((if b && bool_decide (0 < length (rr_fields rr))
    then send (RowDescription (rowDescription (rr_fields rr))) else ret tt) ;;
    for_each rows (fun row => send (DataRow row)) ;; send (CommandComplete tag) ;; ret false) true).
  repeat (apply reports_bind; [go_preserves|intros ?]). apply (reports_ret true).
Qed.

Lemma approveMutation_reports k sql : reports (approveMutation k sql) false.
Proof.
  unfold approveMutation. repeat (apply reports_bind; [unfold newRequestID; go_preserves|intros ?]).
  destruct (negb _); [apply reports_error|apply (reports_ret false)].
Qed.

Lemma schemaRows_healthy : preserves healthy schemaRows.
Proof. unfold schemaRows, upstream_Exec. go_preserves. Qed.

Lemma executeSchema_keeps : keeps executeSchema.
Proof.
  unfold executeSchema. apply keeps_bind; [apply schemaRows_healthy|]. intros [rows|err].
  - apply keeps_preserves. go_preserves.
  - apply keeps_fail.
Qed.

Lemma ensureFields_healthy name st : preserves healthy (ensureFields name st).
Proof. unfold ensureFields, upstream_Prepare. go_preserves. Qed.

Lemma handleDescribe_keeps name : keeps (describeStatement name) /\ keeps (describePortal name).
Proof.
  unfold describeStatement, describePortal, failBatch, sendError, sendQueryError.
  split; (apply keeps_bind; [go_preserves|intros s]); repeat case_match;
    first [apply keeps_fail | apply keeps_preserves; go_preserves; fail
          | apply keeps_bind; [apply ensureFields_healthy|intros [st'|err]];
            [apply keeps_preserves; go_preserves|apply keeps_fail]].
Qed.

Lemma runPortal_keeps st por : keeps (runPortal st por).
Proof.
  unfold runPortal, upstream_ExecParams. apply keeps_bind; [go_preserves|intros ps].
  apply keeps_bind; [go_preserves|intros rr].
  intros s Hs. apply wp_bind. eapply wp_mono; [by apply streamResult_reports| |done].
  intros [] s' Hs'; [by apply mark_failed|by apply wp_ret, healthy_batch].
Qed.

Lemma handleExecute_keeps name :
  keeps (s <- get_session ;;
    match portals s !! name with
    | None => failBatch "34000" ("unknown portal " +:+ name)
    | Some por =>
        match statements s !! po_stmt por with
        | None => failBatch "26000" ("unknown prepared statement " +:+ po_stmt por)
        | Some st =>
            if ps_isSchema st then executeSchema
            else if bool_decide (ps_kind st = KindMutation) && gateMutations (s_policy s) then
              ok <- approveMutation (ps_kind st) (ps_query st) ;;
              if negb ok then set_session (set_batchFailed true) else runPortal st por
            else runPortal st por
        end
    end).
Proof.
  apply keeps_bind; [go_preserves|intros s]. unfold failBatch, sendError. repeat case_match;
    auto using keeps_fail, executeSchema_keeps, runPortal_keeps.
  intros s' Hs'. apply wp_bind. eapply wp_mono; [by apply approveMutation_reports| |done].
  intros [] s2 Hs2; [by apply runPortal_keeps|by apply mark_failed].
Qed.

Lemma unlessFailed_batch m : keeps m -> preserves batch_inv (unlessFailed (W := W) m).
Proof.
  intros Hm s [Hd Hq]. unfold unlessFailed, wp. rewrite run_get_session.
  destruct (batchFailed (sess s)) eqn:E; [by split; [|cbn; congruence]|]. apply Hm. by split_and!.
Qed.

(** A message of the extended protocol, or Terminate. *)
Definition extended (m : FrontendMessage) : bool := match m with Query _ => false | _ => true end.

Lemma dispatch_batch m : extended m = true -> preserves batch_inv (dispatch m).
Proof.
  destruct m; intros Hm; try done; cbn [dispatch]; try apply preserves_ret; try apply unlessFailed_batch.
  - apply keeps_preserves. go_preserves.
  - apply keeps_preserves. go_preserves.
  - repeat case_bool_decide; [apply handleDescribe_keeps..|by apply keeps_preserves, preserves_ret].
  - apply handleExecute_keeps.
  - intros s [Hd Hq]. unfold wp. run. split; cbn [sess trace].
    + apply disciplined_snoc; [by apply disciplined_snoc|done].
    + by rewrite !quiet_snoc.
  - apply keeps_preserves. go_preserves.
  - intros s [Hd Hq]. apply wp_modify. split; cbn [sess trace]; [by apply disciplined_snoc|].
    by rewrite quiet_snoc.
Qed.

Lemma loop_batch msgs : Forall (fun m => extended m = true) msgs -> preserves batch_inv (loop msgs).
Proof.
  induction 1 as [|m msgs Hm _ IH]; [apply preserves_ret|].
  destruct m; cbn [loop]; try (by apply preserves_bind; [apply dispatch_batch|]); apply preserves_ret.
Qed.

(** C13.  In a session of the extended protocol a batch gets at most one error:
    from an ErrorResponse to the next ReadyForQuery no other message is sent,
    no statement is executed or prepared and no approval is requested. *)
Theorem one_error_per_batch p conn db client sf msgs (w : W) :
  Forall (fun m => extended m = true) msgs ->
  disciplined (trace (final (loop msgs (mkSt (established p conn db client sf) w [])))).
Proof.
  intros Hm. apply (preserves_final batch_inv); [by apply loop_batch|]. split; [|done].
  intros t1 e t2 E. by destruct t1.
Qed.
End Batch.

(** ** Well-formed upstreams: no handler panics *)

(** What the proxy relies on in the results of the upstream: a row has at most
    as many values as its result has columns, and a query that ends without an
    error has a result (the catalog query is one statement). *)
Class WellFormed (W : Type) {Up : Upstream W} : Prop := {
  wf_exec sql w : Forall (fun rr => Forall (fits (rr_fields rr)) (rr_rows rr)) (mrr_results (up_Exec sql w).1);
  wf_execParams sql ps oids pf rf w :
    let rr := (up_ExecParams sql ps oids pf rf w).1 in Forall (fits (rr_fields rr)) (rr_rows rr);
  wf_catalog w : mrr_close (up_Exec introspectSQL w).1 = None -> mrr_results (up_Exec introspectSQL w).1 <> []
}.

Section NoPanic.
Context {U : Unicode} {W : Type} {R : Rand W} {A : Approver W} {RB : ReadBuffer W} {Up : Upstream W}.

(** [m] returns from every state. *)
Definition total {B} (m : M (St W) B) : Prop := forall s, wp m (fun _ _ => True) (fun _ => False) s.

Lemma total_bind {B C} (m : M (St W) B) (k : B -> M (St W) C) :
  total m -> (forall b, total (k b)) -> total (bind m k).
Proof.
  intros Hm Hk s. apply wp_bind. eapply wp_mono; [apply Hm| |done]. intros b s' _. apply Hk.
Qed.

Lemma total_for_each {X} (xs : list X) body : (forall x, total (body x)) -> total (for_each xs body).
Proof. intros Hb. induction xs as [|x xs IH]; [done|]. by apply total_bind. Qed.

Lemma total_ret {B} (b : B) : total (ret b).
Proof. done. Qed.
Lemma total_emit e : total (emit e).
Proof. done. Qed.
Lemma total_send m : total (send m).
Proof. done. Qed.
Lemma total_flush : total flush.
Proof. done. Qed.
Lemma total_get_session : total get_session.
Proof. done. Qed.
Lemma total_set_session f : total (set_session f).
Proof. done. Qed.
Lemma total_env {B} (f : W -> B * W) : total (env f).
Proof. intros s. unfold wp, env. by destruct (f (world s)). Qed.

(** The answer of the environment is one it can give. *)
Lemma total_env_bind {B C} (f : W -> B * W) (k : B -> M (St W) C) :
  (forall w, total (k (f w).1)) -> total (bind (env f) k).
Proof. intros Hk s. unfold wp. rewrite run_env. apply Hk. Qed.

#[local] Hint Resolve total_ret total_emit total_send total_flush total_get_session total_set_session
  total_env : go.

Ltac go_total :=
  repeat match goal with
  | |- total (bind _ _) => apply total_bind; [|intros ?]
  | |- total (for_each _ _) => apply total_for_each; intros ?
  | |- total (match ?x with _ => _ end) => destruct x eqn:?
  | |- total _ => solve [eauto with go]
  end.

Context {WF : WellFormed W}.

Lemma limitDenied_total rows k q : total (limitDenied rows k q).
Proof. unfold limitDenied, newRequestID, approve, sendError. go_total. Qed.
#[local] Hint Resolve limitDenied_total : go.

Lemma streamResult_total rr b k q :
  Forall (fits (rr_fields rr)) (rr_rows rr) -> total (streamResult rr b k q).
Proof.
  intros Hf. unfold streamResult. apply total_bind; [go_total|intros s].
  destruct (masked_fits (s_policy s) rr Hf) as [rows Hr]. unfold masked in Hr. rewrite Hr.
  unfold sendQueryError. go_total.
Qed.

Lemma streamResults_total rrs k q :
  Forall (fun rr => Forall (fits (rr_fields rr)) (rr_rows rr)) rrs -> total (streamResults rrs k q).
Proof.
  induction 1 as [|rr rrs Hr _ IH]; [done|]. cbn [streamResults].
  apply total_bind; [by apply streamResult_total|]. intros []; [done|apply IH].
Qed.

Lemma runSimple_total k sql : total (runSimple k sql).
Proof.
  unfold runSimple, upstream_Exec. intros s. unfold wp. rewrite run_bind_bind, run_emit. revert s.
  match goal with |- forall s, match bind ?m ?k _ with _ => _ end =>
    enough (H : total (bind m k)) by (intros s; apply (H (mkSt _ _ _))) end.
  apply total_env_bind. intros w. apply total_bind; [apply streamResults_total, wf_exec|intros _].
  unfold sendQueryError, ready. go_total.
Qed.

Lemma schemaRows_total : total schemaRows.
Proof.
  unfold schemaRows, upstream_Exec. intros s. unfold wp. rewrite run_bind_bind, run_emit. revert s.
  match goal with |- forall s, match bind ?m ?k _ with _ => _ end =>
    enough (H : total (bind m k)) by (intros s; apply (H (mkSt _ _ _))) end.
  apply total_env_bind. intros w. pose proof (wf_catalog w) as Hw. unfold ReadAll.
  destruct (mrr_close _); [done|]. destruct (last _) eqn:E; [go_total|].
  apply last_None in E. by destruct (Hw eq_refl).
Qed.
#[local] Hint Resolve runSimple_total schemaRows_total : go.

Lemma runPortal_total st por : total (runPortal st por).
Proof.
  unfold runPortal, upstream_ExecParams. apply total_bind; [by intros s; apply wp_read_params|intros ps].
  intros s. unfold wp. rewrite run_bind_bind, run_emit. revert s.
  match goal with |- forall s, match bind ?m ?k _ with _ => _ end =>
    enough (H : total (bind m k)) by (intros s; apply (H (mkSt _ _ _))) end.
  apply total_env_bind. intros w. apply total_bind; [apply streamResult_total, wf_execParams|].
  intros []; go_total.
Qed.
#[local] Hint Resolve runPortal_total : go.

Lemma dispatch_total m : total (dispatch m).
Proof.
  destruct m; cbn [dispatch];
    unfold handleSimpleQuery, handleSchemaSimple, handleParse, handleBind, handleDescribe,
      describeStatement, describePortal, ensureFields, upstream_Prepare, handleExecute, executeSchema,
      handleClose, unlessFailed, approveMutation, newRequestID, approve, failBatch, sendError,
      sendQueryError, ready; go_total.
Qed.

Lemma loop_total msgs : total (loop msgs).
Proof.
  induction msgs as [|m msgs IH]; [done|].
  destruct m; cbn [loop]; try (by apply total_bind; [apply dispatch_total|]). done.
Qed.

(** ** One ReadyForQuery per request *)

Definition ready_event (e : event) : bool :=
  match e with EvSend m => is_ready m | _ => false end.
Definition readies (t : list event) : nat := length (filter (fun e => ready_event e = true) t).

Lemma readies_app t1 t2 : readies (t1 ++ t2) = readies t1 + readies t2.
Proof. unfold readies. by rewrite filter_app, length_app. Qed.

Lemma readies_ready c : readies [EvSend (ReadyForQuery c)] = 1.
Proof. done. Qed.
Lemma readies_flush : readies [EvFlush] = 0.
Proof. done. Qed.

Lemma readies_none t : Forall (fun e => ready_event e = false) t -> readies t = 0.
Proof.
  induction 1 as [|e t He _ IH]; [done|]. unfold readies. rewrite filter_cons_False; [done|congruence].
Qed.

(** The messages before Terminate that end with ReadyForQuery. *)
Fixpoint requests (msgs : list FrontendMessage) : nat :=
  match msgs with
  | [] => 0
  | Terminate :: _ => 0
  | Query _ :: msgs' | Sync :: msgs' => S (requests msgs')
  | _ :: msgs' => requests msgs'
  end.

Lemma silent_readies {B} (m : M (St W) B) s :
  preserves (events_ok (fun e => ready_event e = false) (trace s)) m ->
  readies (trace (final (m s))) = readies (trace s).
Proof.
  intros Hm. destruct (preserves_final _ m s Hm) as (rest & -> & Hr); [by exists []; rewrite app_nil_r|].
  rewrite readies_app, (readies_none rest) by done. lia.
Qed.

Lemma dispatch_readies m s :
  readies (trace (final (dispatch m s))) =
    (match m with Query _ | Sync => 1 | _ => 0 end) + readies (trace s).
Proof.
  destruct m; try (by apply silent_readies, other_events).
  - cbn [dispatch]. rewrite handleSimpleQuery_body. unfold bind.
    pose proof (silent_readies (simpleBody sql) s) as H.
    specialize (H ltac:(by apply simpleBody_events)).
    pose proof (dispatch_total (Query sql) s) as Ht. unfold wp in Ht. cbn [dispatch] in Ht.
    rewrite handleSimpleQuery_body in Ht. unfold bind in Ht.
    destruct (simpleBody sql s) as [[] s'|s']; [|done]. cbn [final] in H.
    unfold ready. rewrite run_send, end_flush. cbn [final trace].
    rewrite !readies_app, H, readies_ready, readies_flush. lia.
  - cbn [dispatch]. run. cbn [final trace]. rewrite !readies_app, readies_ready, readies_flush. lia.
Qed.

(** C14.  Over a well-formed upstream no message makes a session panic: the loop
    returns for every sequence of messages, and the client has received exactly
    one ReadyForQuery for each Query and each Sync up to Terminate. *)
Theorem one_ready_per_request msgs (s : St W) :
  exists s', loop msgs s = Ok tt s' /\ readies (trace s') = requests msgs + readies (trace s).
Proof.
  revert s. induction msgs as [|m msgs IH]; intros s; [by exists s|].
  assert (Hd : match m with Terminate => False | _ => True end ->
    exists s1, dispatch m s = Ok tt s1 /\ readies (trace s1) =
      (match m with Query _ | Sync => 1 | _ => 0 end) + readies (trace s)).
  { intros _. pose proof (dispatch_total m s) as Ht. pose proof (dispatch_readies m s) as Hr.
    unfold wp in Ht. destruct (dispatch m s) as [[] s1|s1]; [by exists s1|done]. }
  destruct m; try (destruct (Hd I) as (s1 & E & Hr); destruct (IH s1) as (s' & E' & Hr');
    exists s'; cbn [loop requests]; unfold bind; rewrite E; (split; [done|lia])).
  by exists s.
Qed.
End NoPanic.

(** ** Prepared statements *)

Section Statements.
Context {U : Unicode} {W : Type} {R : Rand W} {A : Approver W} {RB : ReadBuffer W} {Up : Upstream W}.

(** The answer to Describe for a statement whose fields are known. *)
Definition statement_answer (st : preparedStmt) : list event :=
  [EvSend (ParameterDescription (ps_paramOIDs st));
   EvSend (match ps_fields st with [] => NoData | fds => RowDescription (rowDescription fds) end)].

Lemma describe_described name st (s : St W) :
  statements (sess s) !! name = Some st -> ps_isSchema st = false -> ps_described st = true ->
  describeStatement name s = Ok tt (mkSt (sess s) (world s) (trace s ++ statement_answer st)).
Proof.
  intros Hst Hi Hd. unfold describeStatement, ensureFields. rewrite run_get_session, Hst, Hi, Hd. run.
  unfold statement_answer. destruct (ps_fields st); run; by rewrite <- app_assoc.
Qed.

(** A statement is prepared upstream at most once: a Describe that
    succeeds asks the upstream only if the statement was not described yet, and
    every further Describe of it gives the same answer from the session, without
    the upstream. *)
Theorem describe_caches name st (s s1 : St W) :
  batchFailed (sess s) = false -> statements (sess s) !! name = Some st -> ps_isSchema st = false ->
  dispatch (Describe "S" name) s = Ok tt s1 -> batchFailed (sess s1) = false ->
  exists st1, statements (sess s1) !! name = Some st1 /\ ps_described st1 = true /\
    ps_query st1 = ps_query st /\
    trace s1 = trace s
      ++ (if ps_described st then [] else [EvPrepare "" (ps_query st) (ps_paramOIDs st)])
      ++ statement_answer st1 /\
    dispatch (Describe "S" name) s1 = Ok tt (mkSt (sess s1) (world s1) (trace s1 ++ statement_answer st1)).
Proof.
  intros Hb Hst Hi. cbn [dispatch]. unfold handleDescribe, unlessFailed.
  rewrite run_get_session, Hb, bool_decide_eq_true_2 by done. intros E Hb1.
  assert (Hkey : exists st1, statements (sess s1) !! name = Some st1 /\ ps_described st1 = true /\
    ps_isSchema st1 = false /\ ps_query st1 = ps_query st /\ trace s1 = trace s
      ++ (if ps_described st then [] else [EvPrepare "" (ps_query st) (ps_paramOIDs st)])
      ++ statement_answer st1).
  { destruct (ps_described st) eqn:Ed.
    - rewrite (describe_described _ _ _ Hst Hi Ed) in E. injection E as <-. by exists st.
    - unfold describeStatement, ensureFields, upstream_Prepare in E. revert E.
      rewrite run_get_session, Hst, Hi, Ed. run.
      destruct (up_Prepare _ _ _ _) as [[sd|err] w]; run.
      + set (st1 := mkStmt _ _ _ _ _ _). intros E. exists st1.
        assert (E' : s1 = mkSt (set_statements (insert name st1) (sess s)) w
          ((trace s ++ [EvPrepare "" (ps_query st) (ps_paramOIDs st)]) ++ statement_answer st1)).
        { revert E. unfold statement_answer. subst st1. cbn [ps_fields ps_paramOIDs].
          destruct (sd_Fields sd); run; intros [= <-]; by rewrite <- (app_assoc _ [_] [_]). }
        subst s1. cbn [sess trace set_statements statements]. rewrite lookup_insert_eq, <- app_assoc. done.
      + intros [= <-]. done. }
  destruct Hkey as (st1 & H1 & H2 & H3 & H4 & H5). exists st1. split_and!; try done.
  rewrite run_get_session, Hb1. by apply describe_described.
Qed.

(** The session after Parse and Bind. *)
Definition bound (s : session) (name q : string) (oids : list Z) (pt : string) (pf : list Z)
    (ps : list value) (rf : list Z) : session :=
  set_portals (insert pt (mkPortal name pf ps rf))
    (set_statements (insert name (mkStmt q (Classify q) oids [] false (isSchemaCommand s q))) s).

(** C17.  A Parse/Bind/Execute/Sync pipeline, as the drivers send it: a statement
    that is not the schema command and needs no approval, and whose result is
    within the limit, runs upstream exactly once, with the text and the parameter
    types of Parse, the formats of Bind, and the parameters of Bind as the read
    buffer holds them when the portal is executed (the ones bound as long as nothing
    has overwritten them); the client gets the two completions, the masked rows
    without a row description, the tag and ReadyForQuery, flushed once. *)
Theorem pipeline name q oids pt pf ps rf max (s : St W) ps' w0 rr w1 rows tag :
  batchFailed (sess s) = false -> isSchemaCommand (sess s) q = false ->
  (Classify q = KindMutation -> gateMutations (s_policy (sess s)) = false) ->
  held_params ps (world s) = (ps', w0) -> up_ExecParams q ps' oids pf rf w0 = (rr, w1) ->
  masked (s_policy (sess s)) rr = Some rows -> rr_close rr = inl tag ->
  over_limit (s_policy (sess s)) rows = false ->
  loop [Parse name q oids; Bind pt name pf ps rf; Execute pt max; Sync] s =
    Ok tt (mkSt (bound (sess s) name q oids pt pf ps rf) w1
      (trace s ++ [EvSend ParseComplete; EvSend BindComplete; EvExecParams q ps' oids pf rf]
        ++ deliver false rr rows tag ++ [EvSend (ReadyForQuery "I"); EvFlush])).
Proof.
  intros Hb Hs Hg Hps Hup Hm Hc Ho. destruct s as [[pol cn db cl sf sts pos bf] w t].
  cbn [sess world trace batchFailed s_policy] in *. subst bf.
  cbn [loop dispatch]. unfold handleParse, handleBind, handleExecute, unlessFailed.
  repeat (progress run; cbn [batchFailed set_statements set_portals set_batchFailed portals statements s_policy]).
  rewrite lookup_insert_eq. cbn [po_stmt]. rewrite lookup_insert_eq.
  cbn [ps_isSchema ps_kind ps_query]. rewrite Hs.
  assert (E : bool_decide (Classify q = KindMutation) && gateMutations pol = false).
  { case_bool_decide; [by rewrite Hg|done]. }
  rewrite E. unfold runPortal, upstream_ExecParams. run. cbn [po_params]. rewrite Hps. cbn [fst snd]. cbn [ps_query po_params ps_paramOIDs po_paramFormats po_resultFormats]. rewrite Hup. cbn [fst snd].
  unfold bind at 1. rewrite (streamResult_delivers _ _ _ _ _ rows tag) by done. run.
  unfold bound. cbn [set_statements set_portals set_batchFailed]. by rewrite Hs, <- !app_assoc.
Qed.

(** A failed batch does not stop simple queries: after an error and before
    any Sync, a Query that needs no approval is sent to the upstream. *)
Theorem failed_batch_runs_query msgs sql (s : St W) :
  Forall (fun m => skippable m = true) msgs -> batchFailed (sess s) = true ->
  isSchemaCommand (sess s) sql = false -> Classify sql <> KindMutation ->
  executed_next sql s (final (loop (msgs ++ [Query sql]) s)).
Proof.
  intros Hm Hb Hs Hk. induction Hm as [|m msgs Hm _ IH].
  - cbn [app loop dispatch]. unfold handleSimpleQuery.
    assert (E : forall o : outcome (St W) unit, final (match o with Ok a s' => ret tt s' | Panic s' => Panic s' end)
      = final o) by by intros [[] ?|?].
    unfold bind at 1. rewrite E, run_get_session, Hs. cbv zeta. rewrite bool_decide_eq_false_2 by done.
    cbn [andb]. apply runSimple_first.
  - assert (E : loop ((m :: msgs) ++ [Query sql]) s = loop (msgs ++ [Query sql]) s); [|by rewrite E].
    destruct m; try done; cbn [app loop]; unfold bind at 1; by rewrite dispatch_skips.
Qed.
End Statements.

(** ** The theorems at concrete inputs *)

Module BatchWitnesses.
#[local] Existing Instance denying.

#[local] Instance users_wf : WellFormed unit.
Proof.
  split.
  - intros sql w. cbn. repeat case_bool_decide; repeat constructor; apply (bool_decide_unpack _); exact I.
  - intros. exact users_fit.
  - intros w _. discriminate.
Defined.

(** A session whose batch failed on an unknown portal. *)
Definition failed : St unit := final (loop [Execute "nowhere" 0] start).

Lemma failed_batch_skipped_witness :
  batchFailed (sess failed) = true /\
  loop ([Parse "s" "DELETE FROM users" []; Execute "p" 0] ++ [Sync]) failed =
    loop [] (mkSt (set_batchFailed false (sess failed)) tt
                 (trace failed ++ [EvSend (ReadyForQuery "I"); EvFlush])).
Proof.
  split; [reflexivity|].
  apply (failed_batch_skipped [Parse "s" "DELETE FROM users" []; Execute "p" 0] [] failed);
    [repeat constructor|reflexivity].
Defined.

Lemma one_error_per_batch_witness :
  Forall (fun m => extended m = true) [Execute "a" 0; Execute "b" 0; Sync] /\
  disciplined (trace (final (loop [Execute "a" 0; Execute "b" 0; Sync] start))).
Proof.
  assert (H : Forall (fun m => extended m = true) [Execute "a" 0; Execute "b" 0; Sync])
    by repeat constructor.
  split; [exact H|].
  exact (one_error_per_batch users_policy "main" "db @ host:5432" "10.0.0.5:54321" "pgproxy_schema"
           [Execute "a" 0; Execute "b" 0; Sync] tt H).
Defined.

Lemma one_ready_per_request_witness :
  requests [Query "TABLE users"; Sync; Query "SELECT bad"] = 3 /\
  exists s', loop [Query "TABLE users"; Sync; Query "SELECT bad"] start = Ok tt s' /\
    readies (trace s') = 3 + 0.
Proof.
  split; [reflexivity|].
  exact (one_ready_per_request [Query "TABLE users"; Sync; Query "SELECT bad"] start).
Defined.

(** A session with a prepared statement. *)
Definition parsed : St unit := final (loop [Parse "s" "SELECT * FROM users WHERE id = $1" []] start).
Definition parsed_stmt : preparedStmt :=
  mkStmt "SELECT * FROM users WHERE id = $1" KindRead [] [] false false.

Lemma describe_caches_witness :
  statements (sess parsed) !! "s" = Some parsed_stmt /\
  exists st1, statements (sess (final (dispatch (Describe "S" "s") parsed))) !! "s" = Some st1 /\
    ps_described st1 = true /\ ps_query st1 = ps_query parsed_stmt /\
    trace (final (dispatch (Describe "S" "s") parsed)) = trace parsed
      ++ [EvPrepare "" "SELECT * FROM users WHERE id = $1" []] ++ statement_answer st1 /\
    dispatch (Describe "S" "s") (final (dispatch (Describe "S" "s") parsed)) =
      Ok tt (mkSt (sess (final (dispatch (Describe "S" "s") parsed))) tt
               (trace (final (dispatch (Describe "S" "s") parsed)) ++ statement_answer st1)).
Proof.
  split; [vm_compute; reflexivity|].
  exact (describe_caches "s" parsed_stmt parsed (final (dispatch (Describe "S" "s") parsed))
    eq_refl ltac:(vm_compute; reflexivity) eq_refl ltac:(vm_compute; reflexivity) eq_refl).
Defined.

Definition small_policy : Policy := New [mkRule "Email" "users" "hash"] "salt" "" 0 true.
Definition small_start : St unit := mkSt (established small_policy "main" "db" "c" "pgproxy_schema") tt [].

Lemma pipeline_witness :
  Classify "SELECT * FROM users" = KindRead /\
  exists rows, masked small_policy users_result = Some rows /\
  loop [Parse "" "SELECT * FROM users" []; Bind "" "" [] [] []; Execute "" 0; Sync] small_start =
    Ok tt (mkSt (bound (sess small_start) "" "SELECT * FROM users" [] "" [] [] []) tt
      ([EvSend ParseComplete; EvSend BindComplete; EvExecParams "SELECT * FROM users" [] [] [] []]
        ++ deliver false users_result rows "SELECT 3" ++ [EvSend (ReadyForQuery "I"); EvFlush])).
Proof.
  split; [vm_compute; reflexivity|].
  destruct (masked small_policy users_result) as [rows|] eqn:E.
  - exists rows. split; [reflexivity|].
    apply (pipeline "" "SELECT * FROM users" [] "" [] [] [] 0 small_start [] tt users_result tt rows "SELECT 3");
      try reflexivity; [vm_compute; discriminate|exact E].
  - exfalso. revert E. vm_compute. discriminate.
Defined.

(** A read buffer that holds other bytes by the time the portal is executed: the
    statement runs with these. *)
Definition overwritten : ReadBuffer unit := fun bytes w => ("2", w).

Example parameters_overwritten :
  omap (fun e => match e with EvExecParams _ ps _ _ _ => Some ps | _ => None end)
    (trace (final (loop (RB := overwritten)
      [Parse "" "SELECT * FROM users WHERE id = $1" []; Bind "" "" [] [Some "1"] []; Flush; Execute "" 0; Sync] small_start)))
  = [[Some "2"]].
Proof. vm_compute. reflexivity. Qed.

Lemma failed_batch_runs_query_witness :
  batchFailed (sess failed) = true /\
  executed_next "SELECT 1" failed (final (loop ([Execute "p" 0] ++ [Query "SELECT 1"]) failed)).
Proof.
  split; [reflexivity|].
  apply (failed_batch_runs_query [Execute "p" 0] "SELECT 1" failed);
    [repeat constructor|reflexivity|vm_compute; reflexivity|vm_compute; discriminate].
Defined.
End BatchWitnesses.
