(* ===== verification/Protocol.v ===== *)
(** * The message flow of PostgreSQL, refined by the session (internal/proxy)

    An abstract server of the wire protocol: its state is the set of prepared
    statements, the portals with the statements they are bound to, and whether the
    current batch has failed; [answer] says which messages it may send back for a
    message of the client, the state it is in afterwards, and in what the answer
    deviates from PostgreSQL's flow: each rule computes its deviations from the
    situation, and without any it is a rule of the protocol.  A session refines
    the server: [view] forgets everything else of a session, and whatever the upstream
    and the approver do, what a session sends is what the abstract server may send.

    Left open or to the proxy: when names end other than by Close (PostgreSQL drops
    portals with their transaction, and the unnamed ones at a Query), and the
    transaction status of ReadyForQuery, which is always idle. *)

From S2P Require Import Prelude GoStrings Sha256 Classify Policy Approval Proto Session Scenario Gate Privacy Results Batch.

(** ** The abstract server *)

Record pstate : Type := mkP {
  p_stmts : gset string;
  p_portals : gmap string string;
  p_failed : bool
}.

Definition failed_state (p : pstate) : pstate := mkP (p_stmts p) (p_portals p) true.

(** The rows of a result with the tag at the end. *)
Definition rows_and_tag (rows : list (list value)) (tag : string) : list BackendMessage :=
  (DataRow <$> rows) ++ [CommandComplete tag].

(** One result of a simple query: its description, its rows and its tag. *)
Record qresult : Type := mkQ { q_desc : option (list FieldDescription); q_rows : list (list value); q_tag : string }.
Definition result_messages (r : qresult) : list BackendMessage :=
  match q_desc r with Some fds => [RowDescription fds] | None => [] end ++ rows_and_tag (q_rows r) (q_tag r).
Definition described (r : qresult) : bool := match q_desc r, q_rows r with None, _ :: _ => false | _, _ => true end.

(** In what an answer can deviate from PostgreSQL's flow. *)
Inductive deviation : Type :=
| QueryInFailedBatch   (* a Query after an error and before Sync is answered, not discarded *)
| SecondError          (* a Query is answered with two errors *)
| UndescribedRows      (* rows without columns come without a description *)
| EmptyQuery           (* neither a result nor an error, nor EmptyQueryResponse *)
| Redefinition         (* a name that exists is defined again *)
| UnknownStatement     (* Bind to a statement that does not exist *)
| RowLimitIgnored      (* Execute returns more rows than it was asked for *)
| UnknownKind          (* Describe or Close of neither a statement nor a portal *)
| Unanswered.          (* a message of another type *)

Definition unless (b : bool) (d : deviation) : list deviation := if b then [] else [d].

Definition query_deviations (p : pstate) (results : list qresult) (errs : list ErrorFields) : list deviation :=
  unless (negb (p_failed p)) QueryInFailedBatch ++ unless (forallb described results) UndescribedRows
  ++ unless (length errs <=? 1)%nat SecondError ++ match results, errs with [], [] => [EmptyQuery] | _, _ => [] end.

(** A name that can be defined: the unnamed one, or a new one. *)
Definition definable (name : string) (taken : bool) : bool := bool_decide (name = EmptyString) || negb taken.

Definition is_description (d : BackendMessage) : Prop := d = NoData \/ exists fds, fds <> [] /\ d = RowDescription fds.

(** The error code for a statement or portal that the message names and the state
    does not have. *)
Definition missing_statement (p : pstate) (name : string) : option string :=
  if bool_decide (name ∈ p_stmts p) then None else Some "26000".
Definition missing_portal (p : pstate) (name : string) : option string :=
  match p_portals p !! name with None => Some "34000" | Some stmt => missing_statement p stmt end.
Definition missing (p : pstate) (m : FrontendMessage) : option string :=
  match m with
  | Describe t name =>
      if bool_decide (t = "S"%char) then missing_statement p name
      else if bool_decide (t = "P"%char) then missing_portal p name else None
  | Execute name _ => missing_portal p name
  | _ => None
  end.

(** The messages whose processing can fail. *)
Definition can_fail (m : FrontendMessage) : Prop :=
  match m with Describe t _ => t = "S"%char \/ t = "P"%char | Execute _ _ => True | _ => False end.

Inductive answer (p : pstate) : FrontendMessage -> list deviation -> list BackendMessage -> pstate -> Prop :=
| answer_skipped m : p_failed p = true -> skippable m = true -> answer p m [] [] p
| answer_parse name query oids : p_failed p = false ->
    answer p (Parse name query oids) (unless (definable name (bool_decide (name ∈ p_stmts p))) Redefinition)
      [ParseComplete] (mkP ({[ name ]} ∪ p_stmts p) (p_portals p) false)
| answer_bind dst stmt pf params rf : p_failed p = false ->
    answer p (Bind dst stmt pf params rf)
      (unless (bool_decide (stmt ∈ p_stmts p)) UnknownStatement
       ++ unless (definable dst (bool_decide (is_Some (p_portals p !! dst)))) Redefinition)
      [BindComplete] (mkP (p_stmts p) (<[ dst := stmt ]> (p_portals p)) false)
| answer_close_statement name : p_failed p = false ->
    answer p (Close "S" name) [] [CloseComplete] (mkP (p_stmts p ∖ {[ name ]}) (p_portals p) false)
| answer_close_portal name : p_failed p = false ->
    answer p (Close "P" name) [] [CloseComplete] (mkP (p_stmts p) (delete name (p_portals p)) false)
| answer_close_other t name : p_failed p = false -> t <> "S"%char -> t <> "P"%char ->
    answer p (Close t name) [UnknownKind] [CloseComplete] p
| answer_describe_statement name oids d : p_failed p = false ->
    missing p (Describe "S" name) = None -> is_description d ->
    answer p (Describe "S" name) [] [ParameterDescription oids; d] p
| answer_describe_portal name d : p_failed p = false ->
    missing p (Describe "P" name) = None -> is_description d ->
    answer p (Describe "P" name) [] [d] p
| answer_describe_other t name : p_failed p = false -> t <> "S"%char -> t <> "P"%char ->
    answer p (Describe t name) [UnknownKind] [] p
| answer_execute name max rows tag : p_failed p = false -> missing p (Execute name max) = None ->
    answer p (Execute name max) (unless ((max =? 0) || (Z.of_nat (length rows) <? max))%Z RowLimitIgnored)
      (rows_and_tag rows tag) p
| answer_error m e : p_failed p = false -> can_fail m ->
    match missing p m with Some code => e_Code e = code | None => True end ->
    answer p m [] [ErrorResponse e] (failed_state p)
| answer_sync : answer p Sync [] [ReadyForQuery "I"] (mkP (p_stmts p) (p_portals p) false)
| answer_flush : answer p Flush [] [] p
| answer_other : answer p OtherMessage [Unanswered] [] p
| answer_query sql results errs : length errs <= 2 ->
    answer p (Query sql) (query_deviations p results errs)
      (concat (result_messages <$> results) ++ (ErrorResponse <$> errs) ++ [ReadyForQuery "I"]) p.

(** The messages up to Terminate or the end of the connection, with the deviations
    of all answers. *)
Inductive conversation : pstate -> list FrontendMessage -> list deviation -> list BackendMessage -> pstate -> Prop :=
| conversation_end p : conversation p [] [] [] p
| conversation_terminate p msgs : conversation p (Terminate :: msgs) [] [] p
| conversation_step p m ds out p1 msgs ds' out' p2 :
    answer p m ds out p1 -> conversation p1 msgs ds' out' p2 -> conversation p (m :: msgs) (ds ++ ds') (out ++ out') p2.

(** ** The view of a session, and what it sends *)

Definition view (s : session) : pstate := mkP (dom (statements s)) (po_stmt <$> portals s) (batchFailed s).

Definition sent_message (e : event) : option BackendMessage := match e with EvSend m => Some m | _ => None end.
Definition sent_messages (t : list event) : list BackendMessage := omap sent_message t.

Lemma sent_app t1 t2 : sent_messages (t1 ++ t2) = sent_messages t1 ++ sent_messages t2.
Proof. apply omap_app. Qed.

Section Says.
Context {U : Unicode} {W : Type} {R : Rand W} {A : Approver W} {RB : ReadBuffer W} {Up : Upstream W}.

(** From [s], [m] sends some messages [o] and returns with [Q], or panics. *)
Definition says {B} (m : M (St W) B) (Q : B -> list BackendMessage -> St W -> Prop) (s : St W) : Prop :=
  match m s with
  | Ok b s' => exists t, trace s' = trace s ++ t /\ Q b (sent_messages t) s'
  | Panic _ => True
  end.

Lemma says_ret {B} (b : B) (Q : B -> list BackendMessage -> St W -> Prop) s : Q b [] s -> says (ret b) Q s.
Proof. intros H. exists []. by rewrite app_nil_r. Qed.

Lemma says_bind {B C} (m : M (St W) B) (k : B -> M (St W) C) Q s :
  says m (fun b o s' => says (k b) (fun c o' => Q c (o ++ o')) s') s -> says (bind m k) Q s.
Proof.
  unfold says, bind. destruct (m s) as [b s1|s1]; [|done]. intros (t & Et & H).
  destruct (k b s1) as [c s2|s2]; [|done]. destruct H as (t' & Et' & H). exists (t ++ t').
  by rewrite Et', Et, app_assoc, sent_app.
Qed.

Lemma says_mono {B} (m : M (St W) B) (Q Q' : B -> list BackendMessage -> St W -> Prop) s :
  says m Q s -> (forall b o s', Q b o s' -> Q' b o s') -> says m Q' s.
Proof. unfold says. intros H HQ. destruct (m s); [|done]. destruct H as (t & Et & H). eauto. Qed.

Lemma says_send m (Q : unit -> list BackendMessage -> St W -> Prop) s :
  Q tt [m] (mkSt (sess s) (world s) (trace s ++ [EvSend m])) -> says (send m) Q s.
Proof. intros H. by exists [EvSend m]. Qed.

(** A computation that sends nothing and keeps the session's view. *)
Definition mute {B} (m : M (St W) B) : Prop := forall s, says m (fun _ o s' => o = [] /\ sess s' = sess s) s.

Lemma mute_emit e : sent_message e = None -> mute (emit e).
Proof. intros He s. exists [e]. unfold sent_messages. cbn. by rewrite He. Qed.

Lemma mute_env {B} (f : W -> B * W) : mute (env f).
Proof. intros s. unfold says, env. destruct (f (world s)). exists []. by rewrite app_nil_r. Qed.

Lemma mute_ret {B} (b : B) : mute (ret b).
Proof. intros s. by apply says_ret. Qed.

Lemma mute_bind {B C} (m : M (St W) B) (k : B -> M (St W) C) : mute m -> (forall b, mute (k b)) -> mute (bind m k).
Proof.
  intros Hm Hk s. apply says_bind. eapply says_mono; [apply Hm|]. intros b o s1 [-> E1].
  eapply says_mono; [apply Hk|]. intros c o s2 [-> E2]. by rewrite E2, E1.
Qed.

Lemma mute_panic {B} : mute (panic (A := B)).
Proof. by intros s. Qed.

Lemma says_mute {B C} (m : M (St W) B) (k : B -> M (St W) C) Q s :
  mute m -> (forall b s', sess s' = sess s -> says (k b) Q s') -> says (bind m k) Q s.
Proof.
  intros Hm Hk. apply says_bind. eapply says_mono; [apply Hm|]. intros b o s' [-> Hs]. by apply Hk.
Qed.

Lemma says_get {C} (k : session -> M (St W) C) Q s : says (k (sess s)) Q s -> says (bind get_session k) Q s.
Proof. unfold says. by rewrite run_get_session. Qed.

Lemma says_set {C} f (k : unit -> M (St W) C) Q s :
  says (k tt) Q (mkSt (f (sess s)) (world s) (trace s)) -> says (bind (set_session f) k) Q s.
Proof. unfold says. by rewrite run_set_session. Qed.

Lemma says_set_end f (Q : unit -> list BackendMessage -> St W -> Prop) s :
  Q tt [] (mkSt (f (sess s)) (world s) (trace s)) -> says (set_session f) Q s.
Proof. intros H. exists []. by rewrite app_nil_r. Qed.

Lemma says_send_bind {C} m (k : unit -> M (St W) C) Q s :
  says (k tt) (fun c o => Q c (m :: o)) (mkSt (sess s) (world s) (trace s ++ [EvSend m])) ->
  says (bind (send m) k) Q s.
Proof. intros H. apply says_bind, says_send. exact H. Qed.

#[local] Hint Resolve mute_env mute_ret mute_panic : go.
#[local] Hint Extern 1 (mute (emit _)) => by apply mute_emit : go.

(** Prove [mute m] by its structure. *)
Ltac go_mute :=
  repeat match goal with
  | |- mute (bind _ _) => apply mute_bind; [|intros ?]
  | |- mute (match ?x with _ => _ end) => destruct x eqn:?
  | |- mute _ => solve [eauto with go]
  end.

Lemma mute_get : mute get_session.
Proof. intros s. by exists []; rewrite app_nil_r. Qed.
#[local] Hint Resolve mute_get : go.

Lemma approve_mute req : mute (approve req).
Proof. unfold approve. go_mute. Qed.
Lemma Exec_mute sql : mute (upstream_Exec sql).
Proof. unfold upstream_Exec. go_mute. Qed.
Lemma ExecParams_mute sql ps oids pf rf : mute (upstream_ExecParams sql ps oids pf rf).
Proof. unfold upstream_ExecParams. go_mute. Qed.
Lemma Prepare_mute name sql oids : mute (upstream_Prepare name sql oids).
Proof. unfold upstream_Prepare. go_mute. Qed.
Lemma read_params_mute ps : mute (read_params ps).
Proof. intros s. unfold says. rewrite read_params_eq. exists []. by rewrite app_nil_r. Qed.
#[local] Hint Resolve approve_mute Exec_mute ExecParams_mute Prepare_mute read_params_mute : go.

Lemma schemaRows_mute : mute schemaRows.
Proof. unfold schemaRows. go_mute. Qed.
#[local] Hint Resolve schemaRows_mute : go.

(** ** Statements and their results *)

Lemma says_rows rows s :
  says (for_each rows (fun row => send (DataRow row)))
    (fun _ o s' => o = DataRow <$> rows /\ sess s' = sess s) s.
Proof.
  revert s. induction rows as [|row rows IH]; intros s; [by apply says_ret|]. cbn [for_each].
  apply says_send_bind. eapply says_mono; [apply IH|]. by intros u o s' [-> Hs].
Qed.

(** The rows and the tag, and whatever is done after. *)
Lemma says_rows_tag {C} rows tag (k : unit -> M (St W) C) Q s :
  (forall s', sess s' = sess s -> says (k tt) (fun c o => Q c (rows_and_tag rows tag ++ o)) s') ->
  says (for_each rows (fun row => send (DataRow row)) ;; send (CommandComplete tag) ;; k tt) Q s.
Proof.
  intros H. apply says_bind. eapply says_mono; [apply says_rows|]. intros u o s' [-> Hs].
  apply says_send_bind. eapply says_mono; [by apply H|]. intros c o s2. unfold rows_and_tag. by rewrite <- app_assoc.
Qed.

(** What a function reports that sends one error or gives its result to the client. *)
Definition reported (ok : list BackendMessage -> Prop) (failed_when : bool) (s : St W) (b : bool)
    (o : list BackendMessage) (s' : St W) : Prop :=
  sess s' = sess s /\ if Bool.eqb b failed_when then exists e, o = [ErrorResponse e] else ok o.

Lemma says_error e b ok s : says (send (ErrorResponse e) ;; ret b) (reported ok b s) s.
Proof. apply says_send_bind, says_ret. split; [done|]. rewrite eqb_reflx. by exists e. Qed.

Lemma reported_mute ok b s s1 c o s2 : sess s1 = sess s -> reported ok b s1 c o s2 -> reported ok b s c o s2.
Proof. intros E [E' H]. split; [congruence|done]. Qed.

Lemma limitDenied_says rows k q s : says (limitDenied rows k q) (reported (fun o => o = []) true s) s.
Proof.
  unfold limitDenied, newRequestID. apply says_get. cbv zeta.
  destruct (bool_decide _ && _); [|by apply says_ret]. apply says_mute; [go_mute|intros ? ? Hs1]; apply says_mute; [go_mute|intros ? ? Hs2].
  destruct (negb _); [|apply says_ret; by split; [congruence|]].
  eapply says_mono; [apply says_error|]. intros c o s2. apply reported_mute. congruence.
Qed.

Lemma streamResult_says rr desc k q s :
  says (streamResult rr desc k q)
    (reported (fun o => if desc then exists r, o = result_messages r else exists rows tag, o = rows_and_tag rows tag) true s) s.
Proof.
  unfold streamResult. apply says_get. destruct (map_opt _ _) as [rows|]; [|done].
  destruct (rr_close rr) as [tag|err]; [|apply says_error]. apply says_bind.
  eapply says_mono; [apply limitDenied_says|]. intros [] o s1 [Hs1 Ho]; cbn [Bool.eqb] in Ho.
  { apply says_ret. split; [done|]. destruct Ho as [e ->]. by exists e. }
  subst o. destruct (desc && bool_decide (0 < length (rr_fields rr))) eqn:Ed.
  - apply andb_true_iff in Ed as [-> Hl%bool_decide_eq_true_1]. apply says_send_bind.
    apply (says_rows_tag rows tag (fun _ => ret false)). intros s2 Hs2. apply says_ret. split; [cbn in Hs2; congruence|].
    cbn. rewrite app_nil_r. by exists (mkQ (Some (rowDescription (rr_fields rr))) rows tag).
  - unfold says at 1. rewrite run_ret. change (says (for_each rows (fun row => send (DataRow row)) ;;
      send (CommandComplete tag) ;; ret false) (fun c o' => reported
        (fun o => if desc then exists r, o = result_messages r else exists rows tag, o = rows_and_tag rows tag) true s c ([] ++ o')) s1).
    apply (says_rows_tag rows tag (fun _ => ret false)). intros s2 Hs2. apply says_ret. split; [congruence|].
    cbn. rewrite app_nil_r. destruct desc; [|by exists rows, tag]. by exists (mkQ None rows tag).
Qed.

Lemma approveMutation_says k sql s : says (approveMutation k sql) (reported (fun o => o = []) false s) s.
Proof.
  unfold approveMutation, newRequestID. apply says_get. apply says_mute; [go_mute|intros ? ? Hs1]; apply says_mute; [go_mute|intros ? ? Hs2].
  destruct (negb _).
  - eapply says_mono; [apply says_error|]. intros c o s2. apply reported_mute. congruence.
  - apply says_ret. split; [congruence|done].
Qed.

(** ** Simple queries *)

(** Results, then at most [n] errors. *)
Definition results_errors (n : nat) (o : list BackendMessage) : Prop :=
  exists results errs, length errs <= n /\ o = concat (result_messages <$> results) ++ (ErrorResponse <$> errs).

Lemma results_errors_nil n : results_errors n [].
Proof. exists [], []. split; [cbn; lia|done]. Qed.

Lemma results_errors_error n o e : results_errors n o -> results_errors (S n) (o ++ [ErrorResponse e]).
Proof.
  intros (rs & es & He & ->). exists rs, (es ++ [e]). split; [rewrite length_app; cbn; lia|].
  by rewrite fmap_app, app_assoc.
Qed.

Lemma streamResults_says rrs k q s :
  says (streamResults rrs k q) (fun _ o s' => sess s' = sess s /\ results_errors 1 o) s.
Proof.
  revert s. induction rrs as [|rr rrs IH]; intros s; [apply says_ret; split; [done|apply results_errors_nil]|].
  cbn [streamResults]. apply says_bind. eapply says_mono; [apply streamResult_says|].
  intros [] o s1 [Hs1 Ho]; cbn [Bool.eqb] in Ho.
  - apply says_ret. split; [done|]. destruct Ho as [e ->]. by apply (results_errors_error 0 []), results_errors_nil.
  - eapply says_mono; [apply IH|]. intros u o' s2 [Hs2 (rs & es & He & ->)]. split; [congruence|].
    destruct Ho as [r ->]. exists (r :: rs), es. split; [done|]. cbn [concat fmap list_fmap]. by rewrite <- app_assoc.
Qed.

Definition query_answer (s : St W) (u : unit) (o : list BackendMessage) (s' : St W) : Prop :=
  sess s' = sess s /\ exists o', results_errors 2 o' /\ o = o' ++ [ReadyForQuery "I"].

Lemma ready_says o s s0 : sess s = sess s0 -> results_errors 2 o ->
  says ready (fun c o' => query_answer s0 c (o ++ o')) s.
Proof.
  intros Hs Ho. unfold ready. apply says_send_bind. exists [EvFlush]. split; [done|]. split; [done|]. by exists o.
Qed.

Lemma runSimple_says k sql s : says (runSimple k sql) (query_answer s) s.
Proof.
  unfold runSimple. apply says_mute; [go_mute|]. intros mrr s1 Hs1. apply says_bind.
  eapply says_mono; [apply streamResults_says|]. intros u o s2 [Hs2 Ho]. destruct (mrr_close mrr) as [err|].
  - apply says_send_bind. eapply says_mono.
    + apply (ready_says (o ++ [ErrorResponse (queryError err)]) _ s); [cbn; congruence|by apply results_errors_error].
    + intros c o' s3. cbn beta. rewrite <- app_assoc. exact id.
  - unfold says at 1. rewrite run_ret. apply ready_says; [congruence|].
    destruct Ho as (rs & es & He & ->). exists rs, es. split; [lia|done].
Qed.

Lemma handleSchemaSimple_says s :
  says handleSchemaSimple (fun _ o s' => sess s' = sess s /\ results_errors 1 o) s.
Proof.
  unfold handleSchemaSimple. apply says_mute; [go_mute|]. intros [rows|err] s1 Hs1.
  - apply says_send_bind. apply says_bind. eapply says_mono; [apply says_rows|]. intros u o s2 [-> Hs2].
    apply says_send. split; [cbn in *; congruence|]. eexists [mkQ (Some _) rows _], []. split; [cbn; lia|].
    cbn [concat fmap list_fmap]. rewrite !app_nil_r. reflexivity.
  - apply says_send. split; [done|]. by apply (results_errors_error 0 []), results_errors_nil.
Qed.

Lemma handleSimpleQuery_says sql s : says (handleSimpleQuery sql) (query_answer s) s.
Proof.
  unfold handleSimpleQuery. apply says_get. destruct (isSchemaCommand _ _).
  - apply says_bind. eapply says_mono; [apply handleSchemaSimple_says|]. intros u o s1 [Hs1 (rs & es & He & ->)].
    apply ready_says; [done|]. exists rs, es. split; [lia|done].
  - cbv zeta. destruct (_ && _); [|apply runSimple_says]. apply says_bind.
    eapply says_mono; [apply approveMutation_says|]. intros [] o s1 [Hs1 Ho]; cbn [Bool.eqb] in Ho.
    + subst o. eapply says_mono; [apply runSimple_says|]. intros u o s2 [Hs2 H]. split; [congruence|done].
    + destruct Ho as [e ->]. apply ready_says; [done|].
      apply (results_errors_error 1 []), results_errors_nil.
Qed.

(** ** The extended protocol *)

(** What the view of a session says of a name. *)
Lemma view_statement (s : session) name st :
  statements s !! name = Some st -> missing_statement (view s) name = None.
Proof.
  intros H. unfold missing_statement. rewrite bool_decide_eq_true_2; [done|]. by apply elem_of_dom_2 in H.
Qed.

Lemma view_no_statement (s : session) name :
  statements s !! name = None -> missing_statement (view s) name = Some "26000".
Proof. intros H. unfold missing_statement. rewrite bool_decide_eq_false_2; [done|]. by apply not_elem_of_dom in H. Qed.

Lemma view_portal (s : session) name :
  missing_portal (view s) name =
    match portals s !! name with None => Some "34000" | Some por => missing_statement (view s) (po_stmt por) end.
Proof. unfold missing_portal. cbn [view p_portals]. rewrite lookup_fmap. by destruct (portals s !! name). Qed.

Lemma view_insert_known (s : session) name st st' :
  statements s !! name = Some st -> view (set_statements (insert name st') s) = view s.
Proof.
  intros H. unfold view. cbn [set_statements statements portals batchFailed]. f_equal.
  rewrite dom_insert_L. apply subseteq_union_1_L. apply elem_of_dom_2 in H. set_solver.
Qed.

(** Answering a message from [s0]. *)
Definition answers (s0 : St W) (m : FrontendMessage) (u : unit) (o : list BackendMessage) (s' : St W) : Prop :=
  exists ds, answer (view (sess s0)) m ds o (view (sess s')).

(** An error, with the batch marked. *)
Lemma fail_answers m e s0 s :
  batchFailed (sess s0) = false -> view (sess s) = view (sess s0) -> can_fail m ->
  match missing (view (sess s0)) m with Some code => e_Code e = code | None => True end ->
  says (send (ErrorResponse e) ;; set_session (set_batchFailed true)) (answers s0 m) s.
Proof.
  intros Hb Hv Hc Hm. apply says_send_bind, says_set_end. unfold answers. cbn [sess].
  replace (view (set_batchFailed true (sess s))) with (failed_state (view (sess s0))); [eexists; by apply answer_error|].
  rewrite <- Hv. done.
Qed.

Lemma ensureFields_says name st s : statements (sess s) !! name = Some st ->
  says (ensureFields name st) (fun _ o s' => o = [] /\ view (sess s') = view (sess s)) s.
Proof.
  intros H. unfold ensureFields. destruct (ps_described st); [by apply says_ret|].
  apply says_mute; [go_mute|]. intros [sd|err] s1 Hs1; [|apply says_ret; by rewrite Hs1].
  apply says_set, says_ret. split; [done|]. cbn [sess]. rewrite Hs1. by eapply view_insert_known.
Qed.

(** Describing a statement whose fields are asked for: an error or the answer. *)
Lemma describe_says m name st s0 (k : preparedStmt -> M (St W) unit) s :
  batchFailed (sess s0) = false -> can_fail m -> missing (view (sess s0)) m = None ->
  view (sess s) = view (sess s0) -> statements (sess s) !! name = Some st ->
  (forall st' s', view (sess s') = view (sess s0) -> says (k st') (answers s0 m) s') ->
  says (r <- ensureFields name st ;;
        match r with
        | inr err => sendQueryError err ;; set_session (set_batchFailed true)
        | inl st' => k st'
        end) (answers s0 m) s.
Proof.
  intros Hb Hc Hm Hv Hst Hk. apply says_bind. eapply says_mono; [by apply ensureFields_says|].
  intros [st'|err] o s1 [-> Hs1]; [by apply Hk; rewrite Hs1|].
  apply fail_answers; [done|by rewrite Hs1|done|by rewrite Hm].
Qed.

(** The description of the columns, if there are any. *)
Lemma description_says (fds : list FieldDescription) f s :
  length (f fds) = length fds ->
  says (match fds with [] => send NoData | fd :: fds' => send (RowDescription (f (fd :: fds'))) end)
    (fun _ o s' => sess s' = sess s /\ exists d, is_description d /\ o = [d]) s.
Proof.
  intros Hl. destruct fds as [|fd fds]; apply says_send; (split; [done|]); eexists; (split; [|done]); [by left|right].
  eexists. split; [|done]. by destruct (f (fd :: fds)).
Qed.

Lemma describeStatement_says name s : batchFailed (sess s) = false ->
  says (describeStatement name) (answers s (Describe "S" name)) s.
Proof.
  intros Hb. unfold describeStatement. apply says_get. destruct (statements (sess s) !! name) as [st|] eqn:E.
  - assert (Hm : missing (view (sess s)) (Describe "S" name) = None) by (by eapply view_statement).
    destruct (ps_isSchema st).
    + apply says_send_bind, says_send. eexists; by apply answer_describe_statement; [..|right; eexists; split; [|done]].
    + apply (describe_says _ name st); try done; [by left|]. intros st' s1 Hs1. apply says_send_bind.
      eapply says_mono; [apply (description_says (ps_fields st') rowDescription); apply length_fmap|].
      intros u o s2 [Hs2 (d & Hd & ->)]. unfold answers. rewrite Hs2. cbn [sess]. rewrite Hs1.
      eexists; by apply answer_describe_statement.
  - unfold failBatch, sendError. apply fail_answers; [done..|by left|].
    cbn. by rewrite (view_no_statement _ _ E).
Qed.

Lemma describePortal_says name s : batchFailed (sess s) = false ->
  says (describePortal name) (answers s (Describe "P" name)) s.
Proof.
  intros Hb. unfold describePortal. apply says_get. pose proof (view_portal (sess s) name) as Hp.
  destruct (portals (sess s) !! name) as [por|] eqn:E.
  2:{ unfold failBatch, sendError. apply fail_answers; [done..|by right|]. cbn. by rewrite Hp. }
  destruct (statements (sess s) !! po_stmt por) as [st|] eqn:E'.
  2:{ unfold failBatch, sendError. apply fail_answers; [done..|by right|]. cbn. by rewrite Hp, (view_no_statement _ _ E'). }
  assert (Hm : missing (view (sess s)) (Describe "P" name) = None) by (cbn; rewrite Hp; by eapply view_statement).
  destruct (ps_isSchema st).
  - apply says_send. eexists; by apply answer_describe_portal; [..|right; eexists; split; [|done]].
  - apply (describe_says _ (po_stmt por) st); try done; [by right|]. intros st' s1 Hs1.
    eapply says_mono; [apply (description_says (ps_fields st') (fun fds => rowDescriptionWithFormats fds (po_resultFormats por)))|].
    { unfold rowDescriptionWithFormats, rowDescription. by rewrite length_imap, length_fmap. }
    intros u o s2 [Hs2 (d & Hd & ->)]. unfold answers. rewrite Hs2, Hs1. eexists; by apply answer_describe_portal.
Qed.

Lemma executeSchema_says name max s s0 :
  batchFailed (sess s0) = false -> missing (view (sess s0)) (Execute name max) = None -> sess s = sess s0 ->
  says executeSchema (answers s0 (Execute name max)) s.
Proof.
  intros Hb Hm Hs. unfold executeSchema. apply says_mute; [go_mute|]. intros [rows|err] s1 Hs1.
  - apply says_bind. eapply says_mono; [apply says_rows|]. intros u o s2 [-> Hs2].
    apply says_send. unfold answers. cbn [sess]. rewrite Hs2, Hs1, Hs. eexists; by apply answer_execute.
  - apply fail_answers; [done|by rewrite Hs1, Hs|done|by rewrite Hm].
Qed.

Lemma runPortal_says st por name max s s0 :
  batchFailed (sess s0) = false -> missing (view (sess s0)) (Execute name max) = None -> sess s = sess s0 ->
  says (runPortal st por) (answers s0 (Execute name max)) s.
Proof.
  intros Hb Hm Hs. unfold runPortal. apply says_mute; [go_mute|]. intros ps s' Hs'. apply says_mute; [go_mute|].
  intros rr s1 Hs1'. assert (Hs1 : sess s1 = sess s) by congruence. apply says_bind.
  eapply says_mono; [apply streamResult_says|]. intros [] o s2 [Hs2 Ho]; cbn [Bool.eqb] in Ho.
  - destruct Ho as [e ->]. apply says_set_end. unfold answers. cbn [sess]. rewrite Hs2, Hs1, Hs.
    change (view (set_batchFailed true (sess s0))) with (failed_state (view (sess s0))). cbn [app sent_messages omap list_omap].
    eexists; by apply answer_error; [..|by rewrite Hm].
  - destruct Ho as (rows & tag & ->). apply says_ret. unfold answers. rewrite Hs2, Hs1, Hs, app_nil_r. eexists; by apply answer_execute.
Qed.

Lemma handleExecute_says name max s : batchFailed (sess s) = false ->
  says (handleExecute name) (answers s (Execute name max)) s.
Proof.
  intros Hb. unfold handleExecute, unlessFailed. apply says_get. rewrite Hb. apply says_get.
  pose proof (view_portal (sess s) name) as Hp. destruct (portals (sess s) !! name) as [por|].
  2:{ unfold failBatch, sendError. apply fail_answers; [done..|]. cbn. by rewrite Hp. }
  destruct (statements (sess s) !! po_stmt por) as [st|] eqn:E.
  2:{ unfold failBatch, sendError. apply fail_answers; [done..|]. cbn. by rewrite Hp, (view_no_statement _ _ E). }
  assert (Hm : missing (view (sess s)) (Execute name max) = None) by (cbn; rewrite Hp; by eapply view_statement).
  destruct (ps_isSchema st); [by apply executeSchema_says|]. destruct (_ && _); [|by apply runPortal_says].
  apply says_bind. eapply says_mono; [apply approveMutation_says|]. intros [] o s1 [Hs1 Ho]; cbn [Bool.eqb] in Ho.
  - subst o. by apply runPortal_says.
  - destruct Ho as [e ->]. apply says_set_end. unfold answers. cbn [sess]. rewrite Hs1.
    change (view (set_batchFailed true (sess s))) with (failed_state (view (sess s))).
    eexists; by apply answer_error; [..|by rewrite Hm].
Qed.

(** ** The simulation *)

Lemma view_parse (s : session) name st : batchFailed s = false ->
  view (set_statements (insert name st) s) = mkP ({[ name ]} ∪ p_stmts (view s)) (p_portals (view s)) false.
Proof. intros Hb. unfold view. cbn. by rewrite dom_insert_L, Hb. Qed.

Lemma view_bind (s : session) name por : batchFailed s = false ->
  view (set_portals (insert name por) s) = mkP (p_stmts (view s)) (<[ name := po_stmt por ]> (p_portals (view s))) false.
Proof. intros Hb. unfold view. cbn. by rewrite fmap_insert, Hb. Qed.

Lemma view_close_statement (s : session) name : batchFailed s = false ->
  view (set_statements (delete name) s) = mkP (p_stmts (view s) ∖ {[ name ]}) (p_portals (view s)) false.
Proof. intros Hb. unfold view. cbn. by rewrite dom_delete_L, Hb. Qed.

Lemma view_close_portal (s : session) name : batchFailed s = false ->
  view (set_portals (delete name) s) = mkP (p_stmts (view s)) (delete name (p_portals (view s))) false.
Proof. intros Hb. unfold view. cbn. by rewrite fmap_delete, Hb. Qed.

(** Every step of a session is one the abstract server can take. *)
Lemma dispatch_answers m s : m <> Terminate -> says (dispatch m) (answers s m) s.
Proof.
  intros Hnt. destruct (batchFailed (sess s)) eqn:Hb.
  { destruct (skippable m) eqn:Hk.
    - unfold says. rewrite dispatch_skips by done. exists []. rewrite app_nil_r. split; [done|]. eexists; by apply answer_skipped.
    - destruct m; try done; cbn [dispatch].
      + eapply says_mono; [apply handleSimpleQuery_says|]. intros u o s' [Hs (o' & (rs & es & He & ->) & ->)].
        unfold answers. rewrite Hs, <- app_assoc. eexists; by apply answer_query.
      + apply says_set, says_send_bind. exists [EvFlush]. split; [done|]. eexists. apply answer_sync.
      + exists [EvFlush]. split; [done|]. eexists. apply answer_flush.
      + apply says_ret. eexists. apply answer_other. }
  destruct m; try done; cbn [dispatch].
  - eapply says_mono; [apply handleSimpleQuery_says|]. intros u o s' [Hs (o' & (rs & es & He & ->) & ->)].
    unfold answers. rewrite Hs, <- app_assoc. eexists; by apply answer_query.
  - unfold handleParse, unlessFailed. apply says_get. rewrite Hb. apply says_get, says_set, says_send.
    unfold answers. cbn [sess]. rewrite view_parse by done. eexists; by apply answer_parse.
  - unfold handleBind, unlessFailed. apply says_get. rewrite Hb. apply says_set, says_send.
    unfold answers. cbn [sess]. rewrite view_bind by done. eexists; by apply answer_bind.
  - unfold handleDescribe, unlessFailed. apply says_get. rewrite Hb.
    case_bool_decide; [subst; by apply describeStatement_says|].
    case_bool_decide; [subst; by apply describePortal_says|]. apply says_ret. eexists. by apply answer_describe_other.
  - by apply handleExecute_says.
  - apply says_set, says_send_bind. exists [EvFlush]. split; [done|]. eexists. apply answer_sync.
  - unfold handleClose, unlessFailed. apply says_get. rewrite Hb.
    case_bool_decide; [|case_bool_decide]; subst.
    + apply says_set, says_send. unfold answers. cbn [sess]. rewrite view_close_statement by done.
      eexists; by apply answer_close_statement.
    + apply says_set, says_send. unfold answers. cbn [sess]. rewrite view_close_portal by done.
      eexists; by apply answer_close_portal.
    + unfold says. rewrite run_ret. apply says_send. eexists; by apply answer_close_other.
  - exists [EvFlush]. split; [done|]. eexists. apply answer_flush.
  - apply says_ret. eexists. apply answer_other.
Qed.

Lemma loop_converses msgs s :
  says (loop msgs) (fun _ o s' => exists ds, conversation (view (sess s)) msgs ds o (view (sess s'))) s.
Proof.
  revert s. induction msgs as [|m msgs IH]; intros s; [apply says_ret; eexists; apply conversation_end|].
  assert (m = Terminate \/ m <> Terminate) as [->|Hm] by (destruct m; auto); [apply says_ret; eexists; apply conversation_terminate|].
  assert (E : loop (m :: msgs) = (dispatch m ;; loop msgs)) by by destruct m. rewrite E.
  apply says_bind. eapply says_mono; [by apply dispatch_answers|]. intros u o s1 [ds Ha].
  eapply says_mono; [apply IH|]. intros u' o' s2 [ds' Hc]. exists (ds ++ ds'). by eapply conversation_step.
Qed.

Context {WF : WellFormed W}.

(** C7.  A session refines the message flow of PostgreSQL up to the deviations that
    [deviation] lists: over a well-formed upstream, whatever the approver and the
    upstream answer, a session returns for every sequence of messages, and what it
    sends is a conversation of the abstract server that knows only the names of
    statements and portals and whether the batch has failed: one completion for each
    Parse, Bind and Close, descriptions before the rows of simple queries, rows before
    their tag, error 26000 or 34000 for a name that is not known, the messages of the
    extended protocol skipped after an error up to Sync, and ReadyForQuery at the end
    of every Query and Sync.  The conversation records a deviation exactly where one
    occurs; without any it follows PostgreSQL's rules. *)
Theorem session_refines_protocol msgs (s : St W) :
  exists s' t ds, loop msgs s = Ok tt s' /\ trace s' = trace s ++ t
    /\ conversation (view (sess s)) msgs ds (sent_messages t) (view (sess s')).
Proof.
  pose proof (loop_total msgs s) as Ht. pose proof (loop_converses msgs s) as Hc. unfold wp, says in *.
  destruct (loop msgs s) as [[] s'|s']; [|done]. destruct Hc as (t & Et & ds & Hc). by exists s', t, ds.
Qed.
End Says.

(** ** The theorem at a concrete session *)

Module ProtocolWitnesses.
Import BatchWitnesses.
#[local] Existing Instances denying users_wf.

(** A pipeline with a portal that does not exist, and a denied mutation. *)
Definition messages : list FrontendMessage :=
  [Parse "s" "TABLE users" []; Bind "p" "s" [] [] []; Execute "nowhere" 0; Execute "p" 0; Sync; Query "DELETE FROM users"].

Lemma session_refines_protocol_witness :
  exists s' t ds, loop messages start = Ok tt s' /\ trace s' = trace start ++ t
    /\ conversation (view (sess start)) messages ds (sent_messages t) (view (sess s'))
    /\ p_failed (view (sess s')) = false /\ p_portals (view (sess s')) !! "p" = Some "s".
Proof.
  destruct (session_refines_protocol messages start) as (s' & t & ds & Hl & Ht & Hc). exists s', t, ds. split_and!; try done.
  - assert (E : batchFailed (sess (final (loop messages start))) = false) by (vm_compute; reflexivity).
    rewrite Hl in E. exact E.
  - assert (E : p_portals (view (sess (final (loop messages start)))) !! "p" = Some "s") by (vm_compute; reflexivity).
    rewrite Hl in E. exact E.
Defined.
End ProtocolWitnesses.
