(* ===== verification/Dashboard.v ===== *)
(** * Sessions under the dashboard's approvals

    The composition of the session (Session.v) with the broker (Broker.v) as its
    approver.  While a session waits for an answer of the world, the rest of the
    process goes on: calls of Approve from other sessions, decisions made in the
    dashboard, the passing of time.  [Interference] is any choice of such steps.
    A call of the session's approver is a call of Approve in this system: it is
    started, others run, and it returns, at the latest when its timeout has
    passed. *)

From S2P Require Import Prelude GoStrings Classify Policy Approval Broker Proto Session Scenario Gate.

(** ** The composed world *)

Record Dash (W : Type) : Type := mkDash { d_sys : sys; d_world : W }.
Arguments mkDash {W} _ _.
Arguments d_sys {W} _.
Arguments d_world {W} _.

(** The steps others take while the session waits; steps that are not possible
    are not taken. *)
Class Interference (W : Type) : Type := others : W -> list label * W.
Definition run_possible (ls : list label) (s : sys) : sys := foldl (fun s l => default s (step l s)) s ls.

(** A call that has not been made yet. *)
Definition new_call (s : sys) : nat := S (max_list (fst <$> map_to_list (approves s))).

Lemma new_call_spec s : approves s !! new_call s = None.
Proof.
  destruct (approves s !! new_call s) as [pc|] eqn:E; [|done].
  apply elem_of_map_to_list in E. apply (list_elem_of_fmap_2 fst) in E. cbn [fst] in E.
  apply max_list_elem_of_le in E. unfold new_call in E. lia.
Qed.

Section Composition.
Context {W : Type} {R : Rand W} {RB : ReadBuffer W} {Up : Upstream W} {I : Interference W}.

(** An operation of the outer world, while others run. *)
Definition meanwhile {A : Type} (f : W -> A * W) (d : Dash W) : A * Dash W :=
  let '(ls, w) := others (d_world d) in
  ((f w).1, mkDash (run_possible ls (d_sys d)) (f w).2).

#[export] Instance dash_Rand : Rand (Dash W) := fun n => meanwhile (rand_read n).
#[export] Instance dash_ReadBuffer : ReadBuffer (Dash W) := fun bytes => meanwhile (read_buffer bytes).
#[export] Instance dash_Upstream : Upstream (Dash W) := {|
  up_Exec sql := meanwhile (up_Exec sql);
  up_ExecParams sql params oids pf rf := meanwhile (up_ExecParams sql params oids pf rf);
  up_Prepare name sql oids := meanwhile (up_Prepare name sql oids)
|}.

(** A call that has not returned goes on by its own steps until it does. *)
Definition complete (c : nat) (s : sys) : sys :=
  match approves s !! c with
  | Some pc => default s (steps (finish c (Z.to_N (timeout (broker s))) pc) s)
  | None => s
  end.

(** [b.Approve(ctx, req)] as the session sees it. *)
Definition dashboard : Approver (Dash W) := fun req d =>
  let c := new_call (d_sys d) in
  let started := set_approve c (AStart req) (d_sys d) in
  let '(ls, w) := others (d_world d) in
  let s := complete c (run_possible ls started) in
  (match approves s !! c with Some (AReturned _ dec) => dec | _ => timed_out end, mkDash s w).
End Composition.

(** ** Lemmas: reachability and what is kept *)

Lemma steps_app ls ls' s s1 s2 : steps ls s = Some s1 -> steps ls' s1 = Some s2 -> steps (ls ++ ls') s = Some s2.
Proof.
  revert s. induction ls as [|l ls IH]; intros s; cbn; [by intros [= ->]|].
  destruct (step l s) as [s'|]; [|done]. cbn. apply IH.
Qed.

Lemma reachable_steps t ls s s' : reachable t s -> steps ls s = Some s' -> reachable t s'.
Proof. intros [ls0 H0] H. exists (ls0 ++ ls). by eapply steps_app. Qed.

Lemma reachable_step t l s s' : reachable t s -> step l s = Some s' -> reachable t s'.
Proof. intros Hr H. apply (reachable_steps t [l] s); [done|]. cbn. by rewrite H. Qed.

(** What an operator's consent to [req] is: a call of Decide for its identifier
    that said approved and was accepted, and the call of Approve that returned it. *)
Definition consented (s : sys) (req : Request) (reason : string) : Prop :=
  exists d c, decides s !! d = Some (DReturned (req_ID req) true reason (Some c))
    /\ approves s !! c = Some (AReturned req (decision true reason)).

Lemma returned_step l s s' c req dec :
  step l s = Some s' -> approves s !! c = Some (AReturned req dec) -> approves s' !! c = Some (AReturned req dec).
Proof.
  intros E Hc. destruct l; cbn [step] in E; repeat case_match; simplify_eq; cbn; try done;
    by rewrite lookup_insert_ne by congruence.
Qed.

Lemma decided_step l s s' d id a r o :
  step l s = Some s' -> decides s !! d = Some (DReturned id a r o) -> decides s' !! d = Some (DReturned id a r o).
Proof.
  intros E Hc. destruct l; cbn [step] in E; repeat case_match; simplify_eq; cbn; try done;
    by rewrite lookup_insert_ne by congruence.
Qed.

Lemma consented_step l s s' req reason : step l s = Some s' -> consented s req reason -> consented s' req reason.
Proof. intros E (d & c & Hd & Hc). exists d, c. split; [by eapply decided_step|by eapply returned_step]. Qed.

(** What every step keeps holds after the steps that are possible. *)
Lemma run_possible_keeps (P : sys -> Prop) ls s :
  (forall l s s', step l s = Some s' -> P s -> P s') -> P s -> P (run_possible ls s).
Proof.
  intros HP. unfold run_possible. revert s. induction ls as [|l ls IH]; intros s Hs; [done|]. cbn. apply IH.
  destruct (step l s) as [s'|] eqn:E; [|done]. by eapply HP.
Qed.

Lemma steps_keeps (P : sys -> Prop) ls s s' :
  (forall l s s', step l s = Some s' -> P s -> P s') -> steps ls s = Some s' -> P s -> P s'.
Proof.
  intros HP. revert s. induction ls as [|l ls IH]; intros s; cbn; [by intros [= ->]|].
  destruct (step l s) as [s1|] eqn:E; [|done]. cbn. intros H Hs. eapply IH; [done|]. by eapply HP.
Qed.

(** What holds of the broker while a session runs. *)
Definition kept (P : sys -> Prop) : Prop := forall l s s', step l s = Some s' -> P s -> P s'.

Lemma reachable_kept t : kept (reachable t).
Proof. intros l s s' E H. by eapply reachable_step. Qed.
Lemma consented_kept req reason : kept (fun s => consented s req reason).
Proof. intros l s s'. apply consented_step. Qed.

Section Calls.
Context {W : Type} {R : Rand W} {RB : ReadBuffer W} {Up : Upstream W} {I : Interference W}.

Lemma meanwhile_keeps {A} (f : W -> A * W) P d : kept P -> P (d_sys d) -> P (d_sys (meanwhile f d).2).
Proof. intros HP Hd. unfold meanwhile. destruct (others (d_world d)) as [ls w]. by apply run_possible_keeps. Qed.

Lemma complete_keeps c P s : kept P -> P s -> P (complete c s).
Proof.
  intros HP Hs. unfold complete. destruct (approves s !! c) as [pc|]; [|done].
  destruct (steps _ s) as [s'|] eqn:E; [|done]. by eapply steps_keeps.
Qed.

(** A call of the dashboard's approver. *)
Lemma dashboard_call t req (d : Dash W) :
  reachable t (d_sys d) ->
  let '(dec, d') := dashboard req d in
  reachable t (d_sys d') /\ (forall P, kept P -> P (d_sys d) -> P (d_sys d'))
  /\ exists c, approves (d_sys d) !! c = None /\ approves (d_sys d') !! c = Some (AReturned req dec).
Proof.
  intros Hr. unfold dashboard. destruct (others (d_world d)) as [ls w]. set (c := new_call _).
  set (s0 := set_approve c (AStart req) (d_sys d)). cbv zeta. cbn [d_sys].
  pose proof (new_call_spec (d_sys d)) as Hc. fold c in Hc.
  assert (E0 : step (LApprove c req) (d_sys d) = Some s0) by (cbn [step]; by rewrite Hc).
  assert (Hkeep : forall P, kept P -> P (d_sys d) -> P (complete c (run_possible ls s0))).
  { intros P HP Hd. apply complete_keeps; [done|]. apply run_possible_keeps; [done|]. by eapply HP. }
  split; [by apply Hkeep; [apply reachable_kept|]|]. split; [done|].
  assert (Hr1 : reachable t (run_possible ls s0)).
  { apply run_possible_keeps; [apply reachable_kept|]. by eapply reachable_step. }
  assert (Hpc : exists pc, approves (run_possible ls s0) !! c = Some pc /\ pc_req pc = req).
  { apply (run_possible_keeps (fun s => exists pc, approves s !! c = Some pc /\ pc_req pc = req)).
    - intros l s s' E (pc & H1 & H2). destruct (approves_step _ _ _ _ _ E H1) as (pc' & H1' & H2'). exists pc'. split; [done|congruence].
    - exists (AStart req). cbn. by rewrite lookup_insert_eq. }
  destruct Hpc as (pc & Hpc & <-). destruct (call_finishes t _ c pc Hr1 Hpc) as (s' & E' & dec & Hret).
  assert (Ec : complete c (run_possible ls s0) = s') by (unfold complete; by rewrite Hpc, E').
  rewrite Ec, Hret. by exists c.
Qed.
End Calls.

(** ** Invariants of a session and its world *)

Section Preserve.
Context {U : Unicode} {W : Type} {R : Rand W} {A : Approver W} {RB : ReadBuffer W} {Up : Upstream W}.
Variable Inv : St W -> Prop.
Hypothesis Inv_emit : forall e, is_approval e = false -> preserves Inv (emit e).
Hypothesis Inv_approve : forall req, preserves Inv (approve req).
Hypothesis Inv_set : forall f, preserves Inv (set_session f).
Hypothesis Inv_id : preserves Inv (env NewID).
Hypothesis Inv_buffer : forall bytes, preserves Inv (env (read_buffer bytes)).
Hypothesis Inv_exec : forall sql, preserves Inv (env (up_Exec sql)).
Hypothesis Inv_execParams : forall sql ps oids pf rf, preserves Inv (env (up_ExecParams sql ps oids pf rf)).
Hypothesis Inv_prepare : forall name sql oids, preserves Inv (env (up_Prepare name sql oids)).

#[local] Hint Resolve Inv_approve Inv_set Inv_id Inv_buffer Inv_exec Inv_execParams Inv_prepare : go.
#[local] Hint Extern 1 (preserves Inv (emit _)) => by apply Inv_emit : go.
#[local] Hint Extern 1 (preserves Inv (send _)) => by apply Inv_emit : go.
#[local] Hint Extern 1 (preserves Inv flush) => by apply Inv_emit : go.

Lemma get_session_preserves : preserves Inv get_session.
Proof. by intros s H. Qed.
#[local] Hint Resolve get_session_preserves : go.

Lemma streamResult_preserves rr b k q : preserves Inv (streamResult rr b k q).
Proof. unfold streamResult, limitDenied, newRequestID, sendError, sendQueryError. go_preserves. Qed.
#[local] Hint Resolve streamResult_preserves : go.

Lemma streamResults_preserves rrs k q : preserves Inv (streamResults rrs k q).
Proof. induction rrs as [|rr rrs IH]; cbn [streamResults]; go_preserves. Qed.
#[local] Hint Resolve streamResults_preserves : go.

Lemma dispatch_preserves m : preserves Inv (dispatch m).
Proof.
  destruct m; cbn [dispatch];
    unfold handleSimpleQuery, handleSchemaSimple, runSimple, handleParse, handleBind, handleDescribe,
      describeStatement, describePortal, ensureFields, upstream_Prepare, handleExecute, executeSchema, schemaRows,
      upstream_Exec, runPortal, upstream_ExecParams, handleClose, unlessFailed, approveMutation, newRequestID,
      failBatch, sendError, sendQueryError, ready; go_preserves.
Qed.

Lemma loop_preserves msgs : preserves Inv (loop msgs).
Proof.
  induction msgs as [|m msgs IH]; [apply preserves_ret|].
  destruct m; cbn [loop]; try (apply preserves_bind; [apply dispatch_preserves|done]). apply preserves_ret.
Qed.
End Preserve.

(** ** The composition *)

Section Composed.
Context {U : Unicode} {W : Type} {R : Rand W} {RB : ReadBuffer W} {Up : Upstream W} {I : Interference W}.
#[local] Existing Instance dashboard.

(** The broker is in a reachable state, and every approval of the trace has the
    consent of an operator. *)
Definition dash_inv (t : Z) (s : St (Dash W)) : Prop :=
  reachable t (d_sys (world s)) /\
  forall req dec, EvApprove req dec ∈ trace s -> Approved dec = true ->
    exists reason, dec = decision true reason /\ consented (d_sys (world s)) req reason.

Lemma dash_emit t e : is_approval e = false -> preserves (dash_inv t) (emit e).
Proof.
  intros He s [Hr Hc]. apply wp_modify. split; [done|]. cbn [trace world]. intros req dec.
  rewrite elem_of_app, list_elem_of_singleton. intros [H| <-]; [by apply Hc|done].
Qed.

Lemma dash_env {B} t (f : W -> B * W) : preserves (dash_inv t) (env (meanwhile f)).
Proof.
  intros s [Hr Hc]. unfold wp, env. pose proof (fun P HP => meanwhile_keeps f P (world s) HP) as Hk.
  destruct (meanwhile f (world s)) as [b d]. cbn [snd] in Hk. split; cbn [world trace].
  - by apply Hk; [apply reachable_kept|].
  - intros req dec Hin Hd. destruct (Hc req dec Hin Hd) as (reason & E & H). exists reason. split; [done|].
    by apply (Hk _ (consented_kept req reason)).
Qed.

Lemma dash_NewID t : preserves (dash_inv t) (env NewID).
Proof.
  intros s Hs. pose proof (dash_env t (rand_read 8) s Hs) as H. revert H. unfold wp, env, NewID.
  change (rand_read 8 (world s)) with (meanwhile (rand_read 8) (world s)).
  destruct (meanwhile (rand_read 8) (world s)) as [[b|] d]; exact id.
Qed.

Lemma dash_approve t req : preserves (dash_inv t) (approve req).
Proof.
  intros s [Hr Hc]. unfold approve. apply wp_bind. unfold wp at 1, env.
  pose proof (dashboard_call t req (world s) Hr) as Hcall. change (Approve req (world s)) with (dashboard req (world s)).
  destruct (dashboard req (world s)) as [dec d]. destruct Hcall as (Hr' & Hk & c & _ & Hret).
  apply wp_bind, wp_modify, wp_ret. split; [done|]. cbn [trace world]. intros req' dec'.
  rewrite elem_of_app, list_elem_of_singleton. intros [Hin|[= -> ->]] Hd.
  - destruct (Hc _ _ Hin Hd) as (reason & E & H). exists reason. split; [done|]. by apply (Hk _ (consented_kept req' reason)).
  - destruct (approval_decided _ c req dec (reachable_inv t _ Hr') Hret Hd) as (k & reason & Hdec & ->).
    exists reason. split; [done|]. by exists k, c.
Qed.

Lemma dash_loop t msgs : preserves (dash_inv t) (loop msgs).
Proof.
  apply loop_preserves; [apply dash_emit|apply dash_approve|by intros f s H|apply dash_NewID|intros; apply dash_env..].
Qed.

(** C8.  End to end under the dashboard: in a session whose connection gates
    mutations, with the dashboard's broker as the approver and any other sessions,
    decisions and delays in between, each statement classified as a mutation that
    reaches the upstream was asked for right before, and an operator has consented
    to exactly this request: a call of Decide in the dashboard that named its
    identifier, said approved, and was accepted by the call of Approve that the
    session waited for. *)
Theorem dashboard_gate t p conn db client sf msgs (d : Dash W) :
  reachable t (d_sys d) -> gateMutations p = true ->
  let s := final (loop msgs (mkSt (established p conn db client sf) d [])) in
  forall i e sql, trace s !! i = Some e -> executes e = Some sql -> Classify sql = KindMutation ->
  exists j req reason, i = S j /\ trace s !! j = Some (EvApprove req (decision true reason))
    /\ req_Reason req = ReasonMutation /\ req_Query req = sql
    /\ consented (d_sys (world s)) req reason.
Proof.
  intros Hr Hg s i e sql Hi He Hk.
  assert (Hgate : gate_inv p s).
  { apply preserves_final; [by apply loop_gate|]. split_and!; [done| |apply gated_nil]. apply map_Forall_empty. }
  assert (Hd : dash_inv t s).
  { apply preserves_final; [apply dash_loop|]. split; [done|]. intros req dec H. by apply elem_of_nil in H. }
  destruct Hgate as (_ & _ & Hgated). destruct (Hgated i e sql Hi He Hk) as (j & a & -> & Hj & Ha).
  destruct a as [| |req dec| | |]; try done. destruct Ha as (Happ & Hreason & Hq).
  destruct (proj2 Hd req dec) as (reason & -> & Hc); [by eapply list_elem_of_lookup_2|done|].
  by exists j, req, reason.
Qed.
End Composed.

(** ** The theorem at a concrete session *)

Module DashboardWitnesses.

(** The second time the session waits, an operator approves its request. *)
#[local] Instance operator : Interference nat := fun w =>
  (if bool_decide (w = 1) then
     [LTick 5; LAllocate 1; LRegister 1; LTimer 1; LDecide 0 "req-0000000000000000" true "fine"; LLookup 0; LSend 0;
      LReceive 1; LLeave 1]
   else [], S w).
#[local] Instance zeros_n : Rand nat := fun n w => ((rand_read n tt).1, w).
#[local] Instance undisturbed_n : ReadBuffer nat := intact.
#[local] Instance users_n : Upstream nat := {|
  up_Exec sql w := ((up_Exec sql tt).1, w);
  up_ExecParams sql ps oids pf rf w := ((up_ExecParams sql ps oids pf rf tt).1, w);
  up_Prepare name sql oids w := ((up_Prepare name sql oids tt).1, w) |}.
#[local] Existing Instance dashboard.

Definition begin : St (Dash nat) :=
  mkSt (established users_policy "main" "db" "10.0.0.5:54321" "pgproxy_schema") (mkDash (initial 60) 0) [].
Definition deletes : list FrontendMessage := [Query "DELETE FROM users"; Query "DROP TABLE users"].

(** The first statement is approved, the second one times out. *)
Example deletes_trace : omap executes (trace (final (loop deletes begin))) = ["DELETE FROM users"].
Proof. vm_compute. reflexivity. Qed.

Lemma dashboard_gate_witness :
  exists req reason, trace (final (loop deletes begin)) !! 0 = Some (EvApprove req (decision true reason))
    /\ req_Query req = "DELETE FROM users" /\ consented (d_sys (world (final (loop deletes begin)))) req reason.
Proof.
  assert (H1 : trace (final (loop deletes begin)) !! 1 = Some (EvExec "DELETE FROM users")) by (vm_compute; reflexivity).
  destruct (dashboard_gate 60 users_policy "main" "db" "10.0.0.5:54321" "pgproxy_schema" deletes (mkDash (initial 60) 0)
    ltac:(by exists []) eq_refl 1 (EvExec "DELETE FROM users") "DELETE FROM users" H1 eq_refl)
    as (j & req & reason & Hj & Ht & _ & Hq & Hc); [vm_compute; reflexivity|].
  injection Hj as <-. exists req, reason. split_and!; [exact Ht|exact Hq|exact Hc].
Defined.
End DashboardWitnesses.
